(* ===== verification/_CoqProject ===== *)
-Q . S2P
Prelude.v
GoStd.v
Database.v
SandboxRepo.v
WorkerRepo.v
Program.v
Floats.v
Scheduler.v
Jobs.v
EventGRPC.v
Capacity.v
AppConfig.v
HTTP.v
Auth.v
Manager.v
Ownership.v
Recovery.v
Progress.v
FakeVMs.v
Solo.v
Heartbeat.v
WorkerGRPC.v
Host.v
Dm.v
ThinPool.v
Shim.v
ShimProtocol.v
Runtime.v
Vm.v
Reaping.v
Confinement.v
Machine.v
Outcomes.v
Lifecycle.v
Steps.v
Threads.v
Handlers.v
System.v
Scenario.v
Safety.v
Contracts.v
Fencing.v
Registration.v
Reconciliation.v
Cluster.v
Convergence.v
Wiring.v
Startup.v
Router.v
Smoke.v
