(* ===== verification/Prelude.v ===== *)
(** * fire2: a verification library for the sandbox orchestrator

    fire2 runs untrusted code in Firecracker microVMs.  An orchestrator keeps the
    sandboxes in Postgres and drives their lives with River jobs; workers, one per
    machine, host the VMs.  This library models both in Rocq, function by function, and
    proves what makes them correct.

    ** The program and its parts

    - The orchestrator (src/internal/packages/orchestrator, sandbox, worker/repository.go,
      auth, src/internal/app) answers an HTTP API, runs the create, cleanup, reap and
      orphan-removal jobs, and serves the gRPC calls of the workers: registration,
      heartbeats with the inventory of their sandboxes, state-change events.  Its state
      is the database; a fencing token per worker tells incarnations apart.
    - A worker (src/internal/packages/worker, sandboxmgr) heartbeats, answers the
      orchestrator's calls, and keeps a manager of sandboxes: a map under a mutex, an
      actor goroutine per sandbox, an audit that reaps what no one owns.
    - Below it, a VM lives under a shim process of its own (src/internal/packages/shim)
      that survives the worker, on a copy-on-write volume of a thin pool (thin), driven
      through files, sockets and signals (runtime, sandboxmgr/vm.go).

    ** Where each part is

    Language and libraries: Prelude (results, errors, gRPC codes), GoStd (strings,
    strconv, filepath, integers, time), Floats (binary64), Host (the operations of a
    machine, programs [kprog] over them and their logic), Program (programs [prog] of
    transactions and calls, their execution [run] and rely-guarantee logic [wp]).

    The orchestrator:
    - Database: tables, transactions, jobs handed to River;
    - SandboxRepo: sandbox/repository_postgres.go, repository_reconcile.go;
    - WorkerRepo: worker/repository.go, model.go, [HeartbeatExpired];
    - Scheduler: orchestrator/scheduler.go, the address of grpc_client.go;
    - Jobs: the five River workers and retry_policy.go;
    - EventGRPC: event_grpc.go, event_repository.go;  HTTP: http.go;
    - Auth: auth/ and auth_http.go;  AppConfig: app/config.go;
    - Lifecycle (the specification: state machine of a sandbox, invariant, guarantee of a
      transaction), Steps (every transaction keeps them), Threads and Handlers (every job
      and handler against any interference), System (the interleaving), Scenario (a
      concrete execution), then Safety, Contracts, Fencing, Reconciliation.

    A worker:
    - Capacity: the sizing of monitoring.go;  Heartbeat: heartbeat.go, monitoring.go,
      worker_service.go, event_reporter.go;  WorkerGRPC: grpc_client.go, sandbox.go;
    - Manager: sandboxmgr/manager.go, service.go, audit.go, state.go as programs [mprog];
      Ownership interleaves them, Recovery adds the start-up of a worker, Progress shows
      that every call can return;
    - FakeVMs: test/divergence/fakevms.go, the abstract sandbox manager, and the interface
      [SandboxManager] with its laws that the worker's servers rely on;  Solo: the real
      manager, called one operation at a time, implements it;
    - Startup: cmd/worker/main.go and ServeGRPC, main interleaved with the goroutines it
      starts;  Registration: a worker's heartbeat against the modelled orchestrator;
    - Dm, ThinPool: thin/dm.go, thin/pool.go;  Shim: shim/shim.go, client.go and Main;
      ShimProtocol: shim/server.go with its clients;  Runtime: runtime/;  Vm:
      sandboxmgr/vm.go, lock.go;  Reaping: what reaping may do to a host;  Smoke:
      cmd/firecracker-smoke;
    - Confinement: what each operation on a VM may change on the host;  Machine: manager,
      actors and VMs together, as sandboxmgr.New puts them, interleaved one host operation
      at a time;  Outcomes: what the answer of a command says of the host.

    The whole:
    - Cluster: the composition of test/divergence (orchestrator, database, machines with a
      network that can be cut) and its check [divergences];  Convergence: what makes the
      check empty, and keeps it so;
    - Wiring: app/orchestrator.go, cmd/api, cmd/devtoken, the direct calls of
      grpc_client.go;  Router: the routes of app.go and http.go.

    ** What is shown

    - Of every execution of the orchestrator, however its transactions interleave and
      fail (Safety): sandboxes follow the state machine (C1), terminal states are final
      (C3), no migration (C4), capacities hold (C5), claims never leak (C6), rows are
      consistent and each has its create job (C18), tokens are monotone (C19).
    - The purpose of the program (Convergence): once the workers are up, a round of
      heartbeats, reapers and jobs makes the database and the machines agree on every
      sandbox but those whose time is not up and those a stale removal names, and a later
      one on these too; only a sandbox whose cleanup job is gone stays claimed for ever
      (C2).  A round spares every sandbox that is well, but for a stale removal of its VM
      (C10).  Both are proved against the interface [SandboxManager], which the real
      manager implements (C15).
    - Contracts of the jobs and handlers against any interference: the create job (C11,
      C22, C24), the cleanup job (C12), the API (C16, C23).
    - The scheduler is sound in binary64 arithmetic (C27) and its capacity test exact
      (C28); slots fit the machine (C33); every job inserted has a worker that runs it
      (C26).
    - Fencing: a registration fences the previous incarnation (C29), the verdict on a
      heartbeat (C30), the worker's side of it (C35, C36).
    - Who is claimed by the reaper (C31) and by an inventory (C32), exactly.
    - Accounts and sessions: C34.
    - The worker process: order of its start, identity, exit codes (C17).  Its manager: one
      goroutine at a time on a sandbox's resources (C7), every call can return (C20), what
      its answers, code by code, mean to the orchestrator (C25).  With its VMs on the host: sandboxes are
      isolated from each other (C8), and the answer of a command is true of the host (C9).
    - The host: reaping is confined to the sandbox (C13), a base volume is never deleted
      (C21), a handle its worker did not close reports the true end of its VM (C14), tables
      and reports read back (C37, C38), polling loops and boots end (C39), the smoke test
      cannot pass (C40).

    ** Choices

    - A transaction is a function of the database; its faults are a failure before or
      after the commit.  Between two operations of a job or handler anything the other
      components can do may happen.  River is the environment: a job runs, any number of
      times, once it is enqueued; unique jobs and attempts are parameters of a run.
    - Goroutines of a worker interleave at every lock section, command, reply and
      operation on a VM; a panic or a shutdown may come at any point.  The vm interface
      answers anything in Manager; in Machine it is the implementation of Vm.  There a
      listing of the sandboxes on disk still answers anything, and [vm.Wait], which only
      waits, is the exit event of an actor.  In Solo, and so in the
      witnesses of Convergence, the VMs obey: a boot succeeds and a stop stops.  Between
      the host and the programs, every operation may be answered with anything, unless a
      theorem names a machine.
    - A round of Convergence starts from a [live] cluster: the invariant of Lifecycle holds,
      the workers are up, reachable and registered with the token of their row, and the
      pending jobs, which are any of those enqueued, hold no creation.  The mechanisms of a
      round run one after the other, each job once.
    - The end of a shim's process and the kernel's signal to its Firecracker are two steps;
      a worker may close a handle at any time.
    - Bounds: [assign_loop] has one turn more than candidates, which C22 proves enough;
      loops over bytes have the length as fuel; decimal numbers have 20 digits; the table
      request grows at most nine times, removal retries 25 times and a snapshot is tried
      16 times, as in the code; polling loops return [None] without fuel, and C39 and
      Smoke prove their rounds enough; [waitRunning] takes its fuel as an argument, over
      which C8 and C9 quantify.  C39 says that 601 + L rounds are enough, for the 600 ticks
      of 50 ms before the deadline of 30 s and the L times a select, whose choice among the
      ready cases is free, may take the ticker after the timer fired; the class [Timed]
      (Host) states this of a machine.
    - Integers are [Z] with [int32], [int64], [uint32] written out; the subtraction of
      [computeCapacity] is not cut, which differs only for a budget within the reserve of
      the least int64, and its caller gives none.  Times are nanoseconds;
      strings are bytes; a Go map lists in the order of the finite map; amd64.
    - Parameters: uuid.Parse, bcrypt, random tokens, the verb %q, the text of foreign
      errors, ParseFloat, ParseDuration, JSON strings, unix.Major and the like, chi's
      matching of a path, of which C16 assumes nothing, and its CORS middleware, of which
      C16 assumes that it answers OPTIONS requests only.  C8 assumes that a UUID has no
      slash, C25 that the errors of a sandbox's resources carry none of the manager's and
      no gRPC status.  The collation of Postgres is byte order.

    ** Not modelled

    The chi middlewares other than CORS (request ids, real IPs, logging, recovery), the
    headers CORS adds to the answers it passes on, and the construction of servers from
    a pool, JSON encoding of responses, logging, gRPC and HTTP transports, the generated
    protocol code: I/O and third-party code.  CopyFile and httputil: nothing calls them.
    The keep-alive command, which sleeps.  The harness of the tests around the cluster
    (Postgres, ports, polling, a canned gRPC server), Ansible, the web front end.

    Some statements are weaker than they could be: C20 gives a schedule that ends a call, it
    does not say that every fair one does; the mechanisms of a round in C2 and C10 run one
    after the other, where the orchestrator may interleave their jobs, and no creation runs
    meanwhile. *)

From Stdlib Require Import ZArith Lia Ascii.
From stdpp Require Import base tactics option list gmap strings numbers.

Open Scope Z_scope.

(** ** Results of fallible calls

    Go returns [(value, error)]; the code under study always uses the value only
    when the error is nil, so a call is a sum. *)
Inductive result (E A : Type) : Type :=
| Ok (a : A)
| Err (e : E).

Arguments Ok {E A} a.
Arguments Err {E A} e.

(** ** gRPC status codes (google.golang.org/grpc/codes) *)
Inductive code : Type :=
| OK | Canceled | Unknown | InvalidArgument | DeadlineExceeded | NotFound
| AlreadyExists | PermissionDenied | ResourceExhausted | FailedPrecondition
| Aborted | OutOfRange | Unimplemented | Internal | Unavailable | DataLoss
| Unauthenticated.

#[export] Instance code_eq_dec : EqDecision code.
Proof. solve_decision. Defined.

(** ** Errors

    The sentinel errors of the packages ([errors.New] at package level, compared
    by identity through [errors.Is]). *)
Inductive sentinel : Type :=
| Sandbox_ErrNotFound
| Sandbox_ErrWorkerFull
| Worker_ErrNotFound
| Worker_ErrFenced
| Worker_ErrWorkerUnknown
| Orchestrator_ErrNoWorkerCandidates
| Orchestrator_ErrClusterFull
| Orchestrator_ErrEventFenced
| Worker_ErrSandboxTooLarge
| Worker_ErrHeartbeatRefused
| Runtime_ErrInvalidSandboxID
| Sandboxmgr_ErrSandboxNotFound
| Sandboxmgr_ErrBusy
| Sandboxmgr_ErrAtCapacity
| Sandboxmgr_errServiceExited
| Sandboxmgr_ErrBaseDirLocked
| Shim_ErrShimGone
| Auth_ErrNotFound
| Auth_ErrEmailTaken
| Auth_ErrInvalidCreds
| Auth_ErrSessionExpired.

#[export] Instance sentinel_eq_dec : EqDecision sentinel.
Proof. solve_decision. Defined.

(** A Go [error] value: a sentinel, a fresh error, a [fmt.Errorf("pre%w", e)] or
    [fmt.Errorf("%wsuf", e)] wrapping, a gRPC status, an error of the database
    driver, or a [river.JobCancel]. *)
Inductive error : Type :=
| Sentinel (s : sentinel)
| NewError (msg : string)
| Wrap (pre : string) (e : error)
| WrapSuf (e : error) (suf : string)
| StatusError (c : code) (msg : string)
| DriverError (msg : string)
| JobCancel (e : error).

#[export] Instance error_eq_dec : EqDecision error.
Proof. solve_decision. Defined.

(** [errors.Is(err, sentinel)]: walks the [Unwrap] chain. *)
Fixpoint errors_Is (e : error) (s : sentinel) : bool :=
  match e with
  | Sentinel s' => bool_decide (s' = s)
  | Wrap _ e' | WrapSuf e' _ | JobCancel e' => errors_Is e' s
  | NewError _ | StatusError _ _ | DriverError _ => false
  end.

(** [status.Code(err)] of a non-nil error: the code of the status found along the
    chain, [Unknown] if there is none. *)
Fixpoint status_Code (e : error) : code :=
  match e with
  | StatusError c _ => c
  | Wrap _ e' | WrapSuf e' _ | JobCancel e' => status_Code e'
  | Sentinel _ | NewError _ | DriverError _ => Unknown
  end.

(** The text of a sentinel. *)
Definition sentinel_text (s : sentinel) : string :=
  match s with
  | Sandbox_ErrNotFound => "sandbox not found"
  | Sandbox_ErrWorkerFull => "worker has no capacity left"
  | Worker_ErrNotFound => "worker not found"
  | Worker_ErrFenced => "worker fencing token is no longer current"
  | Worker_ErrWorkerUnknown => "worker is unknown to the database"
  | Orchestrator_ErrNoWorkerCandidates => "no worker candidates available"
  | Orchestrator_ErrClusterFull => "no worker capacity available"
  | Orchestrator_ErrEventFenced =>
      "sandbox event rejected: worker unknown or fencing token stale"
  | Worker_ErrSandboxTooLarge => "sandbox is larger than a worker slot"
  | Worker_ErrHeartbeatRefused => "orchestrator refuses this worker's heartbeats"
  | Runtime_ErrInvalidSandboxID => "invalid sandbox id"
  | Sandboxmgr_ErrSandboxNotFound => "sandbox not found on worker"
  | Sandboxmgr_ErrBusy => "sandbox is being removed"
  | Sandboxmgr_ErrAtCapacity => "worker at full capacity"
  | Sandboxmgr_errServiceExited => "sandbox service exited"
  | Sandboxmgr_ErrBaseDirLocked => "sandbox base dir is locked by another worker"
  | Shim_ErrShimGone => "no live shim"
  | Auth_ErrNotFound => "auth: not found"
  | Auth_ErrEmailTaken => "auth: email already registered"
  | Auth_ErrInvalidCreds => "auth: invalid email or password"
  | Auth_ErrSessionExpired => "auth: session expired"
  end.

(** [err.Error()]; [third] is the text of the errors of other packages (a gRPC
    status, a driver error, a job cancellation), given their content. *)
Fixpoint Error (third : error -> string -> string) (e : error) : string :=
  match e with
  | Sentinel s => sentinel_text s
  | NewError m => m
  | Wrap pre e' => pre +:+ Error third e'
  | WrapSuf e' suf => Error third e' +:+ suf
  | StatusError _ m | DriverError m => third e m
  | JobCancel e' => third e (Error third e')
  end.
