(* ===== verification/GoStd.v ===== *)
(** * What the program uses of Go and of its standard library

    Machine integers, [time.Time]/[time.Duration], byte strings ([strings],
    [strconv], [net.SplitHostPort]).  Go strings are byte sequences, as Rocq
    strings are: [string] is used for both.

    - [time.Time] is an integer number of nanoseconds since the Unix epoch;
      [time.Duration] is an integer number of nanoseconds.
    - [TrimSpace] trims every Unicode white space, recognised by its UTF-8
      encoding; [ToLower] maps the ASCII letters and the only two other runes
      whose lower case is ASCII, so that comparing its result with an ASCII
      literal is exact. *)

From Stdlib Require Import ZArith Lia Ascii.
From stdpp Require Import base tactics option list strings numbers.
From S2P Require Import Prelude.

Open Scope Z_scope.

(** ** Integers *)

Definition min_int32 : Z := -2147483648.
Definition max_int32 : Z := 2147483647.
Definition min_int64 : Z := -9223372036854775808.
Definition max_int64 : Z := 9223372036854775807.

(** Conversions to a signed type keep the low bits. *)
Definition wrap_signed (w : Z) (z : Z) : Z :=
  (z + 2 ^ (w - 1)) mod 2 ^ w - 2 ^ (w - 1).

Definition int32 (z : Z) : Z := wrap_signed 32 z.
Definition int64 (z : Z) : Z := wrap_signed 64 z.
Definition uint32 (z : Z) : Z := z mod 2 ^ 32.
Definition uint64 (z : Z) : Z := z mod 2 ^ 64.

(** ** Time *)

Definition Nanosecond : Z := 1.
Definition Microsecond : Z := 1000.
Definition Millisecond : Z := 1000000.
Definition Second : Z := 1000000000.
Definition Minute : Z := 60 * Second.
Definition Hour : Z := 60 * Minute.

(** The zero [time.Time]: January 1, year 1. *)
Definition zero_time : Z := -62135596800 * Second.

Definition IsZero (t : Z) : bool := t =? zero_time.

(** [t.Sub(u)]: the difference, saturated at the ends of [int64]. *)
Definition time_Sub (t u : Z) : Z := Z.max min_int64 (Z.min max_int64 (t - u)).

(** ** Byte strings *)

Abbreviation bytes := (list ascii).

Definition to_bytes (s : string) : bytes := String.list_ascii_of_string s.
Definition of_bytes (b : bytes) : string := String.string_of_list_ascii b.

Definition byte (n : nat) : ascii := ascii_of_nat n.

(** The UTF-8 encodings of the runes [unicode.IsSpace] accepts. *)
Definition space_encodings : list (list nat) :=
  [[9]; [10]; [11]; [12]; [13]; [32];
   [194; 133]; [194; 160]; [225; 154; 128];
   [226; 128; 128]; [226; 128; 129]; [226; 128; 130]; [226; 128; 131];
   [226; 128; 132]; [226; 128; 133]; [226; 128; 134]; [226; 128; 135];
   [226; 128; 136]; [226; 128; 137]; [226; 128; 138];
   [226; 128; 168]; [226; 128; 169]; [226; 128; 175]; [226; 129; 159];
   [227; 128; 128]]%nat.

Definition spaces : list bytes := map (map byte) space_encodings.

(** The rest of [b] after the prefix [p], if [b] starts with [p]. *)
Fixpoint strip_prefix (p b : bytes) : option bytes :=
  match p, b with
  | [], _ => Some b
  | x :: p', y :: b' => if Ascii.eqb x y then strip_prefix p' b' else None
  | _ :: _, [] => None
  end.

Fixpoint strip_one (ps : list bytes) (b : bytes) : option bytes :=
  match ps with
  | [] => None
  | p :: ps' =>
      match strip_prefix p b with
      | Some rest => Some rest
      | None => strip_one ps' b
      end
  end.

(** Drops elements of [ps] from the front while one matches; [fuel] is the length
    of the string, each round drops at least one byte. *)
Fixpoint trim_front (ps : list bytes) (fuel : nat) (b : bytes) : bytes :=
  match fuel with
  | O => b
  | S n =>
      match strip_one ps b with
      | Some rest => trim_front ps n rest
      | None => b
      end
  end.

Definition trim_left (ps : list bytes) (b : bytes) : bytes := trim_front ps (length b) b.

(** [strings.TrimSpace]. *)
Definition TrimSpace_bytes (b : bytes) : bytes :=
  rev (trim_left (map (@rev ascii) spaces) (rev (trim_left spaces b))).

Definition TrimSpace (s : string) : string := of_bytes (TrimSpace_bytes (to_bytes s)).

Definition lower_byte (c : ascii) : ascii :=
  let n := nat_of_ascii c in
  if (Nat.leb 65 n && Nat.leb n 90)%bool then byte (n + 32) else c.

(** [strings.ToLower]; U+0130 lowers to i and U+212A to k. *)
Fixpoint ToLower_bytes (b : bytes) : bytes :=
  match b with
  | [] => []
  | c :: rest =>
      let other := lower_byte c :: ToLower_bytes rest in
      match rest with
      | c2 :: rest2 =>
          if (Ascii.eqb c (byte 196) && Ascii.eqb c2 (byte 176))%bool
          then byte 105 :: ToLower_bytes rest2
          else match rest2 with
               | c3 :: rest3 =>
                   if (Ascii.eqb c (byte 226) && Ascii.eqb c2 (byte 132)
                         && Ascii.eqb c3 (byte 170))%bool
                   then byte 107 :: ToLower_bytes rest3
                   else other
               | [] => other
               end
      | [] => other
      end
  end.

Definition ToLower (s : string) : string := of_bytes (ToLower_bytes (to_bytes s)).

(** [strings.HasPrefix], [strings.TrimPrefix], [strings.CutPrefix]. *)
Definition CutPrefix (s p : string) : option string :=
  of_bytes <$> strip_prefix (to_bytes p) (to_bytes s).
Definition HasPrefix (s p : string) : bool :=
  match CutPrefix s p with Some _ => true | None => false end.
Definition TrimPrefix (s p : string) : string := default s (CutPrefix s p).

(** [strings.Contains]. *)
Fixpoint contains_bytes (b p : bytes) : bool :=
  match strip_prefix p b with
  | Some _ => true
  | None => match b with [] => false | _ :: b' => contains_bytes b' p end
  end.
Definition Contains (s p : string) : bool := contains_bytes (to_bytes s) (to_bytes p).

(** Position of the first and last occurrence of a byte. *)
Fixpoint index_byte (c : ascii) (b : bytes) : option nat :=
  match b with
  | [] => None
  | x :: b' => if Ascii.eqb x c then Some O else S <$> index_byte c b'
  end.
Definition last_index_byte (c : ascii) (b : bytes) : option nat :=
  (fun i => (length b - 1 - i)%nat) <$> index_byte c (rev b).

Definition mem_byte (c : ascii) (b : bytes) : bool :=
  match index_byte c b with Some _ => true | None => false end.

Definition colon : ascii := byte 58.
Definition lbracket : ascii := byte 91.
Definition rbracket : ascii := byte 93.

(** Whether [net.SplitHostPort] accepts an address. *)
Definition SplitHostPort_ok (s : string) : bool :=
  let b := to_bytes s in
  match last_index_byte colon b with
  | None => false
  | Some i =>
      match b with
      | [] => false
      | c :: _ =>
          if Ascii.eqb c lbracket
          then match index_byte rbracket b with
               | None => false
               | Some e =>
                   Nat.eqb (S e) i
                   && negb (mem_byte lbracket (drop 1 b))
                   && negb (mem_byte rbracket (drop (S e) b))
               end
          else negb (mem_byte colon (take i b))
               && negb (mem_byte lbracket b)
               && negb (mem_byte rbracket b)
      end
  end.

(** [net.JoinHostPort]. *)
Definition JoinHostPort (host port : string) : string :=
  if mem_byte colon (to_bytes host)
  then ("[" ++ host ++ "]:" ++ port)%string
  else (host ++ ":" ++ port)%string.

(** ** Decimal numbers *)

Definition digit_byte (d : Z) : ascii := byte (Z.to_nat (48 + d)).

(** The digits of [n] below 10^fuel, most significant first. *)
Fixpoint digits (fuel : nat) (n : Z) : bytes :=
  match fuel with
  | O => []
  | S f => if n <? 10 then [digit_byte n] else digits f (n / 10) ++ [digit_byte (n mod 10)]
  end.

(** Enough for every 64-bit integer. *)
Definition digits_fuel : nat := 20.

(** [strconv.Itoa] / [%d]. *)
Definition Itoa_bytes (n : Z) : bytes :=
  if n <? 0 then byte 45 :: digits digits_fuel (- n) else digits digits_fuel n.
Definition Itoa (n : Z) : string := of_bytes (Itoa_bytes n).

(** [d.String()] of a whole number of seconds: [h]h[m]m[s]s without leading zero units; the
    longest duration is not a whole number of seconds. *)
Definition Duration_String (d : Z) : string :=
  let s := d / Second in
  let h := s / 3600 in
  let m := s / 60 mod 60 in
  if d =? max_int64 then "2562047h47m16.854775807s"%string
  else (if 0 <? h then Itoa h +:+ "h" else EmptyString)
         +:+ (if (0 <? h) || (0 <? m) then Itoa m +:+ "m" else EmptyString)
         +:+ Itoa (s mod 60) +:+ "s".

Definition digit_value (c : ascii) : option Z :=
  let n := Z.of_nat (nat_of_ascii c) in
  if (48 <=? n) && (n <=? 57) then Some (n - 48) else None.

Fixpoint parse_digits (b : bytes) (acc : Z) : option Z :=
  match b with
  | [] => Some acc
  | c :: b' => match digit_value c with
               | Some d => parse_digits b' (acc * 10 + d)
               | None => None
               end
  end.

(** [strconv.ParseUint(s, 10, bits)]: digits only, in range. *)
Definition ParseUint (s : string) (bits : Z) : option Z :=
  match to_bytes s with
  | [] => None
  | b => match parse_digits b 0 with
         | Some n => if n <? 2 ^ bits then Some n else None
         | None => None
         end
  end.

(** [strconv.Atoi]: an optional sign, then digits, in the range of [int]. *)
Definition Atoi (s : string) : option Z :=
  let check (neg : bool) (b : bytes) :=
    match b with
    | [] => None
    | _ => match parse_digits b 0 with
           | Some n => let v := if neg then - n else n in
                       if (min_int64 <=? v) && (v <=? max_int64) then Some v else None
           | None => None
           end
    end in
  match to_bytes s with
  | c :: b => if Ascii.eqb c (byte 45) then check true b
              else if Ascii.eqb c (byte 43) then check false b
              else check false (c :: b)
  | [] => None
  end.

(** ** Strings: strings.Fields, strings.Split, strings.TrimSuffix *)

(** The fields of a string, [cur] the bytes of the current one reversed; [fuel] is the
    length, each round drops at least one byte. *)
Fixpoint fields_from (fuel : nat) (cur : bytes) (b : bytes) : list bytes :=
  let close rest := match cur with [] => rest | _ => rev cur :: rest end in
  match fuel with
  | O => close []
  | S n =>
      match b with
      | [] => close []
      | c :: b' =>
          match strip_one spaces b with
          | Some rest => close (fields_from n [] rest)
          | None => fields_from n (c :: cur) b'
          end
      end
  end.

Definition Fields (s : string) : list string :=
  of_bytes <$> fields_from (S (length (to_bytes s))) [] (to_bytes s).

(** [strings.Split(s, sep)] for a one-byte separator. *)
Fixpoint split_bytes (sep : ascii) (cur : bytes) (b : bytes) : list bytes :=
  match b with
  | [] => [rev cur]
  | c :: b' => if Ascii.eqb c sep then rev cur :: split_bytes sep [] b'
               else split_bytes sep (c :: cur) b'
  end.

Definition Split (s : string) (sep : ascii) : list string :=
  of_bytes <$> split_bytes sep [] (to_bytes s).

Definition TrimSuffix (s suf : string) : string :=
  match strip_prefix (rev (to_bytes suf)) (rev (to_bytes s)) with
  | Some r => of_bytes (rev r)
  | None => s
  end.

(** ** path/filepath *)

Definition slash : ascii := byte 47.

(** The components that [filepath.Clean] keeps, last one first. *)
Fixpoint clean_components (rooted : bool) (stack : list string) (l : list string) : list string :=
  match l with
  | [] => stack
  | c :: rest =>
      if bool_decide (c = EmptyString) || bool_decide (c = "."%string)
      then clean_components rooted stack rest
      else if bool_decide (c = ".."%string)
      then match stack with
           | top :: below => if bool_decide (top = ".."%string)
                             then clean_components rooted (c :: stack) rest
                             else clean_components rooted below rest
           | [] => if rooted then clean_components rooted [] rest
                   else clean_components rooted [c] rest
           end
      else clean_components rooted (c :: stack) rest
  end.

Fixpoint join_with (sep : string) (l : list string) : string :=
  match l with
  | [] => EmptyString
  | [x] => x
  | x :: rest => x +:+ sep +:+ join_with sep rest
  end.

Definition Clean (path : string) : string :=
  let rooted := HasPrefix path "/" in
  let comps := rev (clean_components rooted [] (Split path slash)) in
  if rooted then "/" +:+ join_with "/" comps
  else match comps with [] => "."%string | _ => join_with "/" comps end.

(** [filepath.Join] of two elements: empty ones are skipped. *)
Definition Join (a b : string) : string :=
  if bool_decide (a = EmptyString)
  then if bool_decide (b = EmptyString) then EmptyString else Clean b
  else Clean (a +:+ "/" +:+ b).

(** [filepath.Base]. *)
Definition trim_slashes (s : string) : string := of_bytes (rev (trim_left [[slash]] (rev (to_bytes s)))).

Definition Base (path : string) : string :=
  if bool_decide (path = EmptyString) then "."%string
  else let p := trim_slashes path in
       let last := match rev (Split p slash) with l :: _ => l | [] => EmptyString end in
       if bool_decide (last = EmptyString) then "/"%string else last.

(** ** Lemmas *)

Lemma int64_id z : min_int64 <= z <= max_int64 -> int64 z = z.
Proof. unfold min_int64, max_int64, int64, wrap_signed. intros H. cbn. rewrite Z.mod_small; lia. Qed.

Lemma to_bytes_app s t : to_bytes (s +:+ t) = to_bytes s ++ to_bytes t.
Proof. unfold to_bytes. induction s as [|c s IH]; [done|]. simpl. by rewrite IH. Qed.

Lemma of_to_bytes s : of_bytes (to_bytes s) = s.
Proof. apply String.string_of_list_ascii_of_string. Qed.

Lemma to_of_bytes b : to_bytes (of_bytes b) = b.
Proof. apply String.list_ascii_of_string_of_list_ascii. Qed.

Lemma strip_prefix_Some p b r : strip_prefix p b = Some r <-> b = p ++ r.
Proof.
  revert b. induction p as [|x p IH]; intros b; simpl.
  - split; [by intros [= ->]|by intros ->].
  - destruct b as [|y b]; [split; [done|by intros [= ]]|].
    destruct (Ascii.eqb_spec x y) as [->|N].
    + rewrite IH. split; [by intros ->|by intros [= ->]].
    + split; [done|]. intros [= ]. congruence.
Qed.

Lemma contains_bytes_true b p : contains_bytes b p = true <-> exists l r, b = l ++ p ++ r.
Proof.
  induction b as [|c b IH]; simpl.
  - destruct (strip_prefix p []) as [r|] eqn:E.
    + apply strip_prefix_Some in E. split; [|done]. intros _. by exists [], r.
    + split; [done|]. intros (l & r & H). by destruct l, p.
  - destruct (strip_prefix p (c :: b)) as [r|] eqn:E.
    + apply strip_prefix_Some in E. split; [|done]. intros _. by exists [], r.
    + rewrite IH. split.
      * intros (l & r & ->). by exists (c :: l), r.
      * intros ([|c' l] & r & H); [|injection H as -> ->; eauto].
        by rewrite (proj2 (strip_prefix_Some p (c :: b) r) H) in E.
Qed.

Lemma Contains_trans s t u : Contains s t = true -> Contains t u = true -> Contains s u = true.
Proof.
  unfold Contains. rewrite !contains_bytes_true. intros (l & r & ->) (l' & r' & ->).
  exists (l ++ l'), (r' ++ r). by rewrite <- !app_assoc.
Qed.

Lemma Contains_app_r s t : Contains (s +:+ t) t = true.
Proof. unfold Contains. rewrite contains_bytes_true, to_bytes_app. exists (to_bytes s), []. by rewrite app_nil_r. Qed.

Lemma TrimPrefix_app p s : HasPrefix (p +:+ s) p = true /\ TrimPrefix (p +:+ s) p = s.
Proof.
  assert (CutPrefix (p +:+ s) p = Some s) as E.
  { unfold CutPrefix. rewrite to_bytes_app, (proj2 (strip_prefix_Some _ _ (to_bytes s))) by done.
    simpl. by rewrite of_to_bytes. }
  unfold HasPrefix, TrimPrefix. by rewrite E.
Qed.

Lemma parse_digits_app a b acc :
  parse_digits (a ++ b) acc = parse_digits a acc ≫= parse_digits b.
Proof.
  revert acc. induction a as [|c a IH]; intros acc; [done|]. cbn.
  destruct (digit_value c); [apply IH|done].
Qed.

Lemma digit_value_byte d : 0 <= d < 10 -> digit_value (digit_byte d) = Some d.
Proof.
  intros H. unfold digit_value, digit_byte, byte. rewrite nat_ascii_embedding by lia.
  rewrite Z2Nat.id by lia. replace (_ && _) with true; [f_equal; lia|].
  symmetry. apply andb_true_intro. split; apply Z.leb_le; lia.
Qed.

Lemma digits_parse f n : 0 <= n < 10 ^ Z.of_nat f -> parse_digits (digits f n) 0 = Some n.
Proof.
  revert n. induction f as [|f IH]; intros n Hn; [cbn in *; f_equal; lia|]. cbn [digits].
  destruct (Z.ltb_spec n 10) as [Hlt|Hge].
  - cbn. rewrite digit_value_byte by lia. done.
  - rewrite parse_digits_app, IH.
    + cbn. rewrite digit_value_byte by (apply Z.mod_pos_bound; lia). f_equal.
      pose proof (Z.div_mod n 10). lia.
    + split; [apply Z.div_pos; lia|]. apply Z.div_lt_upper_bound; [lia|].
      rewrite <- Z.pow_succ_r by lia. replace (Z.succ (Z.of_nat f)) with (Z.of_nat (S f)) by lia. lia.
Qed.

(** Numbers print and parse back. *)
Lemma ParseUint_Itoa n bits : 0 <= n < 2 ^ bits -> n < 10 ^ 20 -> ParseUint (Itoa n) bits = Some n.
Proof.
  intros Hn H20. unfold ParseUint, Itoa, Itoa_bytes. rewrite to_of_bytes.
  destruct (Z.ltb_spec n 0); [lia|].
  pose proof (digits_parse digits_fuel n) as Hp. change (Z.of_nat digits_fuel) with 20 in Hp.
  destruct (digits digits_fuel n) as [|c l] eqn:E.
  - exfalso. revert E. unfold digits_fuel. cbn [digits]. destruct (n <? 10); [done|]. by intros [_ [=]]%app_eq_nil.
  - rewrite Hp by lia. by destruct (Z.ltb_spec n (2 ^ bits)); [|lia].
Qed.

Lemma Itoa_inj a b : 0 <= a < 2 ^ 32 -> 0 <= b < 2 ^ 32 -> Itoa a = Itoa b -> a = b.
Proof.
  intros Ha Hb E. pose proof (ParseUint_Itoa a 32 Ha) as Pa. pose proof (ParseUint_Itoa b 32 Hb) as Pb.
  rewrite E, Pb in Pa by lia. by injection (Pa ltac:(lia)).
Qed.

Lemma parse_digits_nonneg b acc n : 0 <= acc -> parse_digits b acc = Some n -> 0 <= n.
Proof.
  revert acc. induction b as [|c b IH]; intros acc Ha; cbn; [intros [= <-]; lia|].
  destruct (digit_value c) as [d|] eqn:E; [|done]. apply IH. unfold digit_value in E.
  destruct (_ && _) eqn:Hc; [|done]. apply andb_prop in Hc as [?%Z.leb_le _]. injection E as <-. lia.
Qed.

Lemma ParseUint_range s bits n : ParseUint s bits = Some n -> 0 <= n < 2 ^ bits.
Proof.
  unfold ParseUint. destruct (to_bytes s) as [|c b]; [done|].
  destruct (parse_digits (c :: b) 0) as [m|] eqn:E; [|done].
  destruct (Z.ltb_spec m (2 ^ bits)); [|done]. intros [= <-].
  pose proof (parse_digits_nonneg _ 0 _ ltac:(lia) E). lia.
Qed.

(** ** Spaces around text *)

(** A printable ASCII byte other than the space. *)
Definition graphic (c : ascii) : bool :=
  (33 <=? nat_of_ascii c)%nat && (nat_of_ascii c <=? 126)%nat.

(** A pattern that no text starting with a printable byte begins with. *)
Definition blank_first (p : bytes) : bool :=
  match p with x :: _ => negb (graphic x) | [] => false end.

Lemma strip_one_blank ps c b :
  forallb blank_first ps = true -> graphic c = true -> strip_one ps (c :: b) = None.
Proof.
  intros Hps Hc. induction ps as [|p ps IH]; [done|].
  cbn in Hps. apply andb_prop in Hps as [Hp Hps]. cbn [strip_one].
  destruct p as [|x p]; [done|]. cbn in Hp |- *.
  destruct (Ascii.eqb_spec x c) as [->|_]; [by rewrite Hc in Hp|]. by apply IH.
Qed.

Lemma strip_spaces_graphic c b : graphic c = true -> strip_one spaces (c :: b) = None.
Proof. exact (strip_one_blank spaces c b (eq_refl true <: forallb blank_first spaces = true)). Qed.

Lemma strip_rev_spaces_graphic c b :
  graphic c = true -> strip_one (map (@rev ascii) spaces) (c :: b) = None.
Proof.
  exact (strip_one_blank (map (@rev ascii) spaces) c b
           (eq_refl true <: forallb blank_first (map (@rev ascii) spaces) = true)).
Qed.

Lemma trim_left_none ps b : strip_one ps b = None -> trim_left ps b = b.
Proof. unfold trim_left. intros H. destruct (length b); cbn; [done|]. by rewrite H. Qed.

(** Text between two printable bytes. *)
Definition solid (b : bytes) : Prop :=
  exists c l d r, b = c :: l /\ rev b = d :: r /\ graphic c = true /\ graphic d = true.

Lemma solid_app_left c l : graphic c = true -> forall m d, graphic d = true -> solid (c :: l ++ m ++ [d]).
Proof.
  intros Hc m d Hd. exists c, (l ++ m ++ [d]), d, (rev (c :: l ++ m)). split; [done|].
  split; [|done]. rewrite app_assoc, app_comm_cons, rev_app_distr. done.
Qed.

Lemma trim_left_step ps p b :
  strip_one ps (p :: b) = Some b -> trim_left ps (p :: b) = trim_left ps b.
Proof. unfold trim_left. intros H. cbn [length trim_front]. by rewrite H. Qed.

Lemma trim_left_solid b c l : b = c :: l -> graphic c = true -> trim_left spaces b = b.
Proof. intros -> Hc. exact (trim_left_none spaces (c :: l) (strip_spaces_graphic c l Hc)). Qed.

Lemma trim_right_solid b d r :
  rev b = d :: r -> graphic d = true -> rev (trim_left (map (@rev ascii) spaces) (rev b)) = b.
Proof.
  intros Hr Hd. rewrite <- (rev_involutive b) at 2. f_equal. rewrite Hr.
  exact (trim_left_none (map (@rev ascii) spaces) (d :: r) (strip_rev_spaces_graphic d r Hd)).
Qed.

Lemma TrimSpace_solid b : solid b -> TrimSpace_bytes b = b.
Proof.
  intros (c & l & d & r & Hb & Hr & Hc & Hd). unfold TrimSpace_bytes.
  rewrite (trim_left_solid b c l Hb Hc). exact (trim_right_solid b d r Hr Hd).
Qed.

(** A leading space and a trailing newline are dropped. *)
Lemma TrimSpace_space b : solid b -> TrimSpace_bytes (byte 32 :: b) = b.
Proof.
  intros H. rewrite <- (TrimSpace_solid b H) at 2. unfold TrimSpace_bytes.
  rewrite (trim_left_step spaces (byte 32) b); [reflexivity|].
  vm_compute. reflexivity.
Qed.

Lemma TrimSpace_newline b : solid b -> TrimSpace_bytes (b ++ [byte 10]) = b.
Proof.
  intros (c & l & d & r & Hb & Hr & Hc & Hd). unfold TrimSpace_bytes.
  rewrite (trim_left_solid (b ++ [byte 10]) c (l ++ [byte 10])) by (rewrite ?Hb; done).
  rewrite rev_app_distr. change (rev [byte 10] ++ rev b) with (byte 10 :: rev b).
  rewrite (trim_left_step (map (@rev ascii) spaces) (byte 10) (rev b)) by (vm_compute; reflexivity).
  exact (trim_right_solid b d r Hr Hd).
Qed.

(** ** Signed numbers print and parse back *)

Lemma digit_byte_graphic d : 0 <= d < 10 -> graphic (digit_byte d) = true.
Proof.
  intros H. unfold graphic, digit_byte, byte. rewrite nat_ascii_embedding by lia.
  apply andb_true_intro. split; apply Nat.leb_le; lia.
Qed.

Lemma digits_shape f n :
  0 <= n -> exists c l d r, digits (S f) n = c :: l /\ rev (digits (S f) n) = d :: r
                            /\ graphic c = true /\ graphic d = true.
Proof.
  revert n. induction f as [|f IH]; intros n Hn.
  - cbn. destruct (Z.ltb_spec n 10).
    + do 4 eexists. split; [done|]. split; [done|]. split; apply digit_byte_graphic; lia.
    + do 4 eexists. split; [done|]. split; [done|].
      split; apply digit_byte_graphic, Z.mod_pos_bound; lia.
  - remember (S f) as g eqn:Eg. cbn. destruct (Z.ltb_spec n 10).
    + do 4 eexists. split; [done|]. split; [done|]. split; apply digit_byte_graphic; lia.
    + subst g. destruct (IH (n / 10)) as (c & l & d & r & H1 & H2 & Hc & _); [apply Z.div_pos; lia|].
      rewrite H1. rewrite <- app_comm_cons. do 4 eexists. split; [done|].
      split; [rewrite app_comm_cons, rev_app_distr; done|]. split; [done|].
      apply digit_byte_graphic, Z.mod_pos_bound. lia.
Qed.

Lemma Itoa_solid n : solid (to_bytes (Itoa n)).
Proof.
  unfold Itoa, Itoa_bytes. rewrite to_of_bytes. destruct (Z.ltb_spec n 0).
  - destruct (digits_shape 19 (- n)) as (c & l & d & r & H1 & H2 & Hc & Hd); [lia|].
    unfold digits_fuel. exists (byte 45), (c :: l), d, (r ++ [byte 45]).
    rewrite <- H1. split; [done|]. split; [|done]. cbn [rev]. by rewrite H2.
  - destruct (digits_shape 19 n) as (c & l & d & r & H1 & H2 & Hc & Hd); [lia|].
    unfold digits_fuel. exists c, l, d, r. done.
Qed.

Lemma Atoi_Itoa n : min_int64 <= n <= max_int64 -> Atoi (Itoa n) = Some n.
Proof.
  intros Hn. unfold Atoi, Itoa, Itoa_bytes. rewrite to_of_bytes. unfold min_int64, max_int64 in Hn.
  destruct (Z.ltb_spec n 0).
  - change (Ascii.eqb (byte 45) (byte 45)) with true. cbn iota.
    pose proof (digits_parse digits_fuel (- n)) as Hp. change (10 ^ Z.of_nat digits_fuel) with 100000000000000000000 in Hp.
    destruct (digits_shape 19 (- n)) as (c & l & _ & _ & E & _); [lia|]. change 20%nat with digits_fuel in E.
    unfold digits_fuel in *. rewrite E in *. rewrite Hp by lia. rewrite Z.opp_involutive.
    unfold min_int64, max_int64. by rewrite (proj2 (Z.leb_le _ _)), (proj2 (Z.leb_le _ _)) by lia.
  - pose proof (digits_parse digits_fuel n) as Hp. change (10 ^ Z.of_nat digits_fuel) with 100000000000000000000 in Hp.
    destruct (digits_shape 19 n) as (c & l & _ & _ & E & _); [lia|].
    unfold digits_fuel in *. rewrite E in *. assert (exists d, digit_value c = Some d) as [d Hd].
    { specialize (Hp ltac:(lia)). cbn in Hp. destruct (digit_value c); [by eexists|done]. }
    destruct (Ascii.eqb_spec c (byte 45)) as [->|_]; [discriminate Hd|].
    destruct (Ascii.eqb_spec c (byte 43)) as [->|_]; [discriminate Hd|]. rewrite Hp by lia.
    unfold min_int64, max_int64. by rewrite (proj2 (Z.leb_le _ _)), (proj2 (Z.leb_le _ _)) by lia.
Qed.

Lemma Atoi_range s n : Atoi s = Some n -> min_int64 <= n <= max_int64.
Proof.
  unfold Atoi. intros H. repeat case_match; try done; simplify_eq;
    match goal with E : (_ && _) = true |- _ => apply andb_prop in E as [?%Z.leb_le ?%Z.leb_le] end; lia.
Qed.
