(* ===== verification/Database.v ===== *)
(** * The database: rows, tables and transactions

    The rows of the Postgres schema (internal/db/migrations) with the Go structs
    that carry them: [sandbox.Sandbox], [worker.Worker], [orchestrator.SandboxEvent],
    [auth.User], [auth.Session], and the jobs handed to River's [InsertTx].

    A statement or a transaction is a [tx]: a function of the transaction's
    environment (its [now()], the rows other transactions hold locked) and of the
    database, returning a Go-style result and the new database.  A [tx] that returns
    an error is rolled back.  [exec_tx] adds the faults of the connection: a failure
    reported before the effects were applied, or after (a commit whose
    acknowledgement was lost). *)

From Stdlib Require Import ZArith Lia.
From stdpp Require Import base tactics option list gmap strings numbers.
From S2P Require Import Prelude GoStd.

Open Scope Z_scope.

(** ** Sandboxes *)

(** [sandbox.Status]: a Go string with nine named values; [StatusOther] is any
    other text. *)
Inductive Status : Type :=
| StatusPending
| StatusScheduling
| StatusAssigned
| StatusStarting
| StatusRunning
| StatusStopped
| StatusFailed
| StatusCleanupPending
| StatusCleanedUp
| StatusOther (s : string).

#[export] Instance Status_eq_dec : EqDecision Status.
Proof. solve_decision. Defined.

(** [string(status)]. *)
Definition Status_string (s : Status) : string :=
  match s with
  | StatusPending => "pending"
  | StatusScheduling => "scheduling"
  | StatusAssigned => "assigned"
  | StatusStarting => "starting"
  | StatusRunning => "running"
  | StatusStopped => "stopped"
  | StatusFailed => "failed"
  | StatusCleanupPending => "cleanup_pending"
  | StatusCleanedUp => "cleaned_up"
  | StatusOther s => s
  end.

Definition named_statuses : list Status :=
  [StatusPending; StatusScheduling; StatusAssigned; StatusStarting; StatusRunning;
   StatusStopped; StatusFailed; StatusCleanupPending; StatusCleanedUp].

(** [sandbox.Status(text)]. *)
Definition Status_of_string (t : string) : Status :=
  match list_find (fun s => Status_string s = t) named_statuses with
  | Some (_, s) => s
  | None => StatusOther t
  end.

(** [sandbox.Sandbox]. *)
Record Sandbox : Type := mkSandbox {
  sb_ID : string;
  sb_Runtime : string;
  sb_Status : Status;
  sb_TTL : Z;
  sb_CreatedAt : Z;
  sb_Port : Z;
  sb_PreviewURL : string;
  sb_Image : string;
  sb_WorkerID : option string;
  sb_VcpuCount : Z;
  sb_MemSizeMib : Z;
  sb_UserID : option string;
}.

(** [Sandbox{}]. *)
Definition zero_Sandbox : Sandbox :=
  mkSandbox EmptyString EmptyString (StatusOther EmptyString) 0 zero_time 0
    EmptyString EmptyString None 0 0 None.

Definition with_status (st : Status) (s : Sandbox) : Sandbox :=
  mkSandbox (sb_ID s) (sb_Runtime s) st (sb_TTL s) (sb_CreatedAt s) (sb_Port s)
    (sb_PreviewURL s) (sb_Image s) (sb_WorkerID s) (sb_VcpuCount s) (sb_MemSizeMib s)
    (sb_UserID s).

Definition with_worker (w : option string) (s : Sandbox) : Sandbox :=
  mkSandbox (sb_ID s) (sb_Runtime s) (sb_Status s) (sb_TTL s) (sb_CreatedAt s)
    (sb_Port s) (sb_PreviewURL s) (sb_Image s) w (sb_VcpuCount s) (sb_MemSizeMib s)
    (sb_UserID s).

(** A row of [sandboxes]: the struct's columns and [last_seen_at]. *)
Record sandbox_row : Type := mkRow {
  row_sandbox : Sandbox;
  row_last_seen_at : option Z;
}.

Definition row_status (r : sandbox_row) : Status := sb_Status (row_sandbox r).
Definition row_worker (r : sandbox_row) : option string := sb_WorkerID (row_sandbox r).

Definition row_set_status (st : Status) (r : sandbox_row) : sandbox_row :=
  mkRow (with_status st (row_sandbox r)) (row_last_seen_at r).
Definition row_set_worker (w : option string) (r : sandbox_row) : sandbox_row :=
  mkRow (with_worker w (row_sandbox r)) (row_last_seen_at r).
Definition row_set_seen (t : option Z) (r : sandbox_row) : sandbox_row :=
  mkRow (row_sandbox r) t.

(** [COALESCE(last_seen_at, created_at)]. *)
Definition row_seen (r : sandbox_row) : Z :=
  default (sb_CreatedAt (row_sandbox r)) (row_last_seen_at r).

(** ** Workers *)

(** [worker.WorkerStatus] is a Go string. *)
Definition WorkerStatusActive : string := "active".
Definition WorkerStatusInactive : string := "inactive".

(** [worker.Worker]. *)
Record Worker : Type := mkWorker {
  wk_ID : string;
  wk_Address : string;
  wk_Port : Z;
  wk_Status : string;
  wk_Cpu_budget : Z;
  wk_Mem_budget : Z;
  wk_Capacity : Z;
  wk_FencingToken : Z;
  wk_Last_heartbeat : Z;
  wk_running_sandboxes : Z;
  wk_cpu_usage : Z;
  wk_mem_usage : Z;
}.

(** A row of [worker]; [NULL] is [None]. *)
Record worker_row : Type := mkWorkerRow {
  wr_status : string;
  wr_address : string;
  wr_capacity : Z;
  wr_port : option Z;
  wr_cpu_budget : Z;
  wr_mem_budget : Z;
  wr_cpu_usage : Z;
  wr_mem_usage : Z;
  wr_last_heartbeat : Z;
  wr_fencing_token : Z;
  wr_inventory_token : Z;
  wr_registered_at : Z;
  wr_inactive_since : option Z;
}.

(** ** Events, users, sessions *)

(** A row of [sandbox_events]. *)
Record event_row : Type := mkEventRow {
  ev_sandbox_id : string;
  ev_worker_id : string;
  ev_state : string;
  ev_occurred_at : Z;
}.

(** [auth.User] and [auth.Session]. *)
Record User : Type := mkUser {
  u_ID : string;
  u_Email : string;
  u_PasswordHash : string;
  u_CreatedAt : Z;
}.

Record Session : Type := mkSession {
  se_Token : string;
  se_UserID : string;
  se_CreatedAt : Z;
  se_ExpiresAt : option Z;
}.

(** ** Jobs *)

(** The arguments of the three kinds of jobs the program enqueues. *)
Record CreateSandboxArgs : Type := { cr_SandboxID : string }.
Record CleanupSandboxArgs : Type := { cl_SandboxID : string; cl_TargetStatus : string }.
Record RemoveOrphanArgs : Type := { ro_WorkerID : string; ro_SandboxID : string }.

#[export] Instance CreateSandboxArgs_eq_dec : EqDecision CreateSandboxArgs.
Proof. solve_decision. Defined.
#[export] Instance CleanupSandboxArgs_eq_dec : EqDecision CleanupSandboxArgs.
Proof. solve_decision. Defined.
#[export] Instance RemoveOrphanArgs_eq_dec : EqDecision RemoveOrphanArgs.
Proof. solve_decision. Defined.

Inductive JobArgs : Type :=
| JobCreate (a : CreateSandboxArgs)
| JobCleanup (a : CleanupSandboxArgs)
| JobRemoveOrphan (a : RemoveOrphanArgs).

#[export] Instance JobArgs_eq_dec : EqDecision JobArgs.
Proof. solve_decision. Defined.

(** The job states of River (rivertype.JobState). *)
Inductive JobState : Type :=
| JobStateAvailable | JobStateCancelled | JobStateCompleted | JobStateDiscarded
| JobStatePending | JobStateRetryable | JobStateRunning | JobStateScheduled.

#[export] Instance JobState_eq_dec : EqDecision JobState.
Proof. solve_decision. Defined.

(** One insertion request: the arguments, the queue, and the states of the
    same-argument jobs it is deduplicated against ([UniqueOpts]), if any. *)
Record JobInsert : Type := mkJobInsert {
  ji_args : JobArgs;
  ji_queue : string;
  ji_unique : option (list JobState);
}.

#[export] Instance JobInsert_eq_dec : EqDecision JobInsert.
Proof. solve_decision. Defined.

(** [river.QueueDefault]. *)
Definition QueueDefault : string := "default".

(** ** The database *)
Record DB : Type := mkDB {
  sandboxes : gmap string sandbox_row;
  workers : gmap string worker_row;
  sandbox_events : gmap string event_row;
  users : gmap string User;
  sessions : gmap string Session;
  (** Every job committed through [InsertTx]/[InsertManyTx], oldest first. *)
  jobs : list JobInsert;
}.

Definition set_sandboxes (m : gmap string sandbox_row) (db : DB) : DB :=
  mkDB m (workers db) (sandbox_events db) (users db) (sessions db) (jobs db).
Definition set_workers (m : gmap string worker_row) (db : DB) : DB :=
  mkDB (sandboxes db) m (sandbox_events db) (users db) (sessions db) (jobs db).
Definition set_events (m : gmap string event_row) (db : DB) : DB :=
  mkDB (sandboxes db) (workers db) m (users db) (sessions db) (jobs db).
Definition set_users (m : gmap string User) (db : DB) : DB :=
  mkDB (sandboxes db) (workers db) (sandbox_events db) m (sessions db) (jobs db).
Definition set_sessions (m : gmap string Session) (db : DB) : DB :=
  mkDB (sandboxes db) (workers db) (sandbox_events db) (users db) m (jobs db).
Definition add_jobs (l : list JobInsert) (db : DB) : DB :=
  mkDB (sandboxes db) (workers db) (sandbox_events db) (users db) (sessions db)
    (jobs db ++ l).

Definition empty_DB : DB := mkDB ∅ ∅ ∅ ∅ ∅ [].

(** ** Transactions *)
Record txenv : Type := mkEnv {
  tx_now : Z;
  tx_locked : gset string;
}.

Definition tx (X : Type) : Type := txenv -> DB -> result error X * DB.

Definition tx_ret {X} (x : X) : tx X := fun _ db => (Ok x, db).
Definition tx_err {X} (e : error) : tx X := fun _ db => (Err e, db).
Definition tx_bind {X Y} (m : tx X) (k : X -> tx Y) : tx Y :=
  fun env db => match m env db with
                | (Ok x, db') => k x env db'
                | (Err e, db') => (Err e, db')
                end.

(** What can go wrong with the connection while a transaction runs. *)
Inductive fault : Type :=
| NoFault
| FailBefore (msg : string)
| FailAfter (msg : string).

(** One transaction as its caller sees it. *)
Definition exec_tx {X} (env : txenv) (fl : fault) (f : tx X) (db : DB) : result error X * DB :=
  match fl with
  | FailBefore m => (Err (DriverError m), db)
  | NoFault =>
      match f env db with
      | (Ok x, db') => (Ok x, db')
      | (Err e, _) => (Err e, db)
      end
  | FailAfter m =>
      match f env db with
      | (Ok _, db') => (Err (DriverError m), db')
      | (Err e, _) => (Err e, db)
      end
  end.

(** River's [InsertTx] / [InsertManyTx] on the caller's transaction. *)
Definition InsertManyTx (l : list JobInsert) : tx unit :=
  fun _ db => (Ok tt, add_jobs l db).
Definition InsertTx (a : JobInsert) : tx unit := InsertManyTx [a].

(** [UPDATE sandboxes ... RETURNING id]: applies [f] to the rows satisfying [P] and
    returns their ids, in an order the statement does not specify. *)
Definition update_rows (P : string -> sandbox_row -> bool) (f : sandbox_row -> sandbox_row)
    (m : gmap string sandbox_row) : gmap string sandbox_row :=
  map_imap (fun id r => Some (if P id r then f r else r)) m.

Definition matching_ids (P : string -> sandbox_row -> bool) (m : gmap string sandbox_row)
    : list string :=
  (map_to_list (filter (fun kv => P kv.1 kv.2 = true) m)).*1.

Definition update_returning (P : string -> sandbox_row -> bool)
    (f : sandbox_row -> sandbox_row) : tx (list string) :=
  fun _ db => (Ok (matching_ids P (sandboxes db)),
               set_sandboxes (update_rows P f (sandboxes db)) db).

Declare Scope tx_scope.
Delimit Scope tx_scope with tx.
Bind Scope tx_scope with tx.

Notation "x <-tx m ;; k" := (tx_bind m (fun x => k))
  (at level 100, m at next level, right associativity) : tx_scope.
Notation "m ;;tx k" := (tx_bind m (fun _ => k))
  (at level 100, right associativity) : tx_scope.

(** ** Lemmas *)

Lemma Status_of_string_string (s : Status) :
  s ∈ named_statuses -> Status_of_string (Status_string s) = s.
Proof.
  intros Hs. repeat (apply elem_of_cons in Hs as [->|Hs]; [reflexivity|]).
  by apply not_elem_of_nil in Hs.
Qed.

Lemma lookup_update_rows P f m id :
  update_rows P f m !! id = (fun r => if P id r then f r else r) <$> m !! id.
Proof. unfold update_rows. rewrite map_lookup_imap. by destruct (m !! id). Qed.

Lemma elem_of_matching_ids P m id :
  id ∈ matching_ids P m <-> exists r, m !! id = Some r /\ P id r = true.
Proof.
  unfold matching_ids. rewrite list_elem_of_fmap. split.
  - intros ([k r] & -> & Hin). apply elem_of_map_to_list in Hin.
    apply map_lookup_filter_Some in Hin as [? ?]. by exists r.
  - intros (r & Hr & HP). exists (id, r). split; [done|].
    apply elem_of_map_to_list, map_lookup_filter_Some. by split.
Qed.

Lemma NoDup_matching_ids P m : NoDup (matching_ids P m).
Proof. apply NoDup_fst_map_to_list. Qed.

(** A failed transaction left the database unchanged, unless its commit was applied
    without being acknowledged. *)
Lemma exec_tx_cases {X} env fl (f : tx X) db r db' :
  exec_tx env fl f db = (r, db') ->
  (exists e, r = Err e /\ db' = db)
  \/ (exists x, f env db = (Ok x, db') /\ (r = Ok x \/ exists m, r = Err (DriverError m))).
Proof.
  unfold exec_tx. destruct fl; intros H.
  - destruct (f env db) as [[x|e] db1]; simplify_eq; eauto 10.
  - simplify_eq; eauto.
  - destruct (f env db) as [[x|e] db1]; simplify_eq; eauto 10.
Qed.

(** A sequence that succeeds is two statements that succeed. *)
Lemma tx_bind_Ok {X Y} (m : tx X) (k : X -> tx Y) env db y db' :
  tx_bind m k env db = (Ok y, db') ->
  exists x d, m env db = (Ok x, d) /\ k x env d = (Ok y, db').
Proof. unfold tx_bind. destruct (m env db) as [[x|e] d]; [eauto|done]. Qed.
