(* ===== verification/SandboxRepo.v ===== *)
(** * sandbox.PostgresRepository

    One definition per method of internal/packages/sandbox/repository_postgres.go and
    repository_reconcile.go, each the SQL of the method on the tables of [Database]. *)

From Stdlib Require Import ZArith Lia.
From stdpp Require Import base tactics option list gmap strings numbers sorting.
From S2P Require Import Prelude GoStd Database.

Open Scope Z_scope.

(** ** repository_postgres.go *)

(** [INSERT INTO sandboxes ... RETURNING]: the primary key and the two foreign keys
    ([worker_id], [user_id]) are checked; [last_seen_at] is [NULL]. *)
Definition Create (s : Sandbox) : tx Sandbox :=
  fun _ db =>
    let fk {V} (m : gmap string V) (k : option string) : bool :=
      match k with None => true | Some k => bool_decide (is_Some (m !! k)) end in
    match sandboxes db !! sb_ID s with
    | Some _ => (Err (DriverError "duplicate key value violates unique constraint"), db)
    | None =>
        if fk (workers db) (sb_WorkerID s) && fk (users db) (sb_UserID s)
        then (Ok s, set_sandboxes (<[sb_ID s := mkRow s None]> (sandboxes db)) db)
        else (Err (DriverError "insert violates foreign key constraint"), db)
    end.

Definition GetByID (id : string) : tx Sandbox :=
  fun _ db => match sandboxes db !! id with
              | Some r => (Ok (row_sandbox r), db)
              | None => (Err (Sentinel Sandbox_ErrNotFound), db)
              end.

(** [ORDER BY created_at DESC]. *)
Definition newest_first (a b : Sandbox) : Prop := sb_CreatedAt b <= sb_CreatedAt a.

#[export] Instance newest_first_dec : RelDecision newest_first.
Proof. intros a b. unfold newest_first. apply _. Defined.

Definition queryList (P : sandbox_row -> bool) : tx (list Sandbox) :=
  fun _ db =>
    (Ok (merge_sort newest_first
           (row_sandbox <$> filter (fun r => P r = true) (map_to_list (sandboxes db)).*2)), db).

Definition List_ : tx (list Sandbox) := queryList (fun _ => true).

Definition ListByUserID (userID : string) : tx (list Sandbox) :=
  queryList (fun r => bool_decide (sb_UserID (row_sandbox r) = Some userID)).

Definition status_in (st : Status) (l : list Status) : bool := bool_decide (st ∈ l).

(** The returned pair is [(updated sandbox, rowsAffected)]. *)
Definition UpdateStatus (id : string) (status : Status) (allowedFrom : list Status)
    : tx (Sandbox * Z) :=
  fun _ db =>
    match allowedFrom with
    | [] => (Err (NewError "UpdateStatus: at least one allowedFrom status required"), db)
    | _ :: _ =>
        match sandboxes db !! id with
        | Some r =>
            if status_in (row_status r) allowedFrom
            then let r' := row_set_status status r in
                 (Ok (row_sandbox r', 1), set_sandboxes (<[id := r']> (sandboxes db)) db)
            else (Ok (zero_Sandbox, 0), db)
        | None => (Ok (zero_Sandbox, 0), db)
        end
    end.

(** The statuses in which a sandbox holds a slot of its worker. *)
Definition holding_statuses : list Status :=
  [StatusAssigned; StatusStarting; StatusRunning; StatusCleanupPending].

Definition holds_slot (w : string) (r : sandbox_row) : bool :=
  bool_decide (row_worker r = Some w) && status_in (row_status r) holding_statuses.

(** [SELECT count( * ) FROM sandboxes WHERE worker_id = w AND status IN (...)]. *)
Definition occupancy (db : DB) (w : string) : Z :=
  Z.of_nat (size (filter (fun kv : string * sandbox_row => holds_slot w kv.2 = true) (sandboxes db))).

(** The worker row is locked for the whole transaction ([FOR UPDATE]), so the
    count and the update see the same assignments. *)
Definition AssignWorker (id workerID : string) : tx Sandbox :=
  fun env db =>
    match workers db !! workerID with
    | None => (Err (NewError ("assign worker: worker " +:+ workerID +:+ " not found")), db)
    | Some w =>
        match sandboxes db !! id with
        | None => (Err (Sentinel Sandbox_ErrNotFound), db)
        | Some r =>
            if bool_decide (row_status r = StatusScheduling)
               && (occupancy db workerID <? wr_capacity w)
            then let r' := row_set_seen (Some (tx_now env))
                             (row_set_status StatusAssigned
                                (row_set_worker (Some workerID) r)) in
                 (Ok (row_sandbox r'), set_sandboxes (<[id := r']> (sandboxes db)) db)
            else if bool_decide (row_status r = StatusScheduling)
                 then (Err (Sentinel Sandbox_ErrWorkerFull), db)
                 else (Ok zero_Sandbox, db)
        end
    end.

Definition ClearWorker (id : string) : tx unit :=
  fun _ db =>
    match sandboxes db !! id with
    | Some r =>
        if bool_decide (row_status r = StatusCleanupPending)
        then (Ok tt, set_sandboxes (<[id := row_set_worker None r]> (sandboxes db)) db)
        else (Ok tt, db)
    | None => (Ok tt, db)
    end.

Definition Delete (id : string) : tx unit :=
  fun _ db => (Ok tt, set_sandboxes (delete id (sandboxes db)) db).

(** ** repository_reconcile.go *)

Record Inventory : Type := mkInventory {
  inv_Live : list string;
  inv_Running : list string;
  inv_Unknown : list string;
  inv_Dead : list string;
}.

Definition IDs (inv : Inventory) : list string :=
  inv_Live inv ++ inv_Running inv ++ inv_Unknown inv ++ inv_Dead inv.

Record ReconcileResult : Type := mkReconcile {
  rr_Orphans : list string;
  rr_Lost : list string;
  rr_Dead : list string;
}.

(** Returns [RowsAffected]. *)
Definition UpdateStatusFenced (id workerID : string) (token : Z) (status : Status)
    (allowedFrom : list Status) : tx Z :=
  fun _ db =>
    match allowedFrom with
    | [] => (Err (NewError "UpdateStatusFenced: at least one allowedFrom status required"), db)
    | _ :: _ =>
        match sandboxes db !! id, workers db !! workerID with
        | Some r, Some w =>
            if bool_decide (row_worker r = Some workerID)
               && (wr_fencing_token w =? token)
               && status_in (row_status r) allowedFrom
            then (Ok 1, set_sandboxes (<[id := row_set_status status r]> (sandboxes db)) db)
            else (Ok 0, db)
        | _, _ => (Ok 0, db)
        end
    end.

(** [claimToCleanupPrefix] ... [claimToCleanupSuffix]: rows locked by another
    transaction are skipped. *)
Definition claimToCleanup (P : txenv -> DB -> sandbox_row -> bool) : tx (list string) :=
  fun env db =>
    update_returning
      (fun id r => bool_decide (id ∉ tx_locked env) && P env db r)
      (row_set_status StatusCleanupPending) env db.

Definition unfinished_statuses : list Status :=
  [StatusPending; StatusScheduling; StatusAssigned; StatusStarting; StatusRunning].
Definition active_statuses : list Status :=
  [StatusAssigned; StatusStarting; StatusRunning].

(** [LEAST(GREATEST(ttl, 0), 3153600000)] seconds. *)
Definition ttl_interval (ttl : Z) : Z := Z.min (Z.max ttl 0) 3153600000 * Second.

Definition ttl_expired (env : txenv) (r : sandbox_row) : bool :=
  status_in (row_status r) unfinished_statuses
  && (sb_CreatedAt (row_sandbox r) + ttl_interval (sb_TTL (row_sandbox r)) <=? tx_now env).

Definition ClaimTTLExpired : tx (list string) :=
  claimToCleanup (fun env _ r => ttl_expired env r).

(** The worker heartbeats without listing the sandbox, or has been inactive for too
    long. *)
Definition liveness_expired (livenessTimeout workerLostTimeout : Z) (env : txenv) (db : DB)
    (r : sandbox_row) : bool :=
  match row_worker r with
  | None => false
  | Some wid =>
      match workers db !! wid with
      | None => false
      | Some w =>
          status_in (row_status r) active_statuses
          && ((Z.max (row_seen r) (wr_registered_at w) + livenessTimeout <? wr_last_heartbeat w)
              || (bool_decide (wr_status w = WorkerStatusInactive)
                  && match wr_inactive_since w with
                     | Some t => t <? tx_now env - workerLostTimeout
                     | None => false
                     end))
      end
  end.

Definition ClaimLivenessExpired (livenessTimeout workerLostTimeout : Z) : tx (list string) :=
  fun env db =>
    if workerLostTimeout <=? 0
    then (Err (NewError "ClaimLivenessExpired: workerLostTimeout must be positive"), db)
    else claimToCleanup (liveness_expired livenessTimeout workerLostTimeout) env db.

Definition creation_stalled (timeout : Z) (env : txenv) (r : sandbox_row) : bool :=
  status_in (row_status r) [StatusPending; StatusScheduling]
  && (sb_CreatedAt (row_sandbox r) <? tx_now env - timeout).

Definition ClaimStalledCreation (timeout : Z) : tx (list string) :=
  fun env db =>
    if timeout <=? 0
    then (Err (NewError "ClaimStalledCreation: timeout must be positive"), db)
    else claimToCleanup (fun env _ r => creation_stalled timeout env r) env db.

(** The statements of [ReconcileInventory]. *)
Definition hosted_in (workerID : string) (ids : list string) (sts : list Status)
    (id : string) (r : sandbox_row) : bool :=
  bool_decide (row_worker r = Some workerID) && bool_decide (id ∈ ids)
  && status_in (row_status r) sts.

Definition reconcile_lost (workerID : string) (ids : list string) : tx (list string) :=
  fun env db =>
    update_returning
      (fun id r =>
         match workers db !! workerID with
         | None => false
         | Some w =>
             bool_decide (row_worker r = Some workerID)
             && status_in (row_status r) active_statuses
             && negb (bool_decide (id ∈ ids))
             && (row_seen r <? wr_registered_at w)
         end)
      (row_set_status StatusCleanupPending) env db.

Definition reconcile_seen (workerID : string) (fresh : list string) : tx (list string) :=
  fun env db =>
    update_returning (hosted_in workerID fresh active_statuses)
      (row_set_seen (Some (tx_now env))) env db.

Definition reconcile_running (workerID : string) (running : list string) : tx (list string) :=
  update_returning (hosted_in workerID running [StatusStarting]) (row_set_status StatusRunning).

Definition reconcile_dead (workerID : string) (dead : list string) : tx (list string) :=
  update_returning (hosted_in workerID dead active_statuses)
    (row_set_status StatusCleanupPending).

(** A listed sandbox is an orphan unless it is a live row of this worker. *)
Definition terminal_statuses : list Status :=
  [StatusFailed; StatusStopped; StatusCleanedUp].

Definition attributed (db : DB) (workerID id : string) : bool :=
  match sandboxes db !! id with
  | Some r => bool_decide (row_worker r = Some workerID)
              && negb (status_in (row_status r) terminal_statuses)
  | None => false
  end.

Definition reconcile_orphans (workerID : string) (ids : list string) : tx (list string) :=
  fun _ db => (Ok (filter (fun x => attributed db workerID x = false) ids), db).

(** A statement run only when its id list is not empty. *)
Definition when_some {X} (l : list string) (m : tx (list X)) : tx (list X) :=
  match l with [] => tx_ret [] | _ :: _ => m end.

Definition ReconcileInventory (workerID : string) (firstInventory : bool) (inv : Inventory)
    : tx ReconcileResult :=
  let ids := IDs inv in
  (lost <-tx (if firstInventory then reconcile_lost workerID ids else tx_ret []) ;;
   match ids with
   | [] => tx_ret (mkReconcile [] lost [])
   | _ :: _ =>
       let fresh := inv_Live inv ++ inv_Running inv in
       _ <-tx when_some fresh (reconcile_seen workerID fresh) ;;
       _ <-tx when_some (inv_Running inv) (reconcile_running workerID (inv_Running inv)) ;;
       dead <-tx when_some (inv_Dead inv) (reconcile_dead workerID (inv_Dead inv)) ;;
       orphans <-tx reconcile_orphans workerID ids ;;
       tx_ret (mkReconcile orphans lost dead)
   end)%tx.
