(* ===== verification/WorkerRepo.v ===== *)
(** * worker.PostgresRepository and the heartbeat clock

    internal/packages/worker/repository.go: the worker rows and their fencing tokens;
    the worker constructor of model.go and [HeartbeatExpired] of heartbeat.go, which
    the scheduler applies to the rows. *)

From Stdlib Require Import ZArith Lia.
From stdpp Require Import base tactics option list gmap strings numbers sorting.
From S2P Require Import Prelude GoStd Database.

Open Scope Z_scope.

(** ** heartbeat.go *)

Definition defaultHeartbeatTimeout : Z := 15 * Second.

Definition HeartbeatExpired (now lastHeartbeat timeout : Z) : bool :=
  let timeout := if timeout <=? 0 then defaultHeartbeatTimeout else timeout in
  if IsZero lastHeartbeat then true else timeout <? time_Sub now lastHeartbeat.

(** ** model.go *)
Record HeartbeatParams : Type := mkHeartbeatParams {
  hp_ID : string;
  hp_Status : string;
  hp_Address : string;
  hp_Port : Z;
  hp_Capacity : Z;
  hp_CpuBudget : Z;
  hp_MemBudget : Z;
  hp_CpuUsage : Z;
  hp_MemUsage : Z;
  hp_FencingToken : Z;
}.

Definition NewWorkerFromHeartbeat (now : Z) (p : HeartbeatParams) : Worker :=
  mkWorker (hp_ID p) (hp_Address p) (hp_Port p) (hp_Status p) (hp_CpuBudget p)
    (hp_MemBudget p) (hp_Capacity p) (hp_FencingToken p) now 0 (hp_CpuUsage p)
    (hp_MemUsage p).

(** ** repository.go *)

Definition nullablePort (port : Z) : option Z := if port <=? 0 then None else Some port.

(** A row read back into the struct; [running_sandboxes] has no column. *)
Definition scanWorker (id : string) (r : worker_row) : Worker :=
  mkWorker id (wr_address r) (default 0 (wr_port r)) (wr_status r) (wr_cpu_budget r)
    (wr_mem_budget r) (wr_capacity r) (wr_fencing_token r) (wr_last_heartbeat r) 0
    (wr_cpu_usage r) (wr_mem_usage r).

(** The columns a heartbeat writes, the others given. *)
Definition heartbeat_row (w : Worker) (last_heartbeat token inventory_token registered_at : Z)
    (inactive_since : option Z) : worker_row :=
  mkWorkerRow (wk_Status w) (wk_Address w) (wk_Capacity w) (nullablePort (wk_Port w))
    (wk_Cpu_budget w) (wk_Mem_budget w) (wk_cpu_usage w) (wk_mem_usage w)
    last_heartbeat token inventory_token registered_at inactive_since.

(** [INSERT INTO worker]; the token must satisfy the column's [CHECK]. *)
Definition Create (goNow : Z) (w : Worker) : tx Worker :=
  fun env db =>
    let hb := if IsZero (wk_Last_heartbeat w) then goNow else wk_Last_heartbeat w in
    match workers db !! wk_ID w with
    | Some _ => (Err (DriverError "duplicate key value violates unique constraint"), db)
    | None =>
        if wk_FencingToken w <? 0
        then (Err (DriverError "insert violates check constraint"), db)
        else let r := heartbeat_row w hb (wk_FencingToken w) 0 (tx_now env) None in
             (Ok (scanWorker (wk_ID w) r), set_workers (<[wk_ID w := r]> (workers db)) db)
    end.

(** [GREATEST(a, b) + 1] in [bigint] arithmetic. *)
Definition next_token (a b : Z) : option Z :=
  let t := Z.max a b + 1 in if t <=? max_int64 then Some t else None.

Definition Register (w : Worker) : tx Worker :=
  fun env db =>
    let cur := workers db !! wk_ID w in
    let token := next_token (match cur with Some r => wr_fencing_token r | None => 0 end)
                   (wk_FencingToken w) in
    match token with
    | None => (Err (DriverError "bigint out of range"), db)
    | Some token =>
        let inventory := match cur with Some r => wr_inventory_token r | None => 0 end in
        let r := heartbeat_row w (tx_now env) token inventory (tx_now env) None in
        (Ok (scanWorker (wk_ID w) r), set_workers (<[wk_ID w := r]> (workers db)) db)
    end.

(** True when the row was updated: the first inventory of the incarnation. *)
Definition ClaimInventory (id : string) (token : Z) : tx bool :=
  fun _ db =>
    match workers db !! id with
    | Some r =>
        if (wr_fencing_token r =? token) && negb (wr_inventory_token r =? token)
        then (Ok true,
              set_workers (<[id := mkWorkerRow (wr_status r) (wr_address r) (wr_capacity r)
                (wr_port r) (wr_cpu_budget r) (wr_mem_budget r) (wr_cpu_usage r)
                (wr_mem_usage r) (wr_last_heartbeat r) (wr_fencing_token r) token
                (wr_registered_at r) (wr_inactive_since r)]> (workers db)) db)
        else (Ok false, db)
    | None => (Ok false, db)
    end.

Definition Get (id : string) : tx Worker :=
  fun _ db => match workers db !! id with
              | Some r => (Ok (scanWorker id r), db)
              | None => (Err (Sentinel Worker_ErrNotFound), db)
              end.

Definition whyRefused (db : DB) (id : string) (presented : Z) : error :=
  match workers db !! id with
  | None => Sentinel Worker_ErrWorkerUnknown
  | Some r => if wr_fencing_token r <? presented
              then Sentinel Worker_ErrWorkerUnknown
              else Sentinel Worker_ErrFenced
  end.

Definition Update (w : Worker) : tx Worker :=
  fun env db =>
    match workers db !! wk_ID w with
    | Some r =>
        if wr_fencing_token r =? wk_FencingToken w
        then let r' := heartbeat_row w (tx_now env) (wr_fencing_token r)
                         (wr_inventory_token r) (wr_registered_at r) None in
             (Ok (scanWorker (wk_ID w) r'), set_workers (<[wk_ID w := r']> (workers db)) db)
        else (Err (whyRefused db (wk_ID w) (wk_FencingToken w)), db)
    | None => (Err (whyRefused db (wk_ID w) (wk_FencingToken w)), db)
    end.

(** A worker row turned inactive at [now]. *)
Definition row_inactive (now : Z) (r : worker_row) : worker_row :=
  mkWorkerRow WorkerStatusInactive (wr_address r) (wr_capacity r) (wr_port r)
    (wr_cpu_budget r) (wr_mem_budget r) (wr_cpu_usage r) (wr_mem_usage r)
    (wr_last_heartbeat r) (wr_fencing_token r) (wr_inventory_token r)
    (wr_registered_at r) (Some now).

Definition is_stale (now timeout : Z) (r : worker_row) : bool :=
  bool_decide (wr_status r = WorkerStatusActive)
  && (wr_last_heartbeat r <? now - timeout).

(** Returns [RowsAffected]. *)
Definition MarkStaleInactive (timeout : Z) : tx Z :=
  fun env db =>
    let timeout := if timeout <=? 0 then defaultHeartbeatTimeout else timeout in
    let stale := is_stale (tx_now env) timeout in
    (Ok (Z.of_nat (size (filter (fun kv : string * worker_row => stale kv.2 = true) (workers db)))),
     set_workers ((fun r => if stale r then row_inactive (tx_now env) r else r) <$> workers db) db).

(** [ORDER BY id]: the collation is the database's, abstracted as byte order. *)
Definition by_id (a b : string * worker_row) : Prop := String.leb a.1 b.1 = true.

#[export] Instance by_id_dec : RelDecision by_id.
Proof. intros a b. unfold by_id. apply _. Defined.

Definition list_where (P : worker_row -> bool) : tx (list Worker) :=
  fun _ db =>
    (Ok ((fun kv => scanWorker kv.1 kv.2) <$>
           merge_sort by_id (map_to_list (filter (fun kv => P kv.2 = true) (workers db)))), db).

Definition List_ : tx (list Worker) := list_where (fun _ => true).

Definition ListActive : tx (list Worker) :=
  list_where (fun r => bool_decide (wr_status r = WorkerStatusActive)).
