(* ===== verification/Program.v ===== *)
(** * Programs: jobs and handlers as sequences of transactions and calls

    A job or a handler of the orchestrator is a [prog]: it runs transactions, calls
    workers, draws random numbers and reads the clock, one at a time.  Anything may
    happen to the database between two of these operations.

    - [run] executes a program against scripted faults and answers, so that
      concrete scenarios evaluate;
    - [wp] is a rely-guarantee weakest precondition: other components may change the
      database between two operations, within the relation [R], and every
      transaction of the program must itself stay within [G] and keep [Inv];
    - [pool_step] interleaves any number of programs, spawned while the system runs;
      [pool_sound] turns [wp] proofs of the components into invariants of every
      reachable state. *)

From Stdlib Require Import ZArith Lia SpecFloat.
From stdpp Require Import base tactics option list gmap strings numbers relations.
From S2P Require Import Prelude GoStd Database.

Open Scope Z_scope.

(** ** Calls to a worker (proto/worker/v1) *)

Record GetWorkerInfoResponse : Type := mkInfo {
  wi_Id : string;
  wi_Address : string;
  wi_Status : string;
  wi_CpuBudget : Z;
  wi_MemBudget : Z;
  wi_Capacity : Z;
  wi_CpuUsage : Z;
  wi_MemUsage : Z;
  wi_LastHeartbeat : Z;
}.

Record CreateSandboxRequest : Type := mkCreateRequest {
  rq_Id : string;
  rq_Runtime : string;
  rq_Image : string;
  rq_Port : Z;
  rq_Ttl : Z;
  rq_PreviewUrl : string;
  rq_VcpuCount : Z;
  rq_MemSizeMib : Z;
}.

(** [Dial] is [NewClient]; the others are the calls on the connection. *)
Inductive rpc : Type -> Type :=
| Dial : rpc unit
| CallGetWorkerInfo : rpc GetWorkerInfoResponse
| CallCreateSandbox (req : CreateSandboxRequest) : rpc unit
| CallStopSandbox (id : string) : rpc unit
| CallRemoveSandbox (id : string) : rpc unit
| CallListRunningSandboxes : rpc (list string).

(** ** Programs *)
Inductive prog (A : Type) : Type :=
| Ret (a : A)
| Tx (X : Type) (f : tx X) (k : result error X -> prog A)
| Rpc (X : Type) (addr : string) (c : rpc X) (k : result error X -> prog A)
| Draw (k : spec_float -> prog A)
| Now (k : Z -> prog A).

Arguments Ret {A} a.
Arguments Tx {A X} f k.
Arguments Rpc {A X} addr c k.
Arguments Draw {A} k.
Arguments Now {A} k.

Fixpoint bind {A B} (p : prog A) (g : A -> prog B) : prog B :=
  match p with
  | Ret a => g a
  | Tx f k => Tx f (fun r => bind (k r) g)
  | Rpc a c k => Rpc a c (fun r => bind (k r) g)
  | Draw k => Draw (fun x => bind (k x) g)
  | Now k => Now (fun t => bind (k t) g)
  end.

Declare Scope prog_scope.
Delimit Scope prog_scope with prog.
Bind Scope prog_scope with prog.

Notation "x <-- m ;; k" := (bind m (fun x => k))
  (at level 100, m at next level, right associativity) : prog_scope.
Notation "x <-db f ;; k" := (Tx f (fun x => k))
  (at level 100, f at next level, right associativity) : prog_scope.

(** ** Execution against a script *)
Record script : Type := mkScript {
  sc_env : txenv;
  sc_clock : Z;
  sc_rpc : forall X, string -> rpc X -> result error X;
}.

(** The fault of each transaction, then none; the draws, then 0. *)
Fixpoint run {A} (s : script) (p : prog A) (faults : list fault) (draws : list spec_float)
    (db : DB) : A * DB :=
  match p with
  | Ret a => (a, db)
  | Tx f k =>
      match faults with
      | [] => let '(r, db') := exec_tx (sc_env s) NoFault f db in run s (k r) [] draws db'
      | fl :: rest => let '(r, db') := exec_tx (sc_env s) fl f db in run s (k r) rest draws db'
      end
  | Rpc a c k => run s (k (sc_rpc s _ a c)) faults draws db
  | Draw k => match draws with
              | [] => run s (k (S754_zero false)) faults [] db
              | x :: rest => run s (k x) faults rest db
              end
  | Now k => run s (k (sc_clock s)) faults draws db
  end.

(** ** Rely-guarantee *)
Section RelyGuarantee.

Context (Flt : fault -> Prop) (Inv : DB -> Prop) (R G : DB -> DB -> Prop).

Fixpoint wp {A} (p : prog A) (Q : A -> DB -> Prop) (db : DB) : Prop :=
  match p with
  | Ret a => Q a db
  | Tx f k =>
      forall db1 env fl r db2,
        R db db1 -> Inv db1 -> Flt fl -> exec_tx env fl f db1 = (r, db2) ->
        G db1 db2 /\ Inv db2 /\ wp (k r) Q db2
  | Rpc _ _ k => forall x, wp (k x) Q db
  | Draw k => forall x, wp (k x) Q db
  | Now k => forall t, wp (k t) Q db
  end.

(** ** Interleavings *)
Context (spawnable : DB -> prog unit -> Prop).

Definition config : Type := DB * list (prog unit).

Inductive pool_step : config -> config -> Prop :=
| step_tx db pool i X (f : tx X) k env fl r db' :
    pool !! i = Some (Tx f k) -> Flt fl -> exec_tx env fl f db = (r, db') ->
    pool_step (db, pool) (db', <[i := k r]> pool)
| step_rpc db pool i X addr (c : rpc X) k x :
    pool !! i = Some (Rpc addr c k) ->
    pool_step (db, pool) (db, <[i := k x]> pool)
| step_draw db pool i k x :
    pool !! i = Some (Draw k) ->
    pool_step (db, pool) (db, <[i := k x]> pool)
| step_now db pool i k t :
    pool !! i = Some (Now k) ->
    pool_step (db, pool) (db, <[i := k t]> pool)
| step_spawn db pool p :
    spawnable db p ->
    pool_step (db, pool) (db, pool ++ [p]).

End RelyGuarantee.

(** ** Lemmas *)

(** A faultless run of a sequence. *)
Lemma run_bind {A B} s (p : prog A) (g : A -> prog B) db :
  run s (bind p g) [] [] db = (let '(a, db') := run s p [] [] db in run s (g a) [] [] db').
Proof.
  revert db. induction p as [a|X f k IH|X a c k IH|k IH|k IH]; intros db; cbn [bind run]; auto.
  by destruct (exec_tx (sc_env s) NoFault f db).
Qed.

Section RelyGuaranteeLemmas.

Context (Flt : fault -> Prop) (Inv : DB -> Prop) (R G : DB -> DB -> Prop).

Lemma wp_mono {A} (p : prog A) (Q Q' : A -> DB -> Prop) db :
  (forall a db', Q a db' -> Q' a db') -> wp Flt Inv R G p Q db -> wp Flt Inv R G p Q' db.
Proof.
  intros HQ. revert db. induction p as [a|X f k IH|X a c k IH|k IH|k IH]; cbn [wp]; intros db H.
  - by apply HQ.
  - intros db1 env fl r db2 HR HI HF He.
    destruct (H db1 env fl r db2 HR HI HF He) as (? & ? & ?). eauto.
  - intros x. by apply IH.
  - intros x. by apply IH.
  - intros x. by apply IH.
Qed.

Lemma wp_bind {A B} (p : prog A) (g : A -> prog B) Q db :
  wp Flt Inv R G p (fun a db' => wp Flt Inv R G (g a) Q db') db ->
  wp Flt Inv R G (bind p g) Q db.
Proof.
  revert db. induction p as [a|X f k IH|X a c k IH|k IH|k IH]; cbn [wp bind]; intros db H.
  - done.
  - intros db1 env fl r db2 HR HI HF He.
    destruct (H db1 env fl r db2 HR HI HF He) as (? & ? & ?). eauto.
  - intros x. by apply IH.
  - intros x. by apply IH.
  - intros x. by apply IH.
Qed.

(** A program that has not run yet does not mind what the others do. *)
Lemma wp_stable {A} (p : prog A) db db' `{!Transitive R} :
  R db db' -> wp Flt Inv R G p (fun _ _ => True) db -> wp Flt Inv R G p (fun _ _ => True) db'.
Proof.
  intros HR. revert db db' HR.
  induction p as [a|X f k IH|X a c k IH|k IH|k IH]; cbn [wp]; intros db db' HR H.
  - done.
  - intros db1 env fl r db2 HR1 HI HF He. apply (H db1 env fl); try done. by etrans.
  - intros x. by eapply IH.
  - intros x. by eapply IH.
  - intros x. by eapply IH.
Qed.

(** What [wp] promises, a scripted run delivers. *)
Lemma wp_run {A} s (p : prog A) Q faults draws db `{!Reflexive R} :
  Inv db -> Flt NoFault -> Forall Flt faults ->
  wp Flt Inv R G p Q db ->
  Q (run s p faults draws db).1 (run s p faults draws db).2.
Proof.
  intros HI HN. revert faults draws db HI.
  induction p as [a|X f k IH|X a c k IH|k IH|k IH]; cbn [wp run]; intros faults draws db HI HF H.
  - done.
  - destruct faults as [|fl rest].
    + destruct (exec_tx (sc_env s) NoFault f db) as [r db'] eqn:He.
      destruct (H db _ _ _ _ (reflexivity db) HI HN He) as (_ & ? & ?). by apply IH.
    + apply Forall_cons in HF as [Hfl Hrest].
      destruct (exec_tx (sc_env s) fl f db) as [r db'] eqn:He.
      destruct (H db _ _ _ _ (reflexivity db) HI Hfl He) as (_ & ? & ?). by apply IH.
  - by apply IH.
  - destruct draws; by apply IH.
  - by apply IH.
Qed.

Context (spawnable : DB -> prog unit -> Prop).
Context `{!PreOrder R} (GR : forall db db', G db db' -> R db db').
Context (spawn_ok : forall db p, Inv db -> spawnable db p -> wp Flt Inv R G p (fun _ _ => True) db).

(** A configuration whose database satisfies the invariant and whose programs are
    all within their guarantee. *)
Definition pool_ok (c : config) : Prop :=
  Inv c.1 /\ Forall (fun p => wp Flt Inv R G p (fun _ _ => True) c.1) c.2.

Lemma pool_step_ok c c' :
  pool_step Flt spawnable c c' -> pool_ok c -> pool_ok c' /\ (c.1 = c'.1 \/ G c.1 c'.1).
Proof.
  intros Hs [HI HP]. unfold pool_ok. destruct Hs as
    [db pool i X f k env fl r db' Hi HF He|db pool i X addr cc k x Hi
    |db pool i k x Hi|db pool i k t Hi|db pool p Hp]; simpl in *.
  - pose proof (Forall_lookup_1 _ _ _ _ HP Hi) as Hw. cbn [wp] in Hw.
    destruct (Hw db env fl r db' (reflexivity db) HI HF He) as (HG & HI' & Hk).
    repeat split; [done| |by right].
    apply Forall_insert; [|done].
    eapply Forall_impl; [exact HP|]. intros q Hq.
    eapply wp_stable; [apply _|by apply GR|exact Hq].
  - pose proof (Forall_lookup_1 _ _ _ _ HP Hi) as Hw.
    repeat split; [done| |by left]. apply Forall_insert; [done|]. apply Hw.
  - pose proof (Forall_lookup_1 _ _ _ _ HP Hi) as Hw.
    repeat split; [done| |by left]. apply Forall_insert; [done|]. apply Hw.
  - pose proof (Forall_lookup_1 _ _ _ _ HP Hi) as Hw.
    repeat split; [done| |by left]. apply Forall_insert; [done|]. apply Hw.
  - repeat split; [done| |by left]. apply Forall_app; split; [done|].
    apply Forall_singleton. by apply spawn_ok.
Qed.

Lemma pool_sound c c' :
  rtc (pool_step Flt spawnable) c c' -> pool_ok c -> pool_ok c' /\ R c.1 c'.1.
Proof.
  induction 1 as [c|c c1 c2 Hs Hr IH]; intros HP.
  - split; [done|reflexivity].
  - destruct (pool_step_ok _ _ Hs HP) as [HP1 HR1].
    destruct (IH HP1) as [HP2 HR2]. split; [done|].
    destruct HR1 as [->|HG]; [done|]. etrans; [by apply GR|done].
Qed.

End RelyGuaranteeLemmas.
