(* ===== verification/Floats.v ===== *)
(** * binary64 arithmetic

    The float64 operations of the scheduler, computed with the Standard Library's
    executable specification [SpecFloat], and the bounds its theorems need:
    magnitudes survive the rounding of every operation ([below]), an integer of at most
    53 bits is represented exactly, and a quotient of two such integers compares with
    1 as the integers do ([div_lt_1]). *)

From Stdlib Require Import ZArith Lia SpecFloat.
From stdpp Require Import base tactics.

Open Scope Z_scope.

Definition f64_prec : Z := 53.
Definition f64_emax : Z := 1024.

(** [float64(z)]. *)
Definition float64 (z : Z) : spec_float := binary_normalize f64_prec f64_emax z 0 false.
Definition f_add (x y : spec_float) : spec_float := SFadd f64_prec f64_emax x y.
Definition f_sub (x y : spec_float) : spec_float := SFsub f64_prec f64_emax x y.
Definition f_mul (x y : spec_float) : spec_float := SFmul f64_prec f64_emax x y.
Definition f_div (x y : spec_float) : spec_float := SFdiv f64_prec f64_emax x y.
Definition f_lt (x y : spec_float) : bool := SFltb x y.
Definition f_le (x y : spec_float) : bool := SFleb x y.

Definition f_0 : spec_float := float64 0.
Definition f_1 : spec_float := float64 1.
Definition f_100 : spec_float := float64 100.
(** The binary64 numbers nearest to 0.7 and 0.3. *)
Definition f_0_7 : spec_float := f_div (float64 7) (float64 10).
Definition f_0_3 : spec_float := f_div (float64 3) (float64 10).
Definition MaxFloat64 : spec_float := S754_finite false 9007199254740991 971.

Definition IsNaN (x : spec_float) : bool := match x with S754_nan => true | _ => false end.

(** A finite number of absolute value below [2^M]. *)
Definition below (M : Z) (x : spec_float) : Prop :=
  match x with
  | S754_zero _ => True
  | S754_finite _ m e => e <= M /\ Zpos m < 2 ^ (M - e)
  | S754_infinity _ | S754_nan => False
  end.

(** ** Digits and shifts *)

Lemma digits_log2 p : Zpos (digits2_pos p) = Z.log2 (Zpos p) + 1.
Proof.
  induction p as [p IH|p IH|]; [| |done]; cbn [digits2_pos]; rewrite Pos2Z.inj_succ, IH.
  - rewrite (Pos2Z.inj_xI p), Z.log2_succ_double by lia. lia.
  - rewrite (Pos2Z.inj_xO p), Z.log2_double by lia. lia.
Qed.

Lemma digits_le m k : 0 <= m -> 0 <= k -> Zdigits2 m <= k <-> m < 2 ^ k.
Proof.
  intros Hm Hk. destruct m as [|p|p]; cbn [Zdigits2]; [|rewrite digits_log2|lia].
  - split; [intros; by apply Z.pow_pos_nonneg|lia].
  - rewrite (Z.log2_lt_pow2 (Zpos p) k) by lia. lia.
Qed.

Lemma digits_nonneg m : 0 <= Zdigits2 m.
Proof. destruct m; simpl; lia. Qed.

Lemma shr_1_m mrs : 0 <= shr_m mrs -> shr_m (shr_1 mrs) = shr_m mrs / 2.
Proof.
  destruct mrs as [m r s]. simpl. intros Hm. rewrite <- Z.div2_div.
  destruct m as [|[p|p|]|p]; done.
Qed.

Lemma iter_shr_m p mrs :
  0 <= shr_m mrs -> shr_m (iter_pos shr_1 p mrs) = shr_m mrs / 2 ^ Zpos p.
Proof.
  revert mrs. induction p as [p IH|p IH|]; intros mrs Hm; cbn [iter_pos].
  - assert (0 <= shr_m (shr_1 mrs)) by (rewrite shr_1_m by done; apply Z.div_pos; lia).
    assert (0 <= shr_m (iter_pos shr_1 p (shr_1 mrs)))
      by (rewrite IH by done; apply Z.div_pos; lia).
    rewrite !IH, shr_1_m by done. rewrite !Z.div_div by lia. f_equal.
    replace (Zpos p~1) with (1 + Zpos p + Zpos p) by lia. rewrite !Z.pow_add_r by lia. lia.
  - assert (0 <= shr_m (iter_pos shr_1 p mrs)) by (rewrite IH by done; apply Z.div_pos; lia).
    rewrite !IH by done. rewrite !Z.div_div by lia. f_equal.
    replace (Zpos p~0) with (Zpos p + Zpos p) by lia. rewrite !Z.pow_add_r by lia. lia.
  - by apply shr_1_m.
Qed.

Lemma shr_record_m m l : shr_m (shr_record_of_loc m l) = m.
Proof. by destruct l as [|[]]. Qed.

(** The exponent [shr_fexp] reaches, and the digits it drops. *)
Definition exp_of (m e : Z) : Z := Z.max e (fexp f64_prec f64_emax (Zdigits2 m + e)).

Lemma shr_fexp_spec m e l :
  0 <= m ->
  shr_m (shr_fexp f64_prec f64_emax m e l).1 = m / 2 ^ (exp_of m e - e)
  /\ (shr_fexp f64_prec f64_emax m e l).2 = exp_of m e.
Proof.
  intros Hm. unfold shr_fexp, shr, exp_of.
  destruct (fexp f64_prec f64_emax (Zdigits2 m + e) - e) as [|p|p] eqn:E; simpl.
  - rewrite shr_record_m. replace (Z.max _ _ - e) with 0 by lia. rewrite Z.div_1_r. lia.
  - rewrite iter_shr_m; rewrite shr_record_m; [|done]. split; [f_equal; f_equal|]; lia.
  - rewrite shr_record_m. replace (Z.max _ _ - e) with 0 by lia. rewrite Z.div_1_r. lia.
Qed.

Lemma round_bounds m l : m <= round_nearest_even m l <= m + 1.
Proof. destruct l as [|[]]; simpl; try lia. case_match; lia. Qed.

(** Rounding in two steps: a truncation that may round up, then an exact shift. *)
Lemma round_aux_spec s m e l :
  0 <= m ->
  exists m2, m / 2 ^ (exp_of m e - e) <= m2 <= m / 2 ^ (exp_of m e - e) + 1
    /\ (l = loc_Exact -> exp_of m e = e -> m2 = m)
    /\ let e2 := exp_of m2 (exp_of m e) in
       let m3 := m2 / 2 ^ (e2 - exp_of m e) in
       binary_round_aux f64_prec f64_emax s m e l
       = match m3 with
         | Z0 => S754_zero s
         | Zpos p => if e2 <=? 971 then S754_finite s p e2 else S754_infinity s
         | Zneg _ => S754_nan
         end.
Proof.
  intros Hm. unfold binary_round_aux.
  destruct (shr_fexp_spec m e l Hm) as [H1 H2].
  destruct (shr_fexp f64_prec f64_emax m e l) as [mrs e1] eqn:E1. simpl in H1, H2. subst e1.
  set (m2 := round_nearest_even (shr_m mrs) (loc_of_shr_record mrs)).
  pose proof (round_bounds (shr_m mrs) (loc_of_shr_record mrs)) as Hb. fold m2 in Hb.
  rewrite H1 in Hb. exists m2. split; [done|]. split.
  - intros -> He. unfold shr_fexp, shr in E1. unfold exp_of in He.
    destruct (fexp f64_prec f64_emax (Zdigits2 m + e) - e) eqn:E; [| lia |];
      injection E1 as <- _; by unfold m2.
  - assert (0 <= m / 2 ^ (exp_of m e - e)).
    { apply Z.div_pos; [done|]. apply Z.pow_pos_nonneg; [lia|]. unfold exp_of. lia. }
    destruct (shr_fexp_spec m2 (exp_of m e) loc_Exact) as [H3 H4]; [lia|].
    destruct (shr_fexp f64_prec f64_emax m2 (exp_of m e) loc_Exact) as [mrs2 e2].
    simpl in H3, H4. subst e2. by rewrite H3.
Qed.

(** ** Magnitudes *)

Lemma div_pow_lt m a b : 0 <= m -> 0 <= b <= a -> m < 2 ^ a -> m / 2 ^ b < 2 ^ (a - b).
Proof.
  intros Hm Hb Ha. apply Z.div_lt_upper_bound; [by apply Z.pow_pos_nonneg; lia|].
  rewrite <- Z.pow_add_r by lia. by replace (b + (a - b)) with a by lia.
Qed.

Lemma exp_of_le m e M :
  0 <= M -> 0 <= m -> e <= M -> m < 2 ^ (M - e) -> e <= exp_of m e <= M.
Proof.
  intros HM Hm He Hlt. unfold exp_of, fexp, emin, f64_prec, f64_emax.
  apply digits_le in Hlt; lia.
Qed.

Lemma below_round_aux s m e l M :
  0 <= M <= 900 -> 0 <= m < 2 ^ (M - e) -> e <= M ->
  below (M + 1) (binary_round_aux f64_prec f64_emax s m e l).
Proof.
  intros HM [Hm Hlt] He. destruct (round_aux_spec s m e l Hm) as (m2 & Hb & _ & ->).
  destruct (exp_of_le m e M) as [H1 H2]; [lia..|].
  pose proof (div_pow_lt m (M - e) (exp_of m e - e)) as Hd.
  replace (M - e - (exp_of m e - e)) with (M - exp_of m e) in Hd by lia.
  assert (0 <= m / 2 ^ (exp_of m e - e))
    by (apply Z.div_pos; [done|apply Z.pow_pos_nonneg; lia]).
  assert (m2 < 2 ^ (M + 1 - exp_of m e)) as Hm2.
  { replace (M + 1 - exp_of m e) with (M - exp_of m e + 1) by lia.
    rewrite Z.pow_add_r by lia. change (2 ^ 1) with 2.
    pose proof (Z.pow_pos_nonneg 2 (M - exp_of m e)). lia. }
  destruct (exp_of_le m2 (exp_of m e) (M + 1)) as [H3 H4]; [lia..|].
  set (e1 := exp_of m e) in *. set (e2 := exp_of m2 e1) in *.
  pose proof (div_pow_lt m2 (M + 1 - e1) (e2 - e1)) as Hd2.
  replace (M + 1 - e1 - (e2 - e1)) with (M + 1 - e2) in Hd2 by lia.
  assert (0 <= m2 / 2 ^ (e2 - e1)) by (apply Z.div_pos; [lia|apply Z.pow_pos_nonneg; lia]).
  destruct (m2 / 2 ^ (e2 - e1)) as [|p|p]; [done| |lia].
  destruct (Z.leb_spec e2 971); [|lia]. split; lia.
Qed.

Lemma shl_align_spec m e e' :
  (shl_align m e e').2 = Z.min e e'
  /\ Zpos (shl_align m e e').1 = Zpos m * 2 ^ (e - Z.min e e').
Proof.
  unfold shl_align. destruct (e' - e) as [|p|p] eqn:E; cbn [fst snd].
  1-2: replace (Z.min e e') with e by lia; rewrite Z.sub_diag, Z.pow_0_r; lia.
  replace (Z.min e e') with e' by lia. split; [done|]. replace (e - e') with (Zpos p) by lia.
  rewrite <- Z.shiftl_mul_pow2 by lia. by apply (Pos.iter_swap_gen _ _ Zpos).
Qed.

Lemma below_round s m e M :
  0 <= M <= 900 -> Zpos m < 2 ^ (M - e) -> e <= M ->
  below (M + 1) (binary_round f64_prec f64_emax s m e).
Proof.
  intros HM Hm He. unfold binary_round.
  destruct (shl_align_spec m e (fexp f64_prec f64_emax (Zpos (digits2_pos m) + e))) as [H1 H2].
  destruct (shl_align _ _ _) as [mz ez]. cbn [fst snd] in H1, H2. subst ez.
  apply below_round_aux; [done| |lia]. rewrite H2. split; [lia|].
  set (k := e - Z.min _ _). replace (M - Z.min _ _) with (M - e + k) by lia.
  rewrite Z.pow_add_r by lia. apply Z.mul_lt_mono_pos_r; [|done]. apply Z.pow_pos_nonneg; lia.
Qed.

Lemma below_normalize z e b M :
  0 <= M <= 900 -> Z.abs z < 2 ^ (M - e) -> e <= M ->
  below (M + 1) (binary_normalize f64_prec f64_emax z e b).
Proof. intros HM Hz He. destruct z; [done| |]; by apply below_round. Qed.

Lemma below_mono A B x : A <= B -> below A x -> below B x.
Proof.
  intros HAB. destruct x as [| | |s m e]; try done. intros [H1 H2]. split; [lia|].
  eapply Z.lt_le_trans; [done|]. apply Z.pow_le_mono_r; lia.
Qed.

Lemma below_mul A B x y :
  0 <= A -> 0 <= B -> A + B <= 900 -> below A x -> below B y -> below (A + B + 1) (f_mul x y).
Proof.
  intros HA HB HAB. destruct x as [| | |s m e], y as [| | |s' m' e']; try done.
  intros [H1 H2] [H3 H4]. apply below_round_aux; [lia| |lia]. split; [done|].
  rewrite Pos2Z.inj_mul. replace (A + B - (e + e')) with ((A - e) + (B - e')) by lia.
  rewrite Z.pow_add_r by lia. apply Z.mul_lt_mono_nonneg; lia.
Qed.

Lemma shl_align_below m e ez M :
  ez <= e -> e <= M -> Zpos m < 2 ^ (M - e) -> Zpos (shl_align m e ez).1 < 2 ^ (M - ez).
Proof.
  intros Hz He Hm. destruct (shl_align_spec m e ez) as [_ ->].
  replace (Z.min e ez) with ez by lia. replace (M - ez) with (M - e + (e - ez)) by lia.
  rewrite Z.pow_add_r by lia. apply Z.mul_lt_mono_pos_r; [|done]. apply Z.pow_pos_nonneg; lia.
Qed.

Lemma below_add M x y :
  0 <= M <= 800 -> below M x -> below M y -> below (M + 2) (f_add x y).
Proof.
  intros HM. destruct x as [sx| | |sx m e], y as [sy| | |sy m' e']; try done.
  - by destruct sx, sy.
  - intros _ H. apply (below_mono M); [lia|done].
  - intros H _. apply (below_mono M); [lia|done].
  - intros [H1 H2] [H3 H4]. unfold f_add. cbn [SFadd].
    replace (M + 2) with (M + 1 + 1) by lia. apply below_normalize; [lia| |lia].
    assert (A1 := shl_align_below m e (Z.min e e') M ltac:(lia) H1 H2).
    assert (A2 := shl_align_below m' e' (Z.min e e') M ltac:(lia) H3 H4).
    replace (M + 1 - Z.min e e') with (M - Z.min e e' + 1) by lia. rewrite Z.pow_add_r by lia.
    change (2 ^ 1) with 2. unfold cond_Zopp.
    change (IntDef.Z.min e e') with (Z.min e e'). destruct sx, sy; lia.
Qed.

(** ** Integers and quotients *)

Lemma float64_exact z :
  0 < z < 2 ^ 53 ->
  exists m e, float64 z = S754_finite false m e /\ -53 <= e <= 0 /\ Zpos m = z * 2 ^ (- e).
Proof.
  intros Hz. destruct z as [|p|p]; [lia| |lia]. unfold float64, binary_normalize, binary_round.
  assert (0 < Zpos (digits2_pos p) <= 53) as Hd by (pose proof (digits_le (Zpos p) 53); simpl in *; lia).
  set (d := Zpos (digits2_pos p)) in *.
  assert (fexp f64_prec f64_emax (d + 0) = d - 53) as Hf
    by (unfold fexp, emin, f64_prec, f64_emax; lia).
  rewrite Hf. destruct (shl_align_spec p 0 (d - 53)) as [H1 H2].
  destruct (shl_align p 0 (d - 53)) as [mz ez]. cbn [fst snd] in H1, H2.
  replace (Z.min 0 (d - 53)) with (d - 53) in * by lia. subst ez.
  replace (0 - (d - 53)) with (53 - d) in H2 by lia.
  assert (Zdigits2 (Zpos mz) <= 53) as Hmz.
  { apply digits_le; [lia..|]. rewrite H2. replace 53 with (d + (53 - d)) at 2 by lia.
    rewrite Z.pow_add_r by lia. apply Z.mul_lt_mono_pos_r; [apply Z.pow_pos_nonneg; lia|].
    by apply digits_le; [lia..|]. }
  assert (exp_of (Zpos mz) (d - 53) = d - 53) as He
    by (unfold exp_of, fexp, emin, f64_prec, f64_emax; lia).
  destruct (round_aux_spec false (Zpos mz) (d - 53) loc_Exact) as (m2 & _ & Hm2 & ->); [lia|].
  rewrite Hm2, He, He, Z.sub_diag, Z.div_1_r by done.
  destruct (Z.leb_spec (d - 53) 971); [|lia].
  exists mz, (d - 53). split; [done|]. split; [lia|]. by replace (- (d - 53)) with (53 - d) by lia.
Qed.

Lemma f_div_spec mx ex my ey :
  exists q e l,
    f_div (S754_finite false mx ex) (S754_finite false my ey)
      = binary_round_aux f64_prec f64_emax false q e l
    /\ e = Z.min (fexp f64_prec f64_emax
                    (Zpos (digits2_pos mx) + ex - (Zpos (digits2_pos my) + ey))) (ex - ey)
    /\ q = Zpos mx * 2 ^ (ex - ey - e) / Zpos my.
Proof.
  unfold f_div, SFdiv, SFdiv_core_binary. cbn [Zdigits2].
  set (e := IntDef.Z.min _ (ex - ey)).
  change (IntDef.Z.min (fexp f64_prec f64_emax
            (Zpos (digits2_pos mx) + ex - (Zpos (digits2_pos my) + ey))) (ex - ey))
    with (Z.min (fexp f64_prec f64_emax
            (Zpos (digits2_pos mx) + ex - (Zpos (digits2_pos my) + ey))) (ex - ey)) in e.
  assert (match ex - ey - e with
          | 0 => Zpos mx | Zpos _ => Z.shiftl (Zpos mx) (ex - ey - e) | Zneg _ => 0
          end = Zpos mx * 2 ^ (ex - ey - e)) as ->.
  { destruct (ex - ey - e) eqn:E; [lia| |unfold e in E; lia]. by rewrite Z.shiftl_mul_pow2 by lia. }
  unfold Z.div. destruct (Z.div_eucl (Zpos mx * 2 ^ (ex - ey - e)) (Zpos my)) as [q r] eqn:E.
  exists q, e. eexists. split; [done|]. split; [done|]. exact (eq_sym (f_equal fst E)).
Qed.

(** The quotient of two 31-bit integers before it is rounded. *)
Lemma quotient u b :
  0 < u < 2 ^ 31 -> 0 < b < 2 ^ 31 ->
  exists q e l,
    f_div (float64 u) (float64 b) = binary_round_aux f64_prec f64_emax false q e l
    /\ q = u * 2 ^ (- e) / b /\ e <= -22 /\ (u < b -> e <= -53).
Proof.
  intros Hu Hb. destruct (float64_exact u) as (mx & ex & -> & Hex & Hmx); [lia|].
  destruct (float64_exact b) as (my & ey & -> & Hey & Hmy); [lia|].
  destruct (f_div_spec mx ex my ey) as (q & e & l & Hdiv & He & Hq).
  exists q, e, l. rewrite !digits_log2, Hmx, Hmy, !Z.log2_mul_pow2 in He by lia.
  assert (Z.log2 u < 31) by (apply Z.log2_lt_pow2; lia).
  assert (Z.log2 b < 31) by (apply Z.log2_lt_pow2; lia).
  pose proof (Z.log2_nonneg u). pose proof (Z.log2_nonneg b).
  assert (e <= Z.log2 u - Z.log2 b - 53).
  { rewrite He. unfold fexp, emin, f64_prec, f64_emax. lia. }
  split; [done|]. split; [|split; [lia|]].
  - rewrite Hq, Hmx, Hmy. rewrite <- Z.mul_assoc, <- Z.pow_add_r by lia.
    replace (- ex + (ex - ey - e)) with (- e + - ey) by lia.
    rewrite Z.pow_add_r, Z.mul_assoc by lia.
    apply Z.div_mul_cancel_r; [lia|]. pose proof (Z.pow_pos_nonneg 2 (- ey)). lia.
  - intros Hlt. pose proof (Z.log2_le_mono u b). lia.
Qed.

(** What is left of the quotient after a shift to exponent [e1]. *)
Lemma quotient_shift u b e e1 :
  0 < b -> e <= e1 <= 0 -> u * 2 ^ (- e) / b / 2 ^ (e1 - e) = u * 2 ^ (- e1) / b.
Proof.
  intros Hb He. pose proof (Z.pow_pos_nonneg 2 (e1 - e)).
  rewrite Z.div_div by lia. replace (- e) with (- e1 + (e1 - e)) by lia.
  rewrite Z.pow_add_r, Z.mul_assoc by lia. apply Z.div_mul_cancel_r; lia.
Qed.

Lemma f_1_eq : f_1 = S754_finite false 4503599627370496 (-52).
Proof. reflexivity. Qed.

Lemma div_lt_1_below u b :
  0 < u -> u < b -> b < 2 ^ 31 -> f_lt (f_div (float64 u) (float64 b)) f_1 = true.
Proof.
  intros Hu Hlt Hb. destruct (quotient u b) as (q & e & l & -> & Hq & _ & He); [lia..|].
  specialize (He Hlt).
  assert (0 <= q < 2 ^ (- e)) as [Hq0 Hq1].
  { pose proof (Z.pow_pos_nonneg 2 (- e)). rewrite Hq. split; [apply Z.div_pos; lia|].
    apply Z.div_lt_upper_bound; [lia|]. apply Z.mul_lt_mono_pos_r; lia. }
  destruct (round_aux_spec false q e l Hq0) as (m2 & Hm2 & _ & ->).
  assert (e <= exp_of q e <= -53) as He1.
  { unfold exp_of, fexp, emin, f64_prec, f64_emax. apply digits_le in Hq1; lia. }
  set (e1 := exp_of q e) in *. rewrite Hq, quotient_shift in Hm2 by lia.
  assert (0 <= m2 < 2 ^ (- e1)) as [Hm0 Hm1].
  { assert (2 ^ 53 <= 2 ^ (- e1)) by (apply Z.pow_le_mono_r; lia).
    assert (u * 2 ^ (- e1) / b <= 2 ^ (- e1) - 2).
    { apply Z.div_le_upper_bound; [lia|]. nia. }
    assert (0 <= u * 2 ^ (- e1) / b) by (apply Z.div_pos; lia). lia. }
  assert (exp_of m2 e1 <= -53) as He2.
  { unfold exp_of, fexp, emin, f64_prec, f64_emax. apply digits_le in Hm1; lia. }
  assert (0 <= m2 / 2 ^ (exp_of m2 e1 - e1)).
  { apply Z.div_pos; [done|]. apply Z.pow_pos_nonneg; [lia|]. unfold exp_of. lia. }
  rewrite f_1_eq. cbv zeta. destruct (m2 / 2 ^ (exp_of m2 e1 - e1)) as [|p|p]; [done| |lia].
  destruct (Z.leb_spec (exp_of m2 e1) 971); [|lia].
  unfold f_lt, SFltb, SFcompare. destruct (Z.compare_spec (exp_of m2 e1) (-52)); [lia|done|lia].
Qed.

Lemma div_lt_1_above u b :
  0 < b -> b <= u -> u < 2 ^ 31 -> f_lt (f_div (float64 u) (float64 b)) f_1 = false.
Proof.
  intros Hb Hle Hu. destruct (quotient u b) as (q & e & l & -> & Hq & He & _); [lia..|].
  assert (forall k, 0 <= k -> 2 ^ k <= u * 2 ^ k / b < 2 ^ (31 + k)) as Hk.
  { intros k Hk. pose proof (Z.pow_pos_nonneg 2 k). split.
    - apply Z.div_le_lower_bound; [lia|]. nia.
    - apply Z.div_lt_upper_bound; [lia|]. rewrite Z.pow_add_r by lia. nia. }
  assert (0 <= q) as Hq0.
  { pose proof (Hk (- e)). pose proof (Z.pow_pos_nonneg 2 (- e)). lia. }
  destruct (round_aux_spec false q e l Hq0) as (m2 & Hm2 & _ & ->).
  assert (e <= exp_of q e <= -22) as He1.
  { destruct (Hk (- e)) as [_ Hlt]; [lia|]. rewrite <- Hq in Hlt. apply digits_le in Hlt; [|lia..].
    unfold exp_of, fexp, emin, f64_prec, f64_emax. lia. }
  set (e1 := exp_of q e) in *. rewrite Hq, quotient_shift in Hm2 by lia.
  destruct (Hk (- e1)) as [K1 K2]; [lia|]. pose proof (Z.pow_pos_nonneg 2 (- e1)).
  assert (-52 <= exp_of m2 e1 <= 0 /\ e1 <= exp_of m2 e1) as He2.
  { assert (m2 < 2 ^ (32 + - e1)) as Hlt.
    { replace (32 + - e1) with (1 + (31 + - e1)) by lia. rewrite (Z.pow_add_r 2 1) by lia. lia. }
    apply digits_le in Hlt; [|lia..].
    pose proof (digits_le m2 (- e1)) as Hge.
    unfold exp_of, fexp, emin, f64_prec, f64_emax. lia. }
  set (e2 := exp_of m2 e1) in *.
  assert (2 ^ (- e2) <= m2 / 2 ^ (e2 - e1)) as Hm3.
  { apply Z.div_le_lower_bound; [apply Z.pow_pos_nonneg; lia|].
    rewrite <- Z.pow_add_r by lia. replace (e2 - e1 + - e2) with (- e1) by lia. lia. }
  pose proof (Z.pow_pos_nonneg 2 (- e2)). rewrite f_1_eq. cbv zeta.
  destruct (m2 / 2 ^ (e2 - e1)) as [|p|p]; [lia| |lia].
  destruct (Z.leb_spec e2 971); [|lia].
  unfold f_lt, SFltb, SFcompare. destruct (Z.compare_spec e2 (-52)) as [->|?|?]; [|lia|done].
  assert (2 ^ (- -52) = 4503599627370496) as E52 by reflexivity. rewrite E52 in Hm3.
  generalize dependent 4503599627370496%positive. intros n Hm3 _.
  pose proof (Pos.compare_spec p n) as Hc. unfold Pos.compare in Hc.
  destruct (Pos.compare_cont Eq p n); inversion Hc; [done|lia|done].
Qed.

(** A quotient of positive 31-bit integers rounds below 1 exactly when it is. *)
Lemma div_lt_1 u b :
  0 < u < 2 ^ 31 -> 0 < b < 2 ^ 31 -> f_lt (f_div (float64 u) (float64 b)) f_1 = (u <? b).
Proof.
  intros Hu Hb. destruct (Z.ltb_spec u b); [apply div_lt_1_below|apply div_lt_1_above]; lia.
Qed.

Lemma below_div u b : 0 < u < 2 ^ 31 -> 0 < b < 2 ^ 31 -> below 32 (f_div (float64 u) (float64 b)).
Proof.
  intros Hu Hb. destruct (quotient u b) as (q & e & l & -> & Hq & He & _); [done..|].
  apply (below_round_aux _ _ _ _ 31); [lia| |lia]. rewrite Hq.
  pose proof (Z.pow_pos_nonneg 2 (- e)). split; [apply Z.div_pos; lia|].
  apply Z.div_lt_upper_bound; [lia|]. replace (31 - e) with (31 + - e) by lia.
  rewrite Z.pow_add_r by lia. nia.
Qed.

Lemma below_lt_Max M x : M <= 900 -> below M x -> f_lt x MaxFloat64 = true.
Proof.
  intros HM. destruct x as [s| | |s m e]; try done. intros [He _].
  unfold f_lt, SFltb, SFcompare, MaxFloat64. destruct s; [done|].
  destruct (Z.compare_spec e 971); [lia|done|lia].
Qed.
