(* ===== verification/Scheduler.v ===== *)
(** * The scheduler

    internal/packages/orchestrator/scheduler.go: the choice of a worker by weighted
    random draw, and [normalizeWorkerAddress] of grpc_client.go.  [float64] values are
    the binary64 numbers of [Floats] (round to nearest even, no fused operations). *)

From Stdlib Require Import ZArith Lia SpecFloat.
From stdpp Require Import base tactics option list gmap strings numbers.
From S2P Require Import Prelude GoStd Database Program Floats.

Open Scope Z_scope.

(** ** scheduler.go *)

Definition cpuUsageScale : Z := 100.

Record WorkerCandidate : Type := mkCandidate {
  wc_Worker : Worker;
  wc_Info : option GetWorkerInfoResponse;
}.

Definition usageRatio (usage budget : Z) : spec_float :=
  if usage <=? 0 then f_0
  else if budget <=? 0 then f_div (float64 usage) f_100
  else let ratio := f_div (float64 usage) (float64 budget) in
       if f_lt ratio f_0 then f_0 else ratio.

Definition leftRatio (usage budget : Z) : spec_float :=
  let left := f_sub f_1 (usageRatio usage budget) in
  if f_lt left f_0 then f_0 else if f_lt f_1 left then f_1 else left.

Definition hasCapacity (info : GetWorkerInfoResponse) : bool :=
  f_lt (usageRatio (wi_CpuUsage info) cpuUsageScale) f_1
  && f_lt (usageRatio (wi_MemUsage info) (wi_MemBudget info)) f_1.

Definition WorkerLoadScore (info : option GetWorkerInfoResponse) : spec_float :=
  match info with
  | None => MaxFloat64
  | Some info =>
      f_add (f_mul f_0_7 (usageRatio (wi_CpuUsage info) cpuUsageScale))
            (f_mul f_0_3 (usageRatio (wi_MemUsage info) (wi_MemBudget info)))
  end.

Definition WorkerWeight (info : option GetWorkerInfoResponse) : spec_float :=
  match info with
  | None => f_0
  | Some info =>
      f_add (f_mul f_0_7 (leftRatio (wi_CpuUsage info) cpuUsageScale))
            (f_mul f_0_3 (leftRatio (wi_MemUsage info) (wi_MemBudget info)))
  end.

(** [Info.GetStatus()] of a nil message is the empty string. *)
Definition isActiveWorker (c : WorkerCandidate) : bool :=
  let norm s := ToLower (TrimSpace s) in
  let workerStatus := norm (wk_Status (wc_Worker c)) in
  let infoStatus := norm (match wc_Info c with Some i => wi_Status i | None => EmptyString end) in
  if bool_decide (workerStatus = EmptyString) && bool_decide (infoStatus = EmptyString) then true
  else if negb (bool_decide (workerStatus = EmptyString))
          && negb (bool_decide (workerStatus = "active")) then false
  else if negb (bool_decide (infoStatus = EmptyString))
          && negb (bool_decide (infoStatus = "active")) then false
  else true.

(** The candidates both loops keep: those with an info, active ones if asked. *)
Definition considered (activeOnly : bool) (c : WorkerCandidate) : bool :=
  match wc_Info c with
  | None => false
  | Some _ => negb activeOnly || isActiveWorker c
  end.

(** [pickLeastUsed]: the first candidate of least score. *)
Fixpoint least_used_from (activeOnly : bool) (bestScore : spec_float)
    (best : option WorkerCandidate) (cs : list WorkerCandidate) : option WorkerCandidate :=
  match cs with
  | [] => best
  | c :: rest =>
      if considered activeOnly c
      then let score := WorkerLoadScore (wc_Info c) in
           if f_lt score bestScore
           then least_used_from activeOnly score (Some c) rest
           else least_used_from activeOnly bestScore best rest
      else least_used_from activeOnly bestScore best rest
  end.

Definition pickLeastUsed (cs : list WorkerCandidate) (activeOnly : bool)
    : option WorkerCandidate :=
  least_used_from activeOnly MaxFloat64 None cs.

(** The weight of a candidate, cleaned of NaN and negative values. *)
Definition clean_weight (c : WorkerCandidate) : spec_float :=
  let w := WorkerWeight (wc_Info c) in
  if IsNaN w || f_lt w f_0 then f_0 else w.

Definition weighted_candidates (cs : list WorkerCandidate) (activeOnly : bool)
    : list (WorkerCandidate * spec_float) :=
  (fun c => (c, clean_weight c)) <$> filter (fun c => considered activeOnly c = true) cs.

Definition total_weight (ws : list (WorkerCandidate * spec_float)) : spec_float :=
  foldl (fun acc cw => f_add acc cw.2) f_0 ws.

(** The roll: subtract the weights until nothing is left. *)
Fixpoint roll_pick (roll : spec_float) (last : WorkerCandidate)
    (ws : list (WorkerCandidate * spec_float)) : WorkerCandidate :=
  match ws with
  | [] => last
  | (c, w) :: rest =>
      let roll := f_sub roll w in
      if f_le roll f_0 then c else roll_pick roll c rest
  end.

Definition pickWeightedRandom (cs : list WorkerCandidate) (activeOnly : bool)
    : prog (option WorkerCandidate) :=
  let ws := weighted_candidates cs activeOnly in
  match ws with
  | [] => Ret None
  | (c0, _) :: _ =>
      let total := total_weight ws in
      if f_le total f_0 then Ret (pickLeastUsed cs activeOnly)
      else Draw (fun u => Ret (Some (roll_pick (f_mul u total) c0 ws)))
  end.

Definition eligible (c : WorkerCandidate) : bool :=
  match wc_Info c with
  | None => false
  | Some info => isActiveWorker c && hasCapacity info
  end.

Definition ChooseLeastUsedWorker (cs : list WorkerCandidate)
    : prog (result error WorkerCandidate) :=
  match cs with
  | [] => Ret (Err (Sentinel Orchestrator_ErrNoWorkerCandidates))
  | _ :: _ =>
      let hasActiveWorker := existsb (considered true) cs in
      let withCapacity := filter (fun c => eligible c = true) cs in
      if hasActiveWorker && bool_decide (withCapacity = [])
      then Ret (Err (Sentinel Orchestrator_ErrClusterFull))
      else
        (bestActive <-- pickWeightedRandom withCapacity true ;;
         match bestActive with
         | Some c => Ret (Ok c)
         | None =>
             bestAny <-- pickWeightedRandom cs false ;;
             match bestAny with
             | Some c => Ret (Ok c)
             | None => Ret (Err (Sentinel Orchestrator_ErrNoWorkerCandidates))
             end
         end)%prog
  end.

(** ** grpc_client.go *)
Definition normalizeWorkerAddress (address : string) (port : Z) : string :=
  let address := TrimSpace address in
  let address := if bool_decide (address = EmptyString) then "127.0.0.1" else address in
  if SplitHostPort_ok address then address
  else if port <=? 0 then EmptyString
  else JoinHostPort address (Itoa port).

(** ** Lemmas *)

Lemma least_used_from_in activeOnly score best cs c :
  least_used_from activeOnly score best cs = Some c ->
  best = Some c \/ (c ∈ cs /\ considered activeOnly c = true).
Proof.
  revert score best. induction cs as [|c0 cs IH]; intros score best; simpl; [auto|].
  rewrite elem_of_cons. destruct (considered activeOnly c0) eqn:Ec.
  - destruct (f_lt _ _); intros H; apply IH in H as [H|H]; try tauto. injection H as ->. auto.
  - intros H. apply IH in H. tauto.
Qed.

Lemma pickLeastUsed_in activeOnly cs c :
  pickLeastUsed cs activeOnly = Some c -> c ∈ cs /\ considered activeOnly c = true.
Proof. intros [H|H]%least_used_from_in; done. Qed.

Lemma weighted_candidates_in activeOnly cs c w :
  (c, w) ∈ weighted_candidates cs activeOnly <->
  w = clean_weight c /\ c ∈ cs /\ considered activeOnly c = true.
Proof.
  unfold weighted_candidates. rewrite list_elem_of_fmap. setoid_rewrite list_elem_of_filter.
  split.
  - intros (c' & [= -> ->] & ? & ?). auto.
  - intros (-> & ? & ?). by exists c.
Qed.

Lemma roll_pick_in roll last ws : roll_pick roll last ws = last \/ exists w, (roll_pick roll last ws, w) ∈ ws.
Proof.
  revert roll last. induction ws as [|[c w] ws IH]; intros roll last; simpl; [auto|].
  setoid_rewrite elem_of_cons. destruct (f_le _ _); [right; exists w; auto|].
  destruct (IH (f_sub roll w) c) as [->|[w' ?]]; right; [exists w|exists w']; auto.
Qed.

Section Choice.

Context (Flt : fault -> Prop) (I : DB -> Prop) (R G : DB -> DB -> Prop).

Lemma wp_pickWeightedRandom cs activeOnly Q db :
  (forall c, c ∈ cs -> considered activeOnly c = true -> Q (Some c) db) ->
  (weighted_candidates cs activeOnly = [] \/ pickLeastUsed cs activeOnly = None -> Q None db) ->
  wp Flt I R G (pickWeightedRandom cs activeOnly) Q db.
Proof.
  intros HS HN. unfold pickWeightedRandom.
  destruct (weighted_candidates cs activeOnly) as [|[c0 w0] ws] eqn:Ews; [cbn [wp]; auto|].
  rewrite <- Ews. cbv zeta. destruct (f_le _ _); cbn [wp].
  - destruct (pickLeastUsed cs activeOnly) as [c|] eqn:Ec; [|auto].
    apply pickLeastUsed_in in Ec as [? ?]. auto.
  - intros u.
    destruct (roll_pick_in (f_mul u (total_weight (weighted_candidates cs activeOnly))) c0
                (weighted_candidates cs activeOnly)) as [->|[w Hw]].
    + assert ((c0, w0) ∈ weighted_candidates cs activeOnly) as Hin by (rewrite Ews; left).
      apply weighted_candidates_in in Hin as (_ & ? & ?). auto.
    + apply weighted_candidates_in in Hw as (_ & ? & ?). auto.
Qed.

End Choice.

(** ** The ratios *)

Definition is_int32 (z : Z) : Prop := - 2 ^ 31 <= z < 2 ^ 31.

(** The messages carry int32 values. *)
Definition info_int32 (i : GetWorkerInfoResponse) : Prop :=
  is_int32 (wi_CpuUsage i) /\ is_int32 (wi_MemUsage i) /\ is_int32 (wi_MemBudget i).

Definition cands_int32 (cs : list WorkerCandidate) : Prop :=
  forall c i, c ∈ cs -> wc_Info c = Some i -> info_int32 i.

(** The quotient of positive numbers is not below 0: it has no sign. *)
Lemma usageRatio_pos u b :
  0 < u < 2 ^ 31 -> 0 < b < 2 ^ 31 -> usageRatio u b = f_div (float64 u) (float64 b).
Proof.
  intros Hu Hb. unfold usageRatio. destruct (Z.leb_spec u 0); [lia|].
  destruct (Z.leb_spec b 0); [lia|]. cbv zeta.
  destruct (quotient u b Hu Hb) as (q & e & l & -> & Hq & _).
  assert (0 <= q) as Hq0.
  { rewrite Hq. pose proof (Z.pow_nonneg 2 (- e)). apply Z.div_pos; lia. }
  destruct (round_aux_spec false q e l Hq0) as (m2 & _ & _ & ->). cbv zeta.
  destruct (m2 / _) as [|p|p]; [done| |done]. by destruct (_ <=? 971).
Qed.

(** What is compared to what: memory to its budget, CPU to 100, and 100 is the budget of
    a worker that declares none. *)
Definition budget_or_100 (budget : Z) : Z := if budget <=? 0 then 100 else budget.

Lemma usageRatio_lt_1 u b :
  is_int32 u -> is_int32 b -> f_lt (usageRatio u b) f_1 = (u <? budget_or_100 b).
Proof.
  unfold is_int32, budget_or_100. intros Hu Hb. destruct (Z.leb_spec u 0) as [H|H].
  - unfold usageRatio. destruct (Z.leb_spec u 0); [|lia].
    symmetry. apply Z.ltb_lt. case_match; lia.
  - destruct (Z.leb_spec b 0) as [H'|H'].
    + unfold usageRatio. destruct (Z.leb_spec u 0); [lia|]. destruct (Z.leb_spec b 0); [|lia].
      apply (div_lt_1 u 100); lia.
    + rewrite usageRatio_pos by lia. apply div_lt_1; lia.
Qed.

Lemma below_usageRatio u b : is_int32 u -> is_int32 b -> below 32 (usageRatio u b).
Proof.
  unfold is_int32. intros Hu Hb. destruct (Z.leb_spec u 0) as [H|H].
  - unfold usageRatio. by destruct (Z.leb_spec u 0); [|lia].
  - destruct (Z.leb_spec b 0) as [H'|H'].
    + unfold usageRatio. destruct (Z.leb_spec u 0); [lia|]. destruct (Z.leb_spec b 0); [|lia].
      apply (below_div u 100); lia.
    + rewrite usageRatio_pos by lia. apply below_div; lia.
Qed.

Lemma WorkerLoadScore_lt_Max i :
  info_int32 i -> f_lt (WorkerLoadScore (Some i)) MaxFloat64 = true.
Proof.
  intros (Hc & Hm & Hb). apply (below_lt_Max 35); [lia|].
  apply (below_add 33); [lia| |]; apply (below_mul 0 32); try lia.
  - by vm_compute.
  - by apply below_usageRatio.
  - by vm_compute.
  - by apply below_usageRatio.
Qed.

(** [pickLeastUsed] finds one as soon as one is considered. *)
Lemma least_used_from_some activeOnly score best cs :
  is_Some best -> is_Some (least_used_from activeOnly score best cs).
Proof.
  revert score best. induction cs as [|c cs IH]; intros score best Hb; simpl; [done|].
  destruct (considered _ _); [|by apply IH]. destruct (f_lt _ _); by apply IH.
Qed.

Lemma pickLeastUsed_some activeOnly cs c :
  cands_int32 cs -> c ∈ cs -> considered activeOnly c = true ->
  is_Some (pickLeastUsed cs activeOnly).
Proof.
  unfold pickLeastUsed. induction cs as [|c0 cs IH]; intros Hi Hin Hc; simpl; [by apply not_elem_of_nil in Hin|].
  assert (considered activeOnly c0 = true ->
          f_lt (WorkerLoadScore (wc_Info c0)) MaxFloat64 = true) as Hmax.
  { unfold considered. destruct (wc_Info c0) as [i|] eqn:Ei; [|done]. intros _.
    apply WorkerLoadScore_lt_Max, (Hi c0); [left|done]. }
  destruct (considered activeOnly c0) eqn:Ec0.
  - rewrite Hmax by done. by apply least_used_from_some.
  - apply elem_of_cons in Hin as [->|Hin]; [congruence|]. apply IH; [|done|done].
    intros c' i' Hc'. apply Hi. by right.
Qed.

(** ** The choice *)

Definition has_active (cs : list WorkerCandidate) : Prop :=
  exists c, c ∈ cs /\ considered true c = true.
Definition has_eligible (cs : list WorkerCandidate) : Prop :=
  exists c, c ∈ cs /\ eligible c = true.

(** An eligible worker when there is one; the fleet is full when workers are active
    and none is eligible; otherwise any worker that answered. *)
Definition choice_ok (cs : list WorkerCandidate) (r : result error WorkerCandidate) : Prop :=
  match r with
  | Ok c => c ∈ cs /\ (eligible c = true \/ (considered false c = true /\ ~ has_active cs))
  | Err e =>
      ~ has_eligible cs
      /\ ((e = Sentinel Orchestrator_ErrClusterFull /\ has_active cs)
          \/ (e = Sentinel Orchestrator_ErrNoWorkerCandidates
              /\ forall c, c ∈ cs -> wc_Info c = None))
  end.

Lemma eligible_considered c : eligible c = true -> considered true c = true.
Proof. unfold eligible, considered. case_match; [|done]. by intros [-> _]%andb_true_iff. Qed.

Lemma existsb_elem {X} (p : X -> bool) (l : list X) : existsb p l = true <-> exists x, x ∈ l /\ p x = true.
Proof. rewrite existsb_exists. by setoid_rewrite list_elem_of_In. Qed.

Lemma with_capacity_in (cs : list WorkerCandidate) c :
  c ∈ filter (fun c => eligible c = true) cs <-> c ∈ cs /\ eligible c = true.
Proof. rewrite list_elem_of_filter. tauto. Qed.

(** Nothing is picked only when nothing is considered. *)
Lemma pick_none activeOnly cs :
  cands_int32 cs ->
  weighted_candidates cs activeOnly = [] \/ pickLeastUsed cs activeOnly = None ->
  forall c, c ∈ cs -> considered activeOnly c = false.
Proof.
  intros Hi H c Hc. apply not_true_iff_false. intros Hcon. destruct H as [H|H].
  - apply (not_elem_of_nil (c, clean_weight c)). rewrite <- H. by apply weighted_candidates_in.
  - destruct (pickLeastUsed_some _ _ _ Hi Hc Hcon). congruence.
Qed.

Section Choose.

Context (Flt : fault -> Prop) (I : DB -> Prop) (R G : DB -> DB -> Prop).

Lemma wp_fallback cs Q db :
  cands_int32 cs -> ~ has_active cs -> ~ has_eligible cs -> (forall r, choice_ok cs r -> Q r db) ->
  wp Flt I R G (bestAny <-- pickWeightedRandom cs false ;;
                match bestAny with
                | Some c => Ret (Ok c)
                | None => Ret (Err (Sentinel Orchestrator_ErrNoWorkerCandidates))
                end)%prog Q db.
Proof.
  intros Hi Ha He HQ. apply wp_bind, wp_pickWeightedRandom.
  - intros c Hc Hcon. apply HQ. split; [done|]. by right.
  - intros Hn. apply HQ. split; [done|]. right. split; [done|]. intros c Hc.
    pose proof (pick_none _ _ Hi Hn c Hc) as Hf. unfold considered in Hf. by destruct (wc_Info c).
Qed.

Lemma wp_ChooseLeastUsedWorker cs Q db :
  cands_int32 cs -> (forall r, choice_ok cs r -> Q r db) ->
  wp Flt I R G (ChooseLeastUsedWorker cs) Q db.
Proof.
  intros Hi HQ. unfold ChooseLeastUsedWorker. destruct cs as [|c0 cs'] eqn:Ecs.
  { apply HQ. split; [|right; split; [done|]]; [intros (c & Hc & _)|intros c Hc];
      by apply not_elem_of_nil in Hc. }
  rewrite <- Ecs in *. clear Ecs c0 cs'. cbv zeta.
  set (cap := filter (fun c => eligible c = true) cs).
  assert (cap = [] -> ~ has_eligible cs) as Hne.
  { intros E (c & Hc & He). apply (not_elem_of_nil c). rewrite <- E. by apply with_capacity_in. }
  destruct (bool_decide_reflect (cap = [])) as [Ecap|Ecap]; cycle 1.
  - rewrite andb_false_r. apply wp_bind, wp_pickWeightedRandom.
    + intros c [Hc Hel]%with_capacity_in _. apply HQ. split; auto.
    + intros Hn. exfalso. destruct cap as [|c cap'] eqn:E; [done|].
      assert (c ∈ cap) as [Hc Hel]%with_capacity_in by (rewrite E; left).
      rewrite <- E in Hn. assert (cands_int32 cap) as Hi'.
      { intros c' i' [Hc' _]%with_capacity_in. by apply Hi. }
      pose proof (pick_none true cap Hi' Hn c) as Hf. apply eligible_considered in Hel.
      rewrite Hel in Hf. discriminate Hf. rewrite E. left.
  - destruct (existsb (considered true) cs) eqn:Eex; simpl.
    + apply existsb_elem in Eex. apply HQ. split; [auto|]. by left.
    + rewrite Ecap. cbn [pickWeightedRandom weighted_candidates bind filter list_filter fmap list_fmap].
      apply wp_fallback; [done| |auto|done].
      intros Ha. apply (existsb_elem (considered true)) in Ha. congruence.
Qed.

(** Whatever the workers answered, the choice is one of the candidates. *)
Lemma wp_Choose_in cs Q db :
  (forall c, c ∈ cs -> Q (Ok c) db) -> (forall e, Q (Err e) db) ->
  wp Flt I R G (ChooseLeastUsedWorker cs) Q db.
Proof.
  intros HO HE. unfold ChooseLeastUsedWorker. destruct cs as [|c0 cs'] eqn:Ecs; [apply HE|].
  rewrite <- Ecs in *. clear Ecs c0 cs'. cbv zeta. destruct (_ && _); [apply HE|].
  apply wp_bind, wp_pickWeightedRandom; [by intros c [Hc _]%with_capacity_in _; apply HO|].
  intros _. apply wp_bind, wp_pickWeightedRandom; [by intros c Hc _; apply HO|].
  intros _. apply HE.
Qed.

End Choose.

(** ** Properties *)

(** C27: the scheduler chooses well.  Whatever the draws, the choice is one of the
    candidates; it is an eligible one (active, with CPU and memory left) whenever some
    candidate is active; the error is [ErrClusterFull] exactly when workers are active and
    none is eligible, and [ErrNoWorkerCandidates] only when no candidate answered.  The
    weights and scores are computed in binary64. *)
Theorem choice_is_sound s cs faults draws db :
  cands_int32 cs ->
  choice_ok cs (run s (ChooseLeastUsedWorker cs) faults draws db).1
  /\ (run s (ChooseLeastUsedWorker cs) faults draws db).2 = db.
Proof.
  intros Hi.
  apply (wp_run (fun _ => True) (fun _ => True) eq eq s (ChooseLeastUsedWorker cs)
           (fun r db' => choice_ok cs r /\ db' = db) faults draws db).
  1-2: done.
  - by apply Forall_true.
  - apply wp_ChooseLeastUsedWorker; auto.
Qed.

(** Two active workers, the first with its memory used up, and a roll near 1. *)
Definition two_candidates : list WorkerCandidate :=
  let w id := mkWorker id "10.0.0.1" 50051 WorkerStatusActive 4 4096 2 1 0 0 0 0 in
  [mkCandidate (w "w1"%string) (Some (mkInfo "w1" "10.0.0.1" "active" 4 4096 2 10 4096 0));
   mkCandidate (w "w2"%string) (Some (mkInfo "w2" "10.0.0.2" "active" 4 4096 2 99 4095 0))].

Lemma choice_is_sound_witness :
  let s := mkScript (mkEnv 0 ∅) 0 (fun _ _ _ => Err (NewError "unused")) in
  choice_ok two_candidates
    (run s (ChooseLeastUsedWorker two_candidates) [] [f_div (float64 999) (float64 1000)] empty_DB).1
  /\ (run s (ChooseLeastUsedWorker two_candidates) [] [f_div (float64 999) (float64 1000)] empty_DB).1
     = Ok (mkCandidate (mkWorker "w2" "10.0.0.1" 50051 WorkerStatusActive 4 4096 2 1 0 0 0 0)
             (Some (mkInfo "w2" "10.0.0.2" "active" 4 4096 2 99 4095 0))).
Proof.
  intros s. split; [|vm_compute; reflexivity].
  apply (choice_is_sound s two_candidates [] [f_div (float64 999) (float64 1000)] empty_DB).
  intros c i Hc Hi. unfold two_candidates in Hc.
  apply elem_of_cons in Hc as [->|Hc]; [|apply list_elem_of_singleton in Hc as ->];
    injection Hi as <-; unfold info_int32, is_int32; simpl; lia.
Defined.

(** C28: the binary64 test of [hasCapacity] is exact.  A worker has capacity when its CPU
    load is below 100 percent and its memory use below its budget, as integers: rounding
    never makes a worker with a little memory left look full, nor a full one look free.
    A worker that declares no memory budget is judged on 100. *)
Theorem hasCapacity_exact info :
  info_int32 info ->
  hasCapacity info
  = (wi_CpuUsage info <? 100) && (wi_MemUsage info <? budget_or_100 (wi_MemBudget info)).
Proof.
  intros (Hc & Hm & Hb). unfold hasCapacity.
  rewrite (usageRatio_lt_1 (wi_CpuUsage info) cpuUsageScale), usageRatio_lt_1; [done|done|done|done|].
  unfold is_int32, cpuUsageScale. lia.
Qed.

Lemma hasCapacity_exact_witness :
  hasCapacity (mkInfo "w" "a" "active" 4 2147483647 2 99 2147483646 0) = true
  /\ hasCapacity (mkInfo "w" "a" "active" 4 2147483647 2 99 2147483647 0) = false.
Proof.
  split.
  - rewrite (hasCapacity_exact (mkInfo "w" "a" "active" 4 2147483647 2 99 2147483646 0));
      [reflexivity|unfold info_int32, is_int32; simpl; lia].
  - rewrite (hasCapacity_exact (mkInfo "w" "a" "active" 4 2147483647 2 99 2147483647 0));
      [reflexivity|unfold info_int32, is_int32; simpl; lia].
Defined.
