(* ===== verification/Jobs.v ===== *)
(** * The River jobs of the orchestrator

    internal/packages/orchestrator: create_sandbox_worker.go, cleanup_sandbox_worker.go,
    remove_sandbox.go, remove_orphan_worker.go, reap_sandbox.go, reap_workers.go and
    retry_policy.go.  A job's [Work] returns a Go [error]: [None] is nil (River
    completes the job), [Some (JobCancel _)] cancels it, any other error is retried
    until the attempts run out.

    The steps of the create job are separate database round trips: anything may happen
    to the sandbox between two of them.  Timeouts of the worker calls show as errors of
    the call. *)

From Stdlib Require Import ZArith Lia.
From stdpp Require Import base tactics option list gmap strings numbers.
From S2P Require Import Prelude GoStd Database SandboxRepo WorkerRepo Program Scheduler.

Open Scope Z_scope.

Record Job (A : Type) : Type := mkJob {
  job_Args : A;
  job_Attempt : Z;
  job_MaxAttempts : Z;
}.

Arguments mkJob {A} _ _ _.
Arguments job_Args {A} _.
Arguments job_Attempt {A} _.
Arguments job_MaxAttempts {A} _.

Definition isFinalAttempt {A} (job : Job A) : bool := job_MaxAttempts job <=? job_Attempt job.

(** ** Timeouts *)
Definition candidatesTimeout : Z := 5 * Second.
Definition defaultCreateSandboxCallTimeout : Z := 45 * Second.
Definition defaultRemoveSandboxCallTimeout : Z := 15 * Second.
Definition JobTimeout : Z := candidatesTimeout + defaultCreateSandboxCallTimeout + 30 * Second.

(** ** create_sandbox_worker.go *)

(** [&river.InsertOpts{Queue: "cleanup"}] with [CleanupSandboxArgs]. *)
Definition cleanupInsert (sandboxID target : string) : JobInsert :=
  mkJobInsert (JobCleanup {| cl_SandboxID := sandboxID; cl_TargetStatus := target |})
    "cleanup" None.

(** [(done, err)]. *)
Definition settled (sbx : Sandbox) : bool * option error :=
  match sb_Status sbx with
  | StatusRunning => (true, None)
  | StatusStopped | StatusFailed | StatusCleanupPending | StatusCleanedUp =>
      (true, Some (JobCancel (NewError ("sandbox " +:+ sb_ID sbx +:+ " ended as "
                                          +:+ Status_string (sb_Status sbx)
                                          +:+ " before it came up"))))
  | _ => (false, None)
  end.

(** The transaction of [maybeCleanup]. *)
Definition maybeCleanup_tx (sandboxID : string) : tx unit :=
  (_ <-tx UpdateStatus sandboxID StatusCleanupPending
            [StatusPending; StatusScheduling; StatusAssigned; StatusStarting; StatusRunning] ;;
   InsertTx (cleanupInsert sandboxID EmptyString))%tx.

Definition maybeCleanup (sandboxID : string) (isFinal : bool) (origErr : error)
    : prog (option error) :=
  if negb isFinal then Ret (Some origErr)
  else (r <-db maybeCleanup_tx sandboxID ;;
        match r with
        | Err _ => Ret (Some origErr)
        | Ok _ => Ret (Some (JobCancel
                    (Wrap ("max attempts exhausted for sandbox=" +:+ sandboxID +:+ ": ") origErr)))
        end)%prog.

Definition movedUnder (sandboxID step : string) (isFinal : bool) : prog (option error) :=
  (r <-db GetByID sandboxID ;;
   match r with
   | Err e => maybeCleanup sandboxID isFinal e
   | Ok sbx =>
       match settled sbx with
       | (true, err) => Ret err
       | (false, _) =>
           maybeCleanup sandboxID isFinal
             (NewError ("sandbox " +:+ sandboxID +:+ " moved to "
                          +:+ Status_string (sb_Status sbx) +:+ " during " +:+ step))
       end
   end)%prog.

Definition stepAcknowledge (sandboxID : string) (isFinal : bool) : prog (option error) :=
  (r <-db GetByID sandboxID ;;
   match r with
   | Err e => maybeCleanup sandboxID isFinal e
   | Ok sbx =>
       match settled sbx with
       | (true, err) => Ret err
       | (false, _) =>
           u <-db UpdateStatus sandboxID StatusRunning [StatusStarting] ;;
           match u with
           | Err e => maybeCleanup sandboxID isFinal (Wrap "set running: " e)
           | Ok (_, n) =>
               if n =? 0 then movedUnder sandboxID "acknowledgement" isFinal else Ret None
           end
       end
   end)%prog.

Definition createRequest (sbx : Sandbox) : CreateSandboxRequest :=
  mkCreateRequest (sb_ID sbx) (sb_Runtime sbx) (sb_Image sbx) (sb_Port sbx) (sb_TTL sbx)
    (sb_PreviewURL sbx) (sb_VcpuCount sbx) (sb_MemSizeMib sbx).

Definition stepStartSandbox (sbx : Sandbox) (isFinal : bool) : prog (option error) :=
  match sb_WorkerID sbx with
  | None => maybeCleanup (sb_ID sbx) isFinal
              (NewError "sandbox has no worker_id at assigned step")
  | Some wid =>
      (w <-db WorkerRepo.Get wid ;;
       match w with
       | Err e => maybeCleanup (sb_ID sbx) isFinal (Wrap ("get worker " +:+ wid +:+ ": ") e)
       | Ok worker =>
           let address := normalizeWorkerAddress (wk_Address worker) (int32 (wk_Port worker)) in
           Rpc address Dial (fun c =>
           match c with
           | Err e => maybeCleanup (sb_ID sbx) isFinal
                        (Wrap ("connect worker " +:+ wid +:+ ": ") e)
           | Ok _ =>
               Rpc address (CallCreateSandbox (createRequest sbx)) (fun g =>
               match g with
               | Err e => maybeCleanup (sb_ID sbx) isFinal (Wrap "worker CreateSandbox: " e)
               | Ok _ =>
                   u <-db UpdateStatus (sb_ID sbx) StatusStarting [StatusAssigned] ;;
                   match u with
                   | Err e => maybeCleanup (sb_ID sbx) isFinal (Wrap "set starting: " e)
                   | Ok _ => stepAcknowledge (sb_ID sbx) isFinal
                   end
               end)
           end)
       end)%prog
  end.

(** [buildCandidates]: the workers with a fresh heartbeat that answer. *)
Fixpoint buildCandidates (ws : list Worker) : prog (list WorkerCandidate) :=
  match ws with
  | [] => Ret []
  | w :: rest =>
      Now (fun now =>
        if HeartbeatExpired now (wk_Last_heartbeat w) 0 then buildCandidates rest
        else
          let addr := normalizeWorkerAddress (wk_Address w) (int32 (wk_Port w)) in
          Rpc addr Dial (fun c =>
          match c with
          | Err _ => buildCandidates rest
          | Ok _ =>
              Rpc addr CallGetWorkerInfo (fun i =>
              match i with
              | Err _ => buildCandidates rest
              | Ok info => (cs <-- buildCandidates rest ;;
                            Ret (mkCandidate w (Some info) :: cs))%prog
              end)
          end))
  end.

(** [slices.DeleteFunc]: every candidate of that worker goes. *)
Definition dropWorker (id : string) (cs : list WorkerCandidate) : list WorkerCandidate :=
  filter (fun c => wk_ID (wc_Worker c) <> id) cs.

(** How the loop of [stepAssign] ends: a return, a break with the assigned sandbox,
    or (never, see [assign_loop_fuel]) exhausted fuel. *)
Inductive loop_exit : Type :=
| LoopReturn (err : option error)
| LoopBreak (assigned : Sandbox)
| LoopOutOfFuel.

Fixpoint assign_loop (fuel : nat) (sandboxID : string) (isFinal droppedFull : bool)
    (candidates : list WorkerCandidate) : prog loop_exit :=
  match fuel with
  | O => Ret LoopOutOfFuel
  | S n =>
      (r <-- ChooseLeastUsedWorker candidates ;;
       match r with
       | Err err =>
           let quit final err := (e <-- maybeCleanup sandboxID final err ;; Ret (LoopReturn e))%prog in
           if errors_Is err Orchestrator_ErrClusterFull
           then quit true (Wrap "choose worker: " err)
           else if droppedFull && errors_Is err Orchestrator_ErrNoWorkerCandidates
           then quit true (Wrap "choose worker: " (Sentinel Orchestrator_ErrClusterFull))
           else quit isFinal (Wrap "choose worker: " err)
       | Ok chosen =>
           a <-db AssignWorker sandboxID (wk_ID (wc_Worker chosen)) ;;
           match a with
           | Err err =>
               if errors_Is err Sandbox_ErrWorkerFull
               then assign_loop n sandboxID isFinal true
                      (dropWorker (wk_ID (wc_Worker chosen)) candidates)
               else e <-- maybeCleanup sandboxID isFinal (Wrap "assign worker: " err) ;;
                    Ret (LoopReturn e)
           | Ok assigned => Ret (LoopBreak assigned)
           end
       end)%prog
  end.

Definition stepAssign (sbx : Sandbox) (isFinal : bool) : prog (option error) :=
  match sb_WorkerID sbx with
  | Some _ => stepStartSandbox sbx isFinal
  | None =>
      (ws <-db WorkerRepo.List_ ;;
       match ws with
       | Err e => maybeCleanup (sb_ID sbx) isFinal (Wrap "list workers: " e)
       | Ok ws =>
           candidates <-- buildCandidates ws ;;
           out <-- assign_loop (S (length candidates)) (sb_ID sbx) isFinal false candidates ;;
           match out with
           | LoopReturn err => Ret err
           | LoopBreak assigned =>
               match sb_WorkerID assigned with
               | None => movedUnder (sb_ID sbx) "assignment" isFinal
               | Some _ => stepStartSandbox assigned isFinal
               end
           | LoopOutOfFuel => Ret (Some (NewError "out of fuel"))
           end
       end)%prog
  end.

Definition stepScheduling (sandboxID : string) (isFinal : bool) : prog (option error) :=
  (u <-db UpdateStatus sandboxID StatusScheduling [StatusPending] ;;
   match u with
   | Err e => maybeCleanup sandboxID isFinal (Wrap "set scheduling: " e)
   | Ok (_, n) =>
       if n =? 0 then movedUnder sandboxID "scheduling" isFinal
       else r <-db GetByID sandboxID ;;
            match r with
            | Err e => maybeCleanup sandboxID isFinal e
            | Ok sbx => stepAssign sbx isFinal
            end
   end)%prog.

(** [CreateSandboxWorker.Work]. *)
Definition CreateSandboxWorker_Work (job : Job CreateSandboxArgs) : prog (option error) :=
  let sandboxID := cr_SandboxID (job_Args job) in
  let isFinal := isFinalAttempt job in
  (r <-db GetByID sandboxID ;;
   match r with
   | Err e => Ret (Some (Wrap ("get sandbox " +:+ sandboxID +:+ ": ") e))
   | Ok sbx =>
       match sb_Status sbx with
       | StatusPending => stepScheduling sandboxID isFinal
       | StatusScheduling => stepAssign sbx isFinal
       | StatusAssigned => stepStartSandbox sbx isFinal
       | StatusStarting => stepAcknowledge sandboxID isFinal
       | StatusRunning | StatusStopped | StatusFailed | StatusCleanupPending
       | StatusCleanedUp => Ret (settled sbx).2
       | StatusOther s => Ret (Some (NewError ("unexpected sandbox status " +:+ s
                                                 +:+ " for sandbox " +:+ sandboxID)))
       end
   end)%prog.

(** ** remove_sandbox.go *)
Definition removeSandboxOnWorker (workerID sandboxID : string) : prog (option error) :=
  (w <-db WorkerRepo.Get workerID ;;
   match w with
   | Err e => Ret (Some (Wrap ("get worker " +:+ workerID +:+ ": ") e))
   | Ok worker =>
       let address := normalizeWorkerAddress (wk_Address worker) (int32 (wk_Port worker)) in
       Rpc address Dial (fun c =>
       match c with
       | Err e => Ret (Some (Wrap ("connect worker " +:+ workerID +:+ ": ") e))
       | Ok _ =>
           Rpc address (CallRemoveSandbox sandboxID) (fun g =>
           match g with
           | Ok _ => Ret None
           | Err e => if bool_decide (status_Code e = NotFound) then Ret None
                      else Ret (Some (Wrap ("remove sandbox " +:+ sandboxID +:+ " on worker "
                                              +:+ workerID +:+ ": ") e))
           end)
       end)
   end)%prog.

(** ** cleanup_sandbox_worker.go *)

(** The end of [Work]: clears [worker_id] if there was one, then sets [target]. *)
Definition cleanup_finish (sandboxID : string) (target : Status) : prog (option error) :=
  (u <-db UpdateStatus sandboxID target
            [StatusCleanupPending; StatusPending; StatusScheduling; StatusAssigned;
             StatusStarting; StatusRunning] ;;
   match u with
   | Err e => Ret (Some (Wrap ("cleanup: set " +:+ Status_string target +:+ " for sandbox="
                                 +:+ sandboxID +:+ ": ") e))
   | Ok _ => Ret None
   end)%prog.

Definition cleanup_clear (sandboxID : string) (target : Status) : prog (option error) :=
  (c <-db ClearWorker sandboxID ;;
   match c with
   | Err e => Ret (Some (Wrap ("cleanup: clear worker_id for sandbox=" +:+ sandboxID +:+ ": ") e))
   | Ok _ => cleanup_finish sandboxID target
   end)%prog.

Definition cleanup_target (a : CleanupSandboxArgs) : Status :=
  if bool_decide (cl_TargetStatus a = EmptyString) then StatusFailed
  else Status_of_string (cl_TargetStatus a).

Definition CleanupSandboxWorker_Work (job : Job CleanupSandboxArgs) : prog (option error) :=
  let sandboxID := cl_SandboxID (job_Args job) in
  (r <-db GetByID sandboxID ;;
   match r with
   | Err e => Ret (Some (Wrap ("cleanup: get sandbox " +:+ sandboxID +:+ ": ") e))
   | Ok sbx =>
       match sb_Status sbx with
       | StatusFailed | StatusStopped | StatusCleanedUp => Ret None
       | _ =>
           let target := cleanup_target (job_Args job) in
           match sb_WorkerID sbx with
           | None => cleanup_finish sandboxID target
           | Some wid =>
               err <-- removeSandboxOnWorker wid sandboxID ;;
               match err with
               | Some e =>
                   if negb (isFinalAttempt job)
                   then Ret (Some (Wrap ("cleanup: sandbox=" +:+ sandboxID +:+ ": ") e))
                   else cleanup_clear sandboxID StatusFailed
               | None => cleanup_clear sandboxID target
               end
           end
       end
   end)%prog.

(** ** remove_orphan_worker.go *)
Definition RemoveOrphanArgs_InsertOpts : string * list JobState :=
  ("cleanup"%string,
   [JobStateAvailable; JobStatePending; JobStateRetryable; JobStateRunning; JobStateScheduled]).

Definition orphanInsert (workerID sandboxID : string) : JobInsert :=
  mkJobInsert (JobRemoveOrphan {| ro_WorkerID := workerID; ro_SandboxID := sandboxID |})
    RemoveOrphanArgs_InsertOpts.1 (Some RemoveOrphanArgs_InsertOpts.2).

Definition RemoveOrphanWorker_Work (job : Job RemoveOrphanArgs) : prog (option error) :=
  removeSandboxOnWorker (ro_WorkerID (job_Args job)) (ro_SandboxID (job_Args job)).

(** ** reap_sandbox.go *)
Definition cleanupParams (sandboxID : string) (target : Status) : JobInsert :=
  cleanupInsert sandboxID (Status_string target).

Record ReapSandboxWorker : Type := mkReapSandbox {
  rs_livenessTimeout : Z;
  rs_workerLostTimeout : Z;
  rs_createTimeout : Z;
}.

(** The transaction of [Work]; with nothing to claim it is rolled back. *)
Definition reap_sandbox_tx (w : ReapSandboxWorker) : tx unit :=
  fun env db =>
    (expired <-tx ClaimTTLExpired ;;
     dead <-tx ClaimLivenessExpired (rs_livenessTimeout w) (rs_workerLostTimeout w) ;;
     stalled <-tx (if 0 <? rs_createTimeout w
                   then ClaimStalledCreation (rs_createTimeout w) else tx_ret []) ;;
     match expired ++ dead ++ stalled with
     | [] => (fun _ _ => (Ok tt, db))
     | _ :: _ =>
         InsertManyTx (((fun id => cleanupParams id StatusStopped) <$> expired)
                         ++ ((fun id => cleanupParams id StatusFailed) <$> dead)
                         ++ ((fun id => cleanupParams id StatusFailed) <$> stalled))
     end)%tx env db.

Definition ReapSandboxWorker_Work (w : ReapSandboxWorker) : prog (option error) :=
  (r <-db reap_sandbox_tx w ;;
   match r with
   | Err e => Ret (Some (Wrap "reap sandbox: " e))
   | Ok _ => Ret None
   end)%prog.

(** ** reap_workers.go *)
Definition ReapWorkersWorker_Work (timeout : Z) : prog (option error) :=
  (r <-db MarkStaleInactive timeout ;;
   match r with
   | Err e => Ret (Some (Wrap "reap workers: " e))
   | Ok _ => Ret None
   end)%prog.

(** ** retry_policy.go *)

(** The delay before the next attempt, in [int64] arithmetic: a shift of 64 bits or
    more gives 0. *)
Definition retry_backoff (errors : Z) : Z :=
  let attempt := errors + 1 in
  let backoff := int64 (int64 (Z.shiftl 1 attempt) * Second) in
  if 30 * Second <? backoff then 30 * Second else backoff.

Definition NextRetry (now errors : Z) : Z := now + retry_backoff errors.

(** ** The retry policy *)

Lemma retry_backoff_table :
  forallb (fun n => retry_backoff (Z.of_nat n) =? Z.min (2 ^ (Z.of_nat n + 1)) 30 * Second)
    (seq 0 33) = true.
Proof. vm_compute. reflexivity. Qed.

(** Retries back off exponentially up to half a minute.  After [n] failed attempts
    the next one waits the smaller of 2^(n+1) and 30 seconds, in 64-bit arithmetic, for
    every [n] up to 32; past that the shift and the product leave the int64 range (after
    33 failures the delay is negative). *)
Lemma retry_backoff_capped n :
  0 <= n <= 32 ->
  retry_backoff n = Z.min (2 ^ (n + 1)) 30 * Second
  /\ Second <= retry_backoff n <= 30 * Second /\ retry_backoff 33 < 0.
Proof.
  intros Hn. assert (retry_backoff n = Z.min (2 ^ (n + 1)) 30 * Second) as E.
  { pose proof retry_backoff_table as H. rewrite forallb_forall in H.
    specialize (H (Z.to_nat n)). rewrite Z2Nat.id in H by lia. apply Z.eqb_eq, H.
    apply in_seq. lia. }
  split; [done|]. split; [|by vm_compute]. rewrite E.
  assert (2 <= 2 ^ (n + 1)) by (rewrite Z.pow_add_r by lia; pose proof (Z.pow_pos_nonneg 2 n); lia).
  unfold Second, Millisecond, Microsecond, Nanosecond in *. lia.
Qed.

Lemma retry_backoff_capped_witness :
  retry_backoff 3 = 16 * Second /\ retry_backoff 4 = 30 * Second.
Proof.
  split.
  - rewrite (proj1 (retry_backoff_capped 3 ltac:(lia))). reflexivity.
  - rewrite (proj1 (retry_backoff_capped 4 ltac:(lia))). reflexivity.
Defined.
