(* ===== verification/EventGRPC.v ===== *)
(** * The gRPC server the workers report to

    internal/packages/orchestrator/event_grpc.go and event_repository.go: registration,
    heartbeats with their inventory, and sandbox events, every write fenced by the
    worker's token.  The messages are those of proto/orchestrator/v1. *)

From Stdlib Require Import ZArith Lia.
From stdpp Require Import base tactics option list gmap strings numbers.
From S2P Require Import Prelude GoStd Database SandboxRepo WorkerRepo Program Jobs.

Open Scope Z_scope.

(** ** Messages *)

(** [SandboxState], an open enum: [STATE_OTHER] is any unnamed number. *)
Inductive SandboxState : Type :=
| STATE_UNSPECIFIED
| STATE_STARTING
| STATE_RUNNING
| STATE_PAUSED
| STATE_UNKNOWN
| STATE_DEAD
| STATE_OTHER (n : Z).

#[export] Instance SandboxState_eq_dec : EqDecision SandboxState.
Proof. solve_decision. Defined.

(** [state.String()]. *)
Definition SandboxState_String (s : SandboxState) : string :=
  match s with
  | STATE_UNSPECIFIED => "SANDBOX_STATE_UNSPECIFIED"
  | STATE_STARTING => "SANDBOX_STATE_STARTING"
  | STATE_RUNNING => "SANDBOX_STATE_RUNNING"
  | STATE_PAUSED => "SANDBOX_STATE_PAUSED"
  | STATE_UNKNOWN => "SANDBOX_STATE_UNKNOWN"
  | STATE_DEAD => "SANDBOX_STATE_DEAD"
  | STATE_OTHER n => Itoa n
  end.

Record SandboxInventoryEntry : Type := mkEntry {
  ie_SandboxId : string;
  ie_State : SandboxState;
}.

Record WorkerHeartbeat : Type := mkHeartbeat {
  hb_WorkerId : string;
  hb_Status : string;
  hb_Address : string;
  hb_Port : Z;
  hb_Capacity : Z;
  hb_CpuBudget : Z;
  hb_MemBudget : Z;
  hb_CpuUsage : Z;
  hb_MemUsage : Z;
  hb_FencingToken : Z;
  hb_InventoryComplete : bool;
  hb_Sandboxes : list SandboxInventoryEntry;
}.

Record SandboxEventMsg : Type := mkEventMsg {
  em_Id : string;
  em_SandboxId : string;
  em_WorkerId : string;
  em_State : SandboxState;
  em_OccurredAt : option Z;
  em_FencingToken : Z;
}.

(** ** event_repository.go *)
Record SandboxEvent : Type := mkSandboxEvent {
  se_ID : string;
  se_SandboxID : string;
  se_WorkerID : string;
  se_State : string;
  se_OccurredAt : Z;
  se_FencingToken : Z;
}.

(** [INSERT ... SELECT ... FROM worker w WHERE w.id AND w.fencing_token]; the result's
    token is not read back. *)
Definition CreateSandboxEvent (e : SandboxEvent) : tx SandboxEvent :=
  fun _ db =>
    match workers db !! se_WorkerID e with
    | Some w =>
        if wr_fencing_token w =? se_FencingToken e
        then match sandbox_events db !! se_ID e with
             | Some _ => (Err (DriverError "duplicate key value violates unique constraint"), db)
             | None =>
                 (Ok (mkSandboxEvent (se_ID e) (se_SandboxID e) (se_WorkerID e) (se_State e)
                        (se_OccurredAt e) 0),
                  set_events (<[se_ID e := mkEventRow (se_SandboxID e) (se_WorkerID e)
                                 (se_State e) (se_OccurredAt e)]> (sandbox_events db)) db)
             end
        else (Err (Sentinel Orchestrator_ErrEventFenced), db)
    | None => (Err (Sentinel Orchestrator_ErrEventFenced), db)
    end.

(** ** event_grpc.go *)

Definition stateName (state : SandboxState) : string :=
  ToLower (TrimPrefix (SandboxState_String state) "SANDBOX_STATE_").

Definition statusTransitionForState (state : SandboxState) : option (Status * list Status) :=
  match state with
  | STATE_RUNNING => Some (StatusRunning, [StatusStarting; StatusRunning])
  | _ => None
  end.

Definition applyStatusFromState (sandboxID workerID : string) (token : Z) (state : SandboxState)
    : prog unit :=
  match statusTransitionForState state with
  | None => Ret tt
  | Some (target, allowedFrom) =>
      (_ <-db UpdateStatusFenced sandboxID workerID token target allowedFrom ;; Ret tt)%prog
  end.

(** The result is the error of the call; [uuid] is the fresh id drawn when the event
    has none. *)
Definition IngestSandboxEvent (uuid : string) (req : option SandboxEventMsg)
    : prog (option error) :=
  let invalid msg := Ret (Some (StatusError InvalidArgument msg)) in
  match req with
  | None => invalid "missing sandbox event"
  | Some req =>
      let trimmed := TrimSpace (em_Id req) in
      let eventID := if bool_decide (trimmed = EmptyString) then uuid else trimmed in
      Now (fun now =>
      let occurredAt := default now (em_OccurredAt req) in
      let sandboxID := TrimSpace (em_SandboxId req) in
      let workerID := TrimSpace (em_WorkerId req) in
      let state := em_State req in
      let token := em_FencingToken req in
      if bool_decide (sandboxID = EmptyString) then invalid "sandbox_id is required"
      else if bool_decide (workerID = EmptyString) || bool_decide (state = STATE_UNSPECIFIED)
      then invalid "missing required fields"
      else if token <=? 0 then invalid "fencing_token is required"
      else
        (r <-db CreateSandboxEvent (mkSandboxEvent eventID sandboxID workerID
                                      (stateName state) occurredAt token) ;;
         match r with
         | Err e =>
             if errors_Is e Orchestrator_ErrEventFenced
             then Ret (Some (StatusError FailedPrecondition
                               "worker is not registered or its fencing token is stale"))
             else Ret (Some (StatusError Internal "store sandbox event"))
         | Ok _ =>
             _ <-- applyStatusFromState sandboxID workerID token state ;;
             Ret None
         end)%prog)
  end.

Definition workerFromHeartbeat (now : Z) (req : WorkerHeartbeat) : Worker :=
  let status :=
    if bool_decide (hb_Status req = WorkerStatusActive)
       || bool_decide (hb_Status req = WorkerStatusInactive)
    then hb_Status req else WorkerStatusActive in
  NewWorkerFromHeartbeat now
    (mkHeartbeatParams (TrimSpace (hb_WorkerId req)) status (hb_Address req) (hb_Port req)
       (hb_Capacity req) (hb_CpuBudget req) (hb_MemBudget req) (hb_CpuUsage req)
       (hb_MemUsage req) (hb_FencingToken req)).

Definition missing_worker_id (req : WorkerHeartbeat) : bool :=
  bool_decide (TrimSpace (hb_WorkerId req) = EmptyString).

(** Returns the new fencing token. *)
Definition RegisterWorker (req : option WorkerHeartbeat) : prog (result error Z) :=
  let invalid := Ret (Err (StatusError InvalidArgument "worker_id is required")) in
  match req with
  | None => invalid
  | Some req =>
      if missing_worker_id req then invalid
      else Now (fun now =>
        (r <-db WorkerRepo.Register (workerFromHeartbeat now req) ;;
         match r with
         | Err _ => Ret (Err (StatusError Internal "register worker"))
         | Ok w => Ret (Ok (wk_FencingToken w))
         end)%prog)
  end.

Definition heartbeatError (err : error) : error :=
  if errors_Is err Worker_ErrFenced
  then StatusError FailedPrecondition "worker fencing token is stale"
  else if errors_Is err Worker_ErrWorkerUnknown
  then StatusError NotFound "worker unknown, register again"
  else StatusError Internal "heartbeat".

(** [inventoryFromEntries]: the first entry of an id wins. *)
Definition inventory_add (id : string) (state : SandboxState) (inv : Inventory) : Inventory :=
  match state with
  | STATE_RUNNING =>
      mkInventory (inv_Live inv) (inv_Running inv ++ [id]) (inv_Unknown inv) (inv_Dead inv)
  | STATE_STARTING | STATE_PAUSED =>
      mkInventory (inv_Live inv ++ [id]) (inv_Running inv) (inv_Unknown inv) (inv_Dead inv)
  | STATE_DEAD =>
      mkInventory (inv_Live inv) (inv_Running inv) (inv_Unknown inv) (inv_Dead inv ++ [id])
  | _ =>
      mkInventory (inv_Live inv) (inv_Running inv) (inv_Unknown inv ++ [id]) (inv_Dead inv)
  end.

Fixpoint inventory_loop (seen : gset string) (inv : Inventory)
    (entries : list SandboxInventoryEntry) : Inventory :=
  match entries with
  | [] => inv
  | e :: rest =>
      let id := TrimSpace (ie_SandboxId e) in
      if bool_decide (id = EmptyString) then inventory_loop seen inv rest
      else if bool_decide (id ∈ seen) then inventory_loop seen inv rest
      else inventory_loop ({[id]} ∪ seen) (inventory_add id (ie_State e) inv) rest
  end.

Definition inventoryFromEntries (entries : list SandboxInventoryEntry) : Inventory :=
  inventory_loop ∅ (mkInventory [] [] [] []) entries.

(** The jobs [reconcileHeartbeat] enqueues. *)
Definition reconcile_params (workerID : string) (res : ReconcileResult) : list JobInsert :=
  ((fun id => cleanupParams id StatusFailed) <$> (rr_Lost res ++ rr_Dead res))
    ++ ((fun id => orphanInsert workerID id) <$> rr_Orphans res).

(** The transaction of [reconcileHeartbeat]. *)
Definition reconcile_tx (w : Worker) (inv : Inventory) : tx unit :=
  (_ <-tx WorkerRepo.Update w ;;
   first <-tx ClaimInventory (wk_ID w) (wk_FencingToken w) ;;
   res <-tx ReconcileInventory (wk_ID w) first inv ;;
   match reconcile_params (wk_ID w) res with
   | [] => tx_ret tt
   | params => InsertManyTx params
   end)%tx.

Definition reconcileHeartbeat (configured : bool) (w : Worker)
    (entries : list SandboxInventoryEntry) : prog (option error) :=
  if negb configured then Ret (Some (NewError "inventory reconciliation is not configured"))
  else (r <-db reconcile_tx w (inventoryFromEntries entries) ;;
        match r with
        | Err e => Ret (Some e)
        | Ok _ => Ret None
        end)%prog.

(** [configured]: the server was built with a pool and a River client. *)
Definition ReportWorkerHeartbeat (configured : bool) (req : option WorkerHeartbeat)
    : prog (option error) :=
  let invalid msg := Ret (Some (StatusError InvalidArgument msg)) in
  match req with
  | None => invalid "worker_id is required"
  | Some req =>
      if missing_worker_id req then invalid "worker_id is required"
      else if hb_FencingToken req <=? 0 then invalid "fencing_token is required"
      else Now (fun now =>
        let w := workerFromHeartbeat now req in
        if negb (hb_InventoryComplete req)
        then (r <-db WorkerRepo.Update w ;;
              match r with
              | Err e => Ret (Some (heartbeatError e))
              | Ok _ => Ret None
              end)%prog
        else (e <-- reconcileHeartbeat configured w (hb_Sandboxes req) ;;
              Ret (heartbeatError <$> e))%prog)
  end.
