(* ===== verification/Capacity.v ===== *)
(** * Sandbox slots

    The sizing rules of internal/packages/worker/monitoring.go: the size of a slot,
    the refusal of larger sandboxes, and how many slots a machine offers. *)

From Stdlib Require Import ZArith Lia.
From stdpp Require Import base tactics option list strings numbers.
From S2P Require Import Prelude GoStd.

Open Scope Z_scope.

Definition SandboxVcpu : Z := 1.
Definition SandboxMemMiB : Z := 256.
Definition sandboxOverheadMiB : Z := 64.
Definition memReserveMiB : Z := 384.

Definition CheckSandboxSize (vcpuCount memSizeMiB : Z) : option error :=
  if SandboxVcpu <? vcpuCount
  then Some (WrapSuf (Sentinel Worker_ErrSandboxTooLarge)
               (": vcpu_count " +:+ Itoa vcpuCount +:+ ", at most " +:+ Itoa SandboxVcpu))
  else if SandboxMemMiB <? memSizeMiB
  then Some (WrapSuf (Sentinel Worker_ErrSandboxTooLarge)
               (": mem_size_mib " +:+ Itoa memSizeMiB +:+ ", at most " +:+ Itoa SandboxMemMiB))
  else None.

(** [maxSandboxes] is the text of WORKER_MAX_SANDBOXES. *)
Definition computeCapacity (maxSandboxes : string) (cpuBudget memBudgetMiB : Z) : Z :=
  let byCPU := Z.quot cpuBudget SandboxVcpu in
  let byMem := Z.quot (memBudgetMiB - memReserveMiB) (SandboxMemMiB + sandboxOverheadMiB) in
  let capacity := Z.min byCPU byMem in
  let capacity := if capacity <? 0 then 0 else capacity in
  match Atoi maxSandboxes with
  | Some v => if 0 <? v then Z.min v capacity else capacity
  | None => capacity
  end.

(** ** What the slots guarantee *)

Lemma computeCapacity_nonneg s cpu mem : 0 <= computeCapacity s cpu mem.
Proof.
  unfold computeCapacity. case_match; repeat case_match; lia.
Qed.

(** Filling every slot with sandboxes of the largest accepted size stays within the
    CPU budget and leaves the reserve of the memory budget untouched. *)
Lemma computeCapacity_fits s cpu mem :
  0 < computeCapacity s cpu mem ->
  computeCapacity s cpu mem * SandboxVcpu <= cpu
  /\ computeCapacity s cpu mem * (SandboxMemMiB + sandboxOverheadMiB) + memReserveMiB <= mem.
Proof.
  unfold computeCapacity, SandboxVcpu, SandboxMemMiB, sandboxOverheadMiB, memReserveMiB.
  rewrite Z.quot_1_r. intros H.
  assert (Hq : 0 < Z.quot (mem - 384) 320 ->
               Z.quot (mem - 384) 320 * 320 + 384 <= mem).
  { intros Hp. destruct (Z.le_gt_cases 0 (mem - 384)) as [Hm|Hm].
    - pose proof (Z.mul_quot_le (mem - 384) 320). lia.
    - pose proof (Z.quot_opp_l (mem - 384) 320).
      pose proof (Z.quot_pos (- (mem - 384)) 320). lia. }
  change (256 + 64) with 320 in *.
  case_match; repeat case_match; lia.
Qed.

(** The totals of a list of sandbox sizes, (vCPUs, MiB). *)
Definition total_vcpu (l : list (Z * Z)) : Z := foldr (fun s acc => s.1 + acc) 0 l.
Definition total_mem (l : list (Z * Z)) : Z :=
  foldr (fun s acc => s.2 + sandboxOverheadMiB + acc) 0 l.

Lemma accepted_totals l :
  Forall (fun s => CheckSandboxSize s.1 s.2 = None) l ->
  total_vcpu l <= Z.of_nat (length l) * SandboxVcpu
  /\ total_mem l <= Z.of_nat (length l) * (SandboxMemMiB + sandboxOverheadMiB).
Proof.
  induction 1 as [|[v m] l H Hl IH]; cbn [total_vcpu total_mem foldr length]; [done|].
  unfold CheckSandboxSize in H. cbn [fst snd] in *.
  destruct (Z.ltb_spec SandboxVcpu v); [done|]. destruct (Z.ltb_spec SandboxMemMiB m); [done|].
  unfold total_vcpu, total_mem in IH. rewrite Nat2Z.inj_succ. lia.
Qed.

(** C33: the slots of a worker fit its machine.  As many sandboxes of accepted sizes as
    the worker declares slots never need more CPUs than its budget, nor more memory,
    the overhead of each microVM included, than its budget less the reserve kept for the
    host. *)
Theorem full_worker_fits maxSandboxes cpu mem l :
  0 < computeCapacity maxSandboxes cpu mem ->
  Forall (fun s => CheckSandboxSize s.1 s.2 = None) l ->
  Z.of_nat (length l) <= computeCapacity maxSandboxes cpu mem ->
  total_vcpu l <= cpu /\ total_mem l + memReserveMiB <= mem.
Proof.
  intros Hc Hl Hn. destruct (computeCapacity_fits _ _ _ Hc) as [H1 H2].
  destruct (accepted_totals l Hl) as [H3 H4].
  unfold SandboxVcpu, SandboxMemMiB, sandboxOverheadMiB in *. nia.
Qed.

Lemma full_worker_fits_witness :
  computeCapacity EmptyString 4 2048 = 4
  /\ total_mem [(1, 256); (1, 256); (1, 128); (1, 256)] + memReserveMiB <= 2048.
Proof.
  split; [reflexivity|].
  apply (full_worker_fits EmptyString 4 2048 [(1, 256); (1, 256); (1, 128); (1, 256)]).
  - reflexivity.
  - repeat constructor.
  - vm_compute. discriminate.
Defined.
