(* ===== verification/HTTP.v ===== *)
(** * The HTTP handlers of the sandboxes

    internal/packages/orchestrator/http.go.  A handler is a program that ends in a
    response.  The request's context, JSON decoding, UUIDs and the ids River gives
    its jobs are inputs; the River subscription is the list of what the handler's
    [select] receives. *)

From Stdlib Require Import ZArith Lia.
From stdpp Require Import base tactics option list gmap strings numbers.
From S2P Require Import Prelude GoStd Database SandboxRepo WorkerRepo Program Scheduler Jobs.
From S2P Require Import Capacity.

Open Scope Z_scope.

Definition StatusOK : Z := 200.
Definition StatusCreated : Z := 201.
Definition StatusAccepted : Z := 202.
Definition StatusNoContent : Z := 204.
Definition StatusBadRequest : Z := 400.
Definition StatusUnauthorized : Z := 401.
Definition StatusNotFound : Z := 404.
Definition StatusConflict : Z := 409.
Definition StatusInternalServerError : Z := 500.
Definition StatusBadGateway : Z := 502.
Definition StatusServiceUnavailable : Z := 503.

(** A response: an error text, one sandbox, a list, a session token with its user's id
    and email, a text, or nothing but the code. *)
Inductive response_body : Type :=
| BodyError (msg : string)
| BodySandbox (s : Sandbox)
| BodyList (l : list Sandbox)
| BodyAuth (token userID email : string)
| BodyText (text : string)
| BodyEmpty.

Record response : Type := mkResponse {
  rs_code : Z;
  rs_body : response_body;
  rs_retry_after : option string;
}.

Definition http_Error (msg : string) (code : Z) : response := mkResponse code (BodyError msg) None.
Definition http_Sandbox (code : Z) (s : Sandbox) : response := mkResponse code (BodySandbox s) None.
Definition http_Empty (code : Z) : response := mkResponse code BodyEmpty None.

Definition unauthenticated : response := http_Error "authentication required" StatusUnauthorized.
Definition not_found : response := http_Error "not found" StatusNotFound.

Record createSandboxRequest : Type := mkCreateBody {
  cb_Runtime : string;
  cb_Image : string;
  cb_Port : Z;
  cb_TTL : Z;
  cb_PreviewURL : string;
  cb_VcpuCount : Z;
  cb_MemSizeMib : Z;
}.

Definition defaultVcpuCount : Z := SandboxVcpu.
Definition defaultMemSizeMib : Z := SandboxMemMiB.

Definition defaultImageForRuntime (runtime : string) : string :=
  let r := ToLower (TrimSpace runtime) in
  if bool_decide (r ∈ ["node"; "nodejs"; "javascript"; "typescript"]%string) then "node:20-alpine"
  else if bool_decide (r ∈ ["python"; "py"]%string) then "python:3.12-alpine"
  else if bool_decide (r ∈ ["go"; "golang"]%string) then "golang:1.23-alpine"
  else "node:20-alpine".

(** [int32(10000 + time.Now().UnixNano() % 50000)]: Go's remainder truncates. *)
Definition defaultSandboxPort (unixNano : Z) : Z := int32 (10000 + Z.rem unixNano 50000).

(** What the wait loop receives: the request's context is done, the subscription is
    closed, or an event (nil events and events of other jobs are skipped). *)
Inductive EventKind : Type :=
| EventKindJobCompleted | EventKindJobFailed | EventKindJobCancelled.

Record JobEvent : Type := mkJobEvent {
  je_Kind : EventKind;
  je_JobID : Z;
  je_State : JobState;
  je_Errors : list string;
}.

Inductive select_event : Type :=
| CtxDone
| SubClosed
| SubEvent (ev : option JobEvent).

Definition jobFailedClusterFull (errors : list string) : bool :=
  match list.last errors with
  | None => false
  | Some e => Contains e (sentinel_text Orchestrator_ErrClusterFull)
  end.

(** How a handler ends: with a response, without one (the client left), or still
    waiting after all the events given. *)
Inductive outcome : Type :=
| Responded (r : response)
| NoResponse
| StillWaiting.

Definition create_failed (code : Z) : response := http_Error "failed to create sandbox" code.

Fixpoint wait_loop (sandboxID : string) (jobID : Z) (evs : list select_event) : prog outcome :=
  match evs with
  | [] => Ret StillWaiting
  | CtxDone :: _ => Ret NoResponse
  | SubClosed :: _ => Ret (Responded (create_failed StatusBadGateway))
  | SubEvent None :: rest => wait_loop sandboxID jobID rest
  | SubEvent (Some ev) :: rest =>
      if negb (je_JobID ev =? jobID) then wait_loop sandboxID jobID rest
      else match je_Kind ev with
           | EventKindJobCompleted =>
               (r <-db GetByID sandboxID ;;
                match r with
                | Err _ => Ret (Responded (http_Error "failed to fetch sandbox"
                                             StatusInternalServerError))
                | Ok sbx => Ret (Responded (http_Sandbox StatusCreated sbx))
                end)%prog
           | EventKindJobCancelled =>
               if jobFailedClusterFull (je_Errors ev)
               then Ret (Responded (mkResponse StatusServiceUnavailable
                                      (BodyError "no worker capacity available") (Some "30")))
               else Ret (Responded (create_failed StatusBadGateway))
           | EventKindJobFailed =>
               if bool_decide (je_State ev = JobStateDiscarded)
               then Ret (Responded (create_failed StatusBadGateway))
               else wait_loop sandboxID jobID rest
           end
  end.

(** The transaction of [createSandbox]: the row and its job. *)
Definition create_tx (s : Sandbox) : tx unit :=
  (_ <-tx SandboxRepo.Create s ;;
   InsertTx (mkJobInsert (JobCreate {| cr_SandboxID := sb_ID s |}) QueueDefault None))%tx.

Definition new_sandbox (uuid : string) (now : Z) (port : Z) (user : User)
    (body : createSandboxRequest) : Sandbox :=
  let ttl := if cb_TTL body <=? 0 then 3600 else cb_TTL body in
  let image := if bool_decide (cb_Image body = EmptyString)
               then defaultImageForRuntime (cb_Runtime body) else cb_Image body in
  let vcpu := if cb_VcpuCount body <=? 0 then defaultVcpuCount else cb_VcpuCount body in
  let mem := if cb_MemSizeMib body <=? 0 then defaultMemSizeMib else cb_MemSizeMib body in
  mkSandbox uuid (cb_Runtime body) StatusPending ttl now port (cb_PreviewURL body) image None
    vcpu mem (Some (u_ID user)).

Definition createSandbox (third : error -> string -> string) (riverConfigured : bool)
    (uuid : string) (jobID : Z) (evs : list select_event)
    (user : option User) (body : option createSandboxRequest) : prog outcome :=
  let reply r := Ret (Responded r) in
  match user with
  | None => reply unauthenticated
  | Some user =>
  match body with
  | None => reply (http_Error "invalid json" StatusBadRequest)
  | Some body =>
  if bool_decide (cb_Runtime body = EmptyString)
  then reply (http_Error "runtime is required" StatusBadRequest)
  else match CheckSandboxSize (cb_VcpuCount body) (cb_MemSizeMib body) with
  | Some err => reply (http_Error (Error third err) StatusBadRequest)
  | None =>
  if negb riverConfigured then reply (create_failed StatusInternalServerError)
  else
    (ws <-db WorkerRepo.List_ ;;
     match ws with
     | Err _ => reply (http_Error "failed to list workers" StatusInternalServerError)
     | Ok [] => reply (http_Error "no workers available" StatusServiceUnavailable)
     | Ok (_ :: _) =>
         Now (fun portClock =>
         let port := if cb_Port body <=? 0 then defaultSandboxPort portClock else cb_Port body in
         Now (fun now =>
         r <-db create_tx (new_sandbox uuid now port user body) ;;
         match r with
         | Err _ => reply (create_failed StatusInternalServerError)
         | Ok _ => wait_loop uuid jobID evs
         end))
     end)%prog
  end end end.

(** Whether the caller owns the sandbox; a foreign sandbox answers 404. *)
Definition owns (user : User) (s : Sandbox) : bool := bool_decide (sb_UserID s = Some (u_ID user)).

Definition fetch_owned (user : option User) (id : string) (k : Sandbox -> prog response)
    : prog response :=
  match user with
  | None => Ret unauthenticated
  | Some user =>
      if bool_decide (id = EmptyString) then Ret (http_Error "id is required" StatusBadRequest)
      else (r <-db GetByID id ;;
            match r with
            | Err e =>
                if errors_Is e Sandbox_ErrNotFound then Ret not_found
                else Ret (http_Error "failed to fetch sandbox" StatusInternalServerError)
            | Ok sbx => if negb (owns user sbx) then Ret not_found else k sbx
            end)%prog
  end.

Definition getSandboxByID (user : option User) (id : string) : prog response :=
  fetch_owned user id (fun sbx => Ret (http_Sandbox StatusOK sbx)).

(** The details of the listed ids the caller owns; a failed read is skipped. *)
Fixpoint owned_details (user : User) (ids : list string) : prog (list Sandbox) :=
  match ids with
  | [] => Ret []
  | id :: rest =>
      (r <-db GetByID id ;;
       match r with
       | Err _ => owned_details user rest
       | Ok s => if negb (owns user s) then owned_details user rest
                 else l <-- owned_details user rest ;; Ret (s :: l)
       end)%prog
  end.

(** One goroutine of [listSandboxes]. *)
Definition list_worker (user : User) (w : Worker) : prog (list Sandbox) :=
  let addr := normalizeWorkerAddress (wk_Address w) (int32 (wk_Port w)) in
  Rpc addr Dial (fun c =>
  match c with
  | Err _ => Ret []
  | Ok _ => Rpc addr CallListRunningSandboxes (fun l =>
            match l with
            | Err _ => Ret []
            | Ok ids => owned_details user ids
            end)
  end).

(** The goroutines only read, each into its own slot; the slots are joined in the
    order of the workers. *)
Fixpoint list_workers (user : User) (ws : list Worker) : prog (list Sandbox) :=
  match ws with
  | [] => Ret []
  | w :: rest => (l <-- list_worker user w ;; ls <-- list_workers user rest ;; Ret (l ++ ls))%prog
  end.

Definition listSandboxes (user : option User) : prog response :=
  match user with
  | None => Ret unauthenticated
  | Some user =>
      (ws <-db ListActive ;;
       match ws with
       | Err _ => Ret (http_Error "failed to list workers" StatusInternalServerError)
       | Ok ws => l <-- list_workers user ws ;; Ret (mkResponse StatusOK (BodyList l) None)
       end)%prog
  end.

(** The transaction of [deleteSandbox]; returns the rows affected. With none, it is
    rolled back. *)
Definition delete_tx (id : string) : tx Z :=
  (u <-tx UpdateStatus id StatusCleanupPending
            [StatusPending; StatusScheduling; StatusAssigned; StatusStarting; StatusRunning] ;;
   if u.2 =? 0 then tx_ret 0
   else _ <-tx InsertTx (cleanupInsert id (Status_string StatusStopped)) ;; tx_ret u.2)%tx.

Definition deleteSandbox (riverConfigured : bool) (user : option User) (id : string)
    : prog response :=
  fetch_owned user id (fun sbx =>
    match sb_Status sbx with
    | StatusStopped | StatusFailed | StatusCleanupPending | StatusCleanedUp =>
        Ret (http_Empty StatusNoContent)
    | _ =>
        if negb riverConfigured
        then Ret (http_Error "delete sandbox failed" StatusInternalServerError)
        else (r <-db delete_tx id ;;
              match r with
              | Err _ => Ret (http_Error "delete sandbox failed" StatusInternalServerError)
              | Ok n => if n =? 0 then Ret (http_Empty StatusNoContent)
                        else Ret (http_Empty StatusAccepted)
              end)%prog
    end).
