(* ===== verification/Auth.v ===== *)
(** * Accounts and sessions

    internal/packages/auth (repository_postgres.go, service.go) and
    internal/packages/orchestrator/auth_http.go: the users and sessions tables, the
    service on them, the three routes and the [RequireAuth] middleware in front of the
    sandbox routes.

    bcrypt, the random tokens and UUIDs, and the Unicode case tables of
    [strings.ToLower] are inputs: [hash password] is the result of
    [bcrypt.GenerateFromPassword], [matches h password] whether
    [bcrypt.CompareHashAndPassword] accepts, [lower] the lower-casing. *)

From Stdlib Require Import ZArith Lia.
From stdpp Require Import base tactics option list gmap strings numbers.
From S2P Require Import Prelude GoStd Database Program HTTP.

Open Scope Z_scope.

(** ** repository_postgres.go *)

(** [id] is the primary key and [email] is unique: both violations are code 23505. *)
Definition email_taken (email : string) (m : gmap string User) : bool :=
  bool_decide (filter (fun kv => u_Email kv.2 = email) m <> ∅).

Definition CreateUser (u : User) : tx User :=
  fun _ db =>
    match users db !! u_ID u with
    | Some _ => (Err (Sentinel Auth_ErrEmailTaken), db)
    | None =>
        if email_taken (u_Email u) (users db) then (Err (Sentinel Auth_ErrEmailTaken), db)
        else (Ok u, set_users (<[u_ID u := u]> (users db)) db)
    end.

(** At most one user has the email. *)
Definition GetUserByEmail (email : string) : tx User :=
  fun _ db =>
    match map_to_list (filter (fun kv : string * User => u_Email kv.2 = email) (users db)) with
    | (_, u) :: _ => (Ok u, db)
    | [] => (Err (Sentinel Auth_ErrNotFound), db)
    end.

Definition GetUserByID (id : string) : tx User :=
  fun _ db => match users db !! id with
              | Some u => (Ok u, db)
              | None => (Err (Sentinel Auth_ErrNotFound), db)
              end.

Definition CreateSession (s : Session) : tx Session :=
  fun _ db =>
    match sessions db !! se_Token s with
    | Some _ => (Err (DriverError "duplicate key value violates unique constraint"), db)
    | None =>
        if bool_decide (is_Some (users db !! se_UserID s))
        then (Ok s, set_sessions (<[se_Token s := s]> (sessions db)) db)
        else (Err (DriverError "insert violates foreign key constraint"), db)
    end.

Definition GetSession (token : string) : tx Session :=
  fun _ db => match sessions db !! token with
              | Some s => (Ok s, db)
              | None => (Err (Sentinel Auth_ErrNotFound), db)
              end.

Definition DeleteSession (token : string) : tx unit :=
  fun _ db => (Ok tt, set_sessions (delete token (sessions db)) db).

(** ** service.go *)

Definition sessionTTL : Z := 30 * 24 * Hour.

Section Service.

Context (hash : string -> result error string) (matches : string -> string -> bool).

(** [token] is the result of [randomToken]. *)
Definition createSessionWithTTL (token : result error string) (userID : string)
    (ttl : option Z) : prog (result error Session) :=
  match token with
  | Err e => Ret (Err (Wrap "generate session token: " e))
  | Ok token =>
      Now (fun now =>
        (r <-db CreateSession (mkSession token userID now ((fun t => now + t) <$> ttl)) ;;
         Ret r)%prog)
  end.

Definition createSession (token : result error string) (userID : string)
    : prog (result error Session) :=
  createSessionWithTTL token userID (Some sessionTTL).

Definition CreateNonExpiringSession (token : result error string) (userID : string)
    : prog (result error Session) :=
  createSessionWithTTL token userID None.

(** The session of a user that was just created or checked. *)
Definition with_session (token : result error string) (user : User)
    : prog (result error (User * Session)) :=
  (r <-- createSession token (u_ID user) ;;
   match r with
   | Err e => Ret (Err e)
   | Ok s => Ret (Ok (user, s))
   end)%prog.

Definition SignUp (uuid : string) (token : result error string) (email password : string)
    : prog (result error (User * Session)) :=
  match hash password with
  | Err e => Ret (Err (Wrap "hash password: " e))
  | Ok h =>
      Now (fun now =>
        (r <-db CreateUser (mkUser uuid email h now) ;;
         match r with
         | Err e => Ret (Err e)
         | Ok user => with_session token user
         end)%prog)
  end.

Definition Login (token : result error string) (email password : string)
    : prog (result error (User * Session)) :=
  (r <-db GetUserByEmail email ;;
   match r with
   | Err e => if errors_Is e Auth_ErrNotFound
              then Ret (Err (Sentinel Auth_ErrInvalidCreds)) else Ret (Err e)
   | Ok user =>
       if negb (matches (u_PasswordHash user) password)
       then Ret (Err (Sentinel Auth_ErrInvalidCreds))
       else with_session token user
   end)%prog.

Definition Authenticate (token : string) : prog (result error User) :=
  (r <-db GetSession token ;;
   match r with
   | Err e => Ret (Err e)
   | Ok s =>
       let user := (u <-db GetUserByID (se_UserID s) ;; Ret u)%prog in
       match se_ExpiresAt s with
       | None => user
       | Some t => Now (fun now =>
                     if t <? now then Ret (Err (Sentinel Auth_ErrSessionExpired)) else user)
       end
   end)%prog.

Definition Logout (token : string) : prog (result error unit) :=
  (r <-db DeleteSession token ;; Ret r)%prog.

Definition EnsureUser (uuid : string) (email password : string) : prog (result error User) :=
  (r <-db GetUserByEmail email ;;
   match r with
   | Ok user => Ret (Ok user)
   | Err e =>
       if negb (errors_Is e Auth_ErrNotFound) then Ret (Err e)
       else match hash password with
            | Err e => Ret (Err (Wrap "hash password: " e))
            | Ok h => Now (fun now => (c <-db CreateUser (mkUser uuid email h now) ;; Ret c))
            end
   end)%prog.

(** ** auth_http.go *)

Context (lower : string -> string).

Record authRequest : Type := mkAuthRequest {
  ar_Email : string;
  ar_Password : string;
}.

(** [None] is a body that is not JSON. *)
Definition decodeAuthRequest (body : option authRequest) : result response authRequest :=
  match body with
  | None => Err (http_Error "invalid JSON body" StatusBadRequest)
  | Some b =>
      let email := TrimSpace (lower (ar_Email b)) in
      if bool_decide (email = EmptyString) || bool_decide (ar_Password b = EmptyString)
      then Err (http_Error "email and password are required" StatusBadRequest)
      else Ok (mkAuthRequest email (ar_Password b))
  end.

Definition authResponse (status : Z) (us : User * Session) : response :=
  mkResponse status (BodyAuth (se_Token us.2) (u_ID us.1) (u_Email us.1)) None.

Definition signUp (uuid : string) (token : result error string) (body : option authRequest)
    : prog response :=
  match decodeAuthRequest body with
  | Err r => Ret r
  | Ok b =>
      if negb (Contains (ar_Email b) "@")
      then Ret (http_Error "valid email is required" StatusBadRequest)
      else if (String.length (ar_Password b) <? 8)%nat
      then Ret (http_Error "password must be at least 8 characters" StatusBadRequest)
      else (r <-- SignUp uuid token (ar_Email b) (ar_Password b) ;;
            match r with
            | Err e => if errors_Is e Auth_ErrEmailTaken
                       then Ret (http_Error "email already registered" StatusConflict)
                       else Ret (http_Error "signup failed" StatusInternalServerError)
            | Ok us => Ret (authResponse StatusCreated us)
            end)%prog
  end.

Definition login (token : result error string) (body : option authRequest) : prog response :=
  match decodeAuthRequest body with
  | Err r => Ret r
  | Ok b =>
      (r <-- Login token (ar_Email b) (ar_Password b) ;;
       match r with
       | Err e => if errors_Is e Auth_ErrInvalidCreds
                  then Ret (http_Error "invalid email or password" StatusUnauthorized)
                  else Ret (http_Error "login failed" StatusInternalServerError)
       | Ok us => Ret (authResponse StatusOK us)
       end)%prog
  end.

End Service.

(** [header] is the Authorization header, empty when absent. *)
Definition bearerToken (header : string) : string :=
  if negb (HasPrefix header "Bearer ") then EmptyString else TrimPrefix header "Bearer ".

Definition logout (header : string) : prog response :=
  let token := bearerToken header in
  if bool_decide (token = EmptyString) then Ret (http_Empty StatusNoContent)
  else (_ <-- Logout token ;; Ret (http_Empty StatusNoContent))%prog.

(** The middleware: [next] runs with the user of the token, [refuse] wraps a refusal in
    the handler's type of results. *)
Definition RequireAuth {A} (refuse : response -> A) (header : string) (next : User -> prog A)
    : prog A :=
  let token := bearerToken header in
  if bool_decide (token = EmptyString)
  then Ret (refuse (http_Error "missing bearer token" StatusUnauthorized))
  else (r <-- Authenticate token ;;
        match r with
        | Err _ => Ret (refuse (http_Error "invalid or expired session" StatusUnauthorized))
        | Ok user => next user
        end)%prog.

(** ** Lemmas *)

Lemma bearerToken_bearer token : bearerToken ("Bearer " +:+ token) = token.
Proof. unfold bearerToken. by destruct (TrimPrefix_app "Bearer " token) as [-> ->]. Qed.

(** The user of a session, as [Authenticate] finds it at a time. *)
Definition session_user (db : DB) (token : string) (now : Z) : result error User :=
  match sessions db !! token with
  | None => Err (Sentinel Auth_ErrNotFound)
  | Some s =>
      if match se_ExpiresAt s with Some t => t <? now | None => false end
      then Err (Sentinel Auth_ErrSessionExpired)
      else match users db !! se_UserID s with
           | Some u => Ok u
           | None => Err (Sentinel Auth_ErrNotFound)
           end
  end.

Lemma run_Authenticate s token db :
  run s (Authenticate token) [] [] db = (session_user db token (sc_clock s), db).
Proof.
  unfold Authenticate, session_user. cbn [run]. unfold exec_tx, GetSession.
  destruct (sessions db !! token) as [se|]; [|done].
  assert (run s (u <-db GetUserByID (se_UserID se) ;; Ret u)%prog [] [] db
          = (match users db !! se_UserID se with
             | Some u => Ok u | None => Err (Sentinel Auth_ErrNotFound) end, db)) as Hu.
  { cbn [run]. unfold exec_tx, GetUserByID. by destruct (users db !! se_UserID se). }
  destruct (se_ExpiresAt se) as [t|]; [|exact Hu]. cbn [run]. by destruct (t <? sc_clock s).
Qed.

Lemma run_RequireAuth {A} s (refuse : response -> A) header next db :
  run s (RequireAuth refuse header next) [] [] db
  = if bool_decide (bearerToken header = EmptyString)
    then (refuse (http_Error "missing bearer token" StatusUnauthorized), db)
    else match session_user db (bearerToken header) (sc_clock s) with
         | Err _ => (refuse (http_Error "invalid or expired session" StatusUnauthorized), db)
         | Ok u => run s (next u) [] [] db
         end.
Proof.
  unfold RequireAuth. case_bool_decide; [done|]. rewrite run_bind, run_Authenticate.
  by destruct (session_user db (bearerToken header) (sc_clock s)).
Qed.

(** What a successful [with_session] stored. *)
Lemma run_with_session s token user db us db' :
  run s (with_session token user) [] [] db = (Ok us, db') ->
  exists tok, token = Ok tok /\ sessions db !! tok = None /\ is_Some (users db !! u_ID user)
    /\ us = (user, mkSession tok (u_ID user) (sc_clock s) (Some (sc_clock s + sessionTTL)))
    /\ db' = set_sessions (<[tok := us.2]> (sessions db)) db.
Proof.
  unfold with_session, createSession, createSessionWithTTL. destruct token as [tok|e]; [|done].
  cbn [bind run fmap option_fmap option_map]. unfold exec_tx, CreateSession. cbn [se_Token se_UserID].
  destruct (sessions db !! tok) eqn:Es; [done|]. case_bool_decide; [|done].
  intros [= <- <-]. by exists tok.
Qed.

Lemma email_taken_false email m :
  email_taken email m = false -> filter (fun kv : string * User => u_Email kv.2 = email) m = ∅.
Proof. unfold email_taken. intros H%bool_decide_eq_false. by apply dec_stable. Qed.

(** What a successful sign-up did. *)
Lemma run_signUp hash lower uuid token body s db r db' :
  run s (signUp hash lower uuid token body) [] [] db = (r, db') -> rs_code r = StatusCreated ->
  exists b h tok, decodeAuthRequest lower body = Ok b /\ hash (ar_Password b) = Ok h /\ token = Ok tok
    /\ users db !! uuid = None /\ sessions db !! tok = None
    /\ filter (fun kv : string * User => u_Email kv.2 = ar_Email b) (users db) = ∅
    /\ let u := mkUser uuid (ar_Email b) h (sc_clock s) in
       let se := mkSession tok uuid (sc_clock s) (Some (sc_clock s + sessionTTL)) in
       r = authResponse StatusCreated (u, se)
       /\ db' = set_sessions (<[tok := se]> (sessions db)) (set_users (<[uuid := u]> (users db)) db).
Proof.
  unfold signUp. destruct (decodeAuthRequest lower body) as [b|r0] eqn:Eb; cycle 1.
  { intros [= <- <-]. unfold decodeAuthRequest in Eb. destruct body as [b|]; [|by injection Eb as <-].
    cbv zeta in Eb. destruct (_ || _); [by injection Eb as <-|done]. }
  destruct (Contains _ _); cbn [negb]; [|by intros [= <- <-]].
  destruct (_ <? _)%nat; [by intros [= <- <-]|]. rewrite run_bind. unfold SignUp.
  destruct (hash (ar_Password b)) as [h|e] eqn:Eh; cycle 1.
  { cbn [run]. destruct (errors_Is _ _); by intros [= <- <-]. }
  cbn [run]. unfold exec_tx, CreateUser. cbn [u_ID u_Email].
  destruct (users db !! uuid) eqn:Eu; [cbn; by intros [= <- <-]|].
  destruct (email_taken _ _) eqn:Et; [cbn; by intros [= <- <-]|].
  destruct (run s (with_session token _) [] [] _) as [[us|e] d] eqn:Ew; cycle 1.
  { cbn [run]. destruct (errors_Is _ _); by intros [= <- <-]. }
  apply run_with_session in Ew as (tok & -> & Es & _ & -> & ->). intros [= <- <-] _.
  apply email_taken_false in Et. by exists b, h, tok.
Qed.

(** ** Properties *)

(** What a sign-up opens. *)
Lemma signup_session hash lower uuid token body s db r db' :
  run s (signUp hash lower uuid token body) [] [] db = (r, db') -> rs_code r = StatusCreated ->
  exists tok u, token = Ok tok /\ rs_body r = BodyAuth tok (u_ID u) (u_Email u)
    /\ (tok <> EmptyString ->
        forall (A : Type) (refuse : response -> A) next s',
          run s' (RequireAuth refuse ("Bearer " +:+ tok) next) [] [] db'
          = if sc_clock s + sessionTTL <? sc_clock s'
            then (refuse (http_Error "invalid or expired session" StatusUnauthorized), db')
            else run s' (next u) [] [] db').
Proof.
  intros H Hc. destruct (run_signUp _ _ _ _ _ _ _ _ _ H Hc)
    as (b & h & tok & _ & _ & -> & _ & _ & _ & -> & ->).
  exists tok, (mkUser uuid (ar_Email b) h (sc_clock s)). split; [done|]. split; [done|].
  intros Htok A refuse next s'. rewrite run_RequireAuth, bearerToken_bearer.
  rewrite bool_decide_false by done. unfold session_user. cbn [sessions set_sessions].
  rewrite lookup_insert_eq. cbn [se_ExpiresAt se_UserID users set_sessions set_users].
  rewrite lookup_insert_eq. by destruct (_ <? _).
Qed.

Definition ada : authRequest := mkAuthRequest "ada@fire.local" "correct horse".
Definition clock (t : Z) : script := mkScript (mkEnv t ∅) t (fun _ _ _ => Err (NewError "unused")).
Definition plain_hash (p : string) : result error string := Ok ("h:" +:+ p)%string.
Definition ada_signup : response * DB :=
  run (clock 0) (signUp plain_hash ToLower "u1" (Ok "tok"%string) (Some ada)) [] [] empty_DB.

(** Whoever signed up can log in, and nobody else.  After a 201, [login] with the
    same email and password, compared after the same normalisation, answers 200 with a
    session of the same user; a password that does not match the stored hash gets 401
    and writes nothing.  [bcrypt_sound]: the hash of a password matches it. *)
Lemma login_after_signup hash matches lower uuid token token2 body s s' db r db'
    (bcrypt_sound : forall p h, hash p = Ok h -> matches h p = true) :
  run s (signUp hash lower uuid token body) [] [] db = (r, db') -> rs_code r = StatusCreated ->
  sessions db' !! token2 = None ->
  exists email, rs_body r = BodyAuth (match token with Ok t => t | Err _ => EmptyString end) uuid email
    /\ (run s' (login matches lower (Ok token2) body) [] [] db').1
       = mkResponse StatusOK (BodyAuth token2 uuid email) None
    /\ forall wrong h, hash (match body with Some b => ar_Password b | None => EmptyString end) = Ok h ->
       matches h wrong = false -> wrong <> EmptyString ->
       run s' (login matches lower (Ok token2)
                 ((fun b => mkAuthRequest (ar_Email b) wrong) <$> body)) [] [] db'
       = (http_Error "invalid email or password" StatusUnauthorized, db').
Proof.
  intros H Hc Hfresh. destruct (run_signUp _ _ _ _ _ _ _ _ _ H Hc)
    as (b & h & tok & Hb & Hh & -> & Hnew & Hsess & Hmail & -> & ->).
  set (u := mkUser uuid (ar_Email b) h (sc_clock s)) in *.
  destruct body as [b0|]; [|done]. cbn [fmap option_fmap option_map].
  unfold decodeAuthRequest in Hb. cbv zeta in Hb.
  destruct (bool_decide_reflect (TrimSpace (lower (ar_Email b0)) = EmptyString)) as [|Hne]; [done|].
  destruct (bool_decide_reflect (ar_Password b0 = EmptyString)) as [|Hpe]; [done|].
  injection Hb as <-. cbn [ar_Email ar_Password] in *.
  exists (TrimSpace (lower (ar_Email b0))). split; [done|].
  match goal with |- context [run s' _ _ _ ?d] => set (db1 := d) end.
  assert (forall env, GetUserByEmail (TrimSpace (lower (ar_Email b0))) env db1 = (Ok u, db1)) as Hget.
  { intros env. unfold GetUserByEmail. unfold db1 at 1. cbn [users set_sessions set_users].
    rewrite map_filter_insert_True by done. by rewrite Hmail, insert_empty, map_to_list_singleton. }
  split.
  - unfold login, decodeAuthRequest. cbv zeta. rewrite !bool_decide_false by done. cbn [orb ar_Email ar_Password].
    rewrite run_bind. unfold Login. cbn [run]. unfold exec_tx. rewrite Hget.
    cbn [u_PasswordHash u]. rewrite (bcrypt_sound _ _ Hh). cbn [negb].
    unfold with_session, createSession, createSessionWithTTL. cbn [bind run]. unfold exec_tx, CreateSession.
    cbn [se_Token se_UserID]. unfold db1 in Hfresh |- *. cbn [sessions set_sessions] in Hfresh |- *.
    rewrite Hfresh. cbn [users set_users set_sessions]. unfold u. cbn [u_ID]. rewrite lookup_insert_eq.
    rewrite bool_decide_true by (by eexists). done.
  - intros wrong h' Hh' Hm Hw. rewrite Hh in Hh'. injection Hh' as <-.
    unfold login, decodeAuthRequest. cbv zeta. cbn [ar_Email ar_Password].
    rewrite !bool_decide_false by done. cbn [orb]. rewrite run_bind. unfold Login. cbn [run]. unfold exec_tx.
    rewrite Hget. cbn [ar_Password]. change (u_PasswordHash u) with h. rewrite Hm. done.
Qed.

(** What a logout revokes. *)
Lemma logout_session s token db :
  token <> EmptyString ->
  let out := run s (logout ("Bearer " +:+ token)) [] [] db in
  rs_code out.1 = StatusNoContent
  /\ (forall t, t <> token -> sessions out.2 !! t = sessions db !! t) /\ users out.2 = users db
  /\ forall (A : Type) (refuse : response -> A) next s',
       run s' (RequireAuth refuse ("Bearer " +:+ token) next) [] [] out.2
       = (refuse (http_Error "invalid or expired session" StatusUnauthorized), out.2).
Proof.
  intros Ht. unfold logout. rewrite bearerToken_bearer, bool_decide_false by done. cbn.
  split; [done|]. split; [intros t Hn; by rewrite lookup_delete_ne|]. split; [done|].
  intros A refuse next s'. rewrite run_RequireAuth, bearerToken_bearer, bool_decide_false by done.
  unfold session_user. cbn [sessions set_sessions]. by rewrite lookup_delete_eq.
Qed.

(** C34: a session lives from the sign-up to its expiry or its logout.  After a 201, requests
    with the returned token pass [RequireAuth] as the new user up to thirty days later, and
    are answered 401 without running the handler from then on.  A logout is answered 204 in
    every case; after it the token is refused at any time, and the other sessions and the
    accounts are as they were.  A login with the same email and password, compared after the
    same normalisation, answers 200 with a session of the same user, and a password that does
    not match the stored hash gets 401 and writes nothing.  [bcrypt_sound]: the hash of a
    password matches it. *)
Theorem session_lifecycle hash matches lower uuid token body s db r db'
    (bcrypt_sound : forall p h, hash p = Ok h -> matches h p = true) :
  run s (signUp hash lower uuid token body) [] [] db = (r, db') -> rs_code r = StatusCreated ->
  exists tok u, token = Ok tok /\ rs_body r = BodyAuth tok (u_ID u) (u_Email u)
    /\ (tok <> EmptyString ->
        forall (A : Type) (refuse : response -> A) next s',
          let refused := refuse (http_Error "invalid or expired session" StatusUnauthorized) in
          run s' (RequireAuth refuse ("Bearer " +:+ tok) next) [] [] db'
          = (if sc_clock s + sessionTTL <? sc_clock s' then (refused, db') else run s' (next u) [] [] db')
          /\ forall t,
             let out := run t (logout ("Bearer " +:+ tok)) [] [] db' in
             rs_code out.1 = StatusNoContent
             /\ (forall t, t <> tok -> sessions out.2 !! t = sessions db' !! t) /\ users out.2 = users db'
             /\ run s' (RequireAuth refuse ("Bearer " +:+ tok) next) [] [] out.2 = (refused, out.2))
    /\ forall token2 s', sessions db' !! token2 = None ->
        (run s' (login matches lower (Ok token2) body) [] [] db').1
        = mkResponse StatusOK (BodyAuth token2 (u_ID u) (u_Email u)) None
        /\ forall wrong h, hash (match body with Some b => ar_Password b | None => EmptyString end) = Ok h ->
           matches h wrong = false -> wrong <> EmptyString ->
           run s' (login matches lower (Ok token2) ((fun b => mkAuthRequest (ar_Email b) wrong) <$> body)) [] [] db'
           = (http_Error "invalid email or password" StatusUnauthorized, db').
Proof.
  intros H Hc. destruct (signup_session _ _ _ _ _ _ _ _ _ H Hc) as (tok & u & Ht & Hb & Hreq).
  exists tok, u. split; [done|]. split; [done|]. split.
  - intros Htok A refuse next s' refused. split; [by apply Hreq|].
    intros t out. destruct (logout_session t tok db' Htok) as (H1 & H2 & H3 & H4). split_and!; [done..|]. apply H4.
  - intros token2 s' Hf.
    destruct (login_after_signup _ _ _ _ _ _ _ _ s' _ _ _ bcrypt_sound H Hc Hf) as (email & Hb' & H1 & H2).
    rewrite Hb in Hb'. injection Hb' as _ -> ->. done.
Qed.

(** Ada's token, an hour after she signed up and after her logout. *)
Lemma session_lifecycle_witness :
  let db := (run (clock Minute) (logout "Bearer tok") [] [] ada_signup.2).2 in
  let matches h p := bool_decide (h = ("h:" +:+ p)%string) in
  (exists u, u_ID u = "u1"%string
    /\ run (clock Hour) (RequireAuth (fun _ => None) "Bearer tok" (fun u => Ret (Some u))) [] [] ada_signup.2
       = (Some u, ada_signup.2))
  /\ run (clock Hour) (RequireAuth (fun _ => None) "Bearer tok" (fun u => Ret (Some u))) [] [] db = (None, db)
  /\ rs_code (run (clock Hour) (login matches ToLower (Ok "tok2"%string) (Some ada)) [] [] ada_signup.2).1 = StatusOK.
Proof.
  destruct (session_lifecycle plain_hash (fun h p => bool_decide (h = ("h:" +:+ p)%string)) ToLower "u1"
              (Ok "tok"%string) (Some ada) (clock 0) empty_DB ada_signup.1 ada_signup.2)
    as (tok & u & Htok & Hbody & Hreq & Hlog);
    [intros p h E; injection E as <-; apply bool_decide_eq_true; reflexivity|vm_compute; reflexivity|vm_compute; reflexivity|].
  injection Htok as <-.
  destruct (Hreq ltac:(discriminate) _ (fun _ => None) (fun u => Ret (Some u)) (clock Hour)) as [H1 H2]. split; [|split].
  - exists u. split; [|exact H1]. vm_compute in Hbody. injection Hbody. intros _ E. symmetry. exact E.
  - apply (H2 (clock Minute)).
  - rewrite (proj1 (Hlog "tok2"%string (clock Hour) ltac:(vm_compute; reflexivity))). reflexivity.
Defined.

(** ** cmd/devtoken *)

(** What the command prints, or the error it dies of. *)
Definition devtoken (hash : string -> result error string) (uuid : string) (token : result error string)
    (email password : string) : prog (result error string) :=
  (u <-- EnsureUser hash uuid email password ;;
   match u with
   | Err e => Ret (Err e)
   | Ok user =>
       r <-- CreateNonExpiringSession token (u_ID user) ;;
       match r with
       | Err e => Ret (Err e)
       | Ok session => Ret (Ok (se_Token session))
       end
   end)%prog.

(** The printed token opens a session for ever. *)
Lemma devtoken_never_expires hash uuid token email password s db tok db' :
  run s (devtoken hash uuid token email password) [] [] db = (Ok tok, db') -> tok <> EmptyString ->
  exists u, forall (A : Type) (refuse : response -> A) next s',
    run s' (RequireAuth refuse ("Bearer " +:+ tok) next) [] [] db' = run s' (next u) [] [] db'.
Proof.
  intros H Htok. unfold devtoken in H. rewrite run_bind in H.
  destruct (run s (EnsureUser hash uuid email password) [] [] db) as [[user|e] d]; [|done].
  unfold CreateNonExpiringSession, createSessionWithTTL in H. destruct token as [t|e]; [|done].
  cbn [bind run fmap option_fmap option_map] in H. unfold exec_tx, CreateSession in H. cbn [se_Token se_UserID] in H.
  destruct (sessions d !! t) eqn:Es; [done|]. case_bool_decide as Hu; [|done]. injection H as <- <-.
  destruct Hu as [u Hu]. exists u. intros A refuse next s'.
  rewrite run_RequireAuth, bearerToken_bearer, bool_decide_false by done. unfold session_user.
  cbn [sessions set_sessions users]. rewrite lookup_insert_eq. cbn [se_ExpiresAt se_UserID]. by rewrite Hu.
Qed.
