(* ===== verification/Manager.v ===== *)
(** * The sandbox manager of a worker

    internal/packages/sandboxmgr: state.go, manager.go, service.go and audit.go.  The
    Manager keeps the map of sandboxes; each sandbox has a Service, an actor whose
    goroutine alone drives its VM.

    The code is written as programs [mprog] over the operations of a goroutine: a section
    under the Manager's lock, an operation on a sandbox's resources, a command handed to
    an actor, and so on; Ownership.v interleaves them.  The VM interface is the
    environment: an operation on it may answer anything; Machine.v runs it on the host. *)

From Stdlib Require Import ZArith Lia.
From stdpp Require Import base tactics option list gmap strings numbers.
From S2P Require Import Prelude GoStd Database EventGRPC.

Open Scope Z_scope.

(** ** state.go *)

(** [SandboxState] is the vocabulary shared with the orchestrator; [StateStarting] and
    the others are its constants. *)
Definition StateStarting : SandboxState := STATE_STARTING.
Definition StateRunning : SandboxState := STATE_RUNNING.
Definition StatePaused : SandboxState := STATE_PAUSED.
Definition StateUnknown : SandboxState := STATE_UNKNOWN.
Definition StateDead : SandboxState := STATE_DEAD.

Record StateChange : Type := mkStateChange {
  sc_SandboxID : string;
  sc_State : SandboxState;
  sc_At : Z;
}.

Record CreateInput : Type := mkCreateInput {
  ci_ID : string;
  ci_VcpuCount : Z;
  ci_MemSizeMib : Z;
}.

(** ** Data of manager.go and service.go *)

(** [en_svc] is the Service pointer. *)
Record entry : Type := mkTracked {
  en_svc : nat;
  en_state : SandboxState;
}.

Record Manager : Type := mkManager {
  mg_services : gmap string entry;
  mg_deleting : gset string;
  mg_capacity : Z;
  mg_events : list StateChange;
}.

Definition eventBuffer : nat := 256.

Definition newManager : Manager := mkManager ∅ ∅ 0 [].

(** The fields the actor owns; [s_vm]: the VM was built; [s_exited]: its exit is watched
    (the channel is not nil). *)
Record Service : Type := mkSvc {
  s_id : string;
  s_vm : bool;
  s_state : SandboxState;
  s_exited : bool;
}.

Definition newService (id : string) : Service := mkSvc id false StateStarting false.

Inductive command : Type :=
| cmdCreate (c_in : CreateInput)
| cmdStop
| cmdRemove.

(** What a goroutine does to the resources of a sandbox (directory, volume, process):
    the methods of the vm interface, the factory that builds one, the attacher that takes
    a live one over, and reap. *)
Inductive vmop : Type -> Type :=
| VMAttach : vmop (option error)
| NewVM (v_in : CreateInput) : vmop (option error)
| VMCreate : vmop (option error)
| VMStop : vmop (option error)
| VMState : vmop (result error SandboxState)
| VMCleanup : vmop (option error)
| Reap : vmop (option error).

(** ** Goroutines

    - [MLock]: a section under [m.mu], given the address an allocation in it would get
      and which Services have closed their done channel; also the send on the events
      channel, which is atomic by itself;
    - [MVM]: an operation on the resources of a sandbox;
    - [MSelf]: the actor reads and writes its own fields;
    - [MGo]: [go svc.run(ctx)] on the Service at that address;
    - [MDo]: [svc.do(cmd)];
    - [MListDisk], [MNow]: the base dir and the clock. *)
Record lockenv : Type := mkLockEnv {
  le_fresh : nat;
  le_done : nat -> bool;
}.

Inductive mprog (A : Type) : Type :=
| MRet (a : A)
| MLock (X : Type) (f : lockenv -> Manager -> X * Manager) (k : X -> mprog A)
| MVM (X : Type) (id : string) (o : vmop X) (k : X -> mprog A)
| MSelf (X : Type) (f : Service -> X * Service) (k : X -> mprog A)
| MGo (n : nat) (s : Service) (k : mprog A)
| MDo (n : nat) (c : command) (k : option error -> mprog A)
| MListDisk (k : result error (list string) -> mprog A)
| MNow (k : Z -> mprog A).

Arguments MRet {A} a.
Arguments MLock {A X} f k.
Arguments MVM {A X} id o k.
Arguments MSelf {A X} f k.
Arguments MGo {A} n s k.
Arguments MDo {A} n c k.
Arguments MListDisk {A} k.
Arguments MNow {A} k.

Fixpoint mbind {A B} (p : mprog A) (g : A -> mprog B) : mprog B :=
  match p with
  | MRet a => g a
  | MLock f k => MLock f (fun x => mbind (k x) g)
  | MVM id o k => MVM id o (fun x => mbind (k x) g)
  | MSelf f k => MSelf f (fun x => mbind (k x) g)
  | MGo n s k => MGo n s (mbind k g)
  | MDo n c k => MDo n c (fun x => mbind (k x) g)
  | MListDisk k => MListDisk (fun x => mbind (k x) g)
  | MNow k => MNow (fun x => mbind (k x) g)
  end.

Declare Scope mprog_scope.
Delimit Scope mprog_scope with mprog.
Bind Scope mprog_scope with mprog.

Notation "x <-m p ;; k" := (mbind p (fun x => k))
  (at level 100, p at next level, right associativity) : mprog_scope.
Notation "x <-lock f ;; k" := (MLock f (fun x => k))
  (at level 100, f at next level, right associativity) : mprog_scope.
Notation "x <-self f ;; k" := (MSelf f (fun x => k))
  (at level 100, f at next level, right associativity) : mprog_scope.

(** ** Manager: the locked sections *)

Definition set_services (f : gmap string entry -> gmap string entry) (m : Manager) : Manager :=
  mkManager (f (mg_services m)) (mg_deleting m) (mg_capacity m) (mg_events m).
Definition set_deleting (f : gset string -> gset string) (m : Manager) : Manager :=
  mkManager (mg_services m) (f (mg_deleting m)) (mg_capacity m) (mg_events m).

Definition SetCapacity (capacity : Z) (m : Manager) : Manager :=
  mkManager (mg_services m) (mg_deleting m) capacity (mg_events m).

(** The order of a Go map is unspecified; the model takes the one of the finite map. *)
Definition Snapshot (m : Manager) : list SandboxInventoryEntry :=
  (fun '(id, e) => mkEntry id (en_state e)) <$> map_to_list (mg_services m).

(** The send of [emit]: dropped when the buffer is full. *)
Definition emit_send (sandboxID : string) (st : SandboxState) (now : Z) (m : Manager) : Manager :=
  if decide (length (mg_events m) < eventBuffer)%nat
  then mkManager (mg_services m) (mg_deleting m) (mg_capacity m)
         (mg_events m ++ [mkStateChange sandboxID st now])
  else m.

Definition emit (sandboxID : string) (st : SandboxState) : mprog unit :=
  MNow (fun now => MLock (fun _ m => (tt, emit_send sandboxID st now m)) MRet).

(** The section of [report]: true when the entry is still this Service's. *)
Definition report_section (sandboxID : string) (svc : nat) (st : SandboxState) (m : Manager)
    : bool * Manager :=
  match mg_services m !! sandboxID with
  | Some e => if decide (en_svc e = svc)
              then (true, set_services (<[sandboxID := mkTracked svc st]>) m)
              else (false, m)
  | None => (false, m)
  end.

Definition report (sandboxID : string) (svc : nat) (st : SandboxState) : mprog unit :=
  (ok <-lock (fun _ => report_section sandboxID svc st) ;;
   if ok : bool then emit sandboxID st else MRet tt)%mprog.

(** ** service.go *)

Definition set_vm (s : Service) : Service := mkSvc (s_id s) true (s_state s) (s_exited s).
Definition set_exited (b : bool) (s : Service) : Service := mkSvc (s_id s) (s_vm s) (s_state s) b.
Definition set_svc_state (st : SandboxState) (s : Service) : Service :=
  mkSvc (s_id s) (s_vm s) st (s_exited s).

Definition setState (id : string) (svc : nat) (st : SandboxState) : mprog unit :=
  (changed <-self (fun s => if decide (st = s_state s) then (false, s)
                            else (true, set_svc_state st s)) ;;
   if changed : bool then report id svc st else MRet tt)%mprog.

Definition poll (id : string) (svc : nat) : mprog unit :=
  (s <-self (fun s => (s, s)) ;;
   if negb (s_vm s) || bool_decide (s_state s = StateDead) then MRet tt
   else MVM id VMState (fun r =>
          setState id svc (match r with Ok st => st | Err _ => StateUnknown end)))%mprog.

(** The exit of the VM is the environment's: it may fire once it is watched. *)
Definition watch : mprog unit := MSelf (fun s => (tt, set_exited true s)) MRet.

Definition adopt (st : SandboxState) (s : Service) : Service :=
  set_exited true (set_svc_state st (set_vm s)).

(** [remove] of a Service. *)
Definition svc_remove (id : string) : mprog (option error) :=
  (s <-self (fun s => (s, s)) ;;
   if negb (s_vm s) then MRet None
   else MVM id VMStop (fun stopErr =>
        MVM id VMCleanup (fun err =>
          MRet (match err, stopErr with
                | Some e, _ => Some (Wrap ("remove sandbox " +:+ id +:+ ": ") e)
                | None, Some e => Some (Wrap ("stop sandbox " +:+ id +:+ " (cleaned up): ") e)
                | None, None => None
                end))))%mprog.

Definition svc_create (id : string) (svc : nat) (c_in : CreateInput) : mprog (option error) :=
  (s <-self (fun s => (s, s)) ;;
   if s_vm s then MRet (Some (NewError ("sandbox " +:+ id +:+ ": already created")))
   else MVM id (NewVM c_in) (fun r =>
        match r with
        | Some err => MRet (Some err)
        | None =>
            _ <-self (fun s => (tt, set_vm s)) ;;
            MVM id VMCreate (fun r =>
              match r with
              | Some err => _ <-m svc_remove id ;; MRet (Some err)
              | None => _ <-m watch ;; _ <-m poll id svc ;; MRet None
              end)
        end))%mprog.

(** [(exit, err)]. *)
Definition handle (id : string) (svc : nat) (c : command) : mprog (bool * option error) :=
  match c with
  | cmdCreate c_in =>
      (err <-m svc_create id svc c_in ;;
       MRet (match err with Some _ => (true, err) | None => (false, None) end))%mprog
  | cmdStop =>
      (s <-self (fun s => (s, s)) ;;
       if negb (s_vm s) then MRet (false, None)
       else MVM id VMStop (fun r =>
            MRet (false, Wrap ("stop sandbox " +:+ id +:+ ": ") <$> r)))%mprog
  | cmdRemove => (err <-m svc_remove id ;; MRet (true, err))%mprog
  end.

(** The other cases of the select of [run]: the VM exited, the ticker fired. *)
Definition on_exited (id : string) (svc : nat) : mprog unit :=
  (_ <-self (fun s => (tt, set_exited false s)) ;; setState id svc StateDead)%mprog.

Definition on_tick (id : string) (svc : nat) : mprog unit := poll id svc.

(** The recover of [run]. *)
Definition on_panic (id : string) (svc : nat) : mprog unit := setState id svc StateDead.

(** ** runtime/reconcile.go: the shape of an ID *)

Section Calls.

(** [uuid.Parse] succeeds, and the verb [%q]. *)
Context (uuid_Parse : string -> bool) (quote : string -> string).

Definition IsSandboxID (name : string) : bool :=
  uuid_Parse name && (String.length name =? 36)%nat.

Definition CheckSandboxID (id : string) : option error :=
  if IsSandboxID id then None
  else Some (WrapSuf (Sentinel Runtime_ErrInvalidSandboxID) (": " +:+ quote id)).

(** ** Manager: the calls *)

Definition wrap_id (s : sentinel) (id : string) : error := WrapSuf (Sentinel s) (": " +:+ id).

(** The section of [Create]: the address of the new Service, or the answer. *)
Definition create_section (c_in : CreateInput) (env : lockenv) (m : Manager)
    : (nat + option error) * Manager :=
  if decide (is_Some (mg_services m !! ci_ID c_in)) then (inr None, m)
  else if decide (ci_ID c_in ∈ mg_deleting m)
  then (inr (Some (wrap_id Sandboxmgr_ErrBusy (ci_ID c_in))), m)
  else if (0 <? mg_capacity m)
          && (mg_capacity m <=? Z.of_nat (size (mg_services m) + size (mg_deleting m)))
  then (inr (Some (Sentinel Sandboxmgr_ErrAtCapacity)), m)
  else (inl (le_fresh env),
        set_services (<[ci_ID c_in := mkTracked (le_fresh env) StateStarting]>) m).

(** The section after a failed create: the entry is dropped if it is still ours. *)
Definition drop_section (id : string) (svc : nat) (m : Manager) : Manager :=
  match mg_services m !! id with
  | Some e => if decide (en_svc e = svc) then set_services (delete id) m else m
  | None => m
  end.

Definition create_after (id : string) (svc : nat) (err : option error) : mprog (option error) :=
  match err with
  | Some e => MLock (fun _ m => (tt, drop_section id svc m)) (fun _ => MRet (Some e))
  | None => MRet None
  end.

Definition Create (c_in : CreateInput) : mprog (option error) :=
  match CheckSandboxID (ci_ID c_in) with
  | Some e => MRet (Some e)
  | None =>
      (r <-lock (create_section c_in) ;;
       match r with
       | inr err => MRet err
       | inl svc => MGo svc (newService (ci_ID c_in))
                      (MDo svc (cmdCreate c_in) (create_after (ci_ID c_in) svc))
       end)%mprog
  end.

(** [errors.Is(err, errServiceExited)]. *)
Definition exited_err (err : option error) : bool :=
  match err with Some e => errors_Is e Sandboxmgr_errServiceExited | None => false end.

Definition Stop (sandboxID : string) : mprog (option error) :=
  (e <-lock (fun _ m => (mg_services m !! sandboxID, m)) ;;
   match e with
   | None => MRet (Some (wrap_id Sandboxmgr_ErrSandboxNotFound sandboxID))
   | Some e => MDo (en_svc e) cmdStop (fun err =>
                 MRet (if exited_err err then None else err))
   end)%mprog.

(** The first section of [Remove]: the Service that leaves the map, or the answer. *)
Definition remove_section (sandboxID : string) (m : Manager) : (nat + error) * Manager :=
  if decide (sandboxID ∈ mg_deleting m)
  then (inr (wrap_id Sandboxmgr_ErrBusy sandboxID), m)
  else match mg_services m !! sandboxID with
       | None => (inr (wrap_id Sandboxmgr_ErrSandboxNotFound sandboxID), m)
       | Some e => (inl (en_svc e),
                    set_deleting (union {[sandboxID]}) (set_services (delete sandboxID) m))
       end.

(** The deferred release. *)
Definition release (id : string) (m : Manager) : Manager := set_deleting (.∖ {[id]}) m.

Definition remove_release (id : string) (err : option error) : mprog (option error) :=
  MLock (fun _ m => (tt, release id m)) (fun _ => MRet err).

Definition remove_after (id : string) (err : option error) : mprog (option error) :=
  if exited_err err then MVM id Reap (remove_release id) else remove_release id err.

Definition Remove (sandboxID : string) : mprog (option error) :=
  match CheckSandboxID sandboxID with
  | Some e => MRet (Some e)
  | None =>
      (r <-lock (fun _ => remove_section sandboxID) ;;
       match r with
       | inr e => MRet (Some e)
       | inl svc => MDo svc cmdRemove (remove_after sandboxID)
       end)%mprog
  end.

End Calls.

(** ** audit.go *)

(** The section of [checkLiveness]. *)
Definition liveness_section (env : lockenv) (m : Manager) : list string * Manager :=
  let hit (e : entry) := le_done env (en_svc e) && negb (bool_decide (en_state e = StateDead)) in
  ((map_to_list (filter (fun '(_, e) => hit e = true) (mg_services m))).*1,
   set_services (fmap (fun e => if hit e then mkTracked (en_svc e) StateDead else e)) m).

Fixpoint emit_all (ids : list string) (st : SandboxState) : mprog unit :=
  match ids with
  | [] => MRet tt
  | id :: rest => (_ <-m emit id st ;; emit_all rest st)%mprog
  end.

Definition checkLiveness : mprog unit :=
  MLock liveness_section (fun dead => emit_all dead StateDead).

(** The section of [reconcileDisk]: the orphans, claimed. *)
Fixpoint claim_section (onDisk : list string) (m : Manager) : list string * Manager :=
  match onDisk with
  | [] => ([], m)
  | id :: rest =>
      if decide (is_Some (mg_services m !! id)) then claim_section rest m
      else if decide (id ∈ mg_deleting m) then claim_section rest m
      else let '(orphans, m') := claim_section rest (set_deleting (union {[id]}) m) in
           (id :: orphans, m')
  end.

Fixpoint reap_orphans (orphans : list string) : mprog unit :=
  match orphans with
  | [] => MRet tt
  | id :: rest =>
      MVM id Reap (fun _ => MLock (fun _ m => (tt, release id m)) (fun _ => reap_orphans rest))
  end.

Definition reconcileDisk : mprog unit :=
  MListDisk (fun r =>
    match r with
    | Err _ => MRet tt
    | Ok onDisk => MLock (fun _ => claim_section onDisk) reap_orphans
    end).

Definition audit : mprog unit :=
  (_ <-m checkLiveness ;; reconcileDisk)%mprog.

(** ** Recover *)

(** The section of [Manager.adopt]: the Service's address. *)
Definition adopt_section (id : string) (st : SandboxState) (env : lockenv) (m : Manager) : nat * Manager :=
  (le_fresh env, set_services (<[id := mkTracked (le_fresh env) st]>) m).

Definition mgr_adopt {A} (id : string) (st : SandboxState) (k : mprog A) : mprog A :=
  MLock (adopt_section id st) (fun svc => MGo svc (adopt st (newService id)) k).

(** The sandboxes found on disk, from one on. *)
Fixpoint recover_loop (ids : list string) (adopted : Z) : mprog (result error Z) :=
  match ids with
  | [] => MRet (Ok adopted)
  | id :: rest =>
      MVM id VMAttach (fun err =>
        match err with
        | Some _ => MVM id Reap (fun _ => recover_loop rest adopted)
        | None =>
            MVM id VMState (fun r =>
              let st := match r with Ok st => st | Err _ => StateUnknown end in
              mgr_adopt id st (recover_loop rest (adopted + 1)))
        end)
  end.

Definition Recover : mprog (result error Z) :=
  MListDisk (fun r =>
    match r with
    | Err e => MRet (Err (Wrap "list sandboxes on disk: " e))
    | Ok ids => recover_loop ids 0
    end).
