(* ===== verification/Ownership.v ===== *)
(** * The ownership rule of the sandbox manager

    The goroutines of Manager.v interleaved: any number of calls and audits, and one
    actor per sandbox.  The resources of a sandbox (directory, volume, process) are never
    touched by two goroutines at a time, and what the reconciliation reaps no one else
    owns. *)

From Stdlib Require Import ZArith Lia.
From stdpp Require Import base tactics option list gmap strings numbers relations.
From S2P Require Import Prelude GoStd Database EventGRPC Manager.

Open Scope Z_scope.

#[local] Set Warnings "-clear-no-such-hyp".

(** ** States *)

(** The goroutine of a Service: in its select; handling a command of a call or an event;
    recovering from a panic; returning (the reply was sent); gone, its done channel
    closed. *)
Inductive actor : Type :=
| Selecting (s : Service)
| Busy (t : option nat) (s : Service) (p : mprog (bool * option error))
| Panicked (s : Service) (p : mprog unit)
| Returned
| Exited.

(** The goroutine of a call: running, or in [do] after its command was taken, with the
    reply once it is there. *)
Inductive thread : Type :=
| Running (p : mprog (option error))
| Waiting (n : nat) (reply : option (option error)) (k : option error -> mprog (option error)).

Record config : Type := mkConfig {
  c_mgr : Manager;
  c_next : nat;
  c_actors : gmap nat actor;
  c_threads : gmap nat thread;
}.

(** ** Operations of a program *)

Definition env_of (c : config) : lockenv :=
  mkLockEnv (c_next c) (fun n => match c_actors c !! n with Some Exited => true | _ => false end).

Definition after_lock {A} (env : lockenv) (m : Manager) (p q : mprog A) (m' : Manager) : Prop :=
  match p with
  | MLock f k => q = k (f env m).1 /\ m' = (f env m).2
  | _ => False
  end.

(** The environment answers. *)
Definition after_env {A} (p q : mprog A) : Prop :=
  match p with
  | MVM _ _ k => exists x, q = k x
  | MListDisk k => exists x, q = k x
  | MNow k => exists x, q = k x
  | _ => False
  end.

Definition after_self {A} (s : Service) (p q : mprog A) (s' : Service) : Prop :=
  match p with
  | MSelf f k => q = k (f s).1 /\ s' = (f s).2
  | _ => False
  end.

(** The sandbox whose resources the next operation is on. *)
Definition touching {A} (p : mprog A) : option string :=
  match p with MVM id _ _ => Some id | _ => None end.

Definition exited_reply : option error := Some (Sentinel Sandboxmgr_errServiceExited).

(** ** Steps *)

Section Steps.

Context (uuid_Parse : string -> bool) (quote : string -> string).

(** The calls of the worker and the audit. *)
Inductive request : Type :=
| ReqCreate (c_in : CreateInput)
| ReqStop (id : string)
| ReqRemove (id : string)
| ReqAudit
| ReqSetCapacity (capacity : Z)
| ReqSnapshot.

Definition call (r : request) : mprog (option error) :=
  match r with
  | ReqCreate c_in => Create uuid_Parse quote c_in
  | ReqStop id => Stop id
  | ReqRemove id => Remove uuid_Parse quote id
  | ReqAudit => (_ <-m audit ;; MRet None)%mprog
  | ReqSetCapacity z => MLock (fun _ m => (tt, SetCapacity z m)) (fun _ => MRet None)
  | ReqSnapshot => MLock (fun _ m => (Snapshot m, m)) (fun _ => MRet None)
  end.

(** What an event of the select does. *)
Inductive event (n : nat) (s : Service) : mprog unit -> Prop :=
| event_tick : event n s (on_tick (s_id s) n)
| event_exited : s_exited s = true -> event n s (on_exited (s_id s) n).

Inductive mstep (c : config) : config -> Prop :=
| T_spawn t r :
    c_threads c !! t = None ->
    mstep c (mkConfig (c_mgr c) (c_next c) (c_actors c) (<[t := Running (call r)]> (c_threads c)))
| T_lock t p q m' :
    c_threads c !! t = Some (Running p) -> after_lock (env_of c) (c_mgr c) p q m' ->
    mstep c (mkConfig m' (S (c_next c)) (c_actors c) (<[t := Running q]> (c_threads c)))
| T_env t p q :
    c_threads c !! t = Some (Running p) -> after_env p q ->
    mstep c (mkConfig (c_mgr c) (c_next c) (c_actors c) (<[t := Running q]> (c_threads c)))
| T_go t n s k :
    c_threads c !! t = Some (Running (MGo n s k)) ->
    mstep c (mkConfig (c_mgr c) (c_next c) (<[n := Selecting s]> (c_actors c))
               (<[t := Running k]> (c_threads c)))
| T_send t n cmd k s :
    c_threads c !! t = Some (Running (MDo n cmd k)) -> c_actors c !! n = Some (Selecting s) ->
    mstep c (mkConfig (c_mgr c) (c_next c)
               (<[n := Busy (Some t) s (handle (s_id s) n cmd)]> (c_actors c))
               (<[t := Waiting n None k]> (c_threads c)))
| T_exited t n cmd k :
    c_threads c !! t = Some (Running (MDo n cmd k)) -> c_actors c !! n = Some Exited ->
    mstep c (mkConfig (c_mgr c) (c_next c) (c_actors c) (<[t := Running (k exited_reply)]> (c_threads c)))
| T_reply t n r k :
    c_threads c !! t = Some (Waiting n (Some r) k) ->
    mstep c (mkConfig (c_mgr c) (c_next c) (c_actors c) (<[t := Running (k r)]> (c_threads c)))
| T_noreply t n k :
    c_threads c !! t = Some (Waiting n None k) -> c_actors c !! n = Some Exited ->
    mstep c (mkConfig (c_mgr c) (c_next c) (c_actors c) (<[t := Running (k exited_reply)]> (c_threads c)))
| A_lock n t s p q m' :
    c_actors c !! n = Some (Busy t s p) -> after_lock (env_of c) (c_mgr c) p q m' ->
    mstep c (mkConfig m' (S (c_next c)) (<[n := Busy t s q]> (c_actors c)) (c_threads c))
| A_env n t s p q :
    c_actors c !! n = Some (Busy t s p) -> after_env p q ->
    mstep c (mkConfig (c_mgr c) (c_next c) (<[n := Busy t s q]> (c_actors c)) (c_threads c))
| A_self n t s p q s' :
    c_actors c !! n = Some (Busy t s p) -> after_self s p q s' ->
    mstep c (mkConfig (c_mgr c) (c_next c) (<[n := Busy t s' q]> (c_actors c)) (c_threads c))
| A_panic n t s p :
    c_actors c !! n = Some (Busy t s p) ->
    mstep c (mkConfig (c_mgr c) (c_next c) (<[n := Panicked s (on_panic (s_id s) n)]> (c_actors c))
               (c_threads c))
| A_reply n t s k exit err :
    c_actors c !! n = Some (Busy (Some t) s (MRet (exit, err))) ->
    c_threads c !! t = Some (Waiting n None k) ->
    mstep c (mkConfig (c_mgr c) (c_next c)
               (<[n := if exit : bool then Returned else Selecting s]> (c_actors c))
               (<[t := Waiting n (Some err) k]> (c_threads c)))
| A_event_done n s exit err :
    c_actors c !! n = Some (Busy None s (MRet (exit, err))) ->
    mstep c (mkConfig (c_mgr c) (c_next c) (<[n := Selecting s]> (c_actors c)) (c_threads c))
| A_event n s p :
    c_actors c !! n = Some (Selecting s) -> event n s p ->
    mstep c (mkConfig (c_mgr c) (c_next c)
               (<[n := Busy None s (_ <-m p ;; MRet (false, None))%mprog]> (c_actors c)) (c_threads c))
| A_shutdown n s :
    c_actors c !! n = Some (Selecting s) ->
    mstep c (mkConfig (c_mgr c) (c_next c) (<[n := Returned]> (c_actors c)) (c_threads c))
| P_lock n s p q m' :
    c_actors c !! n = Some (Panicked s p) -> after_lock (env_of c) (c_mgr c) p q m' ->
    mstep c (mkConfig m' (S (c_next c)) (<[n := Panicked s q]> (c_actors c)) (c_threads c))
| P_env n s p q :
    c_actors c !! n = Some (Panicked s p) -> after_env p q ->
    mstep c (mkConfig (c_mgr c) (c_next c) (<[n := Panicked s q]> (c_actors c)) (c_threads c))
| P_self n s p q s' :
    c_actors c !! n = Some (Panicked s p) -> after_self s p q s' ->
    mstep c (mkConfig (c_mgr c) (c_next c) (<[n := Panicked s' q]> (c_actors c)) (c_threads c))
| P_done n s u :
    c_actors c !! n = Some (Panicked s (MRet u)) ->
    mstep c (mkConfig (c_mgr c) (c_next c) (<[n := Returned]> (c_actors c)) (c_threads c))
| A_close n :
    c_actors c !! n = Some Returned ->
    mstep c (mkConfig (c_mgr c) (c_next c) (<[n := Exited]> (c_actors c)) (c_threads c))
| E_read ev rest :
    mg_events (c_mgr c) = ev :: rest ->
    mstep c (mkConfig (mkManager (mg_services (c_mgr c)) (mg_deleting (c_mgr c))
                         (mg_capacity (c_mgr c)) rest)
               (c_next c) (c_actors c) (c_threads c)).

End Steps.

(** The goroutines that are on the resources of a sandbox. *)
Definition thread_touches (c : config) (t : nat) (id : string) : Prop :=
  exists p, c_threads c !! t = Some (Running p) /\ touching p = Some id.
Definition actor_touches (c : config) (n : nat) (id : string) : Prop :=
  (exists t s p, c_actors c !! n = Some (Busy t s p) /\ touching p = Some id)
  \/ (exists s p, c_actors c !! n = Some (Panicked s p) /\ touching p = Some id).

(** ** Programs that respect the rule *)

(** The map of Services and the set of ids being removed. *)
Definition svcs (m : Manager) : gmap string nat := en_svc <$> mg_services m.
Definition same_shape (m m' : Manager) : Prop :=
  svcs m' = svcs m /\ mg_deleting m' = mg_deleting m.

Definition mgr_ok (m : Manager) : Prop := forall id, id ∈ mg_deleting m -> svcs m !! id = None.

(** A section that only claims ids no one has, and releases ids it holds. *)
Definition moved (m m' : Manager) (H H' : gset string) : Prop :=
  svcs m' = svcs m /\ mg_deleting m' = (mg_deleting m ∖ H) ∪ H'
  /\ forall id, id ∈ H' -> id ∉ H -> (id ∉ mg_deleting m) /\ svcs m !! id = None.

(** The programs of an actor for the resources [V]. *)
Fixpoint aok {A} (V : option string) (Q : A -> Prop) (p : mprog A) : Prop :=
  match p with
  | MRet a => Q a
  | MLock f k => forall env m, same_shape m (f env m).2 /\ aok V Q (k (f env m).1)
  | MVM id _ k => V = Some id /\ forall x, aok V Q (k x)
  | MSelf f k => forall s, s_id (f s).2 = s_id s /\ aok V Q (k (f s).1)
  | MNow k => forall x, aok V Q (k x)
  | MGo _ _ _ | MDo _ _ _ | MListDisk _ => False
  end.

(** The programs of a call that holds the ids [H]. *)
Fixpoint tsafe {A} (H : gset string) (p : mprog A) : Prop :=
  match p with
  | MRet _ => H = ∅
  | MLock f k => forall env m, mgr_ok m -> H ⊆ mg_deleting m ->
                 exists H', moved m (f env m).2 H H' /\ tsafe H' (k (f env m).1)
  | MVM id _ k => id ∈ H /\ forall x, tsafe H (k x)
  | MDo _ c k => c = cmdStop /\ H = ∅ /\ forall x, tsafe ∅ (k x)
  | MListDisk k => forall x, tsafe H (k x)
  | MNow k => forall x, tsafe H (k x)
  | MGo _ _ _ | MSelf _ _ => False
  end.

Lemma aok_bind {A B} V (p : mprog A) (g : A -> mprog B) Q :
  aok V (fun a => aok V Q (g a)) p -> aok V Q (mbind p g).
Proof.
  induction p; cbn; intros Hp; auto.
  - intros env m. destruct (Hp env m). auto.
  - destruct Hp. auto.
  - intros s. destruct (Hp s). auto.
Qed.

Lemma aok_mono {A} V (p : mprog A) (Q Q' : A -> Prop) : (forall a, Q a -> Q' a) -> aok V Q p -> aok V Q' p.
Proof.
  intros HQ. induction p; cbn; intros Hp; auto.
  - intros env m. destruct (Hp env m). auto.
  - destruct Hp. auto.
  - intros s. destruct (Hp s). auto.
Qed.

Lemma aok_vm {A} id (Q : A -> Prop) p : aok None Q p -> aok (Some id) Q p.
Proof.
  induction p; cbn; intros Hp; auto.
  - intros env m. destruct (Hp env m). auto.
  - by destruct Hp.
  - intros s. destruct (Hp s). auto.
Qed.

(** ** The programs of the actors *)

Lemma same_shape_refl m : same_shape m m.
Proof. done. Qed.

Lemma emit_send_shape id st now m : same_shape m (emit_send id st now m).
Proof. unfold emit_send. by destruct (decide _). Qed.

Lemma report_shape id svc st m : same_shape m (report_section id svc st m).2.
Proof.
  unfold report_section. destruct (mg_services m !! id) as [e|] eqn:E; [|done].
  destruct (decide (en_svc e = svc)) as [<-|]; [|done]. split; [|done].
  unfold svcs. cbn. rewrite fmap_insert. apply insert_id. by rewrite lookup_fmap, E.
Qed.

Lemma report_aok id svc st : aok None (fun _ => True) (report id svc st).
Proof.
  cbn. intros env m. split; [apply report_shape|]. destruct (report_section id svc st m).1; [|done].
  cbn. intros now env' m'. split; [apply emit_send_shape|done].
Qed.

Lemma setState_aok id svc st : aok None (fun _ => True) (setState id svc st).
Proof.
  cbn. intros s. destruct (decide (st = s_state s)); cbn [fst snd]; split; try done. apply report_aok.
Qed.

Lemma poll_aok id svc : aok (Some id) (fun _ => True) (poll id svc).
Proof.
  cbn. intros s. split; [done|]. destruct (_ || _); [done|]. split; [done|].
  intros x. apply aok_vm, setState_aok.
Qed.

Lemma svc_remove_aok id : aok (Some id) (fun _ => True) (svc_remove id).
Proof. cbn. intros s. split; [done|]. by destruct (negb (s_vm s)). Qed.

(** What the reply of a command says of the actor: a create that failed and a remove end
    it, a stop does not. *)
Definition reply_ok (c : command) (r : bool * option error) : Prop :=
  match c with
  | cmdCreate _ => r = (false, None) \/ exists e, r = (true, Some e)
  | cmdStop => r.1 = false
  | cmdRemove => r.1 = true
  end.

#[local] Arguments svc_remove _ : simpl never.
#[local] Arguments poll _ _ : simpl never.
#[local] Arguments setState _ _ _ : simpl never.

Lemma handle_aok id svc c : aok (Some id) (reply_ok c) (handle id svc c).
Proof.
  destruct c as [c_in| |]; unfold handle.
  - apply aok_bind. unfold svc_create. cbn [aok]. intros s. split; [done|]. cbn [fst].
    destruct (s_vm s); cbn; [eauto|]. split; [done|]. intros [e|]; cbn; [eauto|].
    intros s'. split; [done|]. split; [done|]. intros [e|].
    + apply aok_bind. eapply aok_mono; [|apply svc_remove_aok]. cbn. eauto.
    + cbn [mbind watch aok]. intros s''. split; [done|].
      apply aok_bind. eapply aok_mono; [|apply poll_aok]. cbn. auto.
  - cbn. intros s. split; [done|]. by destruct (negb (s_vm s)).
  - apply aok_bind. eapply aok_mono; [|apply svc_remove_aok]. done.
Qed.

Lemma event_aok n s p : event n s p -> 
  aok (Some (s_id s)) (fun r : bool * option error => r = (false, None))
    (_ <-m p ;; MRet (false, None))%mprog.
Proof.
  intros E. apply aok_bind. cbn. apply (aok_mono _ _ (fun _ => True)); [done|]. destruct E.
  - apply poll_aok.
  - cbn. intros s'. split; [done|]. apply aok_vm, setState_aok.
Qed.

(** ** The programs of the calls *)

Lemma same_shape_moved m m' H : same_shape m m' -> H ⊆ mg_deleting m -> moved m m' H H.
Proof.
  intros [Hs Hd] HH. split; [done|]. split; [|done]. rewrite Hd. apply set_eq. intros id.
  rewrite elem_of_union, elem_of_difference. destruct (decide (id ∈ H)) as [Hi|Hi]; [|tauto].
  specialize (HH id Hi). tauto.
Qed.

Lemma tsafe_shape {A X} H (f : lockenv -> Manager -> X * Manager) (k : X -> mprog A) :
  (forall env m, same_shape m (f env m).2) -> (forall x, tsafe H (k x)) -> tsafe H (MLock f k).
Proof. intros Hf Hk. cbn. intros env m _ HH. exists H. split; [by apply same_shape_moved|apply Hk]. Qed.

Lemma release_moved id m H H' :
  H ⊆ mg_deleting m -> id ∈ H -> H' = H ∖ {[id]} -> moved m (release id m) H H'.
Proof.
  intros HH Hid ->. split; [done|]. cbn. split; [|intros i; rewrite elem_of_difference; tauto].
  apply set_eq. intros i. rewrite elem_of_union, !elem_of_difference, elem_of_singleton.
  destruct (decide (i ∈ H)) as [Hi|Hi]; [specialize (HH i Hi); tauto|].
  split; [tauto|]. intros [[? ?]|[? _]]; [|tauto]. split; [done|]. congruence.
Qed.

Lemma claim_section_moved onDisk m orphans m' :
  claim_section onDisk m = (orphans, m') ->
  NoDup orphans /\ svcs m' = svcs m /\ mg_deleting m' = mg_deleting m ∪ list_to_set orphans
  /\ forall id, id ∈ orphans -> (id ∉ mg_deleting m) /\ svcs m !! id = None.
Proof.
  revert m orphans m'. induction onDisk as [|id rest IH]; intros m orphans m' H; cbn in H.
  { injection H as <- <-. split; [constructor|]. split; [done|].
    split; [apply set_eq; intros i; cbn; rewrite elem_of_union; set_solver|]. intros i Hi. by apply elem_of_nil in Hi. }
  destruct (decide (is_Some (mg_services m !! id))) as [|Hn]; [by apply IH|].
  destruct (decide (id ∈ mg_deleting m)) as [|Hd]; [by apply IH|].
  destruct (claim_section rest _) as [l m2] eqn:E. injection H as <- <-.
  apply IH in E as (Hnd & Hs & Hdel & Hin). cbn in Hdel, Hin. change (svcs (set_deleting (union {[id]}) m)) with (svcs m) in *.
  assert (svcs m !! id = None) as Hsid.
  { unfold svcs. rewrite lookup_fmap. destruct (mg_services m !! id); [by destruct Hn; eexists|done]. }
  split; [constructor; [|done]; intros Hi; apply (proj1 (Hin _ Hi)); set_solver|].
  split; [done|]. split; [rewrite Hdel; apply set_eq; intros i; cbn; set_solver|].
  intros i [->|Hi]%elem_of_cons; [done|]. destruct (Hin i Hi) as [H1 H2]. split; [set_solver|done].
Qed.

Lemma reap_orphans_tsafe ids :
  NoDup ids -> tsafe (list_to_set ids) (_ <-m reap_orphans ids ;; MRet (None : option error))%mprog.
Proof.
  induction 1 as [|id rest Hid _ IH]; [done|]. cbn. split; [set_solver|]. intros _ env m _ HH.
  exists (list_to_set rest). split; [|done].
  apply release_moved; [done|set_solver|set_solver].
Qed.

Lemma reconcileDisk_tsafe : tsafe ∅ (_ <-m reconcileDisk ;; MRet (None : option error))%mprog.
Proof.
  cbn. intros [onDisk|e]; [|done]. cbn. intros env m _ _.
  destruct (claim_section onDisk m) as [orphans m'] eqn:E.
  apply claim_section_moved in E as (Hnd & Hs & Hd & Hin). exists (list_to_set orphans).
  split; [|by apply reap_orphans_tsafe]. split; [done|]. cbn [snd]. split; [rewrite Hd; set_solver|].
  intros id Hi _. apply Hin. by apply elem_of_list_to_set in Hi.
Qed.

Lemma liveness_shape env m : same_shape m (liveness_section env m).2.
Proof.
  split; [|done]. unfold svcs, liveness_section. cbn. rewrite <- map_fmap_compose.
  apply map_fmap_ext. intros id e _. cbn. by destruct (_ && _).
Qed.

Lemma emit_all_tsafe {A B} ids st (g : unit -> mprog A) (h : A -> mprog B) :
  tsafe ∅ (mbind (g tt) h) -> tsafe ∅ (mbind (mbind (emit_all ids st) g) h).
Proof.
  intros Hg. induction ids as [|id ids IH]; [done|]. cbn [emit_all emit mbind]. intros now.
  apply tsafe_shape; [intros; apply emit_send_shape|]. intros []. exact IH.
Qed.

Lemma audit_tsafe : tsafe ∅ (_ <-m audit ;; MRet (None : option error))%mprog.
Proof.
  unfold audit, checkLiveness. cbn [mbind]. apply tsafe_shape; [apply liveness_shape|]. intros dead.
  apply emit_all_tsafe, reconcileDisk_tsafe.
Qed.

Lemma Stop_tsafe id : tsafe ∅ (Stop id).
Proof.
  apply tsafe_shape; [done|]. intros [e|]; [|done]. by cbn.
Qed.

Lemma remove_after_tsafe id r : tsafe {[id]} (remove_after id r).
Proof.
  assert (forall r, tsafe {[id]} (remove_release id r)) as Hrel.
  { intros r'. cbn. intros env m _ HH. exists ∅. split; [|done].
    apply release_moved; [done|set_solver|set_solver]. }
  unfold remove_after. destruct (exited_err r); [|done]. cbn. split; [set_solver|]. done.
Qed.

(** ** The invariant *)

Definition is_dead (c : config) (n : nat) : Prop :=
  c_actors c !! n = Some Returned \/ c_actors c !! n = Some Exited.

(** The call is handing the id to this actor for its removal. *)
Definition lends (th : thread) (n : nat) (id : string) : Prop :=
  th = Running (MDo n cmdRemove (remove_after id)) \/ th = Waiting n None (remove_after id).

(** The id whose resources an actor may still use. *)
Definition aid (a : actor) : option string :=
  match a with
  | Selecting s | Busy _ s _ => Some (s_id s)
  | Panicked _ _ | Returned | Exited => None
  end.

(** The actor may still use the resources of the id: in its loop, or about to start. *)
Definition live (c : config) (n : nat) (id : string) : Prop :=
  (exists a, c_actors c !! n = Some a /\ aid a = Some id)
  \/ (exists t s k, c_threads c !! t = Some (Running (MGo n s k)) /\ s_id s = id).

Definition owned (g : nat -> gset string) (c : config) (n : nat) (id : string) : Prop :=
  svcs (c_mgr c) !! id = Some n
  \/ exists t th, c_threads c !! t = Some th /\ id ∈ g t /\ lends th n id.

(** The continuation of the section of [Create]. *)
Definition create_cont (c_in : CreateInput) (r : nat + option error) : mprog (option error) :=
  match r with
  | inr err => MRet err
  | inl svc => MGo svc (newService (ci_ID c_in))
                 (MDo svc (cmdCreate c_in) (create_after (ci_ID c_in) svc))
  end.

Definition remove_cont (id : string) (r : nat + error) : mprog (option error) :=
  match r with
  | inr e => MRet (Some e)
  | inl svc => MDo svc cmdRemove (remove_after id)
  end.

(** Where a call is, and the ids it holds. *)
Inductive tform (dead : nat -> Prop) : gset string -> thread -> Prop :=
| F_safe H p : tsafe H p -> tform dead H (Running p)
| F_wait n r k : (forall x, tsafe ∅ (k x)) -> tform dead ∅ (Waiting n r k)
| F_create c_in : tform dead ∅ (Running (MLock (create_section c_in) (create_cont c_in)))
| F_go n c_in : tform dead ∅ (Running (create_cont c_in (inl n)))
| F_create_do n c_in : tform dead ∅ (Running (MDo n (cmdCreate c_in) (create_after (ci_ID c_in) n)))
| F_create_wait n id r :
    (forall e, r = Some (Some e) -> dead n) -> tform dead ∅ (Waiting n r (create_after id n))
| F_drop n id e : dead n -> tform dead ∅ (Running (create_after id n (Some e)))
| F_remove id : tform dead ∅ (Running (MLock (fun _ => remove_section id) (remove_cont id)))
| F_remove_do n id : tform dead {[id]} (Running (MDo n cmdRemove (remove_after id)))
| F_remove_wait n id r : tform dead {[id]} (Waiting n r (remove_after id)).

(** The command a waiting call sent. *)
Definition waits_for (H : gset string) (n : nat) (k : option error -> mprog (option error))
    (cmd : command) : Prop :=
  match cmd with
  | cmdCreate _ => H = ∅ /\ exists id, k = create_after id n
  | cmdStop => H = ∅ /\ forall x, tsafe ∅ (k x)
  | cmdRemove => exists id, H = {[id]} /\ k = remove_after id
  end.

Definition actor_ok (g : nat -> gset string) (c : config) (n : nat) (a : actor) : Prop :=
  match a with
  | Busy None s p => aok (Some (s_id s)) (fun r => r = (false, None)) p
  | Busy (Some t) s p =>
      exists k cmd, c_threads c !! t = Some (Waiting n None k) /\ waits_for (g t) n k cmd
                    /\ aok (Some (s_id s)) (reply_ok cmd) p
  | Panicked _ p => aok None (fun _ => True) p
  | Selecting _ | Returned | Exited => True
  end.

Record minv (g : nat -> gset string) (c : config) : Prop := {
  i_mgr : mgr_ok (c_mgr c);
  i_disj : forall t1 t2 id, id ∈ g t1 -> id ∈ g t2 -> t1 = t2;
  i_held : forall t, g t ⊆ mg_deleting (c_mgr c);
  i_none : forall t, c_threads c !! t = None -> g t = ∅;
  i_forms : forall t th, c_threads c !! t = Some th -> tform (is_dead c) (g t) th;
  i_live : forall n id, live c n id -> owned g c n id;
  i_actors : forall n a, c_actors c !! n = Some a -> (n < c_next c)%nat /\ actor_ok g c n a;
  i_go : forall t n s k, c_threads c !! t = Some (Running (MGo n s k)) ->
         c_actors c !! n = None /\ (n < c_next c)%nat
         /\ forall t' s' k', c_threads c !! t' = Some (Running (MGo n s' k')) -> t' = t;
}.

Lemma tform_dead (d d' : nat -> Prop) H th : (forall n, d n -> d' n) -> tform d H th -> tform d' H th.
Proof.
  intros Hd. destruct 1; [by apply F_safe|by apply F_wait|apply F_create|apply F_go|apply F_create_do
    |apply F_create_wait; eauto|apply F_drop; auto|apply F_remove|apply F_remove_do|apply F_remove_wait].
Qed.

(** ** What the invariant gives *)

Lemma owner_unique g c n n' id : minv g c -> live c n id -> live c n' id -> n = n'.
Proof.
  intros I L L'. destruct (i_live _ _ I _ _ L) as [Hs|(t & th & Ht & Hid & Hl)];
    destruct (i_live _ _ I _ _ L') as [Hs'|(t' & th' & Ht' & Hid' & Hl')].
  - congruence.
  - pose proof (i_mgr _ _ I id (i_held _ _ I _ _ Hid')). congruence.
  - pose proof (i_mgr _ _ I id (i_held _ _ I _ _ Hid)). congruence.
  - pose proof (i_disj _ _ I _ _ _ Hid Hid') as <-. assert (th = th') as <- by congruence.
    destruct Hl as [->| ->], Hl' as [[=]|[=]]; done.
Qed.

Lemma actor_touches_live g c n id : minv g c -> actor_touches c n id -> live c n id.
Proof.
  intros I [(t & s & p & Ha & Hp)|(s & p & Ha & Hp)];
    destruct (i_actors _ _ I _ _ Ha) as [_ Hok]; cbn in Hok; unfold touching in Hp.
  - left. exists (Busy t s p). split; [done|]. cbn.
    destruct t as [t|]; [destruct Hok as (k & cmd & _ & _ & Hok)|];
      destruct p; try done; injection Hp as ->; by destruct Hok as [[= ->] _].
  - destruct p; try done. by destruct Hok.
Qed.

Lemma thread_touches_held g c t id : minv g c -> thread_touches c t id -> id ∈ g t.
Proof.
  intros I (p & Ht & Hp). pose proof (i_forms _ _ I _ _ Ht) as F. unfold touching in Hp.
  destruct p; try done. injection Hp as ->. inversion F; subst.
  match goal with Hs : tsafe _ _ |- _ => by destruct Hs end.
Qed.

(** ** Preservation *)

Definition upd (g : nat -> gset string) (t : nat) (H : gset string) (u : nat) : gset string :=
  if decide (u = t) then H else g u.

Lemma upd_same g t H : upd g t H t = H.
Proof. unfold upd. by rewrite decide_True. Qed.
Lemma upd_other g t H u : u <> t -> upd g t H u = g u.
Proof. intros. unfold upd. by rewrite decide_False. Qed.

(** A call moves, its held ids from [g t] to [H']. *)
Lemma step_thread_gen g c t th th' m' next' H' :
  let c' := mkConfig m' next' (c_actors c) (<[t := th']> (c_threads c)) in
  minv g c -> c_threads c !! t = Some th -> mgr_ok m' ->
  (forall id, id ∈ H' -> id ∉ g t -> id ∉ mg_deleting (c_mgr c)) ->
  H' ⊆ mg_deleting m' ->
  (forall id, id ∈ mg_deleting (c_mgr c) -> id ∉ g t -> id ∈ mg_deleting m') ->
  (c_next c <= next')%nat -> tform (is_dead c) H' th' ->
  (forall n s p, c_actors c !! n <> Some (Busy (Some t) s p)) ->
  (forall n id, live c' n id -> owned (upd g t H') c' n id) ->
  (forall n s k, c_threads c' !! t = Some (Running (MGo n s k)) ->
     c_actors c !! n = None /\ (c_next c <= n < next')%nat) ->
  minv (upd g t H') c'.
Proof.
  intros c' I Ht Hm Hnew Hin Hkeep Hnext Hform Hbusy Hlive Hgo.
  assert (forall u id, u <> t -> id ∈ g u -> id ∉ g t) as Hsep.
  { intros u id Hu H1 H2. by apply Hu, (i_disj _ _ I u t id). }
  assert (forall u th, u <> t -> c_threads c' !! u = Some th -> c_threads c !! u = Some th) as Hother.
  { intros u x Hu Hx. cbn in Hx. by rewrite lookup_insert_ne in Hx. }
  split; cbn [c_mgr c_next c_actors c_threads c']; try done.
  - intros t1 t2 id H1 H2. unfold upd in H1, H2.
    destruct (decide (t1 = t)) as [->|N1], (decide (t2 = t)) as [->|N2]; try done.
    + exfalso. apply (Hnew id H1 (Hsep _ _ N2 H2)). by apply (i_held _ _ I t2).
    + exfalso. apply (Hnew id H2 (Hsep _ _ N1 H1)). by apply (i_held _ _ I t1).
    + by apply (i_disj _ _ I t1 t2 id).
  - intros u id Hi. unfold upd in Hi. destruct (decide (u = t)) as [->|N]; [by apply Hin|].
    apply Hkeep; [by apply (i_held _ _ I u)|by eapply Hsep].
  - intros u Hu. destruct (decide (u = t)) as [->|N]; [by rewrite lookup_insert_eq in Hu|].
    rewrite upd_other by done. apply (i_none _ _ I). by rewrite lookup_insert_ne in Hu.
  - intros u x Hx. destruct (decide (u = t)) as [->|N].
    + rewrite lookup_insert_eq in Hx. injection Hx as <-. by rewrite upd_same.
    + rewrite upd_other by done. apply (i_forms _ _ I). by apply Hother.
  - intros n a Ha. destruct (i_actors _ _ I _ _ Ha) as [Hn Hok]. split; [lia|].
    destruct a as [|[u|] s p| | |]; try done. destruct Hok as (k & cmd & Hu & Hw & Hp).
    assert (u <> t) as N by (intros ->; by apply (Hbusy n s p)).
    exists k, cmd. cbn. rewrite lookup_insert_ne, upd_other by done. done.
  - intros u n s k Hu.
    assert (c_actors c !! n = None /\ (n < next')%nat
            /\ (u = t -> (c_next c <= n)%nat) /\ (u <> t -> (n < c_next c)%nat)) as (Hnone & Hlt & Hge & Hlt').
    { destruct (decide (u = t)) as [->|N].
      - destruct (Hgo n s k Hu) as [? ?]. split_and!; try done; lia.
      - destruct (i_go _ _ I _ _ _ _ (Hother _ _ N Hu)) as (? & ? & _). split_and!; try done; lia. }
    split; [done|]. split; [done|]. intros u' s' k' Hu'.
    destruct (decide (u = t)) as [->|N], (decide (u' = t)) as [->|N']; try done.
    + destruct (i_go _ _ I _ _ _ _ (Hother _ _ N' Hu')) as (_ & ? & _). specialize (Hge eq_refl). lia.
    + destruct (Hgo n s' k' Hu') as [_ ?]. specialize (Hlt' N). lia.
    + destruct (i_go _ _ I _ _ _ _ (Hother _ _ N Hu)) as (_ & _ & Huniq). by eapply Huniq, Hother.
Qed.

Lemma not_busy g c t th :
  minv g c -> c_threads c !! t = Some th ->
  (forall n k, th = Waiting n None k -> c_actors c !! n = Some Exited) ->
  forall n s p, c_actors c !! n <> Some (Busy (Some t) s p).
Proof.
  intros I Ht Hw n s p Ha. destruct (i_actors _ _ I _ _ Ha) as [_ (k & cmd & Hk & _ & _)].
  rewrite Ht in Hk. injection Hk as ->. by rewrite (Hw n k eq_refl) in Ha.
Qed.

(** A pending start seen after a call other than it moved. *)
Lemma live_other c t th' m' next' n id :
  live (mkConfig m' next' (c_actors c) (<[t := th']> (c_threads c))) n id ->
  (forall s k, th' <> Running (MGo n s k)) -> live c n id.
Proof.
  intros [(a & Ha & Hid)|(u & s & k & Hu & Hid)] Hgo; [left; by exists a|right]. cbn in Hu.
  destruct (decide (u = t)) as [->|N]; [rewrite lookup_insert_eq in Hu; by injection Hu as ->; edestruct Hgo|].
  rewrite lookup_insert_ne in Hu by done. by exists u, s, k.
Qed.

(** Ownership of an actor is kept when the call that moves does not lend it. *)
Lemma owned_other g c t th th' m' next' H' n id :
  c_threads c !! t = Some th -> svcs m' !! id = svcs (c_mgr c) !! id -> ~ (id ∈ g t /\ lends th n id) ->
  owned g c n id ->
  owned (upd g t H') (mkConfig m' next' (c_actors c) (<[t := th']> (c_threads c))) n id.
Proof.
  intros Ht Hs Hl [Ho|(u & x & Hu & Hi & Hx)]; [left; cbn; congruence|right].
  assert (u <> t) as N by (intros ->; rewrite Ht in Hu; injection Hu as ->; tauto).
  exists u, x. cbn. by rewrite lookup_insert_ne, upd_other.
Qed.

(** A call that neither starts nor lends an actor. *)
Lemma step_thread g c t th th' m' next' H' :
  minv g c -> c_threads c !! t = Some th -> moved (c_mgr c) m' (g t) H' -> (c_next c <= next')%nat ->
  tform (is_dead c) H' th' ->
  (forall n k, th = Waiting n None k -> c_actors c !! n = Some Exited) ->
  (forall n id, lends th n id -> ~ live c n id) ->
  (forall n s k, th' <> Running (MGo n s k)) ->
  minv (upd g t H') (mkConfig m' next' (c_actors c) (<[t := th']> (c_threads c))).
Proof.
  intros I Ht (Hs & Hd & Hnew) Hnext Hform Hw Hl Hgo. pose proof (i_held _ _ I t) as Hheld.
  apply (step_thread_gen g c t th th'); try done.
  - intros id Hid. rewrite Hs. rewrite Hd in Hid. apply elem_of_union in Hid as [Hid|Hid].
    + apply elem_of_difference in Hid as [Hid _]. by apply (i_mgr _ _ I).
    + destruct (decide (id ∈ g t)) as [Hg|Hg]; [by apply (i_mgr _ _ I), Hheld|by apply Hnew].
  - intros id H1 H2. by apply Hnew.
  - intros id Hid. rewrite Hd. set_solver.
  - intros id H1 H2. rewrite Hd. set_solver.
  - by apply (not_busy g c t th).
  - intros n id L. apply live_other in L; [|done].
    eapply owned_other; [done|by rewrite Hs| |by apply (i_live _ _ I)]. intros [_ Hx]. by apply (Hl n id).
  - intros n s k. cbn. rewrite lookup_insert_eq. intros [= E]. by destruct (Hgo n s k).
Qed.

(** An actor moves, the shape of the map unchanged. *)
Lemma step_actor g c n a a' m' next' :
  minv g c -> c_actors c !! n = Some a -> same_shape (c_mgr c) m' -> (c_next c <= next')%nat ->
  actor_ok g c n a' -> (aid a' = None \/ aid a' = aid a) ->
  (a = Returned \/ a = Exited -> a' = Returned \/ a' = Exited) ->
  minv g (mkConfig m' next' (<[n := a']> (c_actors c)) (c_threads c)).
Proof.
  intros I Ha [Hs Hd] Hnext Hok Haid Hdead.
  assert (forall u, is_dead c u -> is_dead (mkConfig m' next' (<[n := a']> (c_actors c)) (c_threads c)) u) as Hdd.
  { unfold is_dead. cbn. intros u Hu. destruct (decide (u = n)) as [->|N].
    - rewrite lookup_insert_eq. rewrite Ha in Hu. destruct Hdead as [->| ->]; [|by left|by right].
      destruct Hu as [[= ->]|[= ->]]; auto.
    - by rewrite lookup_insert_ne. }
  split; cbn [c_mgr c_next c_actors c_threads].
  - intros id. rewrite Hd, Hs. apply (i_mgr _ _ I).
  - apply (i_disj _ _ I).
  - rewrite Hd. apply (i_held _ _ I).
  - apply (i_none _ _ I).
  - intros t th Ht. eapply tform_dead; [exact Hdd|]. by apply (i_forms _ _ I).
  - intros u id L. assert (live c u id) as Lc.
    { destruct L as [(b & Hb & Hid)|L]; [left|by right]. cbn in Hb.
      destruct (decide (u = n)) as [->|N]; [|rewrite lookup_insert_ne in Hb by done; by exists b].
      rewrite lookup_insert_eq in Hb. injection Hb as <-. exists a. split; [done|]. destruct Haid; congruence. }
    destruct (i_live _ _ I _ _ Lc) as [Ho|Ho]; [left; cbn; by rewrite Hs|by right].
  - intros u b Hb. destruct (decide (u = n)) as [->|N].
    + rewrite lookup_insert_eq in Hb. injection Hb as <-. split; [|done].
      pose proof (proj1 (i_actors _ _ I _ _ Ha)). lia.
    + rewrite lookup_insert_ne in Hb by done. destruct (i_actors _ _ I _ _ Hb) as [? ?]. split; [lia|done].
  - intros t u s k Ht. destruct (i_go _ _ I _ _ _ _ Ht) as (H1 & H2 & H3).
    assert (u <> n) by (intros ->; congruence). rewrite lookup_insert_ne by done. split_and!; [done|lia|done].
Qed.

(** A call and the actor it talks to move together, the held ids unchanged; the actor
    keeps its id or stops, and a lent actor stays lent or stops. *)
Lemma step_both g c t n th th' a a' :
  let c' := mkConfig (c_mgr c) (c_next c) (<[n := a']> (c_actors c)) (<[t := th']> (c_threads c)) in
  minv g c -> c_threads c !! t = Some th -> c_actors c !! n = Some a ->
  tform (is_dead c') (g t) th' -> actor_ok g c' n a' ->
  (aid a' = None \/ aid a' = aid a) -> (~ is_dead c n) ->
  (forall u s p, u <> n -> c_actors c !! u <> Some (Busy (Some t) s p)) ->
  (forall u id, id ∈ g t -> lends th u id -> live c' u id -> lends th' u id) ->
  (forall u s k, th <> Running (MGo u s k) /\ th' <> Running (MGo u s k)) ->
  minv g c'.
Proof.
  intros c' I Ht Ha Hform Hok Haid Hnd Hbusy Hlend Hgo.
  assert (forall u, is_dead c u -> is_dead c' u) as Hdd.
  { unfold is_dead, c'. cbn. intros u Hu. destruct (decide (u = n)) as [->|N]; [done|].
    by rewrite lookup_insert_ne. }
  assert (forall u v s k, c_threads c' !! u = Some (Running (MGo v s k)) ->
            c_threads c !! u = Some (Running (MGo v s k))) as Hth.
  { intros u v s k Hu. cbn in Hu. destruct (decide (u = t)) as [->|N].
    - rewrite lookup_insert_eq in Hu. injection Hu as ->. by destruct (Hgo v s k) as [_ []].
    - by rewrite lookup_insert_ne in Hu. }
  split; cbn [c_mgr c_next c_actors c_threads c'].
  - apply (i_mgr _ _ I).
  - apply (i_disj _ _ I).
  - apply (i_held _ _ I).
  - intros u Hu. destruct (decide (u = t)) as [->|N]; [by rewrite lookup_insert_eq in Hu|].
    apply (i_none _ _ I). by rewrite lookup_insert_ne in Hu.
  - intros u x Hx. destruct (decide (u = t)) as [->|N].
    + rewrite lookup_insert_eq in Hx. by injection Hx as <-.
    + rewrite lookup_insert_ne in Hx by done. eapply tform_dead; [exact Hdd|]. by apply (i_forms _ _ I).
  - intros u id L. assert (live c u id) as Lc.
    { destruct L as [(b & Hb & Hid)|(v & s & k & Hv & Hid)].
      - left. cbn in Hb. destruct (decide (u = n)) as [->|N]; [|rewrite lookup_insert_ne in Hb by done; by exists b].
        rewrite lookup_insert_eq in Hb. injection Hb as <-. exists a. split; [done|]. destruct Haid; congruence.
      - right. exists v, s, k. split; [by apply Hth|done]. }
    destruct (i_live _ _ I _ _ Lc) as [Ho|(v & x & Hv & Hi & Hx)]; [by left|right].
    destruct (decide (v = t)) as [->|N].
    + exists t, th'. cbn. rewrite lookup_insert_eq. assert (x = th) as -> by congruence. eauto.
    + exists v, x. cbn. by rewrite lookup_insert_ne.
  - intros u b Hb. destruct (decide (u = n)) as [->|N].
    + rewrite lookup_insert_eq in Hb. injection Hb as <-. split; [|done]. apply (i_actors _ _ I _ _ Ha).
    + rewrite lookup_insert_ne in Hb by done. destruct (i_actors _ _ I _ _ Hb) as [Hn Hb']. split; [done|].
      destruct b as [|[v|] s p| | |]; try done. destruct Hb' as (k & cmd & Hv & Hw & Hp).
      assert (v <> t) by (intros ->; by eapply Hbusy). exists k, cmd. cbn. by rewrite lookup_insert_ne.
  - intros u v s k Hu. destruct (i_go _ _ I _ _ _ _ (Hth _ _ _ _ Hu)) as (H1 & H2 & H3).
    assert (v <> n) by (intros ->; congruence). rewrite lookup_insert_ne by done.
    split_and!; [done|done|]. intros u' s' k' Hu'. eapply H3, Hth, Hu'.
Qed.

Lemma held_other (g : nat -> gset string) t u id : g t = ∅ -> id ∈ g u -> u <> t.
Proof. intros Hg Hi ->. rewrite Hg in Hi. by apply elem_of_empty in Hi. Qed.

(** A call starts its actor. *)
Lemma step_go g c t n s k :
  minv g c -> c_threads c !! t = Some (Running (MGo n s k)) ->
  minv g (mkConfig (c_mgr c) (c_next c) (<[n := Selecting s]> (c_actors c)) (<[t := Running k]> (c_threads c))).
Proof.
  intros I Ht. destruct (i_go _ _ I _ _ _ _ Ht) as (Hnone & Hn & Huniq).
  pose proof (i_forms _ _ I _ _ Ht) as F.
  assert (g t = ∅ /\ exists c_in, k = MDo n (cmdCreate c_in) (create_after (ci_ID c_in) n)) as [Hg (c_in & ->)].
  { inversion F; subst; try done. eauto. }
  set (c' := mkConfig _ _ _ _).
  assert (forall u v s' k', c_threads c' !! u = Some (Running (MGo v s' k')) ->
            u <> t /\ c_threads c !! u = Some (Running (MGo v s' k'))) as Hth.
  { intros u v s' k' Hu. cbn in Hu. destruct (decide (u = t)) as [->|N].
    - by rewrite lookup_insert_eq in Hu.
    - by rewrite lookup_insert_ne in Hu. }
  split; cbn [c_mgr c_next c_actors c_threads c'].
  - apply (i_mgr _ _ I).
  - apply (i_disj _ _ I).
  - apply (i_held _ _ I).
  - intros u Hu. destruct (decide (u = t)) as [->|N]; [by rewrite lookup_insert_eq in Hu|].
    apply (i_none _ _ I). by rewrite lookup_insert_ne in Hu.
  - intros u x Hx. destruct (decide (u = t)) as [->|N].
    + rewrite lookup_insert_eq in Hx. injection Hx as <-. rewrite Hg. apply F_create_do.
    + rewrite lookup_insert_ne in Hx by done. eapply tform_dead; [|by apply (i_forms _ _ I)].
      unfold is_dead. cbn. intros v Hv. destruct (decide (v = n)) as [->|]; [|by rewrite lookup_insert_ne].
      rewrite Hnone in Hv. by destruct Hv.
  - intros u id L. assert (live c u id) as Lc.
    { destruct L as [(b & Hb & Hid)|(v & s' & k' & Hv & Hid)].
      - cbn in Hb. destruct (decide (u = n)) as [->|N]; [|rewrite lookup_insert_ne in Hb by done; left; by exists b].
        rewrite lookup_insert_eq in Hb. injection Hb as <-. right. cbn in Hid. injection Hid as <-. by do 3 eexists.
      - right. exists v, s', k'. split; [by apply Hth|done]. }
    destruct (i_live _ _ I _ _ Lc) as [Ho|(v & x & Hv & Hi & Hx)]; [by left|right].
    assert (v <> t) by (eapply held_other; done).
    exists v, x. cbn. by rewrite lookup_insert_ne.
  - intros u b Hb. destruct (decide (u = n)) as [->|N].
    + rewrite lookup_insert_eq in Hb. by injection Hb as <-.
    + rewrite lookup_insert_ne in Hb by done. destruct (i_actors _ _ I _ _ Hb) as [Hu Hb']. split; [done|].
      destruct b as [|[v|] s' p| | |]; try done. destruct Hb' as (k' & cmd & Hv & Hw & Hp).
      assert (v <> t) by (intros ->; congruence). exists k', cmd. cbn. by rewrite lookup_insert_ne.
  - intros u v s' k' Hu. destruct (Hth _ _ _ _ Hu) as [Nu Hu']. destruct (i_go _ _ I _ _ _ _ Hu') as (H1 & H2 & H3).
    assert (v <> n) by (intros ->; by apply Nu, (Huniq _ _ _ Hu')). rewrite lookup_insert_ne by done.
    split_and!; [done|done|]. intros u' s2 k2 Hu2. eapply H3, Hth, Hu2.
Qed.

Lemma step_create g c t c_in :
  let r := create_section c_in (env_of c) (c_mgr c) in
  minv g c -> c_threads c !! t = Some (Running (MLock (create_section c_in) (create_cont c_in))) -> g t = ∅ ->
  exists g', minv g' (mkConfig r.2 (S (c_next c)) (c_actors c) (<[t := Running (create_cont c_in r.1)]> (c_threads c))).
Proof.
  intros r I Ht Hg. set (id := ci_ID c_in).
  unfold r, create_section. fold id.
  assert (forall err, exists g', minv g' (mkConfig (c_mgr c) (S (c_next c)) (c_actors c)
            (<[t := Running (MRet err)]> (c_threads c)))) as Hret.
  { intros err. exists (upd g t ∅). eapply step_thread; try done; [|lia|by apply F_safe|].
    - rewrite Hg. by apply same_shape_moved.
    - by intros n i [[=]|[=]]. }
  destruct (decide (is_Some _)) as [|Hs]; [apply Hret|].
  destruct (decide (id ∈ _)) as [|Hd]; [apply Hret|]. destruct (_ && _); [apply Hret|]. clear Hret.
  assert (svcs (c_mgr c) !! id = None) as Hsid.
  { unfold svcs. rewrite lookup_fmap. destruct (mg_services (c_mgr c) !! id); [by destruct Hs; eexists|done]. }
  set (m' := (_, _).2). assert (svcs m' = <[id := c_next c]> (svcs (c_mgr c))) as Hsv by (unfold svcs; cbn; by rewrite fmap_insert).
  exists (upd g t ∅). eapply step_thread_gen; try done.
  - intros i Hi. rewrite Hsv, lookup_insert_ne; [by apply (i_mgr _ _ I)|]. intros <-. done.
  - lia.
  - apply F_go.
  - apply (not_busy g c t _ I Ht). done.
  - intros n i [(a & Ha & Hid)|(u & s & k & Hu & Hid)]; cbn [c_mgr c_threads c_actors] in *.
    + assert (live c n i) as L by (left; eauto). destruct (i_live _ _ I _ _ L) as [Ho|(u & x & Hu & Hi & Hx)].
      * left. cbn [c_mgr]. rewrite Hsv, lookup_insert_ne; [done|]. intros <-. congruence.
      * right. assert (u <> t) by (eapply held_other; done).
        exists u, x. cbn. by rewrite lookup_insert_ne, upd_other.
    + destruct (decide (u = t)) as [->|N].
      * rewrite lookup_insert_eq in Hu. injection Hu as <- <- <-. left. cbn [s_id newService] in Hid. subst i. cbn [c_mgr].
        by rewrite Hsv, lookup_insert_eq.
      * rewrite lookup_insert_ne in Hu by done. assert (live c n i) as L by (right; eauto).
        destruct (i_live _ _ I _ _ L) as [Ho|(v & x & Hv & Hi & Hx)].
        -- left. cbn [c_mgr]. rewrite Hsv, lookup_insert_ne; [done|]. intros <-. congruence.
        -- right. assert (v <> t) by (eapply held_other; done).
           exists v, x. cbn. by rewrite lookup_insert_ne, upd_other.
  - cbn. rewrite lookup_insert_eq. intros n s k [= <- <- <-]. split; [|lia].
    destruct (c_actors c !! c_next c) as [a|] eqn:Ha; [|done]. pose proof (proj1 (i_actors _ _ I _ _ Ha)). lia.
Qed.

Lemma step_remove g c t id :
  let r := remove_section id (c_mgr c) in
  minv g c -> c_threads c !! t = Some (Running (MLock (fun _ => remove_section id) (remove_cont id))) -> g t = ∅ ->
  exists g', minv g' (mkConfig r.2 (S (c_next c)) (c_actors c) (<[t := Running (remove_cont id r.1)]> (c_threads c))).
Proof.
  intros r I Ht Hg. unfold r, remove_section.
  assert (forall err, exists g', minv g' (mkConfig (c_mgr c) (S (c_next c)) (c_actors c)
            (<[t := Running (MRet err)]> (c_threads c)))) as Hret.
  { intros err. exists (upd g t ∅). eapply step_thread; try done; [|lia|by apply F_safe|].
    - rewrite Hg. by apply same_shape_moved.
    - by intros n i [[=]|[=]]. }
  destruct (decide (id ∈ _)) as [|Hd]; [apply Hret|].
  destruct (mg_services (c_mgr c) !! id) as [e|] eqn:He; [|apply Hret]. clear Hret.
  set (m' := (_, _).2). assert (svcs m' = delete id (svcs (c_mgr c))) as Hsv by (unfold svcs; cbn; by rewrite fmap_delete).
  assert (svcs (c_mgr c) !! id = Some (en_svc e)) as Hsid by (unfold svcs; by rewrite lookup_fmap, He).
  exists (upd g t {[id]}). eapply step_thread_gen; try done.
  - intros i Hi. rewrite Hsv. cbn in Hi. apply elem_of_union in Hi as [->%elem_of_singleton|Hi]; [apply lookup_delete_eq|].
    rewrite lookup_delete_ne; [by apply (i_mgr _ _ I)|]. intros <-. done.
  - by intros i ->%elem_of_singleton.
  - cbn. set_solver.
  - cbn. set_solver.
  - lia.
  - apply F_remove_do.
  - apply (not_busy g c t _ I Ht). done.
  - intros n i L. apply live_other in L; [|done].
    destruct (i_live _ _ I _ _ L) as [Ho|(u & x & Hu & Hi & Hx)].
    + destruct (decide (i = id)) as [->|N].
      * right. exists t. eexists. cbn. rewrite lookup_insert_eq, upd_same. split; [done|]. split; [set_solver|].
        left. congruence.
      * left. cbn [c_mgr]. by rewrite Hsv, lookup_delete_ne.
    + right. assert (u <> t) by (eapply held_other; done).
      exists u, x. cbn. by rewrite lookup_insert_ne, upd_other.
  - cbn. rewrite lookup_insert_eq. by intros n s k [=].
Qed.

Lemma step_drop g c t id n e :
  minv g c -> c_threads c !! t = Some (Running (create_after id n (Some e))) -> g t = ∅ -> is_dead c n ->
  exists g', minv g' (mkConfig (drop_section id n (c_mgr c)) (S (c_next c)) (c_actors c)
                        (<[t := Running (MRet (Some e))]> (c_threads c))).
Proof.
  intros I Ht Hg Hdead.
  assert (forall i, ~ live c n i) as Hnl.
  { intros i [(a & Ha & Hi)|(u & s & k & Hu & _)].
    - destruct Hdead as [Hd|Hd]; rewrite Hd in Ha; by injection Ha as <-.
    - destruct (i_go _ _ I _ _ _ _ Hu) as [Hnone _]. destruct Hdead; congruence. }
  assert (mg_deleting (drop_section id n (c_mgr c)) = mg_deleting (c_mgr c)
          /\ forall i k, svcs (drop_section id n (c_mgr c)) !! i = Some k -> svcs (c_mgr c) !! i = Some k) as [Hd Hsub].
  { unfold drop_section. destruct (mg_services (c_mgr c) !! id); [|done]. destruct (decide _); [|done].
    split; [done|]. intros i k. unfold svcs. cbn. rewrite fmap_delete. by intros [_ ?]%lookup_delete_Some. }
  assert (forall i k, k <> n -> svcs (c_mgr c) !! i = Some k -> svcs (drop_section id n (c_mgr c)) !! i = Some k) as Hkeep.
  { intros i k Hk. unfold drop_section. destruct (mg_services (c_mgr c) !! id) as [x|] eqn:Hx; [|done].
    destruct (decide (en_svc x = n)) as [<-|]; [|done]. unfold svcs. cbn. rewrite fmap_delete. intros Hi.
    apply lookup_delete_Some. split; [|done]. intros <-. rewrite lookup_fmap, Hx in Hi. by injection Hi. }
  exists (upd g t ∅). eapply step_thread_gen; try done.
  - intros i Hi. rewrite Hd in Hi. pose proof (i_mgr _ _ I i Hi) as Hn.
    destruct (svcs (drop_section _ _ _) !! i) as [k|] eqn:E; [|done]. apply Hsub in E. congruence.
  - intros i H1 H2. by rewrite Hd.
  - lia.
  - by apply F_safe.
  - apply (not_busy g c t _ I Ht). done.
  - intros k i L. apply live_other in L; [|done]. assert (k <> n) as Hk by (intros ->; by apply (Hnl i)).
    destruct (i_live _ _ I _ _ L) as [Ho|(u & x & Hu & Hi & Hx)]; [left; by apply Hkeep|right].
    assert (u <> t) by (eapply held_other; done).
    exists u, x. cbn. by rewrite lookup_insert_ne, upd_other.
  - cbn. rewrite lookup_insert_eq. by intros k s p [=].
Qed.

(** The calls, step by step. *)
Lemma lock_preserves g c t p q m' :
  minv g c -> c_threads c !! t = Some (Running p) -> after_lock (env_of c) (c_mgr c) p q m' ->
  exists g', minv g' (mkConfig m' (S (c_next c)) (c_actors c) (<[t := Running q]> (c_threads c))).
Proof.
  intros I Ht Hq. pose proof (i_forms _ _ I _ _ Ht) as F.
  inversion F as [H p' Hs EH Ep| |c_in EH Ep|n c_in EH Ep|n c_in EH Ep| |n id e Hd EH Ep|id EH Ep|n id EH Ep|];
    clear F; subst p; try done.
  - destruct p' as [|X f k| | | | | |]; try done. destruct Hq as [-> ->].
    destruct (Hs (env_of c) (c_mgr c) (i_mgr _ _ I) (i_held _ _ I t)) as (H' & Hm & Hs').
    exists (upd g t H'). eapply step_thread; try done; [lia|by apply F_safe|by intros n i [[=]|[=]]|].
    intros n s p [= E]. rewrite E in Hs'. by destruct Hs'.
  - destruct Hq as [-> ->]. by apply (step_create g).
  - destruct Hq as [-> ->]. by apply (step_drop g).
  - destruct Hq as [-> ->]. by apply (step_remove g).
Qed.

Lemma env_preserves g c t p q :
  minv g c -> c_threads c !! t = Some (Running p) -> after_env p q ->
  minv (upd g t (g t)) (mkConfig (c_mgr c) (c_next c) (c_actors c) (<[t := Running q]> (c_threads c))).
Proof.
  intros I Ht Hq. pose proof (i_forms _ _ I _ _ Ht) as F.
  assert (tsafe (g t) p) as Hs by (inversion F; subst; done).
  assert (tsafe (g t) q) as Hs' by (destruct p; try done; destruct Hq as [x ->]; by destruct Hs || by apply Hs).
  eapply step_thread; try done; [by apply same_shape_moved, (i_held _ _ I)|by apply F_safe|..].
  - intros n i [[= ->]|[=]]. by destruct Hq.
  - intros n s k [= ->]. by destruct Hs'.
Qed.

Lemma send_preserves g c t n cmd k s :
  minv g c -> c_threads c !! t = Some (Running (MDo n cmd k)) -> c_actors c !! n = Some (Selecting s) ->
  minv g (mkConfig (c_mgr c) (c_next c) (<[n := Busy (Some t) s (handle (s_id s) n cmd)]> (c_actors c))
            (<[t := Waiting n None k]> (c_threads c))).
Proof.
  intros I Ht Ha. pose proof (i_forms _ _ I _ _ Ht) as F. set (c' := mkConfig _ _ _ _).
  assert (waits_for (g t) n k cmd /\ tform (is_dead c') (g t) (Waiting n None k)) as [Hw Hf].
  { inversion F as [H p' Hs EH Ep| | | |n' c_in EH Ep| | | |n' id EH Ep|]; clear F; subst.
    - destruct Hs as (-> & -> & Hs). split; [done|by apply F_wait].
    - split; [by split; [|eexists]|by apply F_create_wait].
    - split; [by exists id|apply F_remove_wait]. }
  eapply step_both; try done; try (by intros; split).
  - exists k, cmd. cbn. rewrite lookup_insert_eq. split; [done|]. split; [done|]. apply handle_aok.
  - by right.
  - unfold is_dead. rewrite Ha. by intros [[=]|[=]].
  - intros u s' p _. by apply (not_busy g c t _ I Ht).
  - intros u id _ [[= -> -> ->]|[=]] _. by right.
Qed.

Lemma reply_preserves g c t n s k exit err :
  minv g c -> c_actors c !! n = Some (Busy (Some t) s (MRet (exit, err))) ->
  c_threads c !! t = Some (Waiting n None k) ->
  minv g (mkConfig (c_mgr c) (c_next c) (<[n := if exit : bool then Returned else Selecting s]> (c_actors c))
            (<[t := Waiting n (Some err) k]> (c_threads c))).
Proof.
  intros I Ha Ht. destruct (i_actors _ _ I _ _ Ha) as [_ (k' & cmd & Hk & Hw & Hr)].
  assert (k' = k) as -> by congruence. cbn in Hr. set (c' := mkConfig _ _ _ _).
  eapply step_both; try done; try (by intros; split).
  - destruct cmd as [c_in| |]; cbn in Hw, Hr.
    + destruct Hw as [-> (id & ->)]. apply F_create_wait. intros e [= ->].
      destruct Hr as [[=]|(e' & [= -> _])]. left. cbn. apply lookup_insert_eq.
    + destruct Hw as [-> Hw]. by apply F_wait.
    + destruct Hw as (id & -> & ->). apply F_remove_wait.
  - by destruct exit.
  - destruct exit; auto.
  - unfold is_dead. rewrite Ha. by intros [[=]|[=]].
  - intros u s' p Hu Hb. destruct (i_actors _ _ I _ _ Hb) as [_ (k2 & ? & Hk2 & _)]. congruence.
  - intros u id Hi [[=]|[= -> ->]] L. exfalso.
    destruct cmd as [c_in| |]; cbn in Hw, Hr; [by destruct Hw as [Hw _]; rewrite Hw in Hi; apply elem_of_empty in Hi
      |by destruct Hw as [Hw _]; rewrite Hw in Hi; apply elem_of_empty in Hi|]. subst exit.
    destruct L as [(a & Hu & Hid)|(v & s' & k2 & Hv & _)]; cbn in *.
    + rewrite lookup_insert_eq in Hu. by injection Hu as <-.
    + destruct (decide (v = t)) as [->|]; [by rewrite lookup_insert_eq in Hv|]. rewrite lookup_insert_ne in Hv by done.
      destruct (i_go _ _ I _ _ _ _ Hv) as [Hn _]. congruence.
Qed.

(** A call goes on after [do]. *)
Definition resumes (d : nat -> Prop) (H : gset string) (p : mprog (option error)) : Prop :=
  tform d H (Running p) /\ forall n s k, p <> MGo n s k.

Lemma resumes_safe d H p : tsafe H p -> resumes d H p.
Proof. intros Hs. split; [by apply F_safe|]. by intros n s k ->. Qed.

Lemma resumes_create (d : nat -> Prop) id n x : (forall e, x = Some e -> d n) -> resumes d ∅ (create_after id n x).
Proof.
  intros Hd. destruct x as [e|]; [|by apply resumes_safe]. split; [|done]. apply F_drop. by eapply Hd.
Qed.

Lemma resume_exited d H th n x k :
  tform d H th -> d n -> ((exists cmd, th = Running (MDo n cmd k)) \/ th = Waiting n None k) -> resumes d H (k x).
Proof.
  intros F Hd Hth.
  destruct F as [H p Hs|n' r k' Hs| | |n' c_in|n' id r _| | |n' id|n' id r];
    destruct Hth as [(cmd & [=])|[=]]; subst;
    first [by apply resumes_create|by apply resumes_safe, remove_after_tsafe|by apply resumes_safe|idtac].
  apply resumes_safe. destruct Hs as (_ & -> & Hs). apply Hs.
Qed.

Lemma resume_reply d H n x k : tform d H (Waiting n (Some x) k) -> resumes d H (k x).
Proof.
  intros F. inversion F as [|n' r k' Hs| | | |n' id r Hr| | | |n' id r]; subst.
  - by apply resumes_safe.
  - apply resumes_create. intros e ->. by apply (Hr e).
  - apply resumes_safe, remove_after_tsafe.
Qed.

Lemma resume_preserves g c t th p :
  minv g c -> c_threads c !! t = Some th -> resumes (is_dead c) (g t) p ->
  (forall n k, th = Waiting n None k -> c_actors c !! n = Some Exited) ->
  (forall n id, lends th n id -> c_actors c !! n = Some Exited) ->
  minv (upd g t (g t)) (mkConfig (c_mgr c) (c_next c) (c_actors c) (<[t := Running p]> (c_threads c))).
Proof.
  intros I Ht [Hf Hgo] Hw Hl. eapply step_thread; try done; [by apply same_shape_moved, (i_held _ _ I)|..].
  - intros n id Hlend. apply Hl in Hlend. intros [(a & Ha & Hid)|(u & s & k & Hu & _)].
    + rewrite Hlend in Ha. by injection Ha as <-.
    + destruct (i_go _ _ I _ _ _ _ Hu) as [Hn _]. congruence.
  - intros n s k [= E]. by apply (Hgo n s k).
Qed.

Lemma call_form uuid_Parse quote d r : resumes d ∅ (call uuid_Parse quote r).
Proof.
  destruct r as [c_in|id|id| |z|]; cbn [call]; unfold Create, Remove.
  - destruct (CheckSandboxID _ _ _); [by apply resumes_safe|]. split; [apply F_create|done].
  - apply resumes_safe, Stop_tsafe.
  - destruct (CheckSandboxID _ _ _); [by apply resumes_safe|]. split; [apply F_remove|done].
  - apply resumes_safe, audit_tsafe.
  - by apply resumes_safe, tsafe_shape.
  - by apply resumes_safe, tsafe_shape.
Qed.

Lemma spawn_preserves g c t p :
  minv g c -> c_threads c !! t = None -> resumes (is_dead c) ∅ p ->
  minv g (mkConfig (c_mgr c) (c_next c) (c_actors c) (<[t := Running p]> (c_threads c))).
Proof.
  intros I Ht [Hf Hgo].
  pose proof (i_none _ _ I _ Ht) as Hg.
  assert (forall u x, c_threads c !! u = Some x -> u <> t) as Hne by (intros u x Hu ->; congruence).
  assert (forall u n s k, (<[t := Running p]> (c_threads c)) !! u = Some (Running (MGo n s k)) ->
            c_threads c !! u = Some (Running (MGo n s k))) as Hth.
  { intros u n s k Hu. destruct (decide (u = t)) as [->|N].
    - rewrite lookup_insert_eq in Hu. injection Hu as E. by destruct (Hgo n s k).
    - by rewrite lookup_insert_ne in Hu. }
  split; cbn [c_mgr c_next c_actors c_threads]; try apply I.
  - intros u Hu. destruct (decide (u = t)) as [->|N]; [done|]. apply (i_none _ _ I). by rewrite lookup_insert_ne in Hu.
  - intros u x Hx. destruct (decide (u = t)) as [->|N].
    + rewrite lookup_insert_eq in Hx. injection Hx as <-. by rewrite Hg.
    + rewrite lookup_insert_ne in Hx by done. by apply (i_forms _ _ I).
  - intros n id L. apply live_other in L; [|intros s k [= E]; by apply (Hgo n s k)].
    destruct (i_live _ _ I _ _ L) as [Ho|(u & x & Hu & Hi & Hx)]; [by left|right].
    exists u, x. cbn. by rewrite lookup_insert_ne by (apply not_eq_sym; by eapply Hne).
  - intros n a Ha. destruct (i_actors _ _ I _ _ Ha) as [Hn Hok]. split; [done|].
    destruct a as [|[u|] s q| | |]; try done. destruct Hok as (k & cmd & Hu & Hw & Hq).
    exists k, cmd. cbn. by rewrite lookup_insert_ne by (apply not_eq_sym; by eapply Hne).
  - intros u n s k Hu. destruct (i_go _ _ I _ _ _ _ (Hth _ _ _ _ Hu)) as (H1 & H2 & H3).
    split_and!; [done|done|]. intros u' s' k' Hu'. eapply H3, Hth, Hu'.
Qed.

(** A section of an actor keeps the shape of the map. *)
Lemma aok_lock {A} V (Q : A -> Prop) p env m q m' :
  aok V Q p -> after_lock env m p q m' -> same_shape m m' /\ aok V Q q.
Proof. destruct p; try done. intros Hp [-> ->]. apply Hp. Qed.

Lemma aok_env {A} V (Q : A -> Prop) p q : aok V Q p -> after_env p q -> aok V Q q.
Proof. destruct p; try done; intros Hp [x ->]; by destruct Hp || by apply Hp. Qed.

Lemma aok_self {A} V (Q : A -> Prop) s p q s' : aok V Q p -> after_self s p q s' -> s_id s' = s_id s /\ aok V Q q.
Proof. destruct p; try done. intros Hp [-> ->]. apply Hp. Qed.

(** The program of a busy actor may be replaced by what follows it. *)
Lemma busy_ok g c n t s p s' q :
  actor_ok g c n (Busy t s p) ->
  (forall V (Q : bool * option error -> Prop), aok V Q p -> aok V Q q) -> s_id s' = s_id s ->
  actor_ok g c n (Busy t s' q).
Proof.
  intros Hok Hq Hid. destruct t as [t|]; cbn in *; rewrite Hid; [|by apply Hq].
  destruct Hok as (k & cmd & ? & ? & ?). exists k, cmd. auto.
Qed.

Ltac actor_step H I :=
  let Hok := fresh "Hok" in
  pose proof (proj2 (i_actors _ _ I _ _ H)) as Hok;
  eapply step_actor; [exact I|exact H|..]; try done; try lia; try (by left); try (by right);
  try (by intros [[=]|[=]]); try (by intros _; auto).

Lemma mstep_preserves uuid_Parse quote g c c' : mstep uuid_Parse quote c c' -> minv g c -> exists g', minv g' c'.
Proof.
  intros Hstep I. destruct Hstep as
    [t r Ht|t p q m' Ht Hq|t p q Ht Hq|t n s k Ht|t n cmd k s Ht Ha|t n cmd k Ht Ha|t n r k Ht|t n k Ht Ha
    |n t s p q m' Ha Hq|n t s p q Ha Hq|n t s p q s' Ha Hq|n t s p Ha|n t s k exit err Ha Ht|n s exit err Ha
    |n s p Ha He|n s Ha|n s p q m' Ha Hq|n s p q Ha Hq|n s p q s' Ha Hq|n s u Ha|n Ha|ev rest Hev].
  - exists g. eapply spawn_preserves; [done|done|apply call_form].
  - by eapply lock_preserves.
  - eexists. by eapply env_preserves.
  - exists g. by apply step_go.
  - exists g. by apply send_preserves.
  - eexists. eapply resume_preserves; [done|done| |done|].
    + eapply resume_exited; [by apply (i_forms _ _ I)|by right|left; by eexists].
    + by intros u id [[= <- _ _]|[=]].
  - eexists. eapply resume_preserves; [done|done| |done|].
    + eapply resume_reply. by apply (i_forms _ _ I).
    + by intros u id [[=]|[=]].
  - eexists. eapply resume_preserves; [done|done| |by intros u k' [= <- _]|].
    + eapply resume_exited; [by apply (i_forms _ _ I)|by right|by right].
    + by intros u id [[=]|[= <- _]].
  - exists g. assert (same_shape (c_mgr c) m' /\ forall V (Q : _ -> Prop), aok V Q p -> aok V Q q) as [Hs Hq'].
    { split; [|intros V Q Hp; by eapply aok_lock]. pose proof (proj2 (i_actors _ _ I _ _ Ha)) as Hok.
      destruct t as [t|]; [destruct Hok as (k & cmd & _ & _ & Hok)|]; by eapply aok_lock. }
    actor_step Ha I. by eapply busy_ok.
  - exists g. actor_step Ha I. eapply busy_ok; [done| |done]. intros V Q Hp. by eapply aok_env.
  - exists g. assert (s_id s' = s_id s) as Hid.
    { pose proof (proj2 (i_actors _ _ I _ _ Ha)) as Hok.
      destruct t as [t|]; [destruct Hok as (k & cmd & _ & _ & Hok)|]; by eapply aok_self. }
    actor_step Ha I; [|right; cbn; by rewrite Hid]. eapply busy_ok; [done| |done]. intros V Q Hp. by eapply aok_self.
  - exists g. actor_step Ha I. apply setState_aok.
  - exists g. by apply reply_preserves.
  - exists g. actor_step Ha I.
  - exists g. actor_step Ha I. by apply (event_aok n).
  - exists g. actor_step Ha I.
  - exists g. pose proof (proj2 (i_actors _ _ I _ _ Ha)) as Hp. destruct (aok_lock _ _ _ _ _ _ _ Hp Hq) as [Hs Hq'].
    actor_step Ha I.
  - exists g. pose proof (proj2 (i_actors _ _ I _ _ Ha)) as Hp. pose proof (aok_env _ _ _ _ Hp Hq). actor_step Ha I.
  - exists g. pose proof (proj2 (i_actors _ _ I _ _ Ha)) as Hp. destruct (aok_self _ _ _ _ _ _ Hp Hq) as [_ Hq'].
    actor_step Ha I.
  - exists g. actor_step Ha I.
  - exists g. actor_step Ha I.
  - exists g. split; try apply I.
Qed.

(** The ownership rule of a configuration. *)
Definition exclusive (c : config) : Prop :=
  (forall t id, thread_touches c t id ->
     id ∈ mg_deleting (c_mgr c) /\ mg_services (c_mgr c) !! id = None
     /\ (forall n, ~ actor_touches c n id)
     /\ forall t', thread_touches c t' id -> t' = t)
  /\ (forall n id, actor_touches c n id ->
        ((exists st, mg_services (c_mgr c) !! id = Some (mkTracked n st)) \/ id ∈ mg_deleting (c_mgr c))
        /\ forall n', actor_touches c n' id -> n' = n).

Lemma minv_exclusive g c : minv g c -> exclusive c.
Proof.
  intros I.
  assert (forall id, svcs (c_mgr c) !! id = None -> mg_services (c_mgr c) !! id = None) as Hs.
  { intros id. unfold svcs. rewrite lookup_fmap. by destruct (mg_services (c_mgr c) !! id). }
  split.
  - intros t id Ht. pose proof (thread_touches_held _ _ _ _ I Ht) as Hid.
    pose proof (i_held _ _ I t id Hid) as Hdel. split_and!; [done|by apply Hs, (i_mgr _ _ I)|..].
    + intros n Hn. pose proof (actor_touches_live _ _ _ _ I Hn) as L.
      destruct (i_live _ _ I _ _ L) as [Ho|(u & x & Hu & Hi & Hx)].
      * rewrite (i_mgr _ _ I _ Hdel) in Ho. done.
      * pose proof (i_disj _ _ I _ _ _ Hi Hid) as ->. destruct Ht as (p & Hp & Htouch).
        rewrite Hp in Hu. injection Hu as <-. by destruct Hx as [[= ->]|[=]].
    + intros t' Ht'. eapply (i_disj _ _ I); [by eapply thread_touches_held|done].
  - intros n id Hn. pose proof (actor_touches_live _ _ _ _ I Hn) as L. split.
    + destruct (i_live _ _ I _ _ L) as [Ho|(u & x & Hu & Hi & Hx)]; [left|right; by apply (i_held _ _ I u)].
      unfold svcs in Ho. rewrite lookup_fmap in Ho. destruct (mg_services (c_mgr c) !! id) as [[n' st]|]; [|done].
      injection Ho as <-. by exists st.
    + intros n' Hn'. eapply owner_unique; [done|by eapply actor_touches_live|done].
Qed.

(** ** Execution

    The next step of a goroutine, given what the environment answers; a goroutine that
    cannot move leaves the state as it is. *)
Section Exec.

Context (uuid_Parse : string -> bool) (quote : string -> string).
Context (answer : forall X, vmop X -> X) (disk : list string) (now : Z).

Inductive action : Type :=
| Spawn (t : nat) (r : request)
| Thread (t : nat)
| Actor (n : nat).

(** What the environment answers an operation, if it is one of its. *)
Definition answered {A} (p : mprog A) : option (mprog A) :=
  match p with
  | MVM _ o k => Some (k (answer _ o))
  | MListDisk k => Some (k (Ok disk))
  | MNow k => Some (k now)
  | _ => None
  end.

Definition thread_exec (t : nat) (p : mprog (option error)) (c : config) : config :=
  let go m next actors th := mkConfig m next actors (<[t := th]> (c_threads c)) in
  match p with
  | MLock f k => let r := f (env_of c) (c_mgr c) in go r.2 (S (c_next c)) (c_actors c) (Running (k r.1))
  | MGo n s k => go (c_mgr c) (c_next c) (<[n := Selecting s]> (c_actors c)) (Running k)
  | MDo n cmd k =>
      match c_actors c !! n with
      | Some (Selecting s) =>
          go (c_mgr c) (c_next c) (<[n := Busy (Some t) s (handle (s_id s) n cmd)]> (c_actors c))
            (Waiting n None k)
      | Some Exited => go (c_mgr c) (c_next c) (c_actors c) (Running (k exited_reply))
      | _ => c
      end
  | _ => match answered p with
         | Some q => go (c_mgr c) (c_next c) (c_actors c) (Running q)
         | None => c
         end
  end.

Definition actor_exec (n : nat) (a : actor) (c : config) : config :=
  let go m next a := mkConfig m next (<[n := a]> (c_actors c)) (c_threads c) in
  match a with
  | Busy t s p =>
      match p with
      | MLock f k => let r := f (env_of c) (c_mgr c) in go r.2 (S (c_next c)) (Busy t s (k r.1))
      | MSelf f k => go (c_mgr c) (c_next c) (Busy t (f s).2 (k (f s).1))
      | MRet (exit, err) =>
          match t with
          | None => go (c_mgr c) (c_next c) (Selecting s)
          | Some t =>
              match c_threads c !! t with
              | Some (Waiting m None k) =>
                  if decide (m = n)
                  then mkConfig (c_mgr c) (c_next c)
                         (<[n := if exit then Returned else Selecting s]> (c_actors c))
                         (<[t := Waiting n (Some err) k]> (c_threads c))
                  else c
              | _ => c
              end
          end
      | _ => match answered p with
             | Some q => go (c_mgr c) (c_next c) (Busy t s q)
             | None => c
             end
      end
  | Panicked s p =>
      match p with
      | MLock f k => let r := f (env_of c) (c_mgr c) in go r.2 (S (c_next c)) (Panicked s (k r.1))
      | MSelf f k => go (c_mgr c) (c_next c) (Panicked (f s).2 (k (f s).1))
      | MRet _ => go (c_mgr c) (c_next c) Returned
      | _ => match answered p with
             | Some q => go (c_mgr c) (c_next c) (Panicked s q)
             | None => c
             end
      end
  | Returned => go (c_mgr c) (c_next c) Exited
  | _ => c
  end.

Definition exec_action (c : config) (a : action) : config :=
  match a with
  | Spawn t r =>
      match c_threads c !! t with
      | None => mkConfig (c_mgr c) (c_next c) (c_actors c)
                  (<[t := Running (call uuid_Parse quote r)]> (c_threads c))
      | Some _ => c
      end
  | Thread t =>
      match c_threads c !! t with
      | Some (Running p) => thread_exec t p c
      | Some (Waiting n (Some r) k) =>
          mkConfig (c_mgr c) (c_next c) (c_actors c) (<[t := Running (k r)]> (c_threads c))
      | Some (Waiting n None k) =>
          match c_actors c !! n with
          | Some Exited => mkConfig (c_mgr c) (c_next c) (c_actors c)
                             (<[t := Running (k exited_reply)]> (c_threads c))
          | _ => c
          end
      | None => c
      end
  | Actor n => match c_actors c !! n with Some a => actor_exec n a c | None => c end
  end.

Lemma answered_after {A} (p q : mprog A) : answered p = Some q -> after_env p q.
Proof. destruct p; try done; intros [= <-]; by eexists. Qed.

Lemma exec_action_step c a : exec_action c a = c \/ mstep uuid_Parse quote c (exec_action c a).
Proof.
  destruct a as [t r|t|n]; cbn [exec_action].
  - destruct (c_threads c !! t) eqn:Ht; [by left|]. by right; apply T_spawn.
  - destruct (c_threads c !! t) as [[p|n [r|] k]|] eqn:Ht; [|by right; eapply T_reply| |by left].
    + unfold thread_exec. destruct (answered p) as [q|] eqn:Hq.
      * apply answered_after in Hq. destruct p; try (by left); right; by eapply T_env.
      * destruct p; try (by left); [by right; eapply T_lock|by right; eapply T_go|].
        destruct (c_actors c !! n) as [[]|] eqn:Ha; try (by left); right; [by eapply T_send|by eapply T_exited].
    + destruct (c_actors c !! n) as [[]|] eqn:Ha; try (by left). right. by eapply T_noreply.
  - destruct (c_actors c !! n) as [a|] eqn:Ha; [|by left]. destruct a as [s|t s p|s p| |]; cbn [actor_exec]; try (by left).
    + destruct (answered p) as [q|] eqn:Hq.
      * apply answered_after in Hq. destruct p; try (by left); right; by eapply A_env.
      * destruct p as [[exit err]| | | | | | |]; try (by left);
          [|by right; eapply A_lock|by right; eapply A_self].
        destruct t as [t|]; [|by right; eapply A_event_done].
        destruct (c_threads c !! t) as [[|m [r|] k]|] eqn:Ht; try (by left).
        destruct (decide (m = n)) as [->|]; [|by left]. right. by eapply A_reply.
    + destruct (answered p) as [q|] eqn:Hq.
      * apply answered_after in Hq. destruct p; try (by left); right; by eapply P_env.
      * destruct p; try (by left); right; [by eapply P_done|by eapply P_lock|by eapply P_self].
    + by right; apply A_close.
Qed.

Lemma exec_action_sound c a : rtc (mstep uuid_Parse quote) c (exec_action c a).
Proof. destruct (exec_action_step c a) as [->|H]; [done|by apply rtc_once]. Qed.

Lemma exec_sound l c : rtc (mstep uuid_Parse quote) c (foldl exec_action c l).
Proof. revert c. induction l as [|a l IH]; intros c; [done|]. cbn. etrans; [apply exec_action_sound|apply IH]. Qed.

End Exec.
