(* ===== verification/Recovery.v ===== *)
(** * Taking over the sandboxes of a previous worker process

    Manager.Recover (Manager.v) at the start of a worker, interleaved with the actors of
    the sandboxes it has already adopted, then the life of the manager (Ownership.v). *)

From Stdlib Require Import ZArith Lia.
From stdpp Require Import base tactics option list gmap strings numbers relations.
From S2P Require Import Prelude GoStd Database EventGRPC Manager Ownership.

Open Scope Z_scope.

(** ** Steps of the recovery *)

(** The environment answers; the entries of a directory are distinct. *)
Definition recover_env {A} (p q : mprog A) : Prop :=
  match p with
  | MListDisk k => exists x, (forall ids, x = Ok ids -> NoDup ids) /\ q = k x
  | p => after_env p q
  end.

Section Recovery.

Context (uuid_Parse : string -> bool) (quote : string -> string).

(** No call is served yet: the other steps are those of the actors. *)
Inductive rstep : config * mprog (result error Z) -> config * mprog (result error Z) -> Prop :=
| R_lock c p q m' :
    after_lock (env_of c) (c_mgr c) p q m' ->
    rstep (c, p) (mkConfig m' (S (c_next c)) (c_actors c) (c_threads c), q)
| R_env c p q : recover_env p q -> rstep (c, p) (c, q)
| R_go c n s k :
    rstep (c, MGo n s k) (mkConfig (c_mgr c) (c_next c) (<[n := Selecting s]> (c_actors c)) (c_threads c), k)
| R_actor c c' p : mstep uuid_Parse quote c c' -> c_threads c' = ∅ -> rstep (c, p) (c', p).

Definition start_config : config := mkConfig newManager 0 ∅ ∅.

Definition recovering (x : config * mprog (result error Z)) : Prop := rtc rstep (start_config, Recover) x.

(** The worker serves once Recover has returned, with an error too. *)
Definition mreachable (c : config) : Prop :=
  exists c0 r, recovering (c0, MRet r) /\ rtc (mstep uuid_Parse quote) c0 c.

(** ** The invariant of the recovery *)

(** The sandboxes still to look at are not tracked; [n] were adopted. *)
Definition pending (c : config) (ids : list string) (n : Z) : Prop :=
  NoDup ids /\ (forall id, id ∈ ids -> svcs (c_mgr c) !! id = None)
  /\ n = Z.of_nat (size (svcs (c_mgr c))).

Inductive rform (c : config) : mprog (result error Z) -> Prop :=
| RF_start : svcs (c_mgr c) = ∅ -> rform c Recover
| RF_err e : rform c (MRet (Err e))
| RF_loop ids n : pending c ids n -> rform c (recover_loop ids n)
| RF_reap id ids n : pending c (id :: ids) n -> rform c (MVM id Reap (fun _ => recover_loop ids n))
| RF_state id ids n :
    pending c (id :: ids) n ->
    rform c (MVM id VMState (fun r =>
               mgr_adopt id (match r with Ok st => st | Err _ => StateUnknown end) (recover_loop ids (n + 1))))
| RF_adopt id ids n st : pending c (id :: ids) n -> rform c (mgr_adopt id st (recover_loop ids (n + 1)))
| RF_go id ids n svc st :
    pending c ids n -> svcs (c_mgr c) !! id = Some svc -> c_actors c !! svc = None -> (svc < c_next c)%nat ->
    rform c (MGo svc (adopt st (newService id)) (recover_loop ids n)).

Record rinv (x : config * mprog (result error Z)) : Prop := {
  ri_threads : c_threads x.1 = ∅;
  ri_deleting : mg_deleting (c_mgr x.1) = ∅;
  ri_minv : exists g, minv g x.1;
  ri_form : rform x.1 x.2;
}.

(** The actors alone keep the shape of the map. *)
Lemma alone_step g c c' :
  minv g c -> c_threads c = ∅ -> mstep uuid_Parse quote c c' -> c_threads c' = ∅ ->
  same_shape (c_mgr c) (c_mgr c') /\ (c_next c <= c_next c')%nat
  /\ forall n, c_actors c !! n = None -> c_actors c' !! n = None.
Proof.
  intros I He Hs He'.
  assert (forall n a b m, c_actors c !! n = Some a -> c_actors c !! m = None -> (<[n := b]> (c_actors c)) !! m = None) as Hne.
  { intros n a b m Hn Hm. rewrite lookup_insert_ne; [done|]. intros ->. congruence. }
  assert (forall n t s p q m', c_actors c !! n = Some (Busy t s p) -> after_lock (env_of c) (c_mgr c) p q m' ->
            same_shape (c_mgr c) m') as Hbusy.
  { intros n t s p q m' Ha Hq. pose proof (proj2 (i_actors _ _ I _ _ Ha)) as Hok.
    destruct t as [t|]; [destruct Hok as (k & cmd & _ & _ & Hok)|]; by eapply aok_lock. }
  destruct Hs; [by destruct (insert_non_empty _ _ _ He')|..];
    try (rewrite He in *; by simplify_map_eq); cbn in *; split_and!; eauto; try done.
  - pose proof (proj2 (i_actors _ _ I _ _ H)) as Hok. by eapply aok_lock.
Qed.

Lemma rform_shape c c' p :
  same_shape (c_mgr c) (c_mgr c') -> (c_next c <= c_next c')%nat ->
  (forall n, c_actors c !! n = None -> c_actors c' !! n = None) -> rform c p -> rform c' p.
Proof.
  intros [Hs _] Hn Ha.
  assert (forall ids n, pending c ids n -> pending c' ids n) as Hp by (unfold pending; by rewrite Hs).
  intros F. destruct F; constructor; auto; [congruence..|lia].
Qed.

(** A sandbox is tracked, its actor not started yet. *)
Lemma minv_track g c id st :
  minv g c -> c_threads c = ∅ -> mg_deleting (c_mgr c) = ∅ -> svcs (c_mgr c) !! id = None ->
  minv g (mkConfig (set_services (<[id := mkTracked (c_next c) st]>) (c_mgr c)) (S (c_next c)) (c_actors c) (c_threads c)).
Proof.
  intros I He Hd Hid. destruct I as [I1 I2 I3 I4 I5 I6 I7 I8].
  split; cbn [c_mgr c_next c_actors c_threads]; try done.
  - intros i Hi. cbn in Hi. rewrite Hd in Hi. by apply elem_of_empty in Hi.
  - intros n i L. destruct (I6 n i L) as [Ho|(t & th & Ht & _)]; [|by rewrite He, lookup_empty in Ht].
    left. unfold svcs in *. cbn. rewrite fmap_insert, lookup_insert_ne; [done|]. intros <-. congruence.
  - intros n a Ha. destruct (I7 n a Ha). split; [lia|done].
  - intros t n s k Ht. by rewrite He, lookup_empty in Ht.
Qed.

(** Its actor starts. *)
Lemma minv_adopted g c n s :
  minv g c -> c_threads c = ∅ -> svcs (c_mgr c) !! s_id s = Some n -> c_actors c !! n = None -> (n < c_next c)%nat ->
  minv g (mkConfig (c_mgr c) (c_next c) (<[n := Selecting s]> (c_actors c)) (c_threads c)).
Proof.
  intros I He Hs Ha Hn. destruct I as [I1 I2 I3 I4 I5 I6 I7 I8].
  split; cbn [c_mgr c_next c_actors c_threads]; try done.
  - intros t th Ht. by rewrite He, lookup_empty in Ht.
  - intros m i [(a & Hm & Hi)|(t & s' & k & Ht & _)]; [|cbn in Ht; by rewrite He, lookup_empty in Ht]. cbn in Hm.
    destruct (decide (m = n)) as [->|].
    + rewrite lookup_insert_eq in Hm. injection Hm as <-. injection Hi as <-. by left.
    + rewrite lookup_insert_ne in Hm by done. apply I6. left. eauto.
  - intros m a Hm. destruct (decide (m = n)) as [->|]; [rewrite lookup_insert_eq in Hm; by injection Hm as <-|].
    rewrite lookup_insert_ne in Hm by done. destruct (I7 m a Hm) as [? Hok]. done.
  - intros t m s' k Ht. by rewrite He, lookup_empty in Ht.
Qed.

Lemma rstep_inv x y : rinv x -> rstep x y -> rinv y.
Proof.
  intros [He Hd [g I] F] Hs. destruct Hs as [c p q m' Hq|c p q Hq|c n s k|c c' p Hm He']; cbn [fst snd] in *.
  - inversion F as [Hsv|e|ids n Hp|id ids n Hp|id ids n Hp|id ids n st Hp|id ids n svc st Hp]; subst; try done.
    { by destruct ids. }
    destruct Hq as [-> ->]. destruct Hp as (Hnd & Hnone & ->). pose proof (Hnone id ltac:(left)) as Hid.
    assert (svcs (adopt_section id st (env_of c) (c_mgr c)).2 = <[id := c_next c]> (svcs (c_mgr c))) as Esv
      by (unfold svcs; cbn; by rewrite fmap_insert).
    split; cbn [fst snd c_threads c_mgr]; [done|done|eexists; by apply minv_track|].
    apply (RF_go _ id); cbn [c_mgr c_actors c_next]; rewrite ?Esv.
    + apply NoDup_cons in Hnd as [Hni Hnd]. split; [done|]. cbn [c_mgr]. rewrite Esv. split.
      * intros i Hi. rewrite lookup_insert_ne; [apply Hnone; by right|]. intros <-. done.
      * rewrite map_size_insert_None by done. lia.
    + apply lookup_insert_eq.
    + destruct (c_actors c !! c_next c) as [a|] eqn:Ha; [|done]. pose proof (proj1 (i_actors _ _ I _ _ Ha)). lia.
    + cbn. lia.
  - assert (rform c q) as Fq; [|by split; [..|exists g|]].
    inversion F as [Hsv|e|ids n Hp|id ids n Hp|id ids n Hp|id ids n st Hp|id ids n svc st Hp]; subst; try done.
    + destruct Hq as ([ids|e] & Hnd & ->); [|constructor]. constructor. split; [by apply Hnd|].
      rewrite Hsv, map_size_empty. split; [|done]. intros. apply lookup_empty.
    + destruct ids as [|id ids]; [done|]. destruct Hq as [[e|] ->]; by constructor.
    + destruct Hq as [x ->]. destruct Hp as (Hnd & Hnone & ->). constructor.
      apply NoDup_cons in Hnd as [_ Hnd]. split; [done|]. split; [|done]. intros i Hi. apply Hnone. by right.
    + destruct Hq as [x ->]. by constructor.
  - inversion F as [Hsv|e|ids m Hp|id ids m Hp|id ids m Hp|id ids m st Hp|id ids m svc st Hp Hsv Ha Hn]; subst.
    { by destruct ids. }
    split; cbn [fst snd c_threads c_mgr]; [done|done|exists g; by apply minv_adopted|].
    constructor. exact Hp.
  - destruct (alone_step g c c' I He Hm He') as ([Hs1 Hs2] & Hn & Ha). split; cbn [fst snd]; [done|congruence|..].
    + by eapply mstep_preserves.
    + by eapply rform_shape.
Qed.

Lemma recovering_inv x : recovering x -> rinv x.
Proof.
  unfold recovering. intros Hr. assert (rinv (start_config, Recover)) as H0.
  { split; [done|done|exists (fun _ => ∅)|by constructor]. split; try done.
    by intros n id [(a & Ha & _)|(t & s & k & Ht & _)]. }
  induction Hr as [|x y z Hs _ IH]; [done|]. eauto using rstep_inv.
Qed.

Lemma mreachable_minv c : mreachable c -> exists g, minv g c.
Proof.
  intros (c0 & r & H0 & Hr). destruct (ri_minv _ (recovering_inv _ H0)) as [g Hg]. cbn in Hg.
  assert (exists g, minv g c0) as Hex by eauto. clear Hg H0 g.
  induction Hr as [c|c1 c2 c3 Hs _ IH]; [done|]. destruct Hex as [g Hg]. apply IH. by eapply mstep_preserves.
Qed.

Lemma recovering_touches c p id :
  recovering (c, p) -> touching p = Some id ->
  mg_services (c_mgr c) !! id = None /\ forall n, ~ actor_touches c n id.
Proof.
  intros [He _ [g I] F]%recovering_inv Ht. cbn [fst snd] in *.
  assert (svcs (c_mgr c) !! id = None) as Hn.
  { destruct F as [|e|ids n Hp|id' ids n Hp|id' ids n Hp| |]; try done; try (destruct ids as [|id' ids]; [done|]);
      injection Ht as ->; apply Hp; left. }
  split; [unfold svcs in Hn; rewrite lookup_fmap in Hn; by destruct (mg_services (c_mgr c) !! id)|].
  intros n Ha. apply (actor_touches_live g) in Ha; [|done].
  destruct (i_live _ _ I _ _ Ha) as [Ho|(t & th & Hth & _)]; [congruence|by rewrite He, lookup_empty in Hth].
Qed.

End Recovery.

(** C7: the ownership rule, over the whole life of a worker.  While Recover takes over
    what a previous process left, it is only ever on a sandbox that is not tracked and
    that no actor is on; the number it returns is that of the tracked sandboxes.  From
    then on, however the calls, the audit and the actors interleave, with panics and a
    shutdown at any point, at most one goroutine is on the resources of a sandbox: two
    actors never share an id; a call that reaps an id holds it in [deleting], it is no
    longer tracked, and neither an actor nor another call is on it.  So the
    reconciliation never reaps a sandbox that is booting, running or being removed. *)
Theorem exclusive_ownership uuid_Parse quote :
  (forall c p id, recovering uuid_Parse quote (c, p) -> touching p = Some id ->
     mg_services (c_mgr c) !! id = None /\ forall n, ~ actor_touches c n id)
  /\ (forall c n, recovering uuid_Parse quote (c, MRet (Ok n)) -> n = Z.of_nat (size (mg_services (c_mgr c))))
  /\ (forall c, mreachable uuid_Parse quote c -> exclusive c).
Proof.
  split; [|split].
  - intros c p id. apply recovering_touches.
  - intros c n Hr. destruct (recovering_inv _ _ _ Hr) as [_ _ _ F]. cbn in F. inversion F as [| |ids m Hp| | | |]; subst.
    destruct ids; [|done]. cbn in *. simplify_eq. destruct Hp as (_ & _ & Hn). rewrite Hn. unfold svcs. by rewrite map_size_fmap.
  - intros c [g I]%mreachable_minv. by eapply minv_exclusive.
Qed.

(** After an empty recovery, a sandbox boots while the audit reaps an orphan found next to it on disk. *)
Definition demo_id1 : string := "00000000-0000-0000-0000-000000000001".
Definition demo_id2 : string := "00000000-0000-0000-0000-000000000002".

Lemma thread_touches_eval c t id :
  (match c_threads c !! t with Some (Running p) => touching p | _ => None end) = Some id ->
  thread_touches c t id.
Proof. unfold thread_touches. destruct (c_threads c !! t) as [[p|]|]; try done. by exists p. Qed.

Lemma actor_touches_eval c n id :
  (match c_actors c !! n with Some (Busy _ _ p) => touching p | _ => None end) = Some id ->
  actor_touches c n id.
Proof. unfold actor_touches. destruct (c_actors c !! n) as [[|t s p| | |]|]; try done. left. by exists t, s, p. Qed.

(** Every operation on a VM succeeds, a state query says running. *)
Definition demo_answer (X : Type) (o : vmop X) : X :=
  match o in vmop X return X with
  | VMAttach | NewVM _ | VMCreate | VMStop | VMCleanup | Reap => None
  | VMState => Ok StateRunning
  end.

Definition demo_exec : config -> list action -> config :=
  foldl (exec_action (fun _ => true) id demo_answer [demo_id1; demo_id2] 0).

(** The audit (call 1) lists the disk, the sandbox is created (call 0, actor 1) and its VM
    built, the audit claims. *)
Definition demo_config : config :=
  demo_exec start_config
    [Spawn 1 ReqAudit; Thread 1; Thread 1; Spawn 0 (ReqCreate (mkCreateInput demo_id1 1 256));
     Thread 0; Thread 0; Thread 0; Actor 1; Thread 1].

Lemma demo_reachable :
  mreachable (fun _ => true) id demo_config /\ thread_touches demo_config 1 demo_id2
  /\ actor_touches demo_config 1 demo_id1.
Proof.
  split; [exists start_config, (Ok 0); split|split; [apply thread_touches_eval|apply actor_touches_eval]; vm_compute; reflexivity].
  - apply rtc_once, R_env. exists (Ok []). split; [|done]. intros ids [= <-]. constructor.
  - apply exec_sound.
Qed.

Lemma exclusive_ownership_witness :
  exists c, mreachable (fun _ => true) id c /\ demo_id2 ∈ mg_deleting (c_mgr c)
    /\ (forall n, ~ actor_touches c n demo_id2)
    /\ (forall n, actor_touches c n demo_id1 -> n = 1%nat).
Proof.
  destruct demo_reachable as (Hr & Ht & Ha). exists demo_config. split; [exact Hr|].
  destruct (exclusive_ownership (fun _ => true) id) as (_ & _ & H). destruct (H demo_config Hr) as [H1 H2].
  destruct (H1 1%nat demo_id2 Ht) as (Hd & _ & Hn & _). split; [exact Hd|]. split; [exact Hn|].
  exact (proj2 (H2 1%nat demo_id1 Ha)).
Defined.
