(* ===== verification/Progress.v ===== *)
(** * The calls of the manager return

    Whatever the interleaving (Ownership.v, Recovery.v), a call that has not returned can
    move, or it waits for an actor that can, or for one whose starter can; and scheduling
    these makes it return, whatever the VMs answer. *)

From Stdlib Require Import ZArith Lia.
From stdpp Require Import base tactics option list gmap strings numbers relations.
From S2P Require Import Prelude GoStd Database EventGRPC Manager Ownership Recovery.

Open Scope Z_scope.

#[local] Set Warnings "-clear-no-such-hyp".

(** ** Who can move *)

Definition is_actor (c : config) (n : nat) (P : actor -> bool) : Prop :=
  exists a, c_actors c !! n = Some a /\ P a = true.

Definition thread_enabled (c : config) (t : nat) : Prop :=
  match c_threads c !! t with
  | Some (Running (MLock _ _)) | Some (Running (MVM _ _ _)) | Some (Running (MGo _ _ _))
  | Some (Running (MListDisk _)) | Some (Running (MNow _)) => True
  | Some (Running (MDo n _ _)) =>
      is_actor c n (fun a => match a with Selecting _ | Exited => true | _ => false end)
  | Some (Running (MRet _)) | Some (Running (MSelf _ _)) => False
  | Some (Waiting _ (Some _) _) => True
  | Some (Waiting n None _) => is_actor c n (fun a => match a with Exited => true | _ => false end)
  | None => False
  end.

(** An actor handling something, recovering or returning; the one in its select waits for
    a command or an event. *)
Definition actor_enabled (c : config) (n : nat) : Prop :=
  is_actor c n (fun a => match a with
                         | Busy _ _ (MGo _ _ _) | Busy _ _ (MDo _ _ _) | Busy _ _ (MListDisk _) => false
                         | Panicked _ (MGo _ _ _) | Panicked _ (MDo _ _ _) | Panicked _ (MListDisk _) => false
                         | Busy _ _ _ | Panicked _ _ | Returned => true
                         | Selecting _ | Exited => false
                         end).

(** The actor a call is in [do] with. *)
Definition waits_on (th : thread) (n : nat) : Prop :=
  (exists cmd k, th = Running (MDo n cmd k)) \/ (exists k, th = Waiting n None k).

Definition starter (c : config) (t n : nat) : Prop :=
  exists s k, c_threads c !! t = Some (Running (MGo n s k)).

Definition started (c : config) (n : nat) : Prop :=
  is_Some (c_actors c !! n) \/ exists t, starter c t n.

(** ** Programs that hand commands to known actors *)

(** The next operation neither starts an actor nor hands it a command. *)
Definition nodo {A} (p : mprog A) : Prop :=
  match p with MDo _ _ _ | MGo _ _ _ => False | _ => True end.

Fixpoint wok {A} (p : mprog A) : Prop :=
  match p with
  | MRet _ => True
  | MLock f k => forall env m,
      (forall n c k', k (f env m).1 = MDo n c k' -> exists id, svcs m !! id = Some n)
      /\ (forall id n, svcs (f env m).2 !! id = Some n ->
            svcs m !! id = Some n \/ exists s k', k (f env m).1 = MGo n s k')
      /\ wok (k (f env m).1)
  | MVM _ _ k => forall x, nodo (k x) /\ wok (k x)
  | MGo n s k => (forall n' c k', k = MDo n' c k' -> n' = n) /\ wok k
  | MDo _ _ k => forall x, nodo (k x) /\ wok (k x)
  | MListDisk k => forall x, nodo (k x) /\ wok (k x)
  | MNow k => forall x, nodo (k x) /\ wok (k x)
  | MSelf _ _ => False
  end.

(** A section after which the call returns. *)
Ltac ret_section := cbn; split_and!; [done|auto|done].

Lemma wok_shape {A X} (f : lockenv -> Manager -> X * Manager) (k : X -> mprog A) :
  (forall env m, same_shape m (f env m).2) -> (forall x, nodo (k x) /\ wok (k x)) -> wok (MLock f k).
Proof.
  intros Hf Hk. cbn. intros env m. destruct (Hf env m) as [Hs _]. split; [|split; [rewrite Hs; auto|apply Hk]].
  intros n c k' E. destruct (Hk (f env m).1) as [Hn _]. by rewrite E in Hn.
Qed.

Lemma create_after_wok id n x : nodo (create_after id n x) /\ wok (create_after id n x).
Proof.
  destruct x as [e|]; cbn; [|done]. split; [done|]. intros env m. split; [done|]. split; [|done].
  intros i k. left. unfold drop_section in *. destruct (mg_services m !! id); [|done].
  destruct (decide _); [|done]. revert H. unfold svcs. cbn. rewrite fmap_delete. by intros [_ ?]%lookup_delete_Some.
Qed.

Lemma release_svcs id m : svcs (release id m) = svcs m.
Proof. done. Qed.

Lemma remove_after_wok id x : nodo (remove_after id x) /\ wok (remove_after id x).
Proof.
  assert (forall r, nodo (remove_release id r) /\ wok (remove_release id r)) as Hr.
  { intros r. split; [done|]. cbn. intros env m. split; [done|]. split; [auto|done]. }
  unfold remove_after. destruct (exited_err x); [|apply Hr]. split; [done|]. cbn [wok]. intros y. apply Hr.
Qed.

Lemma emit_all_wok {A B} ids st (g : unit -> mprog A) (h : A -> mprog B) :
  nodo (mbind (g tt) h) -> wok (mbind (g tt) h) ->
  nodo (mbind (mbind (emit_all ids st) g) h) /\ wok (mbind (mbind (emit_all ids st) g) h).
Proof.
  intros Hn Hw. induction ids as [|id ids [IH1 IH2]]; [done|]. split; [done|].
  cbn [emit_all emit mbind]. intros now. split; [done|]. apply wok_shape; [intros; apply emit_send_shape|].
  intros []. by split.
Qed.

Lemma reap_orphans_wok {B} ids (h : unit -> mprog B) :
  (nodo (h tt) /\ wok (h tt)) -> nodo (mbind (reap_orphans ids) h) /\ wok (mbind (reap_orphans ids) h).
Proof.
  intros Hh. induction ids as [|id ids [IH1 IH2]]; [done|]. split; [done|]. cbn. intros _. split; [done|].
  intros env m. split; [intros n c k' E; by rewrite E in IH1|]. split; [auto|done].
Qed.

Lemma call_wok uuid_Parse quote r : nodo (call uuid_Parse quote r) /\ wok (call uuid_Parse quote r).
Proof.
  destruct r as [c_in|id|id| |z|]; cbn [call].
  - unfold Create. destruct (CheckSandboxID _ _ _); [done|]. split; [done|]. cbn [wok]. intros env m.
    unfold create_section. destruct (decide (is_Some _)); [ret_section|].
    destruct (decide (_ ∈ _)); [ret_section|]. destruct (_ && _); [ret_section|]. cbn [fst snd]. split; [done|]. split.
    + intros id nn. unfold svcs. cbn. rewrite fmap_insert. intros [[<- <-]|[_ ?]]%lookup_insert_Some; [right; by do 2 eexists|by left].
    + split; [by intros n' c k' [= <- _ _]|]. cbn [wok]. intros x. apply create_after_wok.
  - split; [done|]. cbn. intros env m. destruct (mg_services m !! id) as [e|] eqn:Em; [|ret_section].
    split; [|split; [auto|done]]. intros n c k' [= <- _ _]. exists id. unfold svcs. by rewrite lookup_fmap, Em.
  - unfold Remove. destruct (CheckSandboxID _ _ _); [done|]. split; [done|]. cbn [wok]. intros env m.
    unfold remove_section. destruct (decide _); [ret_section|].
    destruct (mg_services m !! id) as [e|] eqn:Em; [|ret_section]. cbn [fst snd]. split; [|split].
    + intros nn c k' [= <- _ _]. exists id. unfold svcs. by rewrite lookup_fmap, Em.
    + intros i nn. unfold svcs. cbn. rewrite fmap_delete. intros [_ ?]%lookup_delete_Some. by left.
    + cbn [wok]. intros x. apply remove_after_wok.
  - split; [done|]. unfold audit, checkLiveness. cbn [mbind]. apply wok_shape; [apply liveness_shape|].
    intros dead. apply emit_all_wok; [done|]. cbn. intros [onDisk|e]; [|done]. split; [done|].
    intros env m. destruct (claim_section onDisk m) as [orphans m'] eqn:E. cbn.
    apply claim_section_moved in E as (_ & Hs & _).
    destruct (reap_orphans_wok orphans (fun _ => MRet (None : option error))) as [H1 H2]; [done|].
    split; [intros n c k' Ek; by rewrite Ek in H1|]. rewrite Hs. auto.
  - split; [done|]. by apply wok_shape.
  - split; [done|]. by apply wok_shape.
Qed.

(** ** The invariant *)

(** The actor is on the command of call [t], or it will not take another one. *)
Definition serves (t : nat) (a : actor) : Prop :=
  match a with
  | Busy (Some u) _ _ => u = t
  | Busy None _ _ | Selecting _ => False
  | Panicked _ _ | Returned | Exited => True
  end.

Definition thread_ok (th : thread) : Prop :=
  match th with
  | Running p => wok p
  | Waiting _ _ k => forall x, nodo (k x) /\ wok (k x)
  end.

Record winv (c : config) : Prop := {
  w_ok : forall t th, c_threads c !! t = Some th -> thread_ok th;
  w_do : forall t n cmd k, c_threads c !! t = Some (Running (MDo n cmd k)) -> started c n;
  w_busy : forall t n k, c_threads c !! t = Some (Waiting n None k) ->
           exists a, c_actors c !! n = Some a /\ serves t a;
  w_svc : forall id n, svcs (c_mgr c) !! id = Some n -> started c n;
}.

(** What is started stays so when a call that starts nothing moves. *)
Lemma started_thread c t th' m' next' n :
  (forall s k, c_threads c !! t <> Some (Running (MGo n s k))) -> started c n ->
  started (mkConfig m' next' (c_actors c) (<[t := th']> (c_threads c))) n.
Proof.
  intros Hgo [Ha|(u & s & k & Hu)]; [by left|right]. exists u, s, k. cbn.
  rewrite lookup_insert_ne; [done|]. intros <-. by destruct (Hgo s k).
Qed.

Lemma winv_thread c t th' m' next' :
  let c' := mkConfig m' next' (c_actors c) (<[t := th']> (c_threads c)) in
  winv c -> (forall n s k, c_threads c !! t <> Some (Running (MGo n s k))) ->
  thread_ok th' -> (forall n cmd k, th' = Running (MDo n cmd k) -> started c' n) ->
  (forall n k, th' <> Waiting n None k) ->
  (forall id n, svcs m' !! id = Some n -> svcs (c_mgr c) !! id = Some n \/ started c' n) ->
  winv c'.
Proof.
  intros c' W Hgo Hok Hdo Hwait Hsvc. split.
  - intros u x Hu. cbn in Hu. apply lookup_insert_Some in Hu as [[<- <-]|[_ Hu]]; [done|by eapply (w_ok _ W)].
  - intros u n cmd k Hu. cbn in Hu. apply lookup_insert_Some in Hu as [[<- E]|[_ Hu]]; [by eapply Hdo|].
    apply started_thread; [done|]. by eapply (w_do _ W).
  - intros u n k Hu. cbn in Hu. apply lookup_insert_Some in Hu as [[<- E]|[_ Hu]]; [by destruct (Hwait n k)|].
    by eapply (w_busy _ W).
  - intros id n Hn. destruct (Hsvc id n Hn) as [Hn'|?]; [|done]. apply started_thread; [done|]. by eapply (w_svc _ W).
Qed.

(** An actor moves, the map of Services unchanged. *)
Lemma winv_actor c n a a' m' next' :
  winv c -> c_actors c !! n = Some a -> svcs m' = svcs (c_mgr c) ->
  (forall t, serves t a -> serves t a') ->
  winv (mkConfig m' next' (<[n := a']> (c_actors c)) (c_threads c)).
Proof.
  intros W Ha Hs Hserves.
  assert (forall i, started c i -> started (mkConfig m' next' (<[n := a']> (c_actors c)) (c_threads c)) i) as Hst.
  { intros i [[b Hb]|Hi]; [left; cbn|by right]. destruct (decide (i = n)) as [->|]; [by rewrite lookup_insert_eq|].
    rewrite lookup_insert_ne by done. by eexists. }
  split; cbn [c_threads c_actors c_mgr].
  - apply (w_ok _ W).
  - intros t i cmd k Ht. apply Hst. by eapply (w_do _ W).
  - intros t i k Ht. destruct (w_busy _ W _ _ _ Ht) as (b & Hb & Hsb).
    destruct (decide (i = n)) as [->|]; [rewrite lookup_insert_eq|rewrite lookup_insert_ne by done; by exists b].
    exists a'. split; [done|]. apply Hserves. congruence.
  - intros id i Hi. apply Hst. rewrite Hs in Hi. by eapply (w_svc _ W).
Qed.

Lemma winv_go c t n s k :
  winv c -> c_threads c !! t = Some (Running (MGo n s k)) -> c_actors c !! n = None ->
  winv (mkConfig (c_mgr c) (c_next c) (<[n := Selecting s]> (c_actors c)) (<[t := Running k]> (c_threads c))).
Proof.
  intros W Ht Hn. set (c' := mkConfig _ _ _ _). destruct (w_ok _ W _ _ Ht) as [Hk Hw].
  assert (forall i, started c i -> started c' i) as Hst.
  { intros i [[b Hb]|(u & s' & k' & Hu)].
    - left. cbn. rewrite lookup_insert_ne; [by eexists|]. intros <-. congruence.
    - destruct (decide (u = t)) as [->|]; [rewrite Ht in Hu; injection Hu as <- <- <-; left; cbn; by rewrite lookup_insert_eq|].
      right. exists u, s', k'. cbn. by rewrite lookup_insert_ne. }
  split; cbn [c_threads c_actors c_mgr c'].
  - intros u x Hu. apply lookup_insert_Some in Hu as [[<- <-]|[_ Hu]]; [done|by eapply (w_ok _ W)].
  - intros u i cmd k' Hu. apply lookup_insert_Some in Hu as [[<- [= E]]|[_ Hu]].
    + rewrite (Hk _ _ _ E). left. cbn. by rewrite lookup_insert_eq.
    + apply Hst. by eapply (w_do _ W).
  - intros u i k' Hu. apply lookup_insert_Some in Hu as [[<- [=]]|[_ Hu]].
    destruct (w_busy _ W _ _ _ Hu) as (b & Hb & Hsb). exists b. rewrite lookup_insert_ne; [done|]. intros <-. congruence.
  - intros id i Hi. apply Hst. by eapply (w_svc _ W).
Qed.

(** A call and the actor it talks to. *)
Lemma winv_both c t n th' a a' :
  winv c -> (forall m s k, c_threads c !! t <> Some (Running (MGo m s k))) -> c_actors c !! n = Some a ->
  thread_ok th' -> (forall m cmd k, th' <> Running (MDo m cmd k)) ->
  (forall m k, th' = Waiting m None k -> m = n /\ serves t a') ->
  (forall u, u <> t -> serves u a -> serves u a') ->
  winv (mkConfig (c_mgr c) (c_next c) (<[n := a']> (c_actors c)) (<[t := th']> (c_threads c))).
Proof.
  intros W Hgo Ha Hok Hdo Hw Hserves. set (c' := mkConfig _ _ _ _).
  assert (forall i, started c i -> started c' i) as Hst.
  { intros i [[b Hb]|(u & s' & k' & Hu)].
    - left. cbn. destruct (decide (i = n)) as [->|]; [by rewrite lookup_insert_eq|]. rewrite lookup_insert_ne by done. by eexists.
    - right. exists u, s', k'. cbn. rewrite lookup_insert_ne; [done|]. intros <-. by destruct (Hgo i s' k'). }
  split; cbn [c_threads c_actors c_mgr c'].
  - intros u x Hu. apply lookup_insert_Some in Hu as [[<- <-]|[_ Hu]]; [done|by eapply (w_ok _ W)].
  - intros u i cmd k' Hu. apply lookup_insert_Some in Hu as [[<- E]|[_ Hu]]; [by destruct (Hdo i cmd k')|].
    apply Hst. by eapply (w_do _ W).
  - intros u i k' Hu. apply lookup_insert_Some in Hu as [[<- E]|[N Hu]].
    + destruct (Hw i k' E) as [-> ?]. exists a'. by rewrite lookup_insert_eq.
    + destruct (w_busy _ W _ _ _ Hu) as (b & Hb & Hsb).
      destruct (decide (i = n)) as [->|]; [rewrite lookup_insert_eq|rewrite lookup_insert_ne by done; by exists b].
      exists a'. split; [done|]. apply Hserves; [done|]. congruence.
  - intros id i Hi. apply Hst. by eapply (w_svc _ W).
Qed.

Lemma running_not_go c t p : c_threads c !! t = Some (Running p) -> (forall n s k, p <> MGo n s k) ->
  forall n s k, c_threads c !! t <> Some (Running (MGo n s k)).
Proof. intros Ht Hp n s k E. rewrite Ht in E. injection E as E. by apply (Hp n s k). Qed.

Lemma wok_lock {A} (p q : mprog A) env m m' :
  wok p -> after_lock env m p q m' ->
  (forall n c k', q = MDo n c k' -> exists id, svcs m !! id = Some n)
  /\ (forall id n, svcs m' !! id = Some n -> svcs m !! id = Some n \/ exists s k', q = MGo n s k') /\ wok q.
Proof. destruct p; try done. intros Hp [-> ->]. apply Hp. Qed.

Lemma wok_env {A} (p q : mprog A) : wok p -> after_env p q -> nodo q /\ wok q.
Proof. destruct p; try done; intros Hp [x ->]; apply Hp. Qed.

Lemma actor_section g c n t s p q m' :
  minv g c -> c_actors c !! n = Some (Busy t s p) -> after_lock (env_of c) (c_mgr c) p q m' ->
  svcs m' = svcs (c_mgr c).
Proof.
  intros I Ha Hq. pose proof (proj2 (i_actors _ _ I _ _ Ha)) as Hok.
  destruct t as [t|]; [destruct Hok as (k & cmd & _ & _ & Hok)|]; by eapply aok_lock.
Qed.

(** A call that goes on after [do], or is answered by the environment. *)
Lemma winv_resume c t p q :
  winv c -> c_threads c !! t = Some p -> (forall n s k, p <> Running (MGo n s k)) -> nodo q /\ wok q ->
  winv (mkConfig (c_mgr c) (c_next c) (c_actors c) (<[t := Running q]> (c_threads c))).
Proof.
  intros W Ht Hgo [Hn Hw]. apply winv_thread; try done.
  - intros n s k E. apply (Hgo n s k). congruence.
  - by intros n cmd k [= ->].
  - intros id n Hi. by left.
Qed.

Lemma mstep_winv uuid_Parse quote g c c' : minv g c -> winv c -> mstep uuid_Parse quote c c' -> winv c'.
Proof.
  intros I W Hstep. destruct Hstep as
    [t r Ht|t p q m' Ht Hq|t p q Ht Hq|t n s k Ht|t n cmd k s Ht Ha|t n cmd k Ht Ha|t n r k Ht|t n k Ht Ha
    |n t s p q m' Ha Hq|n t s p q Ha Hq|n t s p q s' Ha Hq|n t s p Ha|n t s k exit err Ha Ht|n s exit err Ha
    |n s p Ha He|n s Ha|n s p q m' Ha Hq|n s p q Ha Hq|n s p q s' Ha Hq|n s u Ha|n Ha|ev rest Hev].
  - destruct (call_wok uuid_Parse quote r) as [Hn Hw]. apply winv_thread; try done.
    + intros n s k E. congruence.
    + intros n cmd k [= E]. by rewrite E in Hn.
    + intros id n Hi. by left.
  - destruct (wok_lock _ _ _ _ _ (w_ok _ W _ _ Ht) Hq) as (Hdo & Hsv & Hw).
    assert (forall n s k, c_threads c !! t <> Some (Running (MGo n s k))) as Hgo
      by (apply (running_not_go _ _ _ Ht); by intros ? ? ? ->).
    apply winv_thread; try done.
    + intros n cmd k [= E]. destruct (Hdo _ _ _ E) as [id Hid]. apply started_thread; [done|]. by eapply (w_svc _ W).
    + intros id n Hi. destruct (Hsv id n Hi) as [?|(s & k' & E)]; [by left|right]. right. exists t, s, k'. cbn.
      rewrite lookup_insert_eq. by rewrite E.
  - eapply winv_resume; [done|done| |by eapply wok_env; [apply (w_ok _ W _ _ Ht)|]]. by intros n s k [= ->].
  - eapply winv_go; [done|done|]. by destruct (i_go _ _ I _ _ _ _ Ht).
  - eapply winv_both; [done| |done| |done|..].
    + by eapply running_not_go.
    + exact (w_ok _ W _ _ Ht).
    + by intros m k' [= <- _].
    + by intros u Hu [].
  - eapply winv_resume; [done|done|done|]. apply (w_ok _ W _ _ Ht).
  - eapply winv_resume; [done|done|done|]. apply (w_ok _ W _ _ Ht).
  - eapply winv_resume; [done|done|done|]. apply (w_ok _ W _ _ Ht).
  - eapply winv_actor; [done|done|by eapply actor_section|]. by destruct t.
  - eapply winv_actor; [done|done|done|]. by destruct t.
  - eapply winv_actor; [done|done|done|]. by destruct t.
  - by eapply winv_actor.
  - eapply winv_both; [done| |done| |done|done|].
    + intros m s' k' E. congruence.
    + exact (w_ok _ W _ _ Ht).
    + intros u Hu Hs. cbn in Hs. congruence.
  - eapply winv_actor; [done|done|done|]. by intros t [].
  - eapply winv_actor; [done|done|done|]. by intros t [].
  - eapply winv_actor; [done|done|done|]. by intros t [].
  - pose proof (proj2 (i_actors _ _ I _ _ Ha)) as Hok. destruct (aok_lock _ _ _ _ _ _ _ Hok Hq) as [[Hs _] _].
    by eapply winv_actor.
  - by eapply winv_actor.
  - by eapply winv_actor.
  - by eapply winv_actor.
  - by eapply winv_actor.
  - split; apply W.
Qed.

(** ** After the recovery *)

(** Every tracked sandbox has its actor, or it is about to start. *)
Definition all_started (x : config * mprog (result error Z)) : Prop :=
  forall id n, svcs (c_mgr x.1) !! id = Some n ->
  is_Some (c_actors x.1 !! n) \/ exists s k, x.2 = MGo n s k.

Lemma rstep_started uuid_Parse quote x y :
  rinv x -> all_started x -> rstep uuid_Parse quote x y -> all_started y.
Proof.
  intros [He Hd [g I] F] S Hs. destruct Hs as [c p q m' Hq|c p q Hq|c n s k|c c' p Hm He']; cbn [fst snd] in *.
  - inversion F as [Hsv|e|ids n Hp|id ids n Hp|id ids n Hp|id ids n st Hp|id ids n svc st Hp]; subst; try done.
    { by destruct ids. }
    destruct Hq as [-> ->]. intros i m. cbn. unfold svcs. cbn. rewrite fmap_insert.
    intros [[<- <-]|[_ Hi]]%lookup_insert_Some; [right; by do 2 eexists|].
    destruct (S i m Hi) as [?|(s & k & [=])]. by left.
  - intros i m Hi. destruct (S i m Hi) as [?|(s & k & E)]; [by left|]. cbn in E. by subst p.
  - intros i m Hi. left. cbn in *. destruct (S i m Hi) as [Hx|(s' & k' & [= -> _ _])]; [|by rewrite lookup_insert_eq].
    destruct (decide (m = n)) as [->|]; [by rewrite lookup_insert_eq|by rewrite lookup_insert_ne].
  - destruct (alone_step _ _ g c c' I He Hm He') as ([Hs1 _] & _ & _). intros i m Hi. cbn in *. rewrite Hs1 in Hi.
    destruct (S i m Hi) as [Hx|?]; [left|by right].
    assert (forall m a, c_actors c !! m = Some a -> is_Some (c_actors c' !! m)) as Hdom; [|destruct Hx; by eapply Hdom].
    clear - Hm. assert (forall n b m a, c_actors c !! m = Some a -> is_Some (<[n := b]> (c_actors c) !! m)) as H.
    { intros n b m a Hm'. destruct (decide (m = n)) as [->|]; [by rewrite lookup_insert_eq|rewrite lookup_insert_ne; eauto]. }
    intros m a Ha. destruct Hm; cbn; eauto.
Qed.

Lemma mreachable_winv uuid_Parse quote c : mreachable uuid_Parse quote c -> winv c.
Proof.
  intros (c0 & r & H0 & Hr). pose proof (recovering_inv _ _ _ H0) as R.
  assert (all_started (c0, MRet r)) as S.
  { clear R Hr. unfold recovering in H0.
    assert (forall x, rtc (rstep uuid_Parse quote) (start_config, Recover) x -> all_started x) as H; [|by apply H].
    intros x. apply (rtc_ind_r (fun x => all_started x)); [by intros id n|].
    intros y z Hy Hs IH. eapply rstep_started; [by eapply recovering_inv|done|done]. }
  destruct R as [He _ [g I] _]. cbn in *. assert (winv c0) as W.
  { split; [intros t th Ht|intros t n cmd k Ht|intros t n k Ht|]; try (rewrite He in Ht; by rewrite lookup_empty in Ht).
    intros id n Hn. destruct (S id n Hn) as [?|(s & k & [=])]. by left. }
  clear S H0 He. revert g I. induction Hr as [c|c1 c2 c3 Hs _ IH]; [done|]. intros g I.
  destruct (mstep_preserves _ _ _ _ _ Hs I) as [g' I']. exact (IH (mstep_winv _ _ g _ _ I W Hs) g' I').
Qed.

(** ** Deadlock freedom *)

Lemma thread_enabled_step uuid_Parse quote c t :
  thread_enabled c t -> exists c', mstep uuid_Parse quote c c'.
Proof.
  unfold thread_enabled. destruct (c_threads c !! t) as [[p|n [r|] k]|] eqn:Ht; [..|done].
  - destruct p as [|X f k|X id o k| |n s k|n cmd k|k|k]; try done; intros H.
    + eexists. by eapply T_lock.
    + destruct o; eexists; (eapply T_env; [done|]); try (by exists None). by exists (Ok StateUnknown).
    + eexists. by eapply T_go.
    + destruct H as (a & Ha & H). destruct a; try done; eexists; [by eapply T_send|by eapply T_exited].
    + eexists. eapply T_env; [done|]. by exists (Ok []).
    + eexists. eapply T_env; [done|]. by exists 0.
  - intros _. eexists. by eapply T_reply.
  - intros (a & Ha & H). destruct a; try done. eexists. by eapply T_noreply.
Qed.

Lemma actor_enabled_step uuid_Parse quote g c n :
  minv g c -> actor_enabled c n -> exists c', mstep uuid_Parse quote c c'.
Proof.
  intros I (a & Ha & H). pose proof (proj2 (i_actors _ _ I _ _ Ha)) as Hok.
  destruct a as [|t s p|s p| |]; try done.
  - destruct p as [[exit err]|X f k|X id o k|X f k| | | |k]; try done.
    + destruct t as [t|]; [|eexists; by eapply A_event_done].
      destruct Hok as (k & cmd & Hk & _). eexists. by eapply A_reply.
    + eexists. by eapply A_lock.
    + eexists. eapply A_panic. done.
    + eexists. by eapply A_self.
    + eexists. eapply A_env; [done|]. by exists 0.
  - destruct p as [u|X f k|X id o k|X f k| | | |k]; try done.
    + eexists. by eapply P_done.
    + eexists. by eapply P_lock.
    + by destruct Hok.
    + eexists. by eapply P_self.
    + eexists. eapply P_env; [done|]. by exists 0.
  - eexists. by eapply A_close.
Qed.

(** The actor that serves a call, or one about to answer that it is gone, can move. *)
Lemma serves_enabled g c t n a :
  minv g c -> c_actors c !! n = Some a -> serves t a ->
  c_actors c !! n = Some Exited \/ actor_enabled c n.
Proof.
  intros I Ha Hs. pose proof (proj2 (i_actors _ _ I _ _ Ha)) as Hok.
  destruct a as [|[u|] s p|s p| |]; try done; [right|right|right|by left]; eexists; (split; [done|]).
  - destruct Hok as (k & cmd & _ & _ & Hok). by destruct p.
  - cbn in Hok. by destruct p.
  - done.
Qed.

(** No call is stuck.  In every reachable state of the manager, a call that has not
    returned can make its next step; or it is handing a command to an actor, or waiting
    for its reply, and that actor can make its next step, or the goroutine that is about
    to start the actor can.  A reply that never comes is not waited for: a call whose
    actor is gone can go on. *)
Lemma calls_progress uuid_Parse quote c t th :
  mreachable uuid_Parse quote c -> c_threads c !! t = Some th ->
  (exists r, th = Running (MRet r))
  \/ (thread_enabled c t /\ exists c', mstep uuid_Parse quote c c')
  \/ exists n, waits_on th n
       /\ ((actor_enabled c n /\ exists c', mstep uuid_Parse quote c c')
           \/ exists t', starter c t' n /\ thread_enabled c t').
Proof.
  intros Hr Ht. destruct (mreachable_minv _ _ _ Hr) as [g I]. pose proof (mreachable_winv _ _ _ Hr) as W.
  assert (thread_enabled c t -> thread_enabled c t /\ exists c', mstep uuid_Parse quote c c') as Hen
    by (intros; split; eauto using thread_enabled_step).
  assert (forall n, actor_enabled c n -> actor_enabled c n /\ exists c', mstep uuid_Parse quote c c') as Hact
    by (intros; split; eauto using actor_enabled_step).
  pose proof (w_ok _ W _ _ Ht) as Hok. unfold thread_enabled in Hen at 1. rewrite Ht in Hen.
  destruct th as [p|n [r|] k]; [|right; left; by apply Hen|].
  - destruct p as [r|X f k|X id o k| |n s k|n cmd k|k|k]; try (right; left; by apply Hen); [left; by eexists|].
    destruct (w_do _ W _ _ _ _ Ht) as [[a Ha]|(t' & Ht')].
    + destruct a as [s|u s p|s p| |] eqn:Ea; try (right; left; apply Hen; by eexists).
      * right. right. exists n. split; [left; eauto|left]. apply Hact. eexists. split; [done|].
        pose proof (proj2 (i_actors _ _ I _ _ Ha)) as Ho.
        destruct u as [u|]; [destruct Ho as (? & ? & _ & _ & Ho)|cbn in Ho]; by destruct p.
      * right. right. exists n. split; [left; eauto|left]. apply Hact.
        by destruct (serves_enabled g c 0 n _ I Ha) as [E|?]; [|congruence|].
      * right. right. exists n. split; [left; eauto|left]. apply Hact. by eexists.
    + right. right. exists n. split; [left; eauto|right]. exists t'. split; [done|].
      destruct Ht' as (s & k' & Ht'). unfold thread_enabled. by rewrite Ht'.
  - destruct (w_busy _ W _ _ _ Ht) as (a & Ha & Hs). destruct (serves_enabled g c t n a I Ha Hs) as [E|E].
    + right. left. apply Hen. by exists Exited.
    + right. right. exists n. split; [right; eauto|left]. by apply Hact.
Qed.

(** ** Every call can return

    A schedule: which goroutine moves next ([exec_action]: a call, or an actor that goes on
    with what it is doing); nothing panics or shuts down, and no new call comes. *)
Section Return.

Context (uuid_Parse : string -> bool) (quote : string -> string).
Context (answer : forall X, vmop X -> X) (disk : list string) (now : Z).

Abbreviation exec := (exec_action uuid_Parse quote answer disk now).

Definition healthy (c : config) : Prop := (exists g, minv g c) /\ winv c.

Lemma exec_healthy c a : healthy c -> healthy (exec c a).
Proof.
  intros [[g I] W]. destruct (exec_action_step uuid_Parse quote answer disk now c a) as [->|H]; [by split; [exists g|]|].
  destruct (mstep_preserves _ _ _ _ _ H I) as [g' I']. split; [by exists g'|exact (mstep_winv _ _ g _ _ I W H)].
Qed.

Definition no_spawn (a : action) : Prop := match a with Spawn _ _ => False | _ => True end.

Definition leads (c : config) (P : config -> Prop) : Prop :=
  exists l, Forall no_spawn l /\ P (foldl exec c l).

Lemma leads_now c (P : config -> Prop) : P c -> leads c P.
Proof. intros H. by exists []. Qed.

Lemma leads_step c a P : no_spawn a -> leads (exec c a) P -> leads c P.
Proof. intros Ha (l & Hl & H). exists (a :: l). split; [by constructor|done]. Qed.

Lemma leads_trans c P Q : healthy c -> leads c P -> (forall c', healthy c' -> P c' -> leads c' Q) -> leads c Q.
Proof.
  intros Hc (l & Hl & HP) HQ. assert (healthy (foldl exec c l)) as Hh.
  { clear -Hc. revert c Hc. induction l as [|a l IH]; intros c Hc; [done|]. by apply IH, exec_healthy. }
  destruct (HQ _ Hh HP) as (l' & Hl' & H). exists (l ++ l'). split; [by apply Forall_app|]. by rewrite foldl_app.
Qed.

(** The next step of an actor, of a call. *)
Lemma actor_step c n a P :
  healthy c -> c_actors c !! n = Some a ->
  (healthy (actor_exec answer disk now n a c) -> leads (actor_exec answer disk now n a c) P) -> leads c P.
Proof.
  intros Hc Ha H. apply (leads_step _ (Actor n)); [done|]. pose proof (exec_healthy c (Actor n) Hc) as Hx.
  cbn [exec_action] in *. rewrite Ha in *. auto.
Qed.

Lemma thread_step c t p P :
  healthy c -> c_threads c !! t = Some (Running p) ->
  (healthy (thread_exec answer disk now t p c) -> leads (thread_exec answer disk now t p c) P) -> leads c P.
Proof.
  intros Hc Ht H. apply (leads_step _ (Thread t)); [done|]. pose proof (exec_healthy c (Thread t) Hc) as Hx.
  cbn [exec_action] in *. rewrite Ht in *. auto.
Qed.

(** What an actor is doing ends, whatever its VM answers; the calls do not move. *)
Lemma busy_leads c n t s p :
  healthy c -> c_actors c !! n = Some (Busy t s p) ->
  leads c (fun c' => c_threads c' = c_threads c
                     /\ exists s' r, c_actors c' !! n = Some (Busy t s' (MRet r))).
Proof.
  revert c s. induction p as [r|X f k IH|X id o k IH|X f k IH|m s' k IH|m cmd k IH|k IH|k IH]; intros c s Hc Ha.
  { apply leads_now. split; [done|]. eauto. }
  4-6: destruct Hc as [[g I] _]; pose proof (proj2 (i_actors _ _ I _ _ Ha)) as Hok;
    destruct t as [t|]; [by destruct Hok as (? & ? & _ & _ & [])|done].
  all: eapply actor_step; [done|exact Ha|]; cbn [actor_exec answered]; intros Hc1; eapply (IH _ _ _ Hc1), lookup_insert_eq.
Qed.

Lemma panicked_leads c n s p :
  healthy c -> c_actors c !! n = Some (Panicked s p) ->
  leads c (fun c' => c_threads c' = c_threads c /\ c_actors c' !! n = Some Returned).
Proof.
  revert c s. induction p as [r|X f k IH|X id o k IH|X f k IH|m s' k IH|m cmd k IH|k IH|k IH]; intros c s Hc Ha.
  { eapply actor_step; [done|exact Ha|]. intros _. apply leads_now. split; [done|]. apply lookup_insert_eq. }
  4-6: destruct Hc as [[g I] _]; by pose proof (proj2 (i_actors _ _ I _ _ Ha)).
  all: eapply actor_step; [done|exact Ha|]; cbn [actor_exec answered]; intros Hc1; eapply (IH _ _ _ Hc1), lookup_insert_eq.
Qed.

(** An actor whose goroutine is on its way out is gone. *)
Lemma leaving_leads c n a :
  healthy c -> c_actors c !! n = Some a ->
  match a with Panicked _ _ | Returned | Exited => True | _ => False end ->
  leads c (fun c' => c_threads c' = c_threads c /\ c_actors c' !! n = Some Exited).
Proof.
  intros Hc Ha Hl. assert (forall c, healthy c -> c_actors c !! n = Some Returned ->
    leads c (fun c' => c_threads c' = c_threads c /\ c_actors c' !! n = Some Exited)) as Hr.
  { clear. intros c Hc Ha. eapply actor_step; [done|exact Ha|]. intros _. apply leads_now. split; [done|]. apply lookup_insert_eq. }
  destruct a as [s|t s p|s p| |]; try done; [|by apply Hr|by apply leads_now].
  eapply leads_trans; [done|by eapply panicked_leads|]. cbn. intros c' Hc' [<- Ha']. by apply Hr.
Qed.

(** An actor that has finished with the command of a call answers it. *)
Lemma reply_leads c n u s exit err :
  healthy c -> c_actors c !! n = Some (Busy (Some u) s (MRet (exit, err))) ->
  leads c (fun c' => exists k, c_threads c !! u = Some (Waiting n None k)
    /\ c_threads c' = <[u := Waiting n (Some err) k]> (c_threads c)
    /\ c_actors c' !! n = Some (if exit then Returned else Selecting s)).
Proof.
  intros Hc Ha. pose proof Hc as [[g I] _]. pose proof (proj2 (i_actors _ _ I _ _ Ha)) as (k & cmd & Hk & _).
  eapply actor_step; [done|exact Ha|]. cbn [actor_exec]. rewrite Hk, decide_True by done. intros _.
  apply leads_now. exists k. split; [done|]. split; [done|]. apply lookup_insert_eq.
Qed.

(** A call can have any actor take its command, or see it gone. *)
Lemma actor_frees c n a t p :
  healthy c -> c_actors c !! n = Some a -> c_threads c !! t = Some (Running p) ->
  leads c (fun c' => c_threads c' !! t = Some (Running p)
                     /\ (c_actors c' !! n = Some Exited \/ exists s, c_actors c' !! n = Some (Selecting s))).
Proof.
  intros Hc Ha Ht.
  assert (forall c a, healthy c -> c_actors c !! n = Some a -> c_threads c !! t = Some (Running p) ->
    match a with Panicked _ _ | Returned | Exited => True | _ => False end ->
    leads c (fun c' => c_threads c' !! t = Some (Running p)
                     /\ (c_actors c' !! n = Some Exited \/ exists s, c_actors c' !! n = Some (Selecting s)))) as Hl.
  { clear. intros c a Hc Ha Ht Hl. eapply leads_trans; [done|by eapply leaving_leads|]. cbn.
    intros c' _ [E Ha']. apply leads_now. rewrite E. auto. }
  destruct a as [s|u s q|s q| |]; try (by eapply Hl); [apply leads_now; eauto|].
  eapply leads_trans; [done|by eapply busy_leads|]. cbn. intros c1 Hc1 (E1 & s1 & [exit err] & Ha1).
  rewrite <- E1 in Ht. clear E1 Ha Hc c. destruct u as [u|].
  - eapply leads_trans; [done|by eapply reply_leads|]. cbn. intros c2 Hc2 (k & Hk & E2 & Ha2).
    assert (c_threads c2 !! t = Some (Running p)) as Ht2 by (rewrite E2, lookup_insert_ne; [done|congruence]).
    destruct exit; [by eapply Hl|]. apply leads_now. eauto.
  - eapply actor_step; [done|exact Ha1|]. intros _. apply leads_now. split; [done|]. right. exists s1. apply lookup_insert_eq.
Qed.

(** A call that waits for a reply goes on. *)
Lemma waiting_leads c t n k :
  healthy c -> c_threads c !! t = Some (Waiting n None k) ->
  leads c (fun c' => exists r, c_threads c' !! t = Some (Running (k r))).
Proof.
  intros Hc Ht. destruct (w_busy _ (proj2 Hc) _ _ _ Ht) as (a & Ha & Hs).
  assert (match a with Panicked _ _ | Returned | Exited => True | _ => False end ->
    leads c (fun c' => exists r, c_threads c' !! t = Some (Running (k r)))) as Hl.
  { intros Hl. eapply leads_trans; [done|by eapply leaving_leads|]. cbn. intros c' Hc' [E Ha']. rewrite <- E in Ht.
    apply (leads_step _ (Thread t)); [done|]. cbn [exec_action]. rewrite Ht, Ha'. apply leads_now. eexists. apply lookup_insert_eq. }
  destruct a as [s|u s q|s q| |]; try done; try (by apply Hl). destruct u as [u|]; [|done]. cbn in Hs. subst u.
  eapply leads_trans; [done|by eapply busy_leads|]. cbn. intros c1 Hc1 (E1 & s1 & [exit err] & Ha1).
  eapply leads_trans; [done|by eapply reply_leads|]. cbn. intros c2 Hc2 (k' & Hk & E2 & _).
  rewrite E1, Ht in Hk. injection Hk as <-.
  apply (leads_step _ (Thread t)); [done|]. cbn [exec_action]. rewrite E2, lookup_insert_eq. apply leads_now.
  eexists. apply lookup_insert_eq.
Qed.

(** A command handed over is answered. *)
Lemma do_leads c t n cmd k :
  healthy c -> c_threads c !! t = Some (Running (MDo n cmd k)) ->
  leads c (fun c' => exists r, c_threads c' !! t = Some (Running (k r))).
Proof.
  intros Hc Ht.
  assert (forall c, healthy c -> c_threads c !! t = Some (Running (MDo n cmd k)) -> is_Some (c_actors c !! n) ->
    leads c (fun c' => exists r, c_threads c' !! t = Some (Running (k r)))) as Hd.
  { clear. intros c Hc Ht [a Ha]. eapply leads_trans; [done|by eapply actor_frees|]. cbn. intros c1 Hc1 [Ht1 Ha1].
    eapply thread_step; [done|exact Ht1|]. cbn [thread_exec]. destruct Ha1 as [Ha1|[s Ha1]]; rewrite Ha1; intros Hc2.
    - apply leads_now. eexists. apply lookup_insert_eq.
    - eapply waiting_leads; [done|apply lookup_insert_eq]. }
  destruct (w_do _ (proj2 Hc) _ _ _ _ Ht) as [?|(u & s & k' & Hu)]; [by apply Hd|].
  eapply thread_step; [done|exact Hu|]. cbn [thread_exec]. intros Hc1. apply Hd; [done| |cbn; by rewrite lookup_insert_eq].
  cbn. rewrite lookup_insert_ne; [done|congruence].
Qed.

Lemma running_leads c t p :
  healthy c -> c_threads c !! t = Some (Running p) ->
  leads c (fun c' => exists r, c_threads c' !! t = Some (Running (MRet r))).
Proof.
  revert c. induction p as [r|X f k IH|X id o k IH|X f k IH|n s k IH|n cmd k IH|k IH|k IH]; intros c Hc Ht.
  { apply leads_now. eauto. }
  3: by destruct (w_ok _ (proj2 Hc) _ _ Ht).
  4: { eapply leads_trans; [done|by eapply do_leads|]. cbn. intros c' Hc' [r Hr]. by eapply IH. }
  all: eapply thread_step; [done|exact Ht|]; cbn [thread_exec answered]; intros Hc1;
    (eapply (IH _ _ Hc1) || eapply (IH _ Hc1)); apply lookup_insert_eq.
Qed.

End Return.

(** C20: every call can return.  From every reachable state of the manager, whatever the VMs
    answer from then on, there is a schedule of the calls and actors already there, without
    a panic or a shutdown, in which a call that is under way returns: a command handed to an
    actor is taken up, or refused because the actor is gone, and answered; no lock, command
    or reply is waited for in vain. *)
Theorem calls_return uuid_Parse quote (answer : forall X, vmop X -> X) disk now c t th :
  mreachable uuid_Parse quote c -> c_threads c !! t = Some th ->
  exists schedule r, Forall no_spawn schedule
    /\ c_threads (foldl (exec_action uuid_Parse quote answer disk now) c schedule) !! t = Some (Running (MRet r)).
Proof.
  intros Hr Ht. assert (healthy c) as Hc by (split; [by eapply mreachable_minv|by eapply mreachable_winv]).
  enough (leads uuid_Parse quote answer disk now c (fun c' => exists r, c_threads c' !! t = Some (Running (MRet r))))
    as (l & Hl & r & H) by (by exists l, r).
  destruct th as [p|n [r|] k]; [by eapply running_leads| |].
  - apply (leads_step _ _ _ _ _ _ (Thread t)); [done|]. pose proof (exec_healthy uuid_Parse quote answer disk now c (Thread t) Hc) as Hx.
    cbn [exec_action] in *. rewrite Ht in *. eapply running_leads; [done|apply lookup_insert_eq].
  - eapply leads_trans; [done|by eapply waiting_leads|]. cbn. intros c' Hc' [r Hr']. by eapply running_leads.
Qed.

(** A call that waits for the actor of a booting sandbox: the boot fails, and it returns. *)
Definition failing (X : Type) (o : vmop X) : X :=
  match o in vmop X return X with
  | VMAttach | VMCreate => Some (NewError "boot")
  | NewVM _ | VMStop | VMCleanup | Reap => None
  | VMState => Ok StateUnknown
  end.

Lemma calls_return_witness :
  exists schedule r, Forall no_spawn schedule
    /\ c_threads (foldl (exec_action (fun _ => true) id failing [] 0) demo_config schedule) !! 0%nat
       = Some (Running (MRet r)).
Proof.
  destruct (c_threads demo_config !! 0%nat) as [th|] eqn:E.
  - exact (calls_return (fun _ => true) id failing [] 0 demo_config 0 th (proj1 demo_reachable) E).
  - exfalso. assert (match c_threads demo_config !! 0%nat with Some _ => true | None => false end = true) as H
      by (vm_compute; reflexivity). rewrite E in H. discriminate H.
Defined.
