(* ===== verification/FakeVMs.v ===== *)
(** * The contract of a sandbox manager

    [SandboxManager] is the interface worker/sandbox.go declares: what the worker, and
    through it the orchestrator, needs of a manager of sandboxes, here for calls that run
    one at a time.  [SandboxManagerLaws] is what it may rely on.  [FakeVMs]
    (test/divergence/fakevms.go) is the reference implementation the repository tests its
    recovery mechanisms with: the VMs of one machine, in memory.  Solo.v discharges the
    laws for the real manager. *)

From Stdlib Require Import ZArith Lia.
From stdpp Require Import base tactics option list gmap strings numbers sorting.
From S2P Require Import Prelude GoStd Database EventGRPC Manager.

Open Scope Z_scope.

(** ** The interface *)

(** The operations, with the error they return; [sm_states] is what is hosted, which
    [Snapshot] reports. *)
Class SandboxManager (M : Type) : Type := {
  sm_Create : CreateInput -> M -> option error * M;
  sm_Stop : string -> M -> option error * M;
  sm_Remove : string -> M -> option error * M;
  sm_Snapshot : M -> list SandboxInventoryEntry;
  sm_SetCapacity : Z -> M -> M;
  sm_Events : M -> list StateChange;
  sm_states : M -> gmap string SandboxState;
}.

(** The entries of a heartbeat for what is hosted. *)
Definition entries_of (vms : gmap string SandboxState) : list SandboxInventoryEntry :=
  (fun kv => mkEntry kv.1 kv.2) <$> map_to_list vms.

(** Room for one more. *)
Definition has_room (capacity : Z) (vms : gmap string SandboxState) : bool :=
  negb ((0 <? capacity) && (capacity <=? Z.of_nat (size vms))).

(** What a client may rely on, in the states [sm_ok] and for the ids [sm_id].  [Remove]
    alone drops a sandbox; a dead one stays until then. *)
Class SandboxManagerLaws (M : Type) `{!SandboxManager M} : Type := {
  sm_ok : M -> Prop;
  sm_id : string -> Prop;
  sm_room : M -> bool;
  sm_snapshot m : sm_ok m -> sm_Snapshot m ≡ₚ entries_of (sm_states m);
  sm_create_again c m :
    sm_ok m -> sm_id (ci_ID c) -> is_Some (sm_states m !! ci_ID c) ->
    exists m', sm_Create c m = (None, m') /\ sm_ok m' /\ sm_states m' = sm_states m;
  sm_create_full c m :
    sm_ok m -> sm_id (ci_ID c) -> sm_states m !! ci_ID c = None -> sm_room m = false ->
    exists m', sm_Create c m = (Some (Sentinel Sandboxmgr_ErrAtCapacity), m')
      /\ sm_ok m' /\ sm_states m' = sm_states m;
  sm_create_boots c m :
    sm_ok m -> sm_id (ci_ID c) -> sm_states m !! ci_ID c = None -> sm_room m = true ->
    exists m', sm_Create c m = (None, m') /\ sm_ok m'
      /\ sm_states m' = <[ci_ID c := StateRunning]> (sm_states m);
  sm_stop_unknown id m :
    sm_ok m -> sm_states m !! id = None ->
    exists m', sm_Stop id m = (Some (wrap_id Sandboxmgr_ErrSandboxNotFound id), m')
      /\ sm_ok m' /\ sm_states m' = sm_states m;
  sm_stop_kills id m :
    sm_ok m -> is_Some (sm_states m !! id) ->
    exists m', sm_Stop id m = (None, m') /\ sm_ok m' /\ sm_states m' = <[id := StateDead]> (sm_states m);
  sm_remove_unknown id m :
    sm_ok m -> sm_id id -> sm_states m !! id = None ->
    exists m', sm_Remove id m = (Some (wrap_id Sandboxmgr_ErrSandboxNotFound id), m')
      /\ sm_ok m' /\ sm_states m' = sm_states m;
  sm_remove_drops id m :
    sm_ok m -> sm_id id -> is_Some (sm_states m !! id) ->
    exists m', sm_Remove id m = (None, m') /\ sm_ok m' /\ sm_states m' = delete id (sm_states m);
}.

(** ** fakevms.go *)

Record FakeVMs : Type := mkFakeVMs {
  fk_vms : gmap string SandboxState;
  fk_capacity : Z;
  fk_full : bool;
  fk_events : list StateChange;
  fk_boots : gmap string Z;
  fk_removeCalls : gmap string Z;
  fk_removed : list string;
}.

Definition NewFakeVMs : FakeVMs := mkFakeVMs ∅ 0 false [] ∅ ∅ [].

Definition set_vms (g : gmap string SandboxState -> gmap string SandboxState) (f : FakeVMs) : FakeVMs :=
  mkFakeVMs (g (fk_vms f)) (fk_capacity f) (fk_full f) (fk_events f) (fk_boots f)
    (fk_removeCalls f) (fk_removed f).

Definition count_up (id : string) (m : gmap string Z) : gmap string Z :=
  <[id := default 0 (m !! id) + 1]> m.

Section Fake.

(** [time.Now] during the calls. *)
Context (now : Z).

(** The send of [emit]: dropped when the buffer, as large as the manager's, is full. *)
Definition fake_emit (sandboxID : string) (st : SandboxState) (f : FakeVMs) : FakeVMs :=
  if decide (length (fk_events f) < eventBuffer)%nat
  then mkFakeVMs (fk_vms f) (fk_capacity f) (fk_full f)
         (fk_events f ++ [mkStateChange sandboxID st now]) (fk_boots f) (fk_removeCalls f) (fk_removed f)
  else f.

Definition fake_Create (c_in : CreateInput) (f : FakeVMs) : option error * FakeVMs :=
  if decide (is_Some (fk_vms f !! ci_ID c_in)) then (None, f)
  else if fk_full f || ((0 <? fk_capacity f) && (fk_capacity f <=? Z.of_nat (size (fk_vms f))))
  then (Some (Sentinel Sandboxmgr_ErrAtCapacity), f)
  else (None, fake_emit (ci_ID c_in) StateRunning
                (mkFakeVMs (<[ci_ID c_in := StateRunning]> (fk_vms f)) (fk_capacity f) (fk_full f)
                   (fk_events f) (count_up (ci_ID c_in) (fk_boots f)) (fk_removeCalls f) (fk_removed f))).

Definition fake_Stop (sandboxID : string) (f : FakeVMs) : option error * FakeVMs :=
  match fk_vms f !! sandboxID with
  | None => (Some (wrap_id Sandboxmgr_ErrSandboxNotFound sandboxID), f)
  | Some st =>
      if decide (st = StateDead) then (None, f)
      else (None, fake_emit sandboxID StateDead (set_vms (<[sandboxID := StateDead]>) f))
  end.

Definition fake_Remove (sandboxID : string) (f : FakeVMs) : option error * FakeVMs :=
  let f := mkFakeVMs (fk_vms f) (fk_capacity f) (fk_full f) (fk_events f) (fk_boots f)
             (count_up sandboxID (fk_removeCalls f)) (fk_removed f) in
  match fk_vms f !! sandboxID with
  | None => (Some (wrap_id Sandboxmgr_ErrSandboxNotFound sandboxID), f)
  | Some _ =>
      (None, mkFakeVMs (delete sandboxID (fk_vms f)) (fk_capacity f) (fk_full f) (fk_events f)
               (fk_boots f) (fk_removeCalls f) (fk_removed f ++ [sandboxID]))
  end.

Definition string_le (a b : string) : Prop := String.leb a b = true.

#[export] Instance string_le_dec : RelDecision string_le.
Proof. intros a b. unfold string_le. apply _. Defined.

Definition sortedIDs (f : FakeVMs) : list string :=
  merge_sort string_le (map_to_list (fk_vms f)).*1.

(** [f.vms[id]]: the zero state when it is not there, which does not happen here. *)
Definition fake_Snapshot (f : FakeVMs) : list SandboxInventoryEntry :=
  (fun id => mkEntry id (default STATE_UNSPECIFIED (fk_vms f !! id))) <$> sortedIDs f.

Definition fake_SetCapacity (capacity : Z) (f : FakeVMs) : FakeVMs :=
  mkFakeVMs (fk_vms f) capacity (fk_full f) (fk_events f) (fk_boots f) (fk_removeCalls f) (fk_removed f).

Definition fake_Events (f : FakeVMs) : list StateChange := fk_events f.

(** *** What the scenarios do to the machine *)

Definition Die (sandboxID : string) (emitEvent : bool) (f : FakeVMs) : FakeVMs :=
  match fk_vms f !! sandboxID with
  | None => f
  | Some st =>
      if decide (st = StateDead) then f
      else let f := set_vms (<[sandboxID := StateDead]>) f in
           if emitEvent then fake_emit sandboxID StateDead f else f
  end.

Definition Adopt (sandboxID : string) : FakeVMs -> FakeVMs := set_vms (<[sandboxID := StateRunning]>).
Definition Vanish (sandboxID : string) : FakeVMs -> FakeVMs := set_vms (delete sandboxID).
Definition Wipe : FakeVMs -> FakeVMs := set_vms (fun _ => ∅).

Definition SetFull (full : bool) (f : FakeVMs) : FakeVMs :=
  mkFakeVMs (fk_vms f) (fk_capacity f) full (fk_events f) (fk_boots f) (fk_removeCalls f) (fk_removed f).

Definition newProcess (f : FakeVMs) : FakeVMs :=
  mkFakeVMs (fk_vms f) 0 (fk_full f) [] (fk_boots f) (fk_removeCalls f) (fk_removed f).

Definition states (f : FakeVMs) : gmap string SandboxState := fk_vms f.
Definition Hosted (f : FakeVMs) : list string := sortedIDs f.
Definition Hosts (sandboxID : string) (f : FakeVMs) : bool := bool_decide (is_Some (fk_vms f !! sandboxID)).
Definition fake_State (sandboxID : string) (f : FakeVMs) : option SandboxState := fk_vms f !! sandboxID.
Definition Boots (sandboxID : string) (f : FakeVMs) : Z := default 0 (fk_boots f !! sandboxID).
Definition RemoveCalls (sandboxID : string) (f : FakeVMs) : Z := default 0 (fk_removeCalls f !! sandboxID).
Definition Removed (f : FakeVMs) : list string := fk_removed f.

(** ** The laws hold of it *)

#[export] Instance FakeVMs_manager : SandboxManager FakeVMs := {
  sm_Create := fake_Create;
  sm_Stop := fake_Stop;
  sm_Remove := fake_Remove;
  sm_Snapshot := fake_Snapshot;
  sm_SetCapacity := fake_SetCapacity;
  sm_Events := fake_Events;
  sm_states := states;
}.

Lemma fake_emit_vms id st f : fk_vms (fake_emit id st f) = fk_vms f.
Proof. unfold fake_emit. by destruct (decide _). Qed.

Lemma sortedIDs_perm f : sortedIDs f ≡ₚ (map_to_list (fk_vms f)).*1.
Proof. apply merge_sort_Permutation. Qed.

Lemma fake_snapshot f : fake_Snapshot f ≡ₚ entries_of (fk_vms f).
Proof.
  unfold fake_Snapshot, entries_of. rewrite sortedIDs_perm, <- list_fmap_compose.
  apply Permutation_refl'. apply list_fmap_ext. intros i [id st] Hi. cbn.
  by rewrite (proj1 (elem_of_map_to_list (fk_vms f) id st)) by (by eapply list_elem_of_lookup_2).
Qed.

#[export] Program Instance FakeVMs_laws : SandboxManagerLaws FakeVMs := {
  sm_ok := fun _ => True;
  sm_id := fun _ => True;
  sm_room := fun f => negb (fk_full f) && has_room (fk_capacity f) (fk_vms f);
}.
Next Obligation. intros f _. apply fake_snapshot. Qed.
Next Obligation. intros c f _ _ Hs. cbn in *. unfold fake_Create. rewrite decide_True by done. by eexists. Qed.
Next Obligation.
  intros c f _ _ Hs Hr. cbn in *. unfold fake_Create, states, has_room in *. rewrite Hs, decide_False by by intros [].
  destruct (fk_full f), ((0 <? fk_capacity f) && (fk_capacity f <=? Z.of_nat (size (fk_vms f)))); try done; by eexists.
Qed.
Next Obligation.
  intros c f _ _ Hs Hr. cbn in *. unfold fake_Create, states, has_room in *. rewrite Hs, decide_False by by intros [].
  destruct (fk_full f), ((0 <? fk_capacity f) && (fk_capacity f <=? Z.of_nat (size (fk_vms f)))); try done.
  eexists. split; [done|]. split; [done|]. apply fake_emit_vms.
Qed.
Next Obligation. intros id f _ Hs. cbn in *. unfold fake_Stop, states in *. rewrite Hs. by eexists. Qed.
Next Obligation.
  intros id f _ [st Hs]. cbn in *. unfold fake_Stop, states in *. rewrite Hs. destruct (decide (st = StateDead)) as [->|].
  - eexists. split; [done|]. split; [done|]. by rewrite insert_id.
  - eexists. split; [done|]. split; [done|]. by rewrite fake_emit_vms.
Qed.
Next Obligation. intros id f _ _ Hs. cbn in *. unfold fake_Remove, states in *. cbn. rewrite Hs. by eexists. Qed.
Next Obligation. intros id f _ _ [st Hs]. cbn in *. unfold fake_Remove, states in *. cbn. rewrite Hs. by eexists. Qed.

End Fake.
