(* ===== verification/Solo.v ===== *)
(** * The real manager, one call at a time

    The calls of Manager.v run to their end before the next one starts, the VMs obeying:
    they build, boot, answer that they run, stop, clean up and are reaped.  [crun] executes
    a call with the actors it commands, and is sound for the interleaving of Ownership.v.
    So run, the manager keeps the contract of [SandboxManager] (FakeVMs.v), and answers any
    sequence of calls as FakeVMs does. *)

From Stdlib Require Import ZArith Lia.
From stdpp Require Import base tactics option list gmap strings numbers relations.
From S2P Require Import Prelude GoStd Database EventGRPC Manager Ownership FakeVMs.

Open Scope Z_scope.

#[local] Set Warnings "-clear-no-such-hyp".

(** ** Execution *)

Definition obedient (X : Type) (o : vmop X) : X :=
  match o in vmop X return X with
  | VMAttach | NewVM _ | VMCreate | VMStop | VMCleanup | Reap => None
  | VMState => Ok StateRunning
  end.

(** The state between calls. *)
Record world : Type := mkWorld {
  w_mgr : Manager;
  w_next : nat;
  w_actors : gmap nat actor;
}.

Definition config_of (w : world) (T : gmap nat thread) : config :=
  mkConfig (w_mgr w) (w_next w) (w_actors w) T.

Section Solo.

Context (uuid_Parse : string -> bool) (quote : string -> string) (now : Z).

(** Actor [n] runs [p] to its end, for the call [t]. *)
Fixpoint arun (n : nat) (t : option nat) (p : mprog (bool * option error)) (s : Service)
    (m : Manager) (nx : nat) (A : gmap nat actor)
    : option (bool * option error * Service * Manager * nat) :=
  match p with
  | MRet a => Some (a, s, m, nx)
  | MLock f k =>
      let r := f (env_of (mkConfig m nx (<[n := Busy t s p]> A) ∅)) m in
      arun n t (k r.1) s r.2 (S nx) A
  | MVM _ o k => arun n t (k (obedient _ o)) s m nx A
  | MSelf f k => arun n t (k (f s).1) (f s).2 m nx A
  | MNow k => arun n t (k now) s m nx A
  | MGo _ _ _ | MDo _ _ _ | MListDisk _ => None
  end.

Definition after_reply (exit : bool) (s : Service) : actor := if exit then Exited else Selecting s.

(** Call [t] runs [p] to its end. *)
Fixpoint crun (t : nat) (p : mprog (option error)) (w : world) : option (option error * world) :=
  match p with
  | MRet a => Some (a, w)
  | MLock f k =>
      let r := f (env_of (config_of w ∅)) (w_mgr w) in
      crun t (k r.1) (mkWorld r.2 (S (w_next w)) (w_actors w))
  | MVM _ o k => crun t (k (obedient _ o)) w
  | MListDisk k => crun t (k (Ok [])) w
  | MNow k => crun t (k now) w
  | MGo n s k => crun t k (mkWorld (w_mgr w) (w_next w) (<[n := Selecting s]> (w_actors w)))
  | MDo n c k =>
      match w_actors w !! n with
      | Some (Selecting s) =>
          match arun n (Some t) (handle (s_id s) n c) s (w_mgr w) (w_next w) (w_actors w) with
          | Some (exit, err, s', m', nx') =>
              crun t (k err) (mkWorld m' nx' (<[n := after_reply exit s']> (w_actors w)))
          | None => None
          end
      | Some Exited => crun t (k exited_reply) w
      | _ => None
      end
  | MSelf _ _ => None
  end.

(** The exit of a VM that is watched reaches its actor. *)
Definition exits (n : nat) (w : world) : world :=
  match w_actors w !! n with
  | Some (Selecting s) =>
      if s_exited s
      then match arun n None (mbind (on_exited (s_id s) n) (fun _ => MRet (false, None))) s
                   (w_mgr w) (w_next w) (w_actors w) with
           | Some (_, s', m', nx') => mkWorld m' nx' (<[n := Selecting s']> (w_actors w))
           | None => w
           end
      else w
  | _ => w
  end.

(** ** Soundness *)

Lemma arun_sound n t p s m nx A T a s' m' nx' :
  arun n t p s m nx A = Some (a, s', m', nx') ->
  rtc (mstep uuid_Parse quote) (mkConfig m nx (<[n := Busy t s p]> A) T)
    (mkConfig m' nx' (<[n := Busy t s' (MRet a)]> A) T).
Proof.
  revert s m nx. induction p as [a0|X f k IH|X id o k IH|X f k IH|n0 s0 k IH|n0 c k IH|k IH|k IH];
    intros s m nx; cbn [arun]; intros H; simplify_eq; try done.
  - eapply rtc_l; [eapply (A_lock _ _ _ n); [apply lookup_insert_eq|by split]|]. cbn [c_next c_actors c_threads].
    rewrite insert_insert_eq. by apply IH.
  - eapply rtc_l; [eapply (A_env _ _ _ n); [apply lookup_insert_eq|by eexists]|]. cbn [c_mgr c_next c_actors c_threads].
    rewrite insert_insert_eq. by apply IH.
  - eapply rtc_l; [eapply (A_self _ _ _ n); [apply lookup_insert_eq|by split]|]. cbn [c_mgr c_next c_actors c_threads].
    rewrite insert_insert_eq. by apply IH.
  - eapply rtc_l; [eapply (A_env _ _ _ n); [apply lookup_insert_eq|by eexists]|]. cbn [c_mgr c_next c_actors c_threads].
    rewrite insert_insert_eq. by apply IH.
Qed.

(** The steps of a command that is replied to. *)
Lemma do_sound n t c k s w T exit err s' m' nx' :
  w_actors w !! n = Some (Selecting s) ->
  arun n (Some t) (handle (s_id s) n c) s (w_mgr w) (w_next w) (w_actors w) = Some (exit, err, s', m', nx') ->
  rtc (mstep uuid_Parse quote) (config_of w (<[t := Running (MDo n c k)]> T))
    (config_of (mkWorld m' nx' (<[n := after_reply exit s']> (w_actors w))) (<[t := Running (k err)]> T)).
Proof.
  intros Hn Hr. eapply rtc_l; [eapply (T_send _ _ _ t n); [apply lookup_insert_eq|exact Hn]|].
  cbn [config_of c_mgr c_next c_actors c_threads]. rewrite insert_insert_eq.
  etrans; [by apply arun_sound|].
  eapply rtc_l; [eapply (A_reply _ _ _ n t); [apply lookup_insert_eq|apply lookup_insert_eq]|].
  cbn [c_mgr c_next c_actors c_threads]. rewrite !insert_insert_eq. destruct exit; cbn [after_reply].
  - eapply rtc_l; [eapply (A_close _ _ _ n), lookup_insert_eq|]. cbn [c_mgr c_next c_actors c_threads].
    rewrite insert_insert_eq. eapply rtc_l; [eapply (T_reply _ _ _ t), lookup_insert_eq|].
    cbn [c_mgr c_next c_actors c_threads]. by rewrite insert_insert_eq.
  - eapply rtc_l; [eapply (T_reply _ _ _ t), lookup_insert_eq|].
    cbn [c_mgr c_next c_actors c_threads]. by rewrite insert_insert_eq.
Qed.

Lemma crun_sound t p w T r w' :
  crun t p w = Some (r, w') ->
  rtc (mstep uuid_Parse quote) (config_of w (<[t := Running p]> T)) (config_of w' (<[t := Running (MRet r)]> T)).
Proof.
  revert w. induction p as [a|X f k IH|X id o k IH|X f k IH|n s k IH|n c k IH|k IH|k IH];
    intros w; cbn [crun]; intros H; simplify_eq; try done.
  - eapply rtc_l; [eapply (T_lock _ _ _ t); [apply lookup_insert_eq|by split]|].
    cbn [config_of c_next c_actors c_threads]. rewrite insert_insert_eq. by apply (IH _ (mkWorld _ _ _)).
  - eapply rtc_l; [eapply (T_env _ _ _ t); [apply lookup_insert_eq|by eexists]|].
    cbn [config_of c_mgr c_next c_actors c_threads]. rewrite insert_insert_eq. by apply IH.
  - eapply rtc_l; [eapply (T_go _ _ _ t), lookup_insert_eq|].
    cbn [config_of c_mgr c_next c_actors c_threads]. rewrite insert_insert_eq. by apply (IH (mkWorld _ _ _)).
  - destruct (w_actors w !! n) as [a|] eqn:Hn; [|done]. destruct a; try done.
    + destruct (arun _ _ _ _ _ _ _) as [[[[[exit err] s'] m'] nx']|] eqn:Ha; [|done].
      etrans; [by eapply do_sound|by apply IH].
    + eapply rtc_l; [eapply (T_exited _ _ _ t n); [apply lookup_insert_eq|exact Hn]|].
      cbn [config_of c_mgr c_next c_actors c_threads]. rewrite insert_insert_eq. by apply IH.
  - eapply rtc_l; [eapply (T_env _ _ _ t); [apply lookup_insert_eq|by eexists]|].
    cbn [config_of c_mgr c_next c_actors c_threads]. rewrite insert_insert_eq. by apply IH.
  - eapply rtc_l; [eapply (T_env _ _ _ t); [apply lookup_insert_eq|by eexists]|].
    cbn [config_of c_mgr c_next c_actors c_threads]. rewrite insert_insert_eq. by apply IH.
Qed.

Lemma exits_sound n w T : rtc (mstep uuid_Parse quote) (config_of w T) (config_of (exits n w) T).
Proof.
  unfold exits. destruct (w_actors w !! n) as [[s| | | |]|] eqn:Hn; try done. destruct (s_exited s) eqn:He; [|done].
  destruct (arun _ _ _ _ _ _ _) as [[[[[exit err] s'] m'] nx']|] eqn:Ha; [|done].
  eapply rtc_l; [eapply (A_event _ _ _ n); [exact Hn|by apply event_exited]|].
  cbn [config_of c_mgr c_next c_actors c_threads]. etrans; [by apply arun_sound|].
  eapply rtc_l; [eapply (A_event_done _ _ _ n), lookup_insert_eq|]. cbn [c_mgr c_next c_actors c_threads].
  by rewrite insert_insert_eq.
Qed.

(** ** The calls *)

Record solo : Type := mkSolo {
  so_world : world;
  so_calls : nat;
}.

Definition call_solo (r : request) (w : solo) : option error * solo :=
  match crun (so_calls w) (call uuid_Parse quote r) (so_world w) with
  | Some (err, w') => (err, mkSolo w' (S (so_calls w)))
  | None => (None, w)
  end.

Definition solo_Create (c_in : CreateInput) : solo -> option error * solo := call_solo (ReqCreate c_in).
Definition solo_Remove (id : string) : solo -> option error * solo := call_solo (ReqRemove id).

(** The VM exits once it is stopped. *)
Definition solo_Stop (id : string) (w : solo) : option error * solo :=
  let n := en_svc <$> mg_services (w_mgr (so_world w)) !! id in
  let '(err, w') := call_solo (ReqStop id) w in
  match n with
  | Some n => (err, mkSolo (exits n (so_world w')) (so_calls w'))
  | None => (err, w')
  end.

Definition solo_SetCapacity (capacity : Z) (w : solo) : solo := (call_solo (ReqSetCapacity capacity) w).2.

#[export] Instance solo_manager : SandboxManager solo := {
  sm_Create := solo_Create;
  sm_Stop := solo_Stop;
  sm_Remove := solo_Remove;
  sm_Snapshot := fun w => Snapshot (w_mgr (so_world w));
  sm_SetCapacity := solo_SetCapacity;
  sm_Events := fun w => mg_events (w_mgr (so_world w));
  sm_states := fun w => en_state <$> mg_services (w_mgr (so_world w));
}.

(** ** Between calls *)

(** The actor of a sandbox waits for a command; its VM is built and, until it is dead,
    watched.  Or the actor is gone and the sandbox dead. *)
Definition entry_rests (A : gmap nat actor) (id : string) (e : entry) : Prop :=
  A !! en_svc e = Some (Selecting (mkSvc id true (en_state e) (negb (bool_decide (en_state e = StateDead)))))
  \/ (A !! en_svc e = Some Exited /\ en_state e = StateDead).

Record at_rest (w : world) : Prop := {
  ar_deleting : mg_deleting (w_mgr w) = ∅;
  ar_fresh : forall n, (w_next w <= n)%nat -> w_actors w !! n = None;
  ar_entry : forall id e, mg_services (w_mgr w) !! id = Some e ->
    IsSandboxID uuid_Parse id = true /\ entry_rests (w_actors w) id e;
}.

(** What FakeVMs keeps of it. *)
Definition view (f : FakeVMs) : gmap string SandboxState * Z * bool * list StateChange :=
  (fk_vms f, fk_capacity f, fk_full f, fk_events f).

Definition abs (m : Manager) : FakeVMs :=
  mkFakeVMs (en_state <$> mg_services m) (mg_capacity m) false (mg_events m) ∅ ∅ [].

Lemma view_emit id st f g :
  view f = view g -> view (fake_emit now id st f) = view (fake_emit now id st g).
Proof. unfold view, fake_emit. intros [= E1 E2 E3 E4]. rewrite E4. by destruct (decide _); cbn; congruence. Qed.

Lemma abs_emit id st m : view (abs (emit_send id st now m)) = view (fake_emit now id st (abs m)).
Proof. unfold emit_send, fake_emit. cbn. by destruct (decide _). Qed.

Lemma emit_services id st m : mg_services (emit_send id st now m) = mg_services m.
Proof. unfold emit_send. by destruct (decide _). Qed.

Lemma emit_deleting id st m : mg_deleting (emit_send id st now m) = mg_deleting m.
Proof. unfold emit_send. by destruct (decide _). Qed.

(** A sandbox at rest does not mind what becomes of another's actor. *)
Lemma rests_other A n a id e :
  entry_rests A id e -> (forall s, A !! n = Some (Selecting s) -> s_id s <> id) -> A !! n <> Some Exited ->
  entry_rests (<[n := a]> A) id e.
Proof.
  unfold entry_rests. intros H Hs He. destruct (decide (n = en_svc e)) as [->|N].
  - destruct H as [H|[H _]]; [|done]. by destruct (Hs _ H).
  - by rewrite lookup_insert_ne.
Qed.

(** The world after a call that leaves one sandbox with state [st], its actor waiting. *)
Lemma rest_track w m' nx' n id st :
  at_rest w -> mg_deleting m' = ∅ -> (w_next w <= nx')%nat -> (n < nx')%nat -> IsSandboxID uuid_Parse id = true ->
  mg_services m' = <[id := mkTracked n st]> (mg_services (w_mgr w)) ->
  (forall s, w_actors w !! n = Some (Selecting s) -> s_id s = id) -> w_actors w !! n <> Some Exited ->
  at_rest (mkWorld m' nx' (<[n := Selecting (mkSvc id true st (negb (bool_decide (st = StateDead))))]> (w_actors w))).
Proof.
  intros [Hd Hf He] Hd' Hnx Hn Hid Hs Ha Hx. split; cbn [w_mgr w_next w_actors]; [done|..].
  - intros k Hk. rewrite lookup_insert_ne by lia. apply Hf. lia.
  - intros i e. rewrite Hs. destruct (decide (i = id)) as [->|N].
    + rewrite lookup_insert_eq. intros [= <-]. split; [done|]. left. by rewrite lookup_insert_eq.
    + rewrite lookup_insert_ne by done. intros Hi. destruct (He i e Hi). split; [done|].
      apply rests_other; [done| |done]. intros s Hs'. rewrite (Ha s Hs'). done.
Qed.

Lemma rest_lock w nx' : at_rest w -> (w_next w <= nx')%nat -> at_rest (mkWorld (w_mgr w) nx' (w_actors w)).
Proof. intros [Hd Hf He] Hn. split; cbn; [done| |done]. intros n ?. apply Hf. lia. Qed.

Lemma fresh_actor w n : at_rest w -> (w_next w <= n)%nat ->
  (forall s, w_actors w !! n = Some (Selecting s) -> False) /\ w_actors w !! n <> Some Exited.
Proof. intros R Hn. by rewrite (ar_fresh _ R). Qed.

(** The actor of a new sandbox, until it waits for the next command. *)
Lemma boot_actor t w id c_in :
  let m := set_services (<[id := mkTracked (w_next w) StateStarting]>) (w_mgr w) in
  exists m' nx',
    arun (w_next w) (Some t) (handle id (w_next w) (cmdCreate c_in)) (newService id) m (S (w_next w))
      (<[w_next w := Selecting (newService id)]> (w_actors w))
    = Some ((false, None), mkSvc id true StateRunning true, m', nx')
    /\ (S (w_next w) <= nx')%nat /\ mg_deleting m' = mg_deleting (w_mgr w)
    /\ mg_services m' = <[id := mkTracked (w_next w) StateRunning]> (mg_services (w_mgr w))
    /\ view (abs m') = view (fake_emit now id StateRunning (set_vms (<[id := StateRunning]>) (abs (w_mgr w)))).
Proof.
  intros m. unfold m. cbn. rewrite (bool_decide_eq_false_2 (StateStarting = StateDead)) by done. cbn.
  rewrite (decide_False (P := StateRunning = StateStarting)) by done. cbn.
  unfold report_section. cbn. rewrite lookup_insert_eq. cbn. rewrite decide_True by done. cbn.
  do 2 eexists. split; [done|]. split; [lia|]. rewrite emit_deleting, emit_services. split; [done|].
  cbn. rewrite insert_insert_eq. split; [done|].
  rewrite abs_emit. apply view_emit. cbn. unfold view. cbn. by rewrite !fmap_insert, insert_insert_eq.
Qed.

Lemma create_spec t w c :
  at_rest w -> IsSandboxID uuid_Parse (ci_ID c) = true ->
  exists w', crun t (call uuid_Parse quote (ReqCreate c)) w = Some ((fake_Create now c (abs (w_mgr w))).1, w')
    /\ at_rest w' /\ view (abs (w_mgr w')) = view (fake_Create now c (abs (w_mgr w))).2.
Proof.
  intros R Hid. pose proof R as [Hd Hf He]. unfold call, Create, CheckSandboxID. rewrite Hid. cbn [crun].
  unfold create_section, fake_Create. cbn [abs fk_vms fk_capacity fk_full fk_events orb].
  rewrite Hd, size_empty, Nat.add_0_r, lookup_fmap, map_size_fmap.
  destruct (mg_services (w_mgr w) !! ci_ID c) as [e|] eqn:Hs; cbn [fmap option_fmap option_map].
  { rewrite !decide_True by done. eexists. split; [done|]. split; [|done]. apply rest_lock; [done|lia]. }
  rewrite !(decide_False (P := is_Some None)) by by intros [].
  rewrite (decide_False (P := _ ∈ _)) by set_solver.
  destruct ((0 <? _) && _); cbn [fst snd crun].
  { eexists. split; [done|]. split; [|done]. apply rest_lock; [done|lia]. }
  cbn [w_actors w_mgr w_next env_of config_of le_fresh c_next]. rewrite lookup_insert_eq. cbn [s_id newService].
  destruct (boot_actor t w (ci_ID c) c) as (m' & nx' & -> & Hnx & Hdel & Hsv & Hv).
  cbn [crun create_after]. eexists. split; [done|]. split; [|etrans; [exact Hv|by apply view_emit]].
  cbn [after_reply]. rewrite insert_insert_eq. destruct (fresh_actor w (w_next w) R) as [H1 H2]; [lia|].
  apply (rest_track w m' nx' (w_next w) (ci_ID c) StateRunning); try done; [by rewrite Hdel|lia|].
  intros s Hsel. by destruct (H1 s Hsel).
Qed.

(** The exit of a VM marks its sandbox dead. *)
Lemma exits_spec w n id st :
  w_actors w !! n = Some (Selecting (mkSvc id true st true)) -> st <> StateDead ->
  mg_services (w_mgr w) !! id = Some (mkTracked n st) ->
  exists m' nx',
    exits n w = mkWorld m' nx' (<[n := Selecting (mkSvc id true StateDead false)]> (w_actors w))
    /\ (w_next w <= nx')%nat /\ mg_deleting m' = mg_deleting (w_mgr w)
    /\ mg_services m' = <[id := mkTracked n StateDead]> (mg_services (w_mgr w))
    /\ view (abs m') = view (fake_emit now id StateDead (set_vms (<[id := StateDead]>) (abs (w_mgr w)))).
Proof.
  intros Hn Hst Hs. unfold exits. rewrite Hn. cbn. rewrite (decide_False (P := StateDead = st)) by congruence. cbn.
  unfold report_section. rewrite Hs. cbn. rewrite decide_True by done. cbn.
  do 2 eexists. split; [done|]. split; [lia|]. rewrite emit_deleting, emit_services. split; [done|]. split; [done|].
  rewrite abs_emit. apply view_emit. unfold view. cbn. by rewrite fmap_insert.
Qed.

Lemma stop_spec t w id :
  at_rest w ->
  exists w', crun t (call uuid_Parse quote (ReqStop id)) w = Some ((fake_Stop now id (abs (w_mgr w))).1, w')
    /\ let w2 := match mg_services (w_mgr w) !! id with None => w' | Some e => exits (en_svc e) w' end in
       at_rest w2 /\ view (abs (w_mgr w2)) = view (fake_Stop now id (abs (w_mgr w))).2.
Proof.
  intros R. pose proof R as [Hd Hf He]. unfold call, Stop. cbn [crun]. unfold fake_Stop.
  cbn [fst snd abs fk_vms]. rewrite lookup_fmap.
  destruct (mg_services (w_mgr w) !! id) as [e|] eqn:Hs; cbn [fmap option_fmap option_map crun fst snd]; cycle 1.
  { eexists. split; [done|]. split; [|done]. apply rest_lock; [done|lia]. }
  destruct e as [n st]. cbn [en_svc en_state] in *.
  destruct (He id _ Hs) as [Hid [Ha|[Ha Hst]]]; cbn [w_actors w_mgr w_next en_svc en_state] in *; rewrite Ha.
  - cbn. rewrite insert_id by done. destruct (decide (st = StateDead)) as [->|Hst]; cbn.
    + eexists. split; [done|]. unfold exits. cbn. rewrite Ha. cbn. split; [|done]. apply rest_lock; [done|lia].
    + eexists. split; [done|]. rewrite bool_decide_eq_false_2 in Ha by done.
      destruct (exits_spec (mkWorld (w_mgr w) (S (w_next w)) (w_actors w)) n id st Ha Hst Hs)
        as (m' & nx' & -> & Hnx & Hdel & Hsv & Hv). split; [|exact Hv]. cbn in Hnx.
      apply (rest_track w m' nx' n id StateDead); try done; [by rewrite Hdel|lia| |rewrite Ha; by intros s [= <-]|by rewrite Ha].
      destruct (decide (n < w_next w)%nat); [lia|]. rewrite Hf in Ha by lia. done.
  - subst st. rewrite decide_True by done. cbn. eexists. split; [done|]. unfold exits. cbn. rewrite Ha.
    split; [|done]. apply rest_lock; [done|lia].
Qed.

(** The world after a sandbox is dropped, its actor gone. *)
Lemma rest_drop w m' nx' n id :
  at_rest w -> mg_deleting m' = ∅ -> (w_next w <= nx')%nat ->
  mg_services m' = delete id (mg_services (w_mgr w)) ->
  (exists st, entry_rests (w_actors w) id (mkTracked n st)) ->
  at_rest (mkWorld m' nx' (<[n := Exited]> (w_actors w))).
Proof.
  intros [Hd Hf He] Hd' Hnx Hs [st Hr]. split; cbn [w_mgr w_next w_actors]; [done|..].
  - intros k Hk. rewrite lookup_insert_ne; [apply Hf; lia|]. intros <-.
    destruct Hr as [Hr|[Hr _]]; cbn in Hr; rewrite Hf in Hr by lia; done.
  - intros i e. rewrite Hs. intros [N Hi]%lookup_delete_Some. destruct (He i e Hi) as [Hid Hre]. split; [done|].
    destruct Hr as [Hr|[Hr _]]; cbn in Hr.
    + apply rests_other; [done| |by rewrite Hr]. rewrite Hr. by intros s [= <-].
    + by rewrite insert_id.
Qed.

Lemma remove_spec t w id :
  at_rest w -> IsSandboxID uuid_Parse id = true ->
  exists w', crun t (call uuid_Parse quote (ReqRemove id)) w = Some ((fake_Remove id (abs (w_mgr w))).1, w')
    /\ at_rest w' /\ view (abs (w_mgr w')) = view (fake_Remove id (abs (w_mgr w))).2.
Proof.
  intros R Hid. pose proof R as [Hd Hf He]. unfold call, Remove, CheckSandboxID. rewrite Hid. cbn [crun].
  unfold fake_Remove, remove_section. cbn [abs fk_vms]. rewrite Hd, decide_False by set_solver. rewrite lookup_fmap.
  destruct (mg_services (w_mgr w) !! id) as [[n st]|] eqn:Hs; cbn [fmap option_fmap option_map fst snd crun]; cycle 1.
  { eexists. split; [done|]. split; [|done]. apply rest_lock; [done|lia]. }
  destruct (He id _ Hs) as [_ Hr]. cbn [en_svc w_actors w_mgr w_next].
  assert (exists nx', (w_next w <= nx')%nat
    /\ crun t (MDo n cmdRemove (remove_after id))
         (mkWorld (set_deleting (union {[id]}) (set_services (delete id) (w_mgr w))) (S (w_next w)) (w_actors w))
       = Some (None, mkWorld (release id (set_deleting (union {[id]}) (set_services (delete id) (w_mgr w)))) nx'
                       (<[n := Exited]> (w_actors w)))) as (nx' & Hnx & Hrun).
  { destruct Hr as [Ha|[Ha _]]; cbn [en_svc en_state] in Ha; cbn [crun w_actors]; rewrite Ha; cbn.
    - eexists. split; [|done]. lia.
    - rewrite insert_id by done. exists (S (S (w_next w))). split; [lia|done]. }
  cbn [crun w_actors w_mgr w_next] in Hrun. rewrite Hrun. eexists. split; [done|]. split.
  - eapply rest_drop; [done| |done|done|by eexists]. cbn. rewrite Hd. set_solver.
  - unfold view. cbn. by rewrite fmap_delete.
Qed.

(** ** The refinement *)

(** The manager and FakeVMs show the same. *)
Definition agrees (w : solo) (f : FakeVMs) : Prop :=
  at_rest (so_world w) /\ view (abs (w_mgr (so_world w))) = view f.

End Solo.

(** The calls of the interface, and their answers. *)
Inductive sm_call : Type :=
| SMCreate (c_in : CreateInput)
| SMStop (id : string)
| SMRemove (id : string)
| SMSetCapacity (capacity : Z).

Definition sm_do {M} `{!SandboxManager M} (c : sm_call) (m : M) : option error * M :=
  match c with
  | SMCreate c_in => sm_Create c_in m
  | SMStop id => sm_Stop id m
  | SMRemove id => sm_Remove id m
  | SMSetCapacity z => (None, sm_SetCapacity z m)
  end.

Fixpoint sm_run {M} `{!SandboxManager M} (cs : list sm_call) (m : M) : list (option error) * M :=
  match cs with
  | [] => ([], m)
  | c :: cs => let '(r, m') := sm_do c m in let '(rs, m2) := sm_run cs m' in (r :: rs, m2)
  end.

(** The ids of a call the worker lets through. *)
Definition call_valid (uuid_Parse : string -> bool) (c : sm_call) : Prop :=
  match c with
  | SMCreate c_in => IsSandboxID uuid_Parse (ci_ID c_in) = true
  | SMRemove id => IsSandboxID uuid_Parse id = true
  | SMStop _ | SMSetCapacity _ => True
  end.

Section Refinement.

Context (uuid_Parse : string -> bool) (quote : string -> string) (now : Z).

#[local] Existing Instance FakeVMs_manager.
#[local] Existing Instance solo_manager.

Abbreviation real_do := (@sm_do solo (solo_manager uuid_Parse quote now)).
Abbreviation fake_do := (@sm_do FakeVMs (FakeVMs_manager now)).

(** FakeVMs answers by what [view] shows. *)
Lemma fake_do_view c f g :
  view f = view g -> (fake_do c f).1 = (fake_do c g).1 /\ view (fake_do c f).2 = view (fake_do c g).2.
Proof.
  intros E. pose proof E as E'. unfold view in E'. injection E' as E1 E2 E3 E4. destruct c as [c|id|id|z]; cbn.
  - unfold fake_Create. rewrite E1, E2, E3. destruct (decide _); [done|]. destruct (_ || _); [done|].
    split; [done|]. apply view_emit. unfold view. cbn. by rewrite ?E1, ?E4.
  - unfold fake_Stop. rewrite E1. destruct (fk_vms g !! id) as [st|]; [|done]. destruct (decide _); [done|].
    split; [done|]. apply view_emit. unfold view. cbn. by rewrite ?E1, ?E2, ?E3, ?E4.
  - unfold fake_Remove. cbn. rewrite E1. destruct (fk_vms g !! id); unfold view; cbn; by rewrite ?E1, ?E2, ?E3, ?E4.
  - unfold view. cbn. by rewrite ?E1, ?E3, ?E4.
Qed.

(** One call of the real manager: its answer, and the state after it. *)
Lemma real_do_spec c w :
  at_rest uuid_Parse (so_world w) -> call_valid uuid_Parse c ->
  let f := abs (w_mgr (so_world w)) in
  (real_do c w).1 = (fake_do c f).1
  /\ at_rest uuid_Parse (so_world (real_do c w).2)
  /\ view (abs (w_mgr (so_world (real_do c w).2))) = view (fake_do c f).2
  /\ so_calls (real_do c w).2 = S (so_calls w).
Proof.
  intros R Hc f. destruct c as [c|id|id|z]; cbn in Hc |- *.
  - unfold solo_Create, call_solo.
    by destruct (create_spec uuid_Parse quote now (so_calls w) (so_world w) c R Hc) as (w' & -> & ? & ?).
  - unfold solo_Stop, call_solo.
    destruct (stop_spec uuid_Parse quote now (so_calls w) (so_world w) id R) as (w' & -> & H).
    destruct (mg_services (w_mgr (so_world w)) !! id); destruct H; by split_and!.
  - unfold solo_Remove, call_solo.
    by destruct (remove_spec uuid_Parse quote now (so_calls w) (so_world w) id R Hc) as (w' & -> & ? & ?).
  - split; [done|]. split; [|done]. destruct R as [Hd Hf He]. split; cbn; [done| |done]. intros n Hn. apply Hf. lia.
Qed.

(** Every call is a run of the interleaving. *)
Lemma call_solo_steps r w T :
  T !! so_calls w = None ->
  exists T', rtc (mstep uuid_Parse quote) (config_of (so_world w) T)
               (config_of (so_world (call_solo uuid_Parse quote now r w).2) T')
    /\ forall t, t <> so_calls w -> T' !! t = T !! t.
Proof.
  intros Ht. unfold call_solo. destruct (crun _ _ _ _) as [[err w']|] eqn:E; [|by exists T].
  eexists. split; [|by intros t N; apply lookup_insert_ne].
  eapply rtc_l; [by apply (T_spawn _ _ (config_of (so_world w) T) (so_calls w) r)|]. by eapply crun_sound.
Qed.

Lemma real_do_steps c w T :
  T !! so_calls w = None ->
  exists T', rtc (mstep uuid_Parse quote) (config_of (so_world w) T) (config_of (so_world (real_do c w).2) T')
    /\ forall t, t <> so_calls w -> T' !! t = T !! t.
Proof.
  intros Ht. destruct c as [c|id|id|z];
    [by apply (call_solo_steps (ReqCreate c))| |by apply (call_solo_steps (ReqRemove id))|by apply (call_solo_steps (ReqSetCapacity z))].
  cbn [sm_do sm_Stop solo_manager]. unfold solo_Stop. destruct (call_solo_steps (ReqStop id) w T Ht) as (T' & Hr & HT).
  destruct (call_solo _ _ _ _ w) as [err w'] eqn:E. cbn in Hr. exists T'. split; [|done].
  destruct (en_svc <$> _); cbn; [|done]. etrans; [exact Hr|]. apply exits_sound.
Qed.

(** A law of FakeVMs about one call is one of the real manager. *)
Lemma law_transfer c w r (P : gmap string SandboxState -> Prop) :
  at_rest uuid_Parse (so_world w) -> call_valid uuid_Parse c ->
  (exists f', fake_do c (abs (w_mgr (so_world w))) = (r, f') /\ True /\ P (fk_vms f')) ->
  exists w', real_do c w = (r, w') /\ at_rest uuid_Parse (so_world w')
    /\ P (en_state <$> mg_services (w_mgr (so_world w'))).
Proof.
  intros R Hc (f' & Hf & _ & HP). destruct (real_do_spec c w R Hc) as (H1 & H2 & H3 & _).
  rewrite Hf in H1, H3. destruct (real_do c w) as [r' w']. cbn [fst snd] in *. subst r'. exists w'.
  split; [done|]. split; [done|]. unfold view in H3. injection H3 as H3 _ _ _. by rewrite H3.
Qed.

(** The real manager keeps the contract. *)
#[export] Program Instance solo_laws : @SandboxManagerLaws solo (solo_manager uuid_Parse quote now) := {
  sm_ok := fun w => at_rest uuid_Parse (so_world w);
  sm_id := fun id => IsSandboxID uuid_Parse id = true;
  sm_room := fun w => has_room (mg_capacity (w_mgr (so_world w))) (en_state <$> mg_services (w_mgr (so_world w)));
}.
Next Obligation.
  intros w _. cbn. unfold Snapshot, entries_of. rewrite map_to_list_fmap, <- list_fmap_compose.
  apply Permutation_refl', list_fmap_ext. by intros i [id e] _.
Qed.
Next Obligation.
  intros c w R Hc Hs. apply (law_transfer (SMCreate c) w None (.= _)); [done|done|].
  by apply (@sm_create_again _ _ (FakeVMs_laws now) c (abs (w_mgr (so_world w)))).
Qed.
Next Obligation.
  intros c w R Hc Hs Hr. apply (law_transfer (SMCreate c) w _ (.= _)); [done|done|].
  by apply (@sm_create_full _ _ (FakeVMs_laws now) c (abs (w_mgr (so_world w)))).
Qed.
Next Obligation.
  intros c w R Hc Hs Hr. apply (law_transfer (SMCreate c) w None (.= _)); [done|done|].
  by apply (@sm_create_boots _ _ (FakeVMs_laws now) c (abs (w_mgr (so_world w)))).
Qed.
Next Obligation.
  intros id w R Hs. apply (law_transfer (SMStop id) w _ (.= _)); [done|done|].
  by apply (@sm_stop_unknown _ _ (FakeVMs_laws now) id (abs (w_mgr (so_world w)))).
Qed.
Next Obligation.
  intros id w R Hs. apply (law_transfer (SMStop id) w None (.= _)); [done|done|].
  by apply (@sm_stop_kills _ _ (FakeVMs_laws now) id (abs (w_mgr (so_world w)))).
Qed.
Next Obligation.
  intros id w R Hid Hs. apply (law_transfer (SMRemove id) w _ (.= _)); [done|done|].
  by apply (@sm_remove_unknown _ _ (FakeVMs_laws now) id (abs (w_mgr (so_world w)))).
Qed.
Next Obligation.
  intros id w R Hid Hs. apply (law_transfer (SMRemove id) w None (.= _)); [done|done|].
  by apply (@sm_remove_drops _ _ (FakeVMs_laws now) id (abs (w_mgr (so_world w)))).
Qed.

Lemma agrees_run cs w f :
  agrees uuid_Parse w f -> Forall (call_valid uuid_Parse) cs ->
  let real := @sm_run solo (solo_manager uuid_Parse quote now) cs w in
  let fake := @sm_run FakeVMs (FakeVMs_manager now) cs f in
  real.1 = fake.1 /\ agrees uuid_Parse real.2 fake.2.
Proof.
  intros HA Hcs. revert w f HA. induction Hcs as [|c cs Hc _ IH]; intros w f [R Hv]; [done|]. cbn [sm_run].
  destruct (real_do_spec c w R Hc) as (H1 & H2 & H3 & _). destruct (fake_do_view c _ _ Hv) as [V1 V2].
  destruct (real_do c w) as [r w'], (fake_do c f) as [r' f']. cbn [fst snd] in *.
  destruct (IH w' f') as [I1 I2]; [split; [done|congruence]|].
  destruct (@sm_run solo _ cs w'), (@sm_run FakeVMs _ cs f'). cbn in *. split; [congruence|done].
Qed.

Lemma sm_run_steps cs w T :
  Forall (call_valid uuid_Parse) cs -> at_rest uuid_Parse (so_world w) ->
  (forall t, (so_calls w <= t)%nat -> T !! t = None) ->
  exists T', rtc (mstep uuid_Parse quote) (config_of (so_world w) T)
               (config_of (so_world (@sm_run solo (solo_manager uuid_Parse quote now) cs w).2) T').
Proof.
  intros Hcs. revert w T. induction Hcs as [|c cs Hc _ IH]; intros w T R HT; [by exists T|]. cbn [sm_run].
  destruct (real_do_spec c w R Hc) as (_ & H2 & _ & H4).
  destruct (real_do_steps c w T) as (T1 & Hr1 & HT1); [by apply HT|].
  destruct (real_do c w) as [r w']. cbn [fst snd] in *.
  destruct (IH w' T1 H2) as [T' Hr2].
  { intros t Ht. rewrite HT1; [apply HT|]; lia. }
  exists T'. destruct (@sm_run solo _ cs w'). cbn in *. by etrans.
Qed.

End Refinement.

(** C15: the manager refines the contract its clients are tested against.  As long as calls
    run one at a time and the VMs obey, any sequence of creations, stops, removals and
    capacity changes gets from the real manager, its actors included, the answers FakeVMs
    gives: creating again changes nothing, capacity 0 is no limit, dead sandboxes count and
    stay until removed, removal alone drops one.  Afterwards both list the same sandboxes
    in the same states and have emitted the same events; and the run of the real manager is
    one of the interleavings of its goroutines. *)
Theorem manager_refines_contract uuid_Parse quote now cs w f :
  agrees uuid_Parse w f -> Forall (call_valid uuid_Parse) cs ->
  let real := @sm_run solo (solo_manager uuid_Parse quote now) cs w in
  let fake := @sm_run FakeVMs (FakeVMs_manager now) cs f in
  real.1 = fake.1
  /\ Snapshot (w_mgr (so_world real.2)) ≡ₚ fake_Snapshot fake.2
  /\ mg_events (w_mgr (so_world real.2)) = fake_Events fake.2
  /\ (forall T, (forall t, (so_calls w <= t)%nat -> T !! t = None) ->
       exists T', rtc (mstep uuid_Parse quote) (config_of (so_world w) T) (config_of (so_world real.2) T')).
Proof.
  intros HA Hcs real fake. destruct (agrees_run uuid_Parse quote now cs w f HA Hcs) as [Hr [R Hv]].
  fold real fake in Hr, R, Hv. split; [done|]. unfold view in Hv. injection Hv as H1 _ _ H4. split; [|split].
  - rewrite (@sm_snapshot _ _ (solo_laws uuid_Parse quote now) real.2 R). cbn. cbn in H1. rewrite H1.
    symmetry. apply fake_snapshot.
  - exact H4.
  - intros T HT. apply sm_run_steps; [done|apply HA|done].
Qed.

(** An empty manager and an empty machine: two creations at capacity 1, a stop, a removal. *)
Lemma manager_refines_contract_witness :
  let w := mkSolo (mkWorld newManager 0 ∅) 0 in
  let cs := [SMSetCapacity 1; SMCreate (mkCreateInput "00000000-0000-0000-0000-000000000001" 1 256);
             SMCreate (mkCreateInput "00000000-0000-0000-0000-000000000002" 1 256);
             SMStop "00000000-0000-0000-0000-000000000001"; SMRemove "00000000-0000-0000-0000-000000000001"] in
  (@sm_run solo (solo_manager (fun _ => true) id 5) cs w).1
  = [None; None; Some (Sentinel Sandboxmgr_ErrAtCapacity); None; None].
Proof.
  intros w cs. rewrite (proj1 (manager_refines_contract (fun _ => true) id 5 cs w NewFakeVMs
                          ltac:(split; [split; [reflexivity|reflexivity|discriminate]|reflexivity])
                          ltac:(repeat constructor))).
  vm_compute. reflexivity.
Defined.
