(* ===== verification/Heartbeat.v ===== *)
(** * The heartbeat of a worker

    internal/packages/worker: heartbeat.go (the loop, its streak of refusals and its
    backoff), monitoring.go (the probes and [UpdateWorker]), worker_service.go and
    event_reporter.go.

    The machine is an input: the contents of /proc files, the network addresses, the
    number of CPUs, the environment, the clock.  The orchestrator is a state [O] with its
    two calls, so that [UpdateWorker] runs against any orchestrator, the modelled one
    included.  [ParseFloat] is strconv.ParseFloat on 64 bits. *)

From Stdlib Require Import ZArith Lia SpecFloat Ascii.
From stdpp Require Import base tactics option list gmap strings numbers sorting.
From S2P Require Import Prelude GoStd Database Floats WorkerRepo EventGRPC Capacity Manager.

Open Scope Z_scope.

(** ** heartbeat.go *)

Definition defaultHeartbeatInterval : Z := 5 * Second.
Definition heartbeatRefusedBackoffMax : Z := Minute.
Definition heartbeatRefusedLogEvery : Z := 5 * Minute.
Definition heartbeatRefusedGiveUp : Z := 10 * Minute.

(** [status.FromError(err)] succeeds: err is nil (code OK) or carries a status. *)
Fixpoint has_status (e : error) : bool :=
  match e with
  | StatusError _ _ => true
  | Wrap _ e' | WrapSuf e' _ | JobCancel e' => has_status e'
  | Sentinel _ | NewError _ | DriverError _ => false
  end.

Definition refusedForGood (err : option error) : bool :=
  match err with
  | None => false
  | Some e =>
      has_status e
      && match status_Code e with
         | InvalidArgument | Unimplemented | PermissionDenied | Unauthenticated => true
         | _ => false
         end
  end.

Record refusals : Type := mkRefusals {
  rf_count : Z;
  rf_since : Z;
  rf_lastLog : Z;
}.

Definition zero_refusals : refusals := mkRefusals 0 zero_time zero_time.

(** [(streak, logIt, giveUp)]. *)
Definition record (r : refusals) (now : Z) : refusals * bool * bool :=
  let since := if rf_count r =? 0 then now else rf_since r in
  let count := rf_count r + 1 in
  let logIt := (count =? 1) || (heartbeatRefusedLogEvery <=? time_Sub now (rf_lastLog r)) in
  let lastLog := if logIt then now else rf_lastLog r in
  (mkRefusals count since lastLog, logIt, heartbeatRefusedGiveUp <=? time_Sub now since).

(** The doubling loop, [n] turns left. *)
Fixpoint wait_doubling (n : nat) (d : Z) : Z :=
  match n with
  | O => d
  | S n => if d <? heartbeatRefusedBackoffMax then wait_doubling n (int64 (d * 2)) else d
  end.

Definition wait (r : refusals) (interval : Z) : Z :=
  Z.max (Z.min (wait_doubling (Z.to_nat (rf_count r)) interval) heartbeatRefusedBackoffMax) interval.

(** [d.Round(time.Second)] for a duration that is not negative. *)
Definition Round_second (d : Z) : Z :=
  let r := d mod Second in
  if r + r <? Second then d - r
  else if d + Second - r <=? max_int64 then d + Second - r else max_int64.

(** [st.Message()] of the status [status.FromError] finds: a wrapped status carries the
    text of the whole error. *)
Definition status_Message (third : error -> string -> string) (e : error) : string :=
  match e with
  | StatusError _ m => m
  | _ => Error third e
  end.

Section Loop.

Context (third : error -> string -> string).

(** One turn of [RunHeartbeat]: the result of a heartbeat and the time it came back. *)
Definition heartbeat_turn (streak : refusals) (err : option error) (now : Z)
    : refusals + error :=
  match err with
  | None => inl zero_refusals
  | Some e =>
      if refusedForGood err
      then let '(streak, _, giveUp) := record streak now in
           let refusedFor := Round_second (time_Sub now (rf_since streak)) in
           if giveUp
           then inr (WrapSuf (Sentinel Worker_ErrHeartbeatRefused)
                       (" for " +:+ Duration_String refusedFor +:+ ": "
                          +:+ status_Message third e))
           else inl streak
      else inl streak
  end.

(** The turns one after the other, with the waits between them; [inl]: still running. *)
Fixpoint heartbeat_turns (interval : Z) (streak : refusals) (turns : list (option error * Z))
    : (refusals + error) * list Z :=
  let interval := if interval <=? 0 then defaultHeartbeatInterval else interval in
  match turns with
  | [] => (inl streak, [])
  | (err, now) :: rest =>
      match heartbeat_turn streak err now with
      | inr e => (inr e, [])
      | inl streak => let '(out, ws) := heartbeat_turns interval streak rest in
                      (out, wait streak interval :: ws)
      end
  end.

(** The case the [select] of the loop takes: the context is done, or the timer fired, and
    then the heartbeat's error and the time it came back. *)
Inductive hb_case : Type :=
| CtxDone
| TimerFired (err : option error) (now : Z).

(** Still in the loop, or returned. *)
Inductive hb_out : Type :=
| HbLooping (streak : refusals)
| HbReturned (err : option error).

(** [RunHeartbeat] on the cases its [select] takes, with the waits it sets the timer to. *)
Fixpoint RunHeartbeat (interval : Z) (streak : refusals) (cases : list hb_case)
    : hb_out * list Z :=
  let interval := if interval <=? 0 then defaultHeartbeatInterval else interval in
  match cases with
  | [] => (HbLooping streak, [])
  | CtxDone :: _ => (HbReturned None, [])
  | TimerFired err now :: rest =>
      match heartbeat_turn streak err now with
      | inr e => (HbReturned (Some e), [])
      | inl streak => let '(out, ws) := RunHeartbeat interval streak rest in
                      (out, wait streak interval :: ws)
      end
  end.

End Loop.

(** ** monitoring.go *)

(** An address of [net.InterfaceAddrs]: a network with its IPv4 form if it has one, or
    something else. *)
Inductive net_addr : Type :=
| IPNet (loopback : bool) (to4 : option string)
| OtherAddr.

Fixpoint first_address (addrs : list net_addr) : result error string :=
  match addrs with
  | [] => Err (NewError "no suitable IP address found")
  | IPNet false (Some ipv4) :: _ => Ok ipv4
  | _ :: rest => first_address rest
  end.

Definition detectWorkerAddress (addrs : result error (list net_addr)) : result error string :=
  match addrs with
  | Err e => Err e
  | Ok addrs => first_address addrs
  end.

(** [data] is the content of /proc/meminfo, [None] if it could not be read. *)
Definition readMemBudgetMB (data : option string) : Z :=
  match data with
  | None => 0
  | Some data =>
      match list_find (fun line => HasPrefix line "MemTotal:" = true) (Split data (byte 10)) with
      | None => 0
      | Some (_, line) =>
          match Fields line with
          | _ :: v :: _ => match Atoi v with Some kb => Z.quot kb 1024 | None => 0 end
          | _ => 0
          end
      end
  end.

(** [int(x)] truncates towards zero; out of range it is what amd64 gives. *)
Definition float_to_int (x : spec_float) : Z :=
  match x with
  | S754_zero _ => 0
  | S754_finite s m e =>
      let a := if 0 <=? e then Zpos m * 2 ^ e else Z.quot (Zpos m) (2 ^ (- e)) in
      let v := if s then - a else a in
      if (min_int64 <=? v) && (v <=? max_int64) then v else min_int64
  | S754_infinity _ | S754_nan => min_int64
  end.

Definition readCPUUsagePercent (ParseFloat : string -> option spec_float) (numCPU : Z)
    (data : option string) : Z :=
  match data with
  | None => 0
  | Some data =>
      match Fields data with
      | [] => 0
      | f :: _ =>
          match ParseFloat f with
          | None => 0
          | Some load1 =>
              let cpuCount := if numCPU <? 1 then 1 else numCPU in
              let usage := float_to_int (f_mul (f_div load1 (float64 cpuCount)) f_100) in
              if usage <? 0 then 0 else if 100 <? usage then 100 else usage
          end
      end
  end.

(** The keys and values of the lines with two fields, later lines first. *)
Definition meminfo_vals (data : string) : gmap string Z :=
  foldl (fun m line =>
           match Fields line with
           | k :: v :: _ => match Atoi v with
                            | Some n => <[TrimSuffix k ":" := n]> m
                            | None => m
                            end
           | _ => m
           end) ∅ (Split data (byte 10)).

Definition readMemUsageMB (data : option string) : Z :=
  match data with
  | None => 0
  | Some data =>
      let vals := meminfo_vals data in
      match vals !! "MemTotal"%string, vals !! "MemAvailable"%string with
      | Some total, Some avail =>
          let used := int64 (total - avail) in
          if used <? 0 then 0 else Z.quot used 1024
      | _, _ => 0
      end
  end.

(** ** WorkerService *)

Record WorkerService : Type := mkService {
  ws_worker : Worker;
  ws_needsRegister : bool;
}.

Definition zero_Worker : Worker := mkWorker EmptyString EmptyString 0 EmptyString 0 0 0 0 zero_time 0 0 0.

Definition NewWorkerService : WorkerService := mkService zero_Worker true.

Definition set_worker (f : Worker -> Worker) (ws : WorkerService) : WorkerService :=
  mkService (f (ws_worker ws)) (ws_needsRegister ws).

Definition SetWorkerIdentity (id address : string) : WorkerService -> WorkerService :=
  set_worker (fun w =>
    mkWorker (if bool_decide (id = EmptyString) then wk_ID w else id)
      (if bool_decide (address = EmptyString) then wk_Address w else address)
      (wk_Port w) (wk_Status w) (wk_Cpu_budget w) (wk_Mem_budget w) (wk_Capacity w)
      (wk_FencingToken w) (wk_Last_heartbeat w) (wk_running_sandboxes w) (wk_cpu_usage w)
      (wk_mem_usage w)).

Definition SetWorkerBudget (cpu mem : Z) : WorkerService -> WorkerService :=
  set_worker (fun w =>
    mkWorker (wk_ID w) (wk_Address w) (wk_Port w) (wk_Status w)
      (if 0 <? cpu then cpu else wk_Cpu_budget w) (if 0 <? mem then mem else wk_Mem_budget w)
      (wk_Capacity w) (wk_FencingToken w) (wk_Last_heartbeat w) (wk_running_sandboxes w)
      (wk_cpu_usage w) (wk_mem_usage w)).

Definition SetListenPort (port : Z) : WorkerService -> WorkerService :=
  set_worker (fun w =>
    mkWorker (wk_ID w) (wk_Address w) port (wk_Status w) (wk_Cpu_budget w) (wk_Mem_budget w)
      (wk_Capacity w) (wk_FencingToken w) (wk_Last_heartbeat w) (wk_running_sandboxes w)
      (wk_cpu_usage w) (wk_mem_usage w)).

(** What the machine shows during one [UpdateWorker]; /proc/meminfo is read for the usage
    and again for the budget. *)
Record probes : Type := mkProbes {
  pb_loadavg : option string;
  pb_meminfo : option string;
  pb_meminfo_again : option string;
  pb_numCPU : Z;
  pb_addrs : result error (list net_addr);
  pb_hostname : result error string;
  pb_maxSandboxes : string;
  pb_now : Z;
}.

Section UpdateWorker.

Context (ParseFloat : string -> option spec_float).

(** The worker record after the section under [w.mu]. *)
Definition probed (pb : probes) (hostname : string) (w : Worker) : Worker :=
  let address := match detectWorkerAddress (pb_addrs pb) with
                 | Ok a => a
                 | Err _ => "127.0.0.1"%string
                 end in
  let cpu := if wk_Cpu_budget w <=? 0
             then if pb_numCPU pb <? 1 then 1 else pb_numCPU pb else wk_Cpu_budget w in
  let mem := if wk_Mem_budget w <=? 0 then readMemBudgetMB (pb_meminfo_again pb)
             else wk_Mem_budget w in
  mkWorker (if bool_decide (wk_ID w = EmptyString) then hostname else wk_ID w)
    (if bool_decide (wk_Address w = EmptyString) then address else wk_Address w)
    (wk_Port w) WorkerStatusActive cpu mem
    (computeCapacity (pb_maxSandboxes pb) cpu mem) (wk_FencingToken w) (pb_now pb)
    (wk_running_sandboxes w)
    (readCPUUsagePercent ParseFloat (pb_numCPU pb) (pb_loadavg pb))
    (readMemUsageMB (pb_meminfo pb)).

Definition heartbeat_of (w : Worker) (token : Z) (complete : bool)
    (inv : list SandboxInventoryEntry) : WorkerHeartbeat :=
  mkHeartbeat (wk_ID w) (wk_Status w) (wk_Address w) (int32 (wk_Port w)) (int32 (wk_Capacity w))
    (int32 (wk_Cpu_budget w)) (int32 (wk_Mem_budget w)) (int32 (wk_cpu_usage w))
    (int32 (wk_mem_usage w)) token complete inv.

Definition with_token (token : Z) (w : Worker) : Worker :=
  mkWorker (wk_ID w) (wk_Address w) (wk_Port w) (wk_Status w) (wk_Cpu_budget w) (wk_Mem_budget w)
    (wk_Capacity w) token (wk_Last_heartbeat w) (wk_running_sandboxes w) (wk_cpu_usage w)
    (wk_mem_usage w).

(** The orchestrator, and what the goroutines of the sandbox manager do to it while the
    registration is under way. *)
Context {O : Type}.
Context (register : WorkerHeartbeat -> O -> result error Z * O).
Context (report_hb : WorkerHeartbeat -> O -> option error * O).
Context (others : Manager -> Manager).

(** The registration, when one is due: the token of the heartbeat, or the error. *)
Definition register_step (ws : WorkerService) (w : Worker) (o : O)
    : result error Z * WorkerService * O :=
  if ws_needsRegister ws
  then match register (heartbeat_of w (wk_FencingToken w) false []) o with
       | (Err e, o') => (Err e, mkService w true, o')
       | (Ok token, o') =>
           if token <=? 0
           then (Err (NewError ("register worker " +:+ wk_ID w +:+ ": invalid fencing token")),
                 mkService w true, o')
           else (Ok token, mkService (with_token token w) false, o')
       end
  else (Ok (wk_FencingToken w), mkService w false, o).

Definition UpdateWorker (pb : probes) (ws : WorkerService) (m : Manager) (o : O)
    : result error string * WorkerService * Manager * O :=
  match pb_hostname pb with
  | Err e => (Err e, ws, m, o)
  | Ok hostname =>
      let w := probed pb hostname (ws_worker ws) in
      let m' := others (SetCapacity (wk_Capacity w) m) in
      match register_step ws w o with
      | (Err e, ws', o') => (Err e, ws', m', o')
      | (Ok token, ws', o') =>
          match report_hb (heartbeat_of w token true (Snapshot m')) o' with
          | (Some e, o2) =>
              (Err e, mkService (ws_worker ws')
                        (ws_needsRegister ws' || bool_decide (status_Code e = NotFound)), m', o2)
          | (None, o2) => (Ok (wk_ID w), ws', m', o2)
          end
      end
  end.

End UpdateWorker.

(** ** event_reporter.go *)

(** The event [report] sends for a state change, none before the first registration. *)
Definition report_event (ws : WorkerService) (workerID uuid sandboxID : string)
    (state : SandboxState) (at_ : Z) : option SandboxEventMsg :=
  if wk_FencingToken (ws_worker ws) <=? 0 then None
  else Some (mkEventMsg uuid sandboxID workerID state (Some at_) (wk_FencingToken (ws_worker ws))).

(** ** The loop: when it stops, and how long it waits *)

Lemma wait_doubling_eq n d :
  0 < d -> Z.min (wait_doubling n d) heartbeatRefusedBackoffMax
           = Z.min (d * 2 ^ Z.of_nat n) heartbeatRefusedBackoffMax.
Proof.
  unfold heartbeatRefusedBackoffMax, Minute, Second.
  revert d. induction n as [|n IH]; intros d Hd; cbn [wait_doubling]; [f_equal; lia|].
  unfold heartbeatRefusedBackoffMax, Minute, Second in *.
  assert (1 <= 2 ^ Z.of_nat n) as Hp by (apply (Z.pow_le_mono_r 2 0); lia).
  replace (Z.of_nat (S n)) with (1 + Z.of_nat n) by lia. rewrite Z.pow_add_r by lia.
  destruct (Z.ltb_spec d (60 * 1000000000)) as [Hlt|Hge].
  - rewrite (int64_id (d * 2)) by (unfold min_int64, max_int64; lia).
    rewrite IH by lia. f_equal. lia.
  - rewrite !Z.min_r; nia.
Qed.

(** The wait is [interval * 2^count], at most a minute, never below [interval]. *)
Lemma wait_eq r interval :
  0 < interval -> 0 <= rf_count r ->
  wait r interval
  = Z.max (Z.min (interval * 2 ^ rf_count r) heartbeatRefusedBackoffMax) interval.
Proof.
  intros Hi Hc. unfold wait. rewrite (wait_doubling_eq _ _ Hi).
  by rewrite Z2Nat.id.
Qed.

(** The start of the streak of refusals, if one is running. *)
Definition streak_since (r : refusals) : option Z :=
  if rf_count r =? 0 then None else Some (rf_since r).

(** A refusal at [s], then a refusal ten minutes later or more, no heartbeat accepted in
    between. *)
Definition refused_since (s : Z) (turns : list (option error * Z)) : Prop :=
  exists mid e t post, turns = mid ++ (Some e, t) :: post
    /\ Forall (fun x => x.1 <> None) mid
    /\ refusedForGood (Some e) = true /\ heartbeatRefusedGiveUp <= time_Sub t s.

Definition refused_too_long (turns : list (option error * Z)) : Prop :=
  exists pre e s rest, turns = pre ++ (Some e, s) :: rest
    /\ refusedForGood (Some e) = true /\ refused_since s rest.

Definition in_order (turns : list (option error * Z)) : Prop :=
  StronglySorted Z.le turns.*2.

Lemma refused_since_cons s x turns :
  refused_since s (x :: turns) <->
  (exists e, x.1 = Some e /\ refusedForGood (Some e) = true /\ heartbeatRefusedGiveUp <= time_Sub x.2 s)
  \/ x.1 <> None /\ refused_since s turns.
Proof.
  split.
  - intros ([|y mid] & e & t & post & [= -> Heq] & Hmid & He & Ht).
    + left. eauto.
    + right. inversion_clear Hmid. split; [done|]. by exists mid, e, t, post.
  - intros [(e & Hx & He & Ht)|[Hx (mid & e & t & post & -> & Hmid & He & Ht)]].
    + destruct x as [y t]. cbn in *. subst y. exists [], e, t, turns. auto.
    + exists (x :: mid), e, t, post. auto.
Qed.

Lemma refused_too_long_cons x turns :
  refused_too_long (x :: turns) <->
  (exists e, x.1 = Some e /\ refusedForGood (Some e) = true /\ refused_since x.2 turns)
  \/ refused_too_long turns.
Proof.
  split.
  - intros ([|y pre] & e & s & rest & [= -> Heq] & He & Hr).
    + subst. left. eauto.
    + right. by exists pre, e, s, rest.
  - intros [(e & Hx & He & Hr)|(pre & e & s & rest & -> & He & Hr)].
    + destruct x as [y s]. cbn in *. subst y. by exists [], e, s, turns.
    + by exists (x :: pre), e, s, rest.
Qed.

Lemma time_Sub_antitone t s s' : s <= s' -> time_Sub t s' <= time_Sub t s.
Proof. unfold time_Sub. lia. Qed.

Lemma refused_since_earlier s s' turns : s <= s' -> refused_since s' turns -> refused_since s turns.
Proof.
  intros Hs (mid & e & t & post & H1 & H2 & H3 & H4). exists mid, e, t, post.
  pose proof (time_Sub_antitone t _ _ Hs). repeat split; try done. lia.
Qed.

(** A refusal starts a streak or prolongs the one running. *)
Lemma record_streak r now :
  0 <= rf_count r ->
  exists r' logIt, record r now
    = (r', logIt, heartbeatRefusedGiveUp <=? time_Sub now (default now (streak_since r)))
    /\ 0 <= rf_count r' /\ streak_since r' = Some (default now (streak_since r)).
Proof.
  intros Hc. unfold record, streak_since. eexists (mkRefusals (rf_count r + 1) (if rf_count r =? 0 then now else rf_since r) _), _.
  cbn [rf_count rf_since]. split; [|split; [lia|]].
  - destruct (rf_count r =? 0); reflexivity.
  - rewrite (proj2 (Z.eqb_neq (rf_count r + 1) 0)) by lia. by destruct (rf_count r =? 0).
Qed.

(** When the loop stops, from any streak. *)
Lemma heartbeat_turns_stops third interval r turns :
  0 <= rf_count r -> in_order turns ->
  (forall s, streak_since r = Some s -> Forall (Z.le s) turns.*2) ->
  (exists e, (heartbeat_turns third interval r turns).1 = inr e)
  <-> (exists s, streak_since r = Some s /\ refused_since s turns) \/ refused_too_long turns.
Proof.
  revert interval r. induction turns as [|[err now] turns IH]; intros interval r Hc Ho Hs.
  { split.
    - intros [e He]. discriminate He.
    - intros [(s & _ & mid & ? & ? & ? & H & _)|(pre & ? & ? & ? & H & _)];
        [by destruct mid|by destruct pre]. }
  apply StronglySorted_inv in Ho as [Ho Hnow].
  assert (forall i r', 0 <= rf_count r' -> (forall s, streak_since r' = Some s -> Forall (Z.le s) turns.*2) ->
    heartbeat_turn third r err now = inl r' ->
    ((exists e, (heartbeat_turns third i r ((err, now) :: turns)).1 = inr e) <->
     (exists s, streak_since r' = Some s /\ refused_since s turns) \/ refused_too_long turns)) as Hstep.
  { intros i r' Hc' Hs' Ht. rewrite <- (IH (if i <=? 0 then defaultHeartbeatInterval else i) r' Hc' Ho Hs').
    cbn [heartbeat_turns]. rewrite Ht. by destruct (heartbeat_turns _ _ r' turns). }
  rewrite refused_too_long_cons. setoid_rewrite refused_since_cons. cbn [fst snd].
  destruct err as [e|].
  - destruct (refusedForGood (Some e)) eqn:Hr.
    + destruct (record_streak r now Hc) as (r' & logIt & Hrec & Hc' & Hs').
      destruct (Z.leb_spec heartbeatRefusedGiveUp (time_Sub now (default now (streak_since r)))) as [Hg|Hg].
      * assert (exists s, streak_since r = Some s) as [s Es].
        { destruct (streak_since r) as [s|]; [by exists s|]. exfalso. revert Hg.
          unfold time_Sub, heartbeatRefusedGiveUp, Minute, Second, min_int64, max_int64. cbn. lia. }
        rewrite Es in Hg. split; [|cbn [heartbeat_turns]; unfold heartbeat_turn; rewrite Hr, Hrec; by eexists].
        intros _. left. exists s. eauto 8.
      * rewrite (Hstep interval r' Hc'), Hs'.
        -- destruct (streak_since r) as [s|] eqn:Es; cbn in *.
           ++ specialize (Hs s eq_refl). inversion_clear Hs as [|? ? Hle _].
              pose proof (refused_since_earlier s now turns Hle). clear IH Hstep. split.
              ** intros [(s' & [= <-] & ?)|?]; [left; exists s; auto|by right; right].
              ** intros [(s' & [= <-] & [(e' & _ & _ & ?)|[_ ?]])|[(e' & _ & _ & ?)|?]]; eauto. lia.
           ++ clear IH Hstep. split.
              ** intros [(s' & [= <-] & ?)|?]; right; [left; eauto|by right].
              ** intros [(s' & [=] & _)|[(e' & _ & _ & ?)|?]]; eauto.
        -- intros s. rewrite Hs'. intros [= <-]. destruct (streak_since r) as [s|] eqn:Es; cbn; [|done].
           specialize (Hs s eq_refl). by inversion Hs.
        -- unfold heartbeat_turn. by rewrite Hr, Hrec.
    + rewrite (Hstep interval r Hc); clear IH Hstep.
      * split.
        -- intros [(s & ? & ?)|?]; [left; exists s; auto|by right; right].
        -- intros [(s & ? & [(e' & [= <-] & ? & _)|[_ ?]])|[(e' & [= <-] & ? & _)|?]]; eauto; congruence.
      * intros s Es. specialize (Hs s Es). by inversion Hs.
      * unfold heartbeat_turn. by rewrite Hr.
  - rewrite (Hstep interval zero_refusals); [|done..]. clear IH Hstep. split.
    + intros [(s & [=] & _)|?]. by right; right.
    + intros [(s & _ & [(e' & [=] & _)|[[] _]])|[(e' & [=] & _)|?]]; [done|by right].
Qed.

(** The refusals since the last accepted heartbeat, after [turns]. *)
Definition streak_length (n : Z) (turns : list (option error * Z)) : Z :=
  foldl (fun n x => match x.1 with
                    | None => 0
                    | Some _ => if refusedForGood x.1 then n + 1 else n
                    end) n turns.

Definition effective (interval : Z) : Z :=
  if interval <=? 0 then defaultHeartbeatInterval else interval.

Lemma effective_pos interval : 0 < effective interval /\ effective (effective interval) = effective interval.
Proof.
  unfold effective, defaultHeartbeatInterval, Second.
  destruct (Z.leb_spec interval 0); [done|]. split; [lia|]. by destruct (Z.leb_spec interval 0); [lia|].
Qed.

Lemma heartbeat_turn_count third r err now r' :
  0 <= rf_count r -> heartbeat_turn third r err now = inl r' ->
  0 <= rf_count r' /\ rf_count r' = streak_length (rf_count r) [(err, now)].
Proof.
  intros Hc. unfold heartbeat_turn, streak_length. cbn [foldl fst].
  destruct err as [e|]; [|by intros [= <-]].
  destruct (refusedForGood (Some e)); [|by intros [= <-]].
  unfold record. intros H. case_match; [done|]. injection H as <-. cbn. lia.
Qed.

Lemma heartbeat_turns_waits third interval r turns j w :
  0 <= rf_count r -> (heartbeat_turns third interval r turns).2 !! j = Some w ->
  w = Z.max (Z.min (effective interval * 2 ^ streak_length (rf_count r) (take (S j) turns))
               heartbeatRefusedBackoffMax) (effective interval).
Proof.
  revert interval r j. induction turns as [|[err now] turns IH]; intros interval r j Hc; [done|].
  cbn [heartbeat_turns]. fold (effective interval). destruct (heartbeat_turn third r err now) as [r'|e] eqn:Ht; [|done].
  destruct (heartbeat_turn_count _ _ _ _ _ Hc Ht) as [Hc' Hlen].
  destruct (effective_pos interval) as [Hpos Heff].
  specialize (IH (effective interval) r'). rewrite Heff in IH.
  destruct (heartbeat_turns third (effective interval) r' turns) as [out ws].
  destruct j as [|j]; cbn.
  - intros [= <-]. rewrite take_0, (wait_eq _ _ Hpos Hc'), Hlen. done.
  - intros H. rewrite (IH j Hc' H), Hlen. done.
Qed.

(** It always stops with ErrHeartbeatRefused. *)
Lemma heartbeat_turns_refused third interval r turns e :
  (heartbeat_turns third interval r turns).1 = inr e -> errors_Is e Worker_ErrHeartbeatRefused = true.
Proof.
  revert interval r. induction turns as [|[err now] turns IH]; intros interval r; [done|]. cbn [heartbeat_turns].
  destruct (heartbeat_turn third r err now) as [r'|e'] eqn:Ht.
  - specialize (IH (effective interval) r'). unfold effective in IH. by destruct (heartbeat_turns _ _ r' turns).
  - cbn. intros [= ->]. unfold heartbeat_turn, record in Ht. repeat case_match; by simplify_eq.
Qed.

Lemma heartbeat_turns_gives_up third interval turns e :
  in_order turns -> (heartbeat_turns third interval zero_refusals turns).1 = inr e -> refused_too_long turns.
Proof.
  intros Ho He. assert (exists e, (heartbeat_turns third interval zero_refusals turns).1 = inr e) as H by eauto.
  rewrite heartbeat_turns_stops in H by done. by destruct H as [(s & [=] & _)|?].
Qed.

(** The heartbeats sent before the context is done. *)
Fixpoint turns_of (cases : list hb_case) : list (option error * Z) :=
  match cases with
  | TimerFired err now :: rest => (err, now) :: turns_of rest
  | CtxDone :: _ | [] => []
  end.

#[global] Instance hb_case_done_dec (c : hb_case) : Decision (c = CtxDone).
Proof. destruct c; [left|right]; done. Defined.

(** [RunHeartbeat] is its turns, cut where the context is done. *)
Lemma RunHeartbeat_turns third interval r cases :
  RunHeartbeat third interval r cases
  = let '(out, ws) := heartbeat_turns third interval r (turns_of cases) in
    (match out with
     | inr e => HbReturned (Some e)
     | inl streak => if existsb (fun c => bool_decide (c = CtxDone)) cases
                     then HbReturned None else HbLooping streak
     end, ws).
Proof.
  revert interval r. induction cases as [|[|err now] cases IH]; intros interval r; [done..|].
  cbn [RunHeartbeat turns_of heartbeat_turns existsb].
  rewrite (bool_decide_eq_false_2 (TimerFired err now = CtxDone)) by done. cbn [orb].
  destruct (heartbeat_turn third r err now) as [r'|e]; [|done]. rewrite IH.
  by destruct (heartbeat_turns _ _ r' (turns_of cases)).
Qed.

Lemma existsb_done cases :
  existsb (fun c => bool_decide (c = CtxDone)) cases = true <-> CtxDone ∈ cases.
Proof.
  rewrite existsb_exists. setoid_rewrite bool_decide_eq_true. split.
  - intros (c & Hin & ->). by apply list_elem_of_In.
  - intros Hin. exists CtxDone. split; [by apply list_elem_of_In|done].
Qed.

(** C35: the heartbeat loop of a worker.  It returns an error exactly when heartbeats have
    been refused for good for ten minutes, none accepted in between (an orchestrator that
    cannot be reached neither counts nor resets), before its context is done, and that
    error is ErrHeartbeatRefused; it returns nil exactly when its context is done first,
    and otherwise it is still running.  It waits, after each heartbeat, the interval
    doubled for each refusal since the last accepted one, at most a minute and never less
    than the interval. *)
Theorem heartbeat_loop third interval cases :
  let turns := turns_of cases in
  in_order turns ->
  let out := RunHeartbeat third interval zero_refusals cases in
  ((exists e, out.1 = HbReturned (Some e)) <-> refused_too_long turns)
  /\ (forall e, out.1 = HbReturned (Some e) -> errors_Is e Worker_ErrHeartbeatRefused = true)
  /\ (out.1 = HbReturned None <-> CtxDone ∈ cases /\ ~ refused_too_long turns)
  /\ ((exists streak, out.1 = HbLooping streak) <-> CtxDone ∉ cases /\ ~ refused_too_long turns)
  /\ (forall j w, out.2 !! j = Some w ->
        w = Z.max (Z.min (effective interval * 2 ^ streak_length 0 (take (S j) turns))
                     heartbeatRefusedBackoffMax) (effective interval)).
Proof.
  intros turns Ho out. pose proof (heartbeat_turns_stops third interval zero_refusals turns) as Hstop.
  assert ((exists e, (heartbeat_turns third interval zero_refusals turns).1 = inr e) <-> refused_too_long turns) as Hst.
  { rewrite Hstop by done. split; [|by right]. by intros [(s & [=] & _)|?]. }
  pose proof (fun e => heartbeat_turns_refused third interval zero_refusals turns e) as Href.
  pose proof (fun j w => heartbeat_turns_waits third interval zero_refusals turns j w) as Hw.
  assert (out = RunHeartbeat third interval zero_refusals cases) as Eout by done.
  rewrite RunHeartbeat_turns in Eout. fold turns in Eout. clear Hstop Ho. clearbody out turns.
  destruct (heartbeat_turns third interval zero_refusals turns) as [res ws]. subst out. cbn [fst snd] in *.
  pose proof (existsb_done cases) as Hd.
  destruct res as [streak|e]; [destruct (existsb _ cases)|];
    (split; [rewrite <- Hst; split; intros [e' ?]; eauto; congruence|]);
    (split; [intros e' [= He]; try subst; eauto|]).
  - split; [|split; [|intros j w; by apply Hw]].
    + split; [|done]. intros _. split; [by apply Hd|]. rewrite <- Hst. by intros [? [=]].
    + split; [by intros [? [=]]|]. intros [[] _]. by apply Hd.
  - split; [|split; [|intros j w; by apply Hw]].
    + split; [done|]. intros [Hin _]. by apply Hd in Hin.
    + split; [|by eexists]. intros _. split; [by intros ?%Hd|]. rewrite <- Hst. by intros [? [=]].
  - split; [|split; [|intros j w; by apply Hw]].
    + split; [done|]. intros [_ []]. rewrite <- Hst. by eexists.
    + split; [by intros [? [=]]|]. intros [_ []]. rewrite <- Hst. by eexists.
Qed.

(** Refused at 0, unreachable at 4 minutes, refused at 10: given up; accepted at 4
    instead and cancelled after 10: nil, the last wait ten seconds. *)
Lemma heartbeat_loop_witness :
  (exists e, (RunHeartbeat (fun _ m => m) 0 zero_refusals
     [TimerFired (Some (StatusError InvalidArgument "no")) 0;
      TimerFired (Some (StatusError Unavailable "no")) (4 * Minute);
      TimerFired (Some (StatusError InvalidArgument "no")) (10 * Minute)]).1 = HbReturned (Some e))
  /\ (let cases := [TimerFired (Some (StatusError InvalidArgument "no")) 0; TimerFired None (4 * Minute);
                    TimerFired (Some (StatusError InvalidArgument "no")) (10 * Minute); CtxDone] in
      ~ refused_too_long (turns_of cases)
      /\ 10 * Second = Z.max (Z.min (effective 0 * 2 ^ streak_length 0 (turns_of cases))
                                heartbeatRefusedBackoffMax) (effective 0)).
Proof.
  split.
  - apply (heartbeat_loop (fun _ m => m) 0
      [TimerFired (Some (StatusError InvalidArgument "no")) 0;
       TimerFired (Some (StatusError Unavailable "no")) (4 * Minute);
       TimerFired (Some (StatusError InvalidArgument "no")) (10 * Minute)]).
    + repeat constructor; vm_compute; discriminate.
    + exists [], (StatusError InvalidArgument "no"), 0, [(Some (StatusError Unavailable "no"), 4 * Minute);
       (Some (StatusError InvalidArgument "no"), 10 * Minute)]. split; [done|]. split; [done|].
      exists [(Some (StatusError Unavailable "no"), 4 * Minute)], (StatusError InvalidArgument "no"), (10 * Minute), [].
      split; [done|]. split; [constructor; [done|constructor]|]. split; [done|]. vm_compute. discriminate.
  - intros cases.
    pose proof (heartbeat_loop (fun _ m => m) 0 cases) as H.
    destruct H as (_ & _ & Hnil & _ & Hw); [repeat constructor; vm_compute; discriminate|].
    split; [by apply Hnil|]. by apply (Hw 2%nat).
Defined.
