(* ===== verification/WorkerGRPC.v ===== *)
(** * The gRPC server of a worker

    internal/packages/worker/grpc_client.go and sandbox.go: the calls the orchestrator
    makes to a worker, on top of the sandbox manager (Manager.v).  [third] is the text of
    foreign errors, [ParseDuration] is time.ParseDuration. *)

From Stdlib Require Import ZArith Lia.
From stdpp Require Import base tactics option list gmap strings numbers.
From S2P Require Import Prelude GoStd Database Program EventGRPC Capacity Manager.
From S2P Require Import Heartbeat.

Open Scope Z_scope.

#[local] Set Warnings "-clear-no-such-hyp".

(** model.go. *)
Record CreateSandboxInput : Type := mkCreateSandboxInput {
  cs_ID : string;
  cs_Runtime : string;
  cs_Image : string;
  cs_Port : Z;
  cs_TTL : Z;
  cs_PreviewURL : string;
  cs_VcpuCount : Z;
  cs_MemSizeMib : Z;
}.

Section Server.

Context (uuid_Parse : string -> bool) (quote : string -> string).
Context (third : error -> string -> string).

(** ** sandbox.go: the WorkerService *)

Definition svc_CreateSandbox (c : CreateSandboxInput) : mprog (option error) :=
  Create uuid_Parse quote (mkCreateInput (cs_ID c) (cs_VcpuCount c) (cs_MemSizeMib c)).
Definition svc_StopSandbox (sandboxID : string) : mprog (option error) := Stop sandboxID.
Definition svc_RemoveSandbox (sandboxID : string) : mprog (option error) := Remove uuid_Parse quote sandboxID.

Definition svc_ListRunningSandboxes : mprog (list string) :=
  MLock (fun _ m => (Snapshot m, m)) (fun snapshot => MRet (ie_SandboxId <$> snapshot)).

(** ** grpc_client.go: the handlers; their error, nil when they respond *)

Definition checkSandboxID (id : string) : option error :=
  (fun err => StatusError InvalidArgument (Error third err)) <$> CheckSandboxID uuid_Parse quote id.

Definition sandboxError (err : error) : error :=
  if errors_Is err Sandboxmgr_ErrSandboxNotFound then StatusError NotFound (Error third err)
  else if errors_Is err Sandboxmgr_ErrBusy then StatusError Unavailable (Error third err)
  else if errors_Is err Sandboxmgr_ErrAtCapacity then StatusError ResourceExhausted (Error third err)
  else if errors_Is err Runtime_ErrInvalidSandboxID then StatusError InvalidArgument (Error third err)
  else err.

Definition CreateSandbox (req : CreateSandboxRequest) : mprog (option error) :=
  match checkSandboxID (rq_Id req) with
  | Some err => MRet (Some err)
  | None =>
      match CheckSandboxSize (rq_VcpuCount req) (rq_MemSizeMib req) with
      | Some err => MRet (Some (StatusError InvalidArgument (Error third err)))
      | None =>
          (err <-m svc_CreateSandbox
                     (mkCreateSandboxInput (rq_Id req) (rq_Runtime req) (rq_Image req) (rq_Port req)
                        (rq_Ttl req) (rq_PreviewUrl req) (rq_VcpuCount req) (rq_MemSizeMib req)) ;;
           MRet (sandboxError <$> err))%mprog
      end
  end.

Definition StopSandbox (containerId : string) : mprog (option error) :=
  match checkSandboxID containerId with
  | Some err => MRet (Some err)
  | None => (err <-m svc_StopSandbox containerId ;; MRet (sandboxError <$> err))%mprog
  end.

Definition RemoveSandbox (containerId : string) : mprog (option error) :=
  match checkSandboxID containerId with
  | Some err => MRet (Some err)
  | None => (err <-m svc_RemoveSandbox containerId ;; MRet (sandboxError <$> err))%mprog
  end.

End Server.

(** The record of the worker as the orchestrator sees it; its numbers are cut to int32. *)
Definition GetWorkerInfo (ws : WorkerService) : GetWorkerInfoResponse :=
  let w := ws_worker ws in
  mkInfo (wk_ID w) (wk_Address w) (wk_Status w) (int32 (wk_Cpu_budget w)) (int32 (wk_Mem_budget w))
    (int32 (wk_Capacity w)) (int32 (wk_cpu_usage w)) (int32 (wk_mem_usage w)) (wk_Last_heartbeat w).

(** [raw] is the text of WORKER_HEARTBEAT_INTERVAL. *)
Definition heartbeatIntervalFromEnv (ParseDuration : string -> option Z) (raw : string) : Z :=
  let raw := TrimSpace raw in
  if bool_decide (raw = EmptyString) then defaultHeartbeatInterval
  else match ParseDuration raw with
       | None => defaultHeartbeatInterval
       | Some parsed => if parsed <=? 0 then defaultHeartbeatInterval else parsed
       end.

(** What ServeGRPC returns once the server stopped: the error of the heartbeat loop, which
    is sent before the server is stopped, or the server's. *)
Definition serve_result (heartbeatErr : option error) (serveErr : option error) : option error :=
  match heartbeatErr with
  | Some err => Some err
  | None => serveErr
  end.

(** ** What the answers say

    A run of a call with what it saw, the latest first: the manager in its sections, the
    replies of the actors, the answers on a sandbox's resources, its own fields. *)
Inductive mevent : Type :=
| EvLock (m : Manager)
| EvDo (n : nat) (c : command) (reply : option error)
| EvVM (id : string) (X : Type) (o : vmop X) (x : X)
| EvSelf (s : Service).

Arguments EvVM id {X} o x.

(** An error of the host: not one of the manager's, and without a gRPC status. *)
Definition plain (e : error) : Prop :=
  status_Code e = Unknown
  /\ Forall (fun s => errors_Is e s = false)
       [Sandboxmgr_ErrSandboxNotFound; Sandboxmgr_ErrBusy; Sandboxmgr_ErrAtCapacity;
        Runtime_ErrInvalidSandboxID; Sandboxmgr_errServiceExited].

(** What an actor makes of the errors [R] of a sandbox's resources. *)
Inductive actor_error (R : error -> Prop) : error -> Prop :=
| ae_resource e : R e -> actor_error R e
| ae_created msg : actor_error R (NewError msg)
| ae_wrap pre e : actor_error R e -> actor_error R (Wrap pre e).

Definition errs (P : error -> Prop) (r : option error) : Prop := forall e, r = Some e -> P e.

Definition exited : option error := Some (Sentinel Sandboxmgr_errServiceExited).

Section Runs.

Context (R : error -> Prop).

Definition vm_answer {X} (o : vmop X) : X -> Prop :=
  match o with
  | VMAttach | NewVM _ | VMCreate | VMStop | VMCleanup | Reap => errs R
  | VMState => fun _ => True
  end.

(** The answer of [do]: the actor was gone, or it replied. *)
Definition do_answer (r : option error) : Prop := r = exited \/ errs (actor_error R) r.

Fixpoint mhwp {A} (h : list mevent) (p : mprog A) (Q : list mevent -> A -> Prop) : Prop :=
  match p with
  | MRet a => Q h a
  | MLock f k => forall env m, mhwp (EvLock m :: h) (k (f env m).1) Q
  | MVM id o k => forall x, vm_answer o x -> mhwp (EvVM id o x :: h) (k x) Q
  | MSelf f k => forall s, mhwp (EvSelf s :: h) (k (f s).1) Q
  | MGo _ _ k => mhwp h k Q
  | MDo n c k => forall r, do_answer r -> mhwp (EvDo n c r :: h) (k r) Q
  | MListDisk k => forall x, mhwp h (k x) Q
  | MNow k => forall x, mhwp h (k x) Q
  end.

Lemma mhwp_bind {A B} h (p : mprog A) (g : A -> mprog B) Q :
  mhwp h p (fun h' a => mhwp h' (g a) Q) -> mhwp h (mbind p g) Q.
Proof. revert h. induction p; intros h; cbn; auto. Qed.

Lemma mhwp_mono {A} h (p : mprog A) (Q Q' : list mevent -> A -> Prop) :
  (forall h' a, Q h' a -> Q' h' a) -> mhwp h p Q -> mhwp h p Q'.
Proof. intros HQ. revert h. induction p; intros h; cbn; auto. Qed.

End Runs.

Lemma actor_plain R e : (forall e, R e -> plain e) -> actor_error R e -> plain e.
Proof. intros HR. induction 1 as [e He|msg|pre e _ IH]; [by apply HR|split; [done|by repeat constructor]|exact IH]. Qed.

Lemma exited_plain e : plain e -> errors_Is e Sandboxmgr_errServiceExited = false.
Proof. intros [_ Hf]. by do 5 apply Forall_cons_1 in Hf as [? Hf]. Qed.

(** ** The cause of each code *)

(** Seen in a section of the manager. *)
Definition seen (h : list mevent) (P : Manager -> Prop) : Prop := exists m, EvLock m ∈ h /\ P m.

Definition untracked (id : string) (m : Manager) : Prop := mg_services m !! id = None.
Definition at_capacity (m : Manager) : Prop :=
  0 < mg_capacity m <= Z.of_nat (size (mg_services m) + size (mg_deleting m)).

Definition remove_cause (valid : bool) (id : string) (h : list mevent) (c : code) : Prop :=
  match c with
  | NotFound => seen h (fun m => untracked id m /\ id ∉ mg_deleting m)
  | Unavailable => seen h (fun m => id ∈ mg_deleting m)
  | InvalidArgument => h = [] /\ valid = false
  | Unknown => (exists n e, EvDo n cmdRemove (Some e) ∈ h /\ Some e <> exited)
               \/ (exists n e, EvDo n cmdRemove exited ∈ h /\ EvVM id Reap (Some e) ∈ h)
  | _ => False
  end.

Definition stop_cause (valid : bool) (id : string) (h : list mevent) (c : code) : Prop :=
  match c with
  | NotFound => seen h (untracked id)
  | InvalidArgument => h = [] /\ valid = false
  | Unknown => exists n e, EvDo n cmdStop (Some e) ∈ h /\ Some e <> exited
  | _ => False
  end.

Definition create_cause (valid : bool) (id : string) (h : list mevent) (c : code) : Prop :=
  match c with
  | Unavailable => seen h (fun m => id ∈ mg_deleting m)
  | ResourceExhausted => seen h at_capacity
  | InvalidArgument => h = [] /\ valid = false
  | Unknown => exists n c_in e, ci_ID c_in = id /\ EvDo n (cmdCreate c_in) (Some e) ∈ h
  | _ => False
  end.

(** No error, or one whose code has its cause. *)
Definition caused (cause : code -> Prop) (ok : Prop) (r : option error) : Prop :=
  match r with None => ok | Some e => cause (status_Code e) end.

Section Answers.

Context (uuid_Parse : string -> bool) (quote : string -> string) (third : error -> string -> string).
Context (R : error -> Prop) (R_plain : forall e, R e -> plain e).

Abbreviation sandboxError := (sandboxError third).
Abbreviation valid id := (IsSandboxID uuid_Parse id).

(** A plain error keeps its code: none of those the orchestrator looks for. *)
Lemma sandboxError_plain e : plain e -> status_Code (sandboxError e) = Unknown.
Proof.
  intros [Hc Hf]. apply Forall_cons_1 in Hf as [H1 Hf]. apply Forall_cons_1 in Hf as [H2 Hf].
  apply Forall_cons_1 in Hf as [H3 Hf]. apply Forall_cons_1 in Hf as [H4 _].
  unfold WorkerGRPC.sandboxError. by rewrite H1, H2, H3, H4.
Qed.

(** The reply of an actor: it was gone, it succeeded, or an error that is not that one. *)
Lemma do_cases r : do_answer R r ->
  r = exited \/ r = None \/ exists e, r = Some e /\ plain e /\ Some e <> exited /\ exited_err (Some e) = false.
Proof.
  intros [->|Hr]; [by left|]. right. destruct r as [e|]; [|by left]. right. exists e.
  assert (plain e) as Hp by (eapply actor_plain; [exact R_plain|by apply Hr]).
  pose proof (exited_plain e Hp) as Hx. split; [done|]. split; [done|]. split; [|done]. intros [= ->]. done.
Qed.

Lemma Remove_answer id :
  mhwp R [] (RemoveSandbox uuid_Parse quote third id) (fun h r =>
    caused (remove_cause (valid id) id h)
      ((exists n, EvDo n cmdRemove None ∈ h)
       \/ (exists n, EvDo n cmdRemove exited ∈ h /\ EvVM id Reap None ∈ h)) r).
Proof.
  unfold RemoveSandbox, checkSandboxID, svc_RemoveSandbox, Remove, CheckSandboxID. destruct (valid id); [|done].
  cbn. intros env m. unfold remove_section. destruct (decide (id ∈ mg_deleting m)) as [Hd|Hd]; cbn.
  { exists m. split; [left|done]. }
  destruct (mg_services m !! id) as [e|] eqn:Em; cbn; [|exists m; split; [left|done]].
  intros r Hr. destruct (do_cases r Hr) as [->|[->|(e' & -> & Hp & Hn & Hx)]]; unfold remove_after.
  - cbn. intros [e'|] Hx env' m'; cbn.
    + rewrite sandboxError_plain by (by apply R_plain, Hx). right. exists (en_svc e), e'. split; set_solver.
    + right. exists (en_svc e). split; set_solver.
  - cbn. intros env' m'. left. exists (en_svc e). set_solver.
  - rewrite Hx. cbn. intros env' m'. rewrite sandboxError_plain by done. left. exists (en_svc e), e'. split; set_solver.
Qed.

Lemma Stop_answer id :
  mhwp R [] (StopSandbox uuid_Parse quote third id) (fun h r =>
    caused (stop_cause (valid id) id h)
      ((exists n, EvDo n cmdStop None ∈ h) \/ exists n, EvDo n cmdStop exited ∈ h) r).
Proof.
  unfold StopSandbox, checkSandboxID, svc_StopSandbox, Stop, CheckSandboxID. destruct (valid id); [|done].
  cbn. intros env m. destruct (mg_services m !! id) as [e|] eqn:Em; cbn; [|exists m; split; [left|done]].
  intros r Hr. destruct (do_cases r Hr) as [->|[->|(e' & -> & Hp & Hn & Hx)]].
  - right. exists (en_svc e). left.
  - left. exists (en_svc e). left.
  - cbn [exited_err] in Hx. cbn. rewrite Hx. cbn. rewrite sandboxError_plain by done. exists (en_svc e), e'. split; [left|done].
Qed.

Abbreviation well_sized req := ((rq_VcpuCount req <=? SandboxVcpu) && (rq_MemSizeMib req <=? SandboxMemMiB)).

Lemma Create_answer req :
  mhwp R [] (CreateSandbox uuid_Parse quote third req) (fun h r =>
    caused (create_cause (valid (rq_Id req) && well_sized req) (rq_Id req) h)
      (seen h (fun m => is_Some (mg_services m !! rq_Id req))
       \/ exists n c_in, ci_ID c_in = rq_Id req /\ EvDo n (cmdCreate c_in) None ∈ h) r).
Proof.
  unfold CreateSandbox, checkSandboxID, CheckSandboxID. destruct (valid (rq_Id req)) eqn:Eid; [|done].
  cbn [fmap option_fmap option_map]. unfold CheckSandboxSize.
  destruct (Z.ltb_spec SandboxVcpu (rq_VcpuCount req)) as [Hv|_].
  { cbn. by rewrite (proj2 (Z.leb_gt _ _) Hv). }
  destruct (Z.ltb_spec SandboxMemMiB (rq_MemSizeMib req)) as [Hm|_].
  { cbn. rewrite (proj2 (Z.leb_gt _ _) Hm). by rewrite andb_false_r. }
  unfold svc_CreateSandbox, Create, CheckSandboxID. cbn [ci_ID cs_ID]. rewrite Eid. cbn. intros env m. unfold create_section. cbn [ci_ID].
  destruct (decide (is_Some _)) as [Hs|]; cbn; [left; exists m; split; [left|done]|].
  destruct (decide (_ ∈ _)); cbn; [exists m; split; [left|done]|].
  destruct (_ && _) eqn:Ecap in |- *; cbn.
  { exists m. split; [left|]. unfold at_capacity. apply andb_prop in Ecap as [?%Z.ltb_lt ?%Z.leb_le]. lia. }
  intros r Hr. destruct (do_cases r Hr) as [->|[->|(e' & -> & Hp & _)]]; cbn.
  - intros env' m'. eexists _, _, _. split; [|right; left]. done.
  - right. eexists _, _. split; [|left]. done.
  - intros env' m'. rewrite sandboxError_plain by done. eexists _, _, _. split; [|right; left]. done.
Qed.

(** Every reply of an actor is one [do] may give, and what its reply to a removal says. *)
Lemma handle_replies id n c :
  mhwp R [] (handle id n c) (fun _ r => errs (actor_error R) r.2).
Proof using.
  assert (forall h, mhwp R h (svc_remove id) (fun _ r => errs (actor_error R) r)) as Hrem.
  { intros h. unfold svc_remove. cbn. intros s. destruct (s_vm s); cbn; [|done]. intros stop Hstop cl Hcl e He.
    destruct cl as [e1|], stop as [e2|]; try done; injection He as <-; apply ae_wrap, ae_resource; auto. }
  destruct c as [c_in| |]; unfold handle.
  - apply mhwp_bind. unfold svc_create. cbn. intros s. destruct (s_vm s); cbn.
    { intros e [= <-]. apply ae_created. }
    intros [e|] Hn; cbn; [intros e' [= <-]; by apply ae_resource, Hn|]. intros s1 [e|] Hc; cbn.
    + intros s2. destruct (s_vm s2); cbn; [intros stop _ cl _|]; intros e' [= <-]; by apply ae_resource, Hc.
    + intros s2 s3. destruct (_ || _); cbn; [done|]. intros x _ s4. by repeat (case_match; cbn; intros).
  - cbn. intros s. destruct (s_vm s); cbn; [|done]. intros [e|] Hs e'; cbn; [|done]. intros [= <-].
    by apply ae_wrap, ae_resource, Hs.
  - apply mhwp_bind. eapply mhwp_mono; [|apply Hrem]. by intros.
Qed.

Lemma handle_remove_answer id n :
  mhwp R [] (handle id n cmdRemove) (fun h r => r.2 = None ->
    (exists s, EvSelf s ∈ h /\ s_vm s = false)
    \/ (EvVM id VMStop None ∈ h /\ EvVM id VMCleanup None ∈ h)).
Proof using.
  unfold handle, svc_remove. cbn. intros s. destruct (s_vm s) eqn:Es; cbn.
  - intros stop Hstop cl Hcl. destruct cl, stop; try done. intros _. right. split; [right; left|left].
  - intros _. left. exists s. split; [left|done].
Qed.

End Answers.

(** C25: what the worker's answers mean to the orchestrator, when the errors of a sandbox's
    resources are the host's own (they wrap no error of the manager and carry no gRPC
    status).  Every answer has its cause.  RemoveSandbox: no error, its actor removed it, or
    the actor was gone and reaping succeeded; NotFound, it was neither tracked nor being
    removed; Unavailable, it was being removed; Unknown, the actor or the reaping failed.
    StopSandbox: no error, its actor stopped it or was gone; NotFound, it was not tracked;
    Unknown, the stop failed.  CreateSandbox: no error, it was tracked already or booted;
    Unavailable, it was being removed; ResourceExhausted, the worker was full; Unknown, the
    creation failed.  InvalidArgument is answered exactly for an ID that is not a sandbox ID
    or a size above a slot, before anything is done; there is no other code.  An actor's
    replies are made of its resources' errors, and it answers a removal without an error
    only if it never built a VM or stopped it and cleaned up. *)
Theorem worker_answers uuid_Parse quote third R req id n c :
  (forall e, R e -> plain e) ->
  let valid id := IsSandboxID uuid_Parse id in
  let sized := (rq_VcpuCount req <=? SandboxVcpu) && (rq_MemSizeMib req <=? SandboxMemMiB) in
  mhwp R [] (RemoveSandbox uuid_Parse quote third id) (fun h r =>
    caused (remove_cause (valid id) id h)
      ((exists n, EvDo n cmdRemove None ∈ h)
       \/ (exists n, EvDo n cmdRemove exited ∈ h /\ EvVM id Reap None ∈ h)) r)
  /\ mhwp R [] (StopSandbox uuid_Parse quote third id) (fun h r =>
       caused (stop_cause (valid id) id h)
         ((exists n, EvDo n cmdStop None ∈ h) \/ exists n, EvDo n cmdStop exited ∈ h) r)
  /\ mhwp R [] (CreateSandbox uuid_Parse quote third req) (fun h r =>
       caused (create_cause (valid (rq_Id req) && sized) (rq_Id req) h)
         (seen h (fun m => is_Some (mg_services m !! rq_Id req))
          \/ exists n c_in, ci_ID c_in = rq_Id req /\ EvDo n (cmdCreate c_in) None ∈ h) r)
  /\ (valid id = false ->
        exists e, status_Code e = InvalidArgument /\ RemoveSandbox uuid_Parse quote third id = MRet (Some e)
                  /\ StopSandbox uuid_Parse quote third id = MRet (Some e))
  /\ (valid (rq_Id req) && sized = false ->
        exists e, status_Code e = InvalidArgument /\ CreateSandbox uuid_Parse quote third req = MRet (Some e))
  /\ mhwp R [] (handle id n c) (fun _ r => errs (actor_error R) r.2)
  /\ mhwp R [] (handle id n cmdRemove) (fun h r => r.2 = None ->
       (exists s, EvSelf s ∈ h /\ s_vm s = false)
       \/ (EvVM id VMStop None ∈ h /\ EvVM id VMCleanup None ∈ h)).
Proof.
  intros HR valid sized. split; [by apply Remove_answer|]. split; [by apply Stop_answer|].
  split; [by apply Create_answer|]. split; [|split; [|split; [apply handle_replies|apply handle_remove_answer]]].
  - unfold RemoveSandbox, StopSandbox, checkSandboxID, CheckSandboxID. unfold valid. intros ->. eexists. by split; [|by split].
  - unfold CreateSandbox, checkSandboxID, CheckSandboxID, valid, sized, CheckSandboxSize.
    destruct (IsSandboxID uuid_Parse (rq_Id req)); [|intros _; eexists; by split; [|reflexivity]].
    cbn [fmap option_fmap option_map andb].
    rewrite !Z.ltb_antisym. destruct (rq_VcpuCount req <=? SandboxVcpu); [|intros _; eexists; by split; [|reflexivity]].
    destruct (rq_MemSizeMib req <=? SandboxMemMiB); [done|intros _; eexists; by split; [|reflexivity]].
Qed.

(** A removal refused while another one is at it, with the errors of the host a text. *)
Definition host_error (e : error) : Prop := exists msg, e = NewError msg.

Lemma host_error_plain e : host_error e -> plain e.
Proof. intros [msg ->]. split; [done|by repeat constructor]. Qed.

Lemma worker_answers_witness :
  let id := "00000000-0000-0000-0000-000000000001"%string in
  let req := mkCreateRequest id EmptyString EmptyString 0 0 EmptyString 1 128 in
  mhwp host_error [] (RemoveSandbox (fun _ => true) (fun s => s) (fun _ m => m) id) (fun h r =>
    caused (remove_cause true id h)
      ((exists n, EvDo n cmdRemove None ∈ h)
       \/ (exists n, EvDo n cmdRemove exited ∈ h /\ EvVM id Reap None ∈ h)) r)
  /\ exists e, status_Code e = InvalidArgument
               /\ RemoveSandbox (fun _ => true) (fun s => s) (fun _ m => m) "s1" = MRet (Some e).
Proof.
  intros id req. split.
  - apply (worker_answers (fun _ => true) (fun s => s) (fun _ m => m) host_error req id 0%nat cmdRemove).
    exact host_error_plain.
  - destruct (worker_answers (fun _ => true) (fun s => s) (fun _ m => m) host_error req "s1" 0%nat cmdRemove
      host_error_plain) as (_ & _ & _ & H & _).
    destruct (H eq_refl) as (e & He & Hr & _). by exists e.
Defined.
