(* ===== verification/Host.v ===== *)
(** * Programs over a host

    The worker side drives a machine: files, processes, sockets, the device-mapper.  Its
    code is written as programs [kprog] over the operations [hop] of that machine, each
    answered by the environment; [kwp] says what a program may ask and what it returns,
    whatever the answers. *)

From Stdlib Require Import ZArith Lia.
From stdpp Require Import base tactics option list strings numbers.
From S2P Require Import Prelude GoStd.

Open Scope Z_scope.

(** ** Errors *)

Inductive errno : Type :=
| EBUSY | ENXIO | EEXIST | ENOENT | ESRCH | EWOULDBLOCK
| OtherErrno (n : Z).

#[export] Instance errno_eq_dec : EqDecision errno.
Proof. solve_decision. Defined.

(** An errno, a fresh error, a wrapping [fmt.Errorf("pre%w", e)], a join, an error of the
    packages that do not talk to the machine. *)
Inductive derror : Type :=
| Errno (e : errno)
| DNew (msg : string)
| DWrap (pre : string) (e : derror)
| DJoin (e1 e2 : derror)
| DGo (e : error).

(** [errors.Is(err, errno)]. *)
Fixpoint is_errno (e : derror) (n : errno) : bool :=
  match e with
  | Errno m => bool_decide (m = n)
  | DNew _ | DGo _ => false
  | DWrap _ e' => is_errno e' n
  | DJoin e1 e2 => is_errno e1 n || is_errno e2 n
  end.

(** [errors.Is(err, sentinel)]. *)
Fixpoint is_sentinel (e : derror) (s : sentinel) : bool :=
  match e with
  | Errno _ | DNew _ => false
  | DWrap _ e' => is_sentinel e' s
  | DJoin e1 e2 => is_sentinel e1 s || is_sentinel e2 s
  | DGo e => errors_Is e s
  end.

(** ** Operations *)

Inductive signal : Type := SIGTERM | SIGKILL.

#[export] Instance signal_eq_dec : EqDecision signal.
Proof. solve_decision. Defined.

(** The answer of an HTTP request: its status code and line, and the "state" of the JSON
    object of its body, an error if it is not one. *)
Record http_answer : Type := mkAnswer {
  ha_code : Z;
  ha_status : string;
  ha_state : result derror string;
}.

(** The case a boot's [select] takes: the VM is gone, the deadline, the context is done
    (its error), a tick. *)
Inductive boot_event : Type :=
| BootGone
| BootDeadline
| BootCtx (err : derror)
| BootTick.

(** - files: [os.ReadFile], [unix.Stat] (mode and rdev), [os.Remove], [os.RemoveAll],
      [unix.Mknod], [os.MkdirAll], [os.ReadDir] (names and whether a directory),
      [os.WriteFile], [os.Rename], [os.OpenFile] for writing, [syscall.Flock];
    - the device-mapper: its control file and its ioctls;
    - processes and sockets: [syscall.Kill], starting a process (its pid), whether that
      process has been reaped, [net.Dial] on a unix socket, closing the connection of
      that socket, reading a line from it, whether the handle of a pid is done within a
      delay, and waiting for it (its code and error) or for the context;
    - an HTTP GET on a unix socket, [time.Now], [time.Sleep], [rand.Uint32N];
    - the [select] of a boot, on the process of [pid], on a timer of [timeout] and a ticker
      of period [poll] that were both started at [start], the ticker having delivered
      [taken] ticks, and on the context. *)
Inductive hop : Type -> Type :=
| Ioctl (req : Z) (buf : bytes) : hop (result errno bytes)
| OpenControl : hop (option errno)
| ReadFile (path : string) : hop (result derror string)
| Stat (path : string) : hop (result errno (Z * Z))
| RemoveFile (path : string) : hop (option errno)
| RemoveAll (path : string) : hop (option derror)
| Mknod (path : string) (mode dev : Z) : hop (option errno)
| MkdirAll (path : string) : hop (option derror)
| ReadDir (path : string) : hop (result derror (list (string * bool)))
| WriteFile (path content : string) : hop (option derror)
| Rename (src dst : string) : hop (option derror)
| OpenFile (path : string) : hop (option derror)
| Flock (path : string) : hop (option errno)
| KillProcess (pid : Z) (sig : signal) : hop (option errno)
| StartProcess (path : string) (args : list string) : hop (result derror Z)
| ProcessExited (pid : Z) : hop bool
| Dial (path : string) : hop (option derror)
| CloseConn (path : string) : hop unit
| ReadLine (path : string) : hop (result derror string)
| DoneWithin (pid d : Z) : hop bool
| WaitDone (pid : Z) : hop (result derror (Z * option derror))
| HTTPGet (socket : string) : hop (result derror http_answer)
| BootSelect (pid start timeout poll : Z) (taken : nat) : hop boot_event
| TimeNow : hop Z
| Sleep (d : Z) : hop unit
| Uint32N (n : Z) : hop Z.

Inductive kprog (A : Type) : Type :=
| KRet (a : A)
| KOp (X : Type) (o : hop X) (k : X -> kprog A).

Arguments KRet {A} a.
Arguments KOp {A X} o k.

Fixpoint kbind {A B} (p : kprog A) (g : A -> kprog B) : kprog B :=
  match p with
  | KRet a => g a
  | KOp o k => KOp o (fun x => kbind (k x) g)
  end.

Declare Scope kprog_scope.
Delimit Scope kprog_scope with kprog.
Bind Scope kprog_scope with kprog.

Notation "x <-k p ;; k" := (kbind p (fun x => k))
  (at level 100, p at next level, right associativity) : kprog_scope.
Notation "x <-op o ;; k" := (KOp o (fun x => k))
  (at level 100, o at next level, right associativity) : kprog_scope.

(** A loop that ran out of fuel returns [None]. *)
Notation "x <-f p ;; k" := (kbind p (fun o => match o with Some x => k | None => KRet None end))
  (at level 100, p at next level, right associativity) : kprog_scope.

(** [if err != nil { return err }] on the two shapes of results. *)
Notation "x <-? r 'in' k" := (match r with Ok x => k | Err e => KRet (Err e) end)
  (at level 100, r at next level, right associativity) : kprog_scope.

Definition wrap_err {A} (pre : string) (r : result derror A) : result derror A :=
  match r with Ok a => Ok a | Err e => Err (DWrap pre e) end.

(** ** What a program may ask

    Every operation satisfies [P] and the result satisfies [Q], whatever the answers;
    [rand.Uint32N(n)] is below [n]. *)
Definition possible {X} (o : hop X) : X -> Prop :=
  match o with
  | Uint32N n => fun x => 0 <= x < n
  | _ => fun _ => True
  end.

Fixpoint kwp {A} (P : forall X, hop X -> Prop) (p : kprog A) (Q : A -> Prop) : Prop :=
  match p with
  | KRet a => Q a
  | KOp o k => P _ o /\ forall x, possible o x -> kwp P (k x) Q
  end.

Lemma kwp_bind {A B} P (p : kprog A) (g : A -> kprog B) Q :
  kwp P p (fun a => kwp P (g a) Q) -> kwp P (kbind p g) Q.
Proof. induction p; cbn; [done|]. intros [? ?]. auto. Qed.

Lemma kwp_mono {A} P (p : kprog A) (Q Q' : A -> Prop) :
  (forall a, Q a -> Q' a) -> kwp P p Q -> kwp P p Q'.
Proof. intros HQ. induction p; cbn; [auto|]. intros [? ?]. auto. Qed.

Lemma kwp_weaken {A} (P P' : forall X, hop X -> Prop) (p : kprog A) Q :
  (forall X (o : hop X), P X o -> P' X o) -> kwp P p Q -> kwp P' p Q.
Proof. intros HP. induction p; cbn; [auto|]. intros [? ?]. auto. Qed.

Lemma kwp_and {A} P P' (p : kprog A) Q Q' :
  kwp P p Q -> kwp P' p Q' -> kwp (fun X o => P X o /\ P' X o) p (fun a => Q a /\ Q' a).
Proof. induction p; cbn; [done|]. intros [? ?] [? ?]. auto. Qed.

(** ** What a program did before

    As [kwp], but a condition on an operation sees the operations before it with their
    answers, the latest first. *)
Inductive event : Type := Ev (X : Type) (o : hop X) (x : X).

Arguments Ev {X} o x.

Fixpoint hwp {A} (P : list event -> forall X, hop X -> Prop) (h : list event) (p : kprog A)
    (Q : list event -> A -> Prop) : Prop :=
  match p with
  | KRet a => Q h a
  | KOp o k => P h _ o /\ forall x, possible o x -> hwp P (Ev o x :: h) (k x) Q
  end.

Lemma hwp_bind {A B} P h (p : kprog A) (g : A -> kprog B) Q :
  hwp P h p (fun h' a => hwp P h' (g a) Q) -> hwp P h (kbind p g) Q.
Proof. revert h. induction p; intros h; cbn; [done|]. intros [? ?]. auto. Qed.

Lemma hwp_mono {A} P h (p : kprog A) (Q Q' : list event -> A -> Prop) :
  (forall h' a, Q h' a -> Q' h' a) -> hwp P h p Q -> hwp P h p Q'.
Proof. intros HQ. revert h. induction p; intros h; cbn; [auto|]. intros [? ?]. auto. Qed.

Lemma hwp_weaken {A} (P P' : list event -> forall X, hop X -> Prop) h (p : kprog A) Q :
  (forall h' X (o : hop X), P h' X o -> P' h' X o) -> hwp P h p Q -> hwp P' h p Q.
Proof. intros HP. revert h. induction p; intros h; cbn; [auto|]. intros [? ?]. auto. Qed.

Lemma hwp_and {A} P P' h (p : kprog A) Q Q' :
  hwp P h p Q -> hwp P' h p Q' ->
  hwp (fun h' X o => P h' X o /\ P' h' X o) h p (fun h' a => Q h' a /\ Q' h' a).
Proof. revert h. induction p; intros h; cbn; [done|]. intros [? ?] [? ?]. auto. Qed.

(** A bound that does not look at the past; the past is kept. *)
Lemma kwp_hwp {A} (P : forall X, hop X -> Prop) h (p : kprog A) Q :
  kwp P p Q -> hwp (fun _ => P) h p (fun h' a => Q a /\ h `suffix_of` h').
Proof.
  revert h. induction p as [a|X o k IH]; intros h; cbn; [intros HQ; split; [done|by exists []]|].
  intros [? Hk]. split; [done|]. intros x Hx.
  eapply hwp_mono; [|apply IH, Hk, Hx]. cbn. intros h' a [? Hs]. split; [done|].
  etrans; [|exact Hs]. by exists [Ev o x].
Qed.

(** No condition; the past is kept. *)
Definition anyop (h : list event) (X : Type) (o : hop X) : Prop := True.

Lemma hwp_keep {A} P h (p : kprog A) Q :
  hwp P h p Q -> hwp P h p (fun h' a => Q h' a /\ h `suffix_of` h').
Proof.
  revert h. induction p as [a|X o k IH]; intros h; cbn; [intros HQ; split; [done|by exists []]|].
  intros [? Hk]. split; [done|]. intros x Hx.
  eapply hwp_mono; [|apply IH, Hk, Hx]. cbn. intros h' a [? Hs]. split; [done|].
  etrans; [|exact Hs]. by exists [Ev o x].
Qed.

(** What has been answered stays so. *)
Lemma hwp_persist {A} (ev : event) h (p : kprog A) :
  ev ∈ h -> hwp (fun h' X o => ev ∈ h') h p (fun h' _ => ev ∈ h').
Proof.
  revert h. induction p as [a|X o k IH]; intros h Hh; cbn; [done|]. split; [done|]. intros x _. apply IH. by right.
Qed.

Lemma elem_of_suffix {A} (x : A) l l' : x ∈ l -> l `suffix_of` l' -> x ∈ l'.
Proof. intros H [k ->]. apply elem_of_app. by right. Qed.

Lemma hwp_any {A} h (p : kprog A) : hwp anyop h p (fun _ _ => True).
Proof. revert h. induction p; intros h; cbn; [done|]. split; [done|]. auto. Qed.

(** ** Execution

    Against a machine that answers from a state. *)
Fixpoint krun {A W} (answer : forall X, hop X -> W -> X * W) (p : kprog A) (w : W) : A * W :=
  match p with
  | KRet a => (a, w)
  | KOp o k => let '(x, w') := answer _ o w in krun answer (k x) w'
  end.

Lemma krun_bind {A B W} (answer : forall X, hop X -> W -> X * W) (p : kprog A) (g : A -> kprog B) w :
  krun answer (kbind p g) w = let '(a, w') := krun answer p w in krun answer (g a) w'.
Proof.
  revert w. induction p as [a|X o k IH]; intros w; cbn; [done|].
  destruct (answer X o w) as [x w']. apply IH.
Qed.

(** A machine with a clock: it never goes back, [time.Now] reads it and [time.Sleep]
    lets at least its delay pass. *)
Class Clocked (W : Type) (answer : forall X, hop X -> W -> X * W) (clock : W -> Z) : Prop := {
  clock_mono : forall X (o : hop X) w, clock w <= clock (answer X o w).2;
  clock_now : forall w, clock w <= (answer _ TimeNow w).1 <= clock (answer _ TimeNow w).2;
  clock_sleep : forall d w, clock w + d <= clock (answer _ (Sleep d) w).2;
}.

(** The timer and the ticker of a boot's [select], on such a machine.  The timer never fires
    early.  A ticker delivers its tick number [k] no earlier than [k] periods after it was
    started.  Of the cases that are ready a [select] takes any: [passed_over] counts, for
    the boot of a process started at a time, the ones that took the ticker although the
    timer had fired before, and there are at most [L] of them. *)
Class Timed (W : Type) (answer : forall X, hop X -> W -> X * W) (clock : W -> Z)
    (passed_over : Z -> Z -> W -> nat) (L : nat) : Prop := {
  timer_late : forall pid start timeout poll k w,
    (answer _ (BootSelect pid start timeout poll k) w).1 = BootDeadline ->
    start + timeout <= clock (answer _ (BootSelect pid start timeout poll k) w).2;
  ticker_rate : forall pid start timeout poll k w,
    (answer _ (BootSelect pid start timeout poll k) w).1 = BootTick ->
    start + Z.of_nat (S k) * poll <= clock (answer _ (BootSelect pid start timeout poll k) w).2;
  passed_mono : forall pid start X (o : hop X) w,
    (passed_over pid start w <= passed_over pid start (answer X o w).2)%nat;
  passed_bound : forall pid start timeout poll k w,
    (answer _ (BootSelect pid start timeout poll k) w).1 = BootTick -> start + timeout <= clock w ->
    (passed_over pid start w
       < passed_over pid start (answer _ (BootSelect pid start timeout poll k) w).2 <= L)%nat;
}.

(** The simplest one: nothing exists on it, time passes only in a sleep. *)
Definition empty_machine (X : Type) (o : hop X) (w : Z) : X * Z :=
  match o in hop Y return Y * Z with
  | Ioctl _ _ => (Err ENXIO, w)
  | OpenControl => (None, w)
  | ReadFile _ => (Err (Errno ENOENT), w)
  | Stat _ => (Err ENOENT, w)
  | RemoveFile _ => (Some ENOENT, w)
  | RemoveAll _ => (None, w)
  | Mknod _ _ _ => (None, w)
  | MkdirAll _ => (None, w)
  | ReadDir _ => (Err (Errno ENOENT), w)
  | WriteFile _ _ => (None, w)
  | Rename _ _ => (None, w)
  | OpenFile _ => (None, w)
  | Flock _ => (None, w)
  | KillProcess _ _ => (Some ESRCH, w)
  | StartProcess _ _ => (Ok 1, w)
  | ProcessExited _ => (false, w)
  | Dial _ => (Some (Errno ENOENT), w)
  | CloseConn _ => (tt, w)
  | ReadLine _ => (Err (DNew "EOF"), w)
  | DoneWithin _ d => (true, w)
  | WaitDone _ => (Ok (-1, None), w)
  | HTTPGet _ => (Err (Errno ENOENT), w)
  | BootSelect _ _ _ _ _ => (BootGone, w)
  | TimeNow => (w, w)
  | Sleep d => (tt, w + Z.max 0 d)
  | Uint32N n => (0, w)
  end.

#[export] Instance empty_clocked : Clocked Z empty_machine id.
Proof. split; unfold id; [intros ? [] ?|..]; intros; cbn; lia. Qed.
