(* ===== verification/Dm.v ===== *)
(** * Device-mapper requests

    internal/packages/thin/dm.go: the buffers exchanged with the device-mapper through
    ioctls, byte for byte, and the calls built on them.  Integers are little endian
    (amd64).  The kernel is the environment: an ioctl may fail with any errno or rewrite
    the buffer in any way. *)

From Stdlib Require Import ZArith Lia Ascii.
From stdpp Require Import base tactics option list strings numbers.
From S2P Require Import Prelude GoStd Host.

Open Scope Z_scope.

(** ** Buffers *)

(** [n] bytes, little endian. *)
Fixpoint le_bytes (n : nat) (z : Z) : bytes :=
  match n with
  | O => []
  | S n => byte (Z.to_nat (z mod 256)) :: le_bytes n (z / 256)
  end.

Fixpoint le_value (b : bytes) : Z :=
  match b with
  | [] => 0
  | c :: b' => Z.of_nat (nat_of_ascii c) + 256 * le_value b'
  end.

Definition zeros (n : nat) : bytes := replicate n (byte 0).

(** [copy(buf[off:], src)], cut at the end of the buffer. *)
Definition put (off : nat) (src buf : bytes) : bytes :=
  take (length buf) (take off buf ++ src ++ drop (off + length src) buf).

Definition sub (off n : nat) (buf : bytes) : bytes := take n (drop off buf).

Definition PutUint32 (off : nat) (z : Z) (buf : bytes) : bytes := put off (le_bytes 4 z) buf.
Definition PutUint64 (off : nat) (z : Z) (buf : bytes) : bytes := put off (le_bytes 8 z) buf.
Definition Uint32 (off : nat) (buf : bytes) : Z := le_value (sub off 4 buf).
Definition Uint64 (off : nat) (buf : bytes) : Z := le_value (sub off 8 buf).

(** ** Layout *)

Definition headerSize : nat := 312.
Definition offVersion : nat := 0.
Definition offDataSize : nat := 12.
Definition offDataStart : nat := 16.
Definition offTargetCount : nat := 20.
Definition offFlags : nat := 28.
Definition offDev : nat := 40.
Definition offName : nat := 48.
Definition nameSize : nat := 128.

Definition specSize : nat := 40.
Definition offSpecStart : nat := 0.
Definition offSpecLength : nat := 8.
Definition offSpecNext : nat := 20.
Definition offSpecType : nat := 24.
Definition targetTypeSize : nat := 16.

Definition flagStatusTable : Z := 16.
Definition flagBufferFull : Z := 256.

Definition cmdDevCreate : Z := 3.
Definition cmdDevRemove : Z := 4.
Definition cmdDevSuspend : Z := 6.
Definition cmdTableLoad : Z := 9.
Definition cmdTableStatus : Z := 12.
Definition cmdTargetMsg : Z := 14.

(** [_IOWR(0xfd, nr, struct dm_ioctl)]. *)
Definition ioctlRequest (nr : Z) : Z :=
  Z.lor (Z.lor (Z.lor (Z.shiftl (Z.lor 2 1) 30) (Z.shiftl (Z.of_nat headerSize) 16))
           (Z.shiftl 253 8)) nr.

Record target : Type := mkTarget {
  tg_start : Z;
  tg_length : Z;
  tg_typ : string;
  tg_params : string;
}.

Definition align8 (n : nat) : nat := Z.to_nat (Z.ldiff (Z.of_nat n + 7) 7).

(** [bytes.IndexByte(b, 0)] cuts [b]. *)
Definition cString (b : bytes) : string :=
  of_bytes (match index_byte (byte 0) b with Some i => take i b | None => b end).

Section Requests.

(** The verb [%q]. *)
Context (quote : string -> string).

Definition newRequest (name : string) (payloadSize : nat) : result derror bytes :=
  if decide (nameSize <= String.length name)%nat
  then Err (DNew ("device name " +:+ quote name +:+ " too long"))
  else let buf := zeros (headerSize + payloadSize) in
       Ok (put offName (to_bytes name)
             (PutUint32 offDataStart (Z.of_nat headerSize)
                (PutUint32 offDataSize (uint32 (Z.of_nat (length buf)))
                   (PutUint32 offVersion 4 buf)))).

Definition encode_target (t : target) : bytes :=
  let size := align8 (specSize + String.length (tg_params t) + 1) in
  put specSize (to_bytes (tg_params t))
    (put offSpecType (to_bytes (tg_typ t))
       (PutUint32 offSpecNext (uint32 (Z.of_nat size))
          (PutUint64 offSpecLength (tg_length t)
             (PutUint64 offSpecStart (tg_start t) (zeros size))))).

Fixpoint encodeTargets (targets : list target) : result derror bytes :=
  match targets with
  | [] => Ok []
  | t :: rest =>
      if decide (targetTypeSize <= String.length (tg_typ t))%nat
      then Err (DNew ("target type " +:+ quote (tg_typ t) +:+ " too long"))
      else match encodeTargets rest with
           | Ok out => Ok (encode_target t ++ out)
           | Err e => Err e
           end
  end.

Definition decode_spec (spec : bytes) : target :=
  mkTarget (Uint64 offSpecStart spec) (Uint64 offSpecLength spec)
    (cString (sub offSpecType targetTypeSize spec)) (cString (drop specSize spec)).

Fixpoint decode_loop (count : nat) (off : nat) (data : bytes) : result derror (list target) :=
  match count with
  | O => Ok []
  | S n =>
      if decide (length data < off + specSize)%nat
      then Err (DNew "dm target spec out of bounds")
      else let spec := drop off data in
           match decode_loop n (Z.to_nat (Uint32 offSpecNext spec)) data with
           | Ok rest => Ok (decode_spec spec :: rest)
           | Err e => Err e
           end
  end.

Definition decodeTargets (buf : bytes) : result derror (list target) :=
  if decide (length buf < headerSize)%nat then Err (DNew "short dm ioctl buffer")
  else let count := Uint32 offTargetCount buf in
       let dataStart := Z.to_nat (Uint32 offDataStart buf) in
       let dataSize := Z.to_nat (Uint32 offDataSize buf) in
       if decide (length buf < dataSize \/ dataSize < dataStart)%nat
       then Err (DNew "dm ioctl output out of bounds")
       else decode_loop (Z.to_nat count) 0 (sub dataStart (dataSize - dataStart) buf).

Definition ioctl (nr : Z) (buf : bytes) : kprog (result derror bytes) :=
  KOp (Ioctl (ioctlRequest nr) buf) (fun r =>
    KRet (match r with Ok b => Ok b | Err e => Err (Errno e) end)).

Definition removeRetries : nat := 25.
Definition removeRetryDelay : Z := 200 * Millisecond.

(** The attempts from one with [retries] left. *)
Fixpoint remove_attempts (retries : nat) (name : string) : kprog (result derror unit) :=
  (buf <-? newRequest name 0 in
   r <-k ioctl cmdDevRemove buf ;;
   match r with
   | Ok _ => KRet (Ok tt)
   | Err e =>
       match retries with
       | S n => if is_errno e EBUSY then KOp (Sleep removeRetryDelay) (fun _ => remove_attempts n name)
                else KRet (Err (DWrap ("remove device " +:+ name +:+ ": ") e))
       | O => KRet (Err (DWrap ("remove device " +:+ name +:+ ": ") e))
       end
   end)%kprog.

Definition removeDevice (name : string) : kprog (result derror unit) :=
  remove_attempts removeRetries name.

(** The buffer of the table load of [createDevice]. *)
Definition table_load (targets : list target) (payload buf : bytes) : bytes :=
  PutUint32 offTargetCount (uint32 (Z.of_nat (length targets))) (put headerSize payload buf).

(** [createDevice] after the device exists. *)
Definition load_and_resume (name : string) (targets : list target) (dev : Z)
    : kprog (result derror Z) :=
  (payload <-? encodeTargets targets in
   buf <-? newRequest name (length payload) in
   r <-k ioctl cmdTableLoad (table_load targets payload buf) ;;
   _ <-? wrap_err ("load table of " +:+ name +:+ ": ") r in
   buf <-? newRequest name 0 in
   r <-k ioctl cmdDevSuspend buf ;;
   _ <-? wrap_err ("resume " +:+ name +:+ ": ") r in
   KRet (Ok dev))%kprog.

(** The deferred removal runs when what follows the creation fails. *)
Definition createDevice (name : string) (targets : list target) : kprog (result derror Z) :=
  (buf <-? newRequest name 0 in
   r <-k ioctl cmdDevCreate buf ;;
   buf <-? wrap_err ("create device " +:+ name +:+ ": ") r in
   r <-k load_and_resume name targets (Uint64 offDev buf) ;;
   match r with
   | Ok dev => KRet (Ok dev)
   | Err err =>
       rm <-k removeDevice name ;;
       KRet (Err (match rm with Ok _ => err | Err rmErr => DJoin err rmErr end))
   end)%kprog.

(** The sizes double from 4096; [fuel] is the number of sizes up to 1<<20. *)
Definition table_fuel : nat := 9.

Fixpoint table_from (fuel : nat) (size : Z) (name : string) : kprog (result derror (list target)) :=
  match fuel with
  | O => KRet (Err (DNew "out of fuel"))
  | S fuel =>
      (buf <-? newRequest name (Z.to_nat size) in
       r <-k ioctl cmdTableStatus (PutUint32 offFlags flagStatusTable buf) ;;
       buf <-? wrap_err ("table of " +:+ name +:+ ": ") r in
       if negb (Z.land (Uint32 offFlags buf) flagBufferFull =? 0)
       then if 1048576 <=? size
            then KRet (Err (DNew ("table of " +:+ name +:+ ": too large")))
            else table_from fuel (size * 2) name
       else KRet (decodeTargets buf))%kprog
  end.

Definition table (name : string) : kprog (result derror (list target)) :=
  table_from table_fuel 4096 name.

(** The buffer of [message]. *)
Definition message_request (name : string) (sector : Z) (msg : string) : result derror bytes :=
  match newRequest name (align8 (8 + String.length msg + 1)) with
  | Ok buf => Ok (put (headerSize + 8) (to_bytes msg) (PutUint64 headerSize sector buf))
  | Err e => Err e
  end.

Definition message (name : string) (sector : Z) (msg : string) : kprog (result derror unit) :=
  (buf <-? message_request name sector msg in
   r <-k ioctl cmdTargetMsg buf ;;
   match r with
   | Ok _ => KRet (Ok tt)
   | Err e => KRet (Err (DWrap ("message " +:+ quote msg +:+ " to " +:+ name +:+ ": ") e))
   end)%kprog.

End Requests.

(** ** Reading back what was written *)

Lemma length_put off src buf : (off + length src <= length buf)%nat -> length (put off src buf) = length buf.
Proof. intros H. unfold put. rewrite length_take, !length_app, length_take, length_drop. lia. Qed.

Lemma put_in_range off src buf :
  (off + length src <= length buf)%nat ->
  put off src buf = take off buf ++ src ++ drop (off + length src) buf.
Proof. intros H. unfold put. apply take_ge. rewrite !length_app, length_take, length_drop. lia. Qed.

Lemma length_le_bytes n z : length (le_bytes n z) = n.
Proof. revert z. induction n as [|n IH]; intros z; [done|]. cbn. by rewrite IH. Qed.

Lemma le_value_bytes n z : le_value (le_bytes n z) = z mod 2 ^ (8 * Z.of_nat n).
Proof.
  revert z. induction n as [|n IH]; intros z; [cbn; by rewrite Z.mod_1_r|].
  cbn [le_bytes le_value]. rewrite IH. unfold byte.
  rewrite Ascii.nat_ascii_embedding by (pose proof (Z.mod_pos_bound z 256); lia).
  rewrite Z2Nat.id by (apply Z.mod_pos_bound; lia).
  replace (8 * Z.of_nat (S n)) with (8 + 8 * Z.of_nat n) by lia.
  rewrite Z.pow_add_r by lia. change (2 ^ 8) with 256.
  rewrite (Z.rem_mul_r z 256 (2 ^ (8 * Z.of_nat n))) by lia. lia.
Qed.

Lemma sub_put_same off src buf :
  (off + length src <= length buf)%nat -> sub off (length src) (put off src buf) = src.
Proof.
  intros H. rewrite put_in_range by done. unfold sub.
  rewrite drop_app_length' by (rewrite length_take; lia). by rewrite take_app_length.
Qed.

Lemma sub_put_after off n off' src buf :
  (off' + length src <= length buf)%nat -> (off' + length src <= off)%nat ->
  sub off n (put off' src buf) = sub off n buf.
Proof.
  intros H Hd. rewrite put_in_range by done. unfold sub. f_equal. rewrite app_assoc.
  rewrite drop_app_ge by (rewrite length_app, length_take; lia).
  rewrite drop_drop. f_equal. rewrite length_app, length_take. lia.
Qed.

Lemma sub_put_before off n off' src buf :
  (off' + length src <= length buf)%nat -> (off + n <= off')%nat ->
  sub off n (put off' src buf) = sub off n buf.
Proof.
  intros H Hd. rewrite put_in_range by done. unfold sub.
  rewrite drop_app_le by (rewrite length_take; lia).
  rewrite take_app_le by (rewrite length_drop, length_take; lia).
  rewrite !take_drop_commute, take_take. do 2 f_equal. lia.
Qed.

Lemma sub_zeros off n m : (off + n <= m)%nat -> sub off n (zeros m) = zeros n.
Proof. intros H. unfold sub, zeros. rewrite drop_replicate, take_replicate. f_equal. lia. Qed.

Lemma sub_split off a n buf : (a <= n)%nat -> sub off n buf = sub off a buf ++ sub (off + a) (n - a) buf.
Proof.
  intros H. unfold sub. replace n with (a + (n - a))%nat at 1 by lia.
  rewrite <- drop_drop. by rewrite take_take_drop.
Qed.

Lemma index_byte_app c a b : c ∉ a -> index_byte c (a ++ b) = Nat.add (length a) <$> index_byte c b.
Proof.
  induction a as [|x a IH]; intros H; cbn.
  - by destruct (index_byte c b).
  - apply not_elem_of_cons in H as [H1 H2]. destruct (Ascii.eqb_spec x c) as [->|_]; [done|].
    rewrite IH by done. by destruct (index_byte c b).
Qed.

(** A string without NUL is read back from a zeroed field. *)
Lemma cString_padded s k : byte 0 ∉ to_bytes s -> cString (to_bytes s ++ zeros k) = s.
Proof.
  intros H. unfold cString. rewrite index_byte_app by done. destruct k as [|k].
  - cbn [index_byte zeros replicate fmap option_fmap option_map]. rewrite app_nil_r. apply of_to_bytes.
  - change (index_byte (byte 0) (zeros (S k))) with (Some O). cbn [fmap option_fmap option_map].
    rewrite Nat.add_0_r, take_app_length. apply of_to_bytes.
Qed.

(** A device-mapper table the kernel can carry: sectors of 64 bits, a type and parameters
    without NUL, the type within its field, the whole within a 32-bit size. *)
Record target_ok (t : target) : Prop := {
  to_start : 0 <= tg_start t < 2 ^ 64;
  to_length : 0 <= tg_length t < 2 ^ 64;
  to_typ : (String.length (tg_typ t) < targetTypeSize)%nat;
  to_typ_nul : byte 0 ∉ to_bytes (tg_typ t);
  to_params_nul : byte 0 ∉ to_bytes (tg_params t);
  to_size : Z.of_nat (String.length (tg_params t)) < 2 ^ 31;
}.

Lemma length_to_bytes s : length (to_bytes s) = String.length s.
Proof. unfold to_bytes. induction s as [|c s IH]; [done|]. cbn. by rewrite IH. Qed.

Lemma align8_bounds n : (n <= align8 n < n + 8)%nat.
Proof.
  unfold align8. assert (Z.ldiff (Z.of_nat n + 7) 7 = (Z.of_nat n + 7) - (Z.of_nat n + 7) mod 8) as ->.
  { change 7 with (Z.ones 3) at 2. rewrite Z.ldiff_ones_r, Z.shiftl_mul_pow2, Z.shiftr_div_pow2 by done.
    change (2 ^ 3) with 8. pose proof (Z.div_mod (Z.of_nat n + 7) 8). lia. }
  pose proof (Z.mod_pos_bound (Z.of_nat n + 7) 8). lia.
Qed.

Ltac layout :=
  unfold headerSize, offVersion, offDataSize, offDataStart, offTargetCount, offFlags, offDev, offName,
    nameSize, specSize, offSpecStart, offSpecLength, offSpecNext, offSpecType, targetTypeSize in *.

(** Side conditions on the lengths of nested [put]s. *)
Ltac lens :=
  repeat first
    [ rewrite length_put | rewrite length_le_bytes | rewrite length_to_bytes
    | progress unfold zeros; rewrite length_replicate ];
  layout; try lia.

Lemma encode_target_length t :
  target_ok t ->
  length (encode_target t) = align8 (specSize + String.length (tg_params t) + 1).
Proof.
  intros [_ _ Ht _ _ _]. pose proof (align8_bounds (specSize + String.length (tg_params t) + 1)).
  unfold encode_target, PutUint32, PutUint64. lens.
Qed.

Lemma Uint64_same off z buf :
  (off + 8 <= length buf)%nat -> 0 <= z < 2 ^ 64 -> Uint64 off (PutUint64 off z buf) = z.
Proof.
  intros H Hz. unfold Uint64, PutUint64. rewrite <- (length_le_bytes 8 z) at 1.
  rewrite sub_put_same by (by rewrite length_le_bytes). rewrite le_value_bytes. by apply Z.mod_small.
Qed.

Lemma Uint32_same off z buf :
  (off + 4 <= length buf)%nat -> 0 <= z < 2 ^ 32 -> Uint32 off (PutUint32 off z buf) = z.
Proof.
  intros H Hz. unfold Uint32, PutUint32. rewrite <- (length_le_bytes 4 z) at 1.
  rewrite sub_put_same by (by rewrite length_le_bytes). rewrite le_value_bytes. by apply Z.mod_small.
Qed.

(** A NUL-padded string field is read back. *)
Lemma cString_field off n s buf :
  (off + n <= length buf)%nat -> (String.length s <= n)%nat -> byte 0 ∉ to_bytes s ->
  sub (off + String.length s) (n - String.length s) buf = zeros (n - String.length s) ->
  cString (sub off n (put off (to_bytes s) buf)) = s.
Proof.
  intros Hb Hn Hz Hpad. rewrite (sub_split off (String.length s) n) by done.
  rewrite <- (length_to_bytes s) at 1. rewrite sub_put_same by (rewrite length_to_bytes; lia).
  rewrite sub_put_after by (rewrite length_to_bytes; lia). rewrite Hpad. by apply cString_padded.
Qed.

Lemma sub_all off buf : drop off buf = sub off (length buf - off) buf.
Proof. unfold sub. rewrite take_ge; [done|]. rewrite length_drop. lia. Qed.

Lemma decode_encode_target t : target_ok t -> decode_spec (encode_target t) = t.
Proof.
  intros Hok. pose proof (encode_target_length t Hok) as Hlen. destruct Hok as [Hs Hl Ht Hz1 Hz2 _].
  pose proof (align8_bounds (specSize + String.length (tg_params t) + 1)) as Hal.
  set (size := align8 (specSize + String.length (tg_params t) + 1)) in *.
  unfold decode_spec. rewrite (sub_all specSize), Hlen. unfold encode_target. fold size.
  destruct t as [start len typ params]. cbn [tg_start tg_length tg_typ tg_params] in *. f_equal.
  - unfold Uint64 at 1. rewrite !sub_put_before; [|unfold PutUint64, PutUint32; lens..].
    unfold PutUint32. rewrite sub_put_before; [|unfold PutUint64; lens..].
    unfold PutUint64 at 1. rewrite sub_put_before; [|unfold PutUint64; lens..].
    apply Uint64_same; [lens|done].
  - unfold Uint64 at 1. rewrite !sub_put_before; [|unfold PutUint64, PutUint32; lens..].
    unfold PutUint32. rewrite sub_put_before; [|unfold PutUint64; lens..].
    apply Uint64_same; [unfold PutUint64; lens|done].
  - rewrite sub_put_before; [|unfold PutUint64, PutUint32; lens..].
    apply cString_field; [unfold PutUint64, PutUint32; lens|lens|done|].
    unfold PutUint32, PutUint64. rewrite !sub_put_after; [|lens..]. apply sub_zeros. lens.
  - apply cString_field; [unfold PutUint64, PutUint32; lens|lens|done|].
    rewrite sub_put_after; [|unfold PutUint64, PutUint32; lens..].
    unfold PutUint32, PutUint64. rewrite !sub_put_after; [|lens..]. apply sub_zeros. lens.
Qed.

(** The header [newRequest] writes. *)
Lemma newRequest_ok quote name n :
  (String.length name < nameSize)%nat ->
  exists buf, newRequest quote name n = Ok buf /\ length buf = (headerSize + n)%nat
    /\ sub offTargetCount 4 buf = zeros 4
    /\ (Z.of_nat (headerSize + n) < 2 ^ 32 -> Uint32 offDataSize buf = Z.of_nat (headerSize + n))
    /\ Uint32 offDataStart buf = Z.of_nat headerSize
    /\ (byte 0 ∉ to_bytes name -> cString (sub offName nameSize buf) = name)
    /\ (forall off k, (headerSize <= off)%nat -> (off + k <= headerSize + n)%nat -> sub off k buf = zeros k).
Proof.
  intros Hn. unfold newRequest. destruct (decide _) as [|_]; [lia|].
  assert (length (zeros (headerSize + n)) = (headerSize + n)%nat) as Hz by apply length_replicate.
  rewrite Hz. eexists. split; [done|]. split; [unfold PutUint32; lens|].
  split; [|split; [|split; [|split]]].
  - unfold PutUint32. rewrite sub_put_before; [|lens..]. rewrite !sub_put_after; [|lens..].
    apply sub_zeros. lens.
  - intros Hs. unfold Uint32. rewrite sub_put_before; [|unfold PutUint32; lens..].
    unfold PutUint32 at 1. rewrite sub_put_before; [|unfold PutUint32; lens..].
    fold (Uint32 offDataSize (PutUint32 offDataSize (uint32 (Z.of_nat (headerSize + n)))
            (PutUint32 offVersion 4 (zeros (headerSize + n))))).
    rewrite Uint32_same; [|unfold PutUint32; lens|unfold uint32; apply Z.mod_pos_bound; lia].
    unfold uint32. apply Z.mod_small. lia.
  - unfold Uint32. rewrite sub_put_before; [|unfold PutUint32; lens..].
    apply Uint32_same; [unfold PutUint32; lens|done].
  - intros Hnul. apply cString_field; [unfold PutUint32; lens|lens|done|].
    unfold PutUint32. rewrite !sub_put_after; [|lens..]. apply sub_zeros. lens.
  - intros off k Ho Hk. unfold PutUint32. rewrite !sub_put_after; [|lens..]. by apply sub_zeros.
Qed.

(** C37: a table survives the trip through the device-mapper buffer.  The request
    [createDevice] loads names the device, and [decodeTargets] reads its one target back,
    for every 64-bit start and length and every type and parameters without NUL. *)
Theorem table_roundtrip quote name t :
  target_ok t -> (String.length name < nameSize)%nat -> byte 0 ∉ to_bytes name ->
  exists payload buf,
    encodeTargets quote [t] = Ok payload /\ newRequest quote name (length payload) = Ok buf
    /\ decodeTargets (table_load [t] payload buf) = Ok [t]
    /\ cString (sub offName nameSize (table_load [t] payload buf)) = name.
Proof.
  intros Hok Hn Hnul. cbn [encodeTargets]. pose proof (to_typ _ Hok) as Ht.
  destruct (decide _) as [|_]; [lia|]. rewrite app_nil_r.
  pose proof (encode_target_length t Hok) as Hlen. set (payload := encode_target t) in *.
  pose proof (align8_bounds (specSize + String.length (tg_params t) + 1)) as Hal. rewrite <- Hlen in Hal.
  destruct (newRequest_ok quote name (length payload) Hn) as (buf & E & Hb & Hc & Hds & Hst & Hname & _).
  exists payload, buf. split; [done|]. split; [done|].
  pose proof (to_size _ Hok) as Hsz. unfold specSize in Hal.
  assert (length (put headerSize payload buf) = length buf) as Hp by (apply length_put; lia).
  assert (length (table_load [t] payload buf) = length buf) as Htl.
  { unfold table_load, PutUint32. rewrite length_put; [done|]. rewrite length_le_bytes, Hp. layout. lia. }
  split.
  - unfold decodeTargets. rewrite Htl, Hb. destruct (decide _) as [|_]; [lia|].
    unfold table_load. rewrite Uint32_same by (rewrite ?Hp, ?Hb; layout; done || lia).
    unfold Uint32, PutUint32. rewrite !(sub_put_before _ 4); [|rewrite ?length_le_bytes, ?Hp, ?Hb; layout; lia..].
    fold (Uint32 offDataStart buf) (Uint32 offDataSize buf). rewrite Hst, Hds by (layout; lia).
    rewrite !Nat2Z.id. destruct (decide _) as [|_]; [lia|].
    change (Z.to_nat (uint32 (Z.of_nat (length [t])))) with 1%nat.
    replace (headerSize + length payload - headerSize)%nat with (length payload) by lia.
    rewrite sub_put_after; [|rewrite ?length_le_bytes, ?Hp, ?Hb; layout; lia..].
    rewrite sub_put_same by lia. cbn [decode_loop]. destruct (decide _) as [|_]; [unfold specSize in *; lia|].
    rewrite drop_0. unfold payload. by rewrite decode_encode_target.
  - unfold table_load, PutUint32. rewrite sub_put_after; [|rewrite ?length_le_bytes, ?Hp, ?Hb; layout; lia..].
    rewrite sub_put_before by (layout; lia). by apply Hname.
Qed.

Lemma table_roundtrip_witness :
  exists payload buf,
    encodeTargets id [mkTarget 0 2097152 "thin" "/dev/mapper/fire2 70000"] = Ok payload
    /\ newRequest id "fire2-sb-a" (length payload) = Ok buf
    /\ decodeTargets (table_load [mkTarget 0 2097152 "thin" "/dev/mapper/fire2 70000"] payload buf)
       = Ok [mkTarget 0 2097152 "thin" "/dev/mapper/fire2 70000"]
    /\ cString (sub offName nameSize
         (table_load [mkTarget 0 2097152 "thin" "/dev/mapper/fire2 70000"] payload buf)) = "fire2-sb-a"%string.
Proof.
  apply (table_roundtrip id "fire2-sb-a" (mkTarget 0 2097152 "thin" "/dev/mapper/fire2 70000")).
  - split; vm_compute; try (split; congruence); try lia; try reflexivity;
      intros H; repeat (apply elem_of_cons in H as [H|H]; [discriminate H|]); by apply elem_of_nil in H.
  - vm_compute. lia.
  - apply (bool_decide_eq_false_1 (byte 0 ∈ to_bytes "fire2-sb-a")). vm_compute. reflexivity.
Defined.
