(* ===== verification/ThinPool.v ===== *)
(** * The thin pool

    internal/packages/thin/pool.go: the settings files, the volume of a sandbox, its
    creation and its removal, as programs over the host (Host.v).  [unix.Major],
    [unix.Minor] and [unix.Mkdev] are parameters, as is the verb [%q]. *)

From Stdlib Require Import ZArith Lia Ascii.
From stdpp Require Import base tactics option list gmap strings numbers.
From S2P Require Import Prelude GoStd Host Dm.

Open Scope Z_scope.

Definition volumePrefix : string := "fire2-sb-".
Definition mapperDir : string := "/dev/mapper".
Definition maxThinID : Z := 2 ^ 24 - 1.
Definition createAttempts : nat := 16.

(** ** readEnvFile *)

(** The longest line of a bufio.Scanner. *)
Definition maxScanTokenSize : nat := 64 * 1024.

(** The lines of [bufio.ScanLines]: a last empty line does not count. *)
Definition scan_lines (content : string) : list string :=
  let l := Split content (byte 10) in
  match rev l with
  | last :: before => if bool_decide (last = EmptyString) then rev before else l
  | [] => []
  end.

(** [strings.Cut(s, "=")]. *)
Definition Cut_equals (s : string) : option (string * string) :=
  let b := to_bytes s in
  (fun i => (of_bytes (take i b), of_bytes (drop (S i) b))) <$> index_byte (byte 61) b.

Definition unquote_value (value : string) : string :=
  let b := to_bytes value in
  match b, rev b with
  | c :: _ :: _, d :: _ =>
      if (Ascii.eqb c (byte 34) || Ascii.eqb c (byte 39)) && Ascii.eqb d c
      then of_bytes (take (length b - 2) (drop 1 b)) else value
  | _, _ => value
  end.

Definition env_line (vars : gmap string string) (text : string) : gmap string string :=
  let line := TrimSpace text in
  if bool_decide (line = EmptyString) || HasPrefix line "#" then vars
  else match Cut_equals line with
       | None => vars
       | Some (key, value) => <[TrimSpace key := unquote_value (TrimSpace value)]> vars
       end.

(** The text of a file; its lines must fit the scanner. *)
Definition parse_env (path content : string) : result derror (gmap string string) :=
  let lines := scan_lines content in
  if existsb (fun l => (maxScanTokenSize <=? String.length l)%nat) lines
  then Err (DWrap ("read " +:+ path +:+ ": ") (DNew "bufio.Scanner: token too long"))
  else Ok (foldl env_line ∅ lines).

Definition readEnvFile (path : string) : kprog (result derror (gmap string string)) :=
  KOp (ReadFile path) (fun r => KRet (match r with
                                 | Ok content => parse_env path content
                                 | Err e => Err e
                                 end)).

(** ** The pool *)

Record Pool : Type := mkPool {
  p_Name : string;
  p_Dir : string;
  p_FirstSandboxID : Z;
}.

Record base : Type := mkBase {
  b_thinID : Z;
  b_sectors : Z;
}.

(** [vars[key]]. *)
Definition get (vars : gmap string string) (key : string) : string := default EmptyString (vars !! key).

(** [^[A-Za-z0-9_-]{1,64}$]. *)
Definition valid_byte (c : ascii) : bool :=
  let n := Z.of_nat (nat_of_ascii c) in
  ((65 <=? n) && (n <=? 90)) || ((97 <=? n) && (n <=? 122)) || ((48 <=? n) && (n <=? 57))
  || (n =? 95) || (n =? 45).

Definition validSandboxID (id : string) : bool :=
  let b := to_bytes id in
  (1 <=? length b)%nat && (length b <=? 64)%nat && forallb valid_byte b.

Section Pool.

Context (quote : string -> string).
Context (Major Minor : Z -> Z) (Mkdev : Z -> Z -> Z).

Definition LoadPool (confPath : string) : kprog (result derror Pool) :=
  (r <-k readEnvFile confPath ;;
   vars <-? r in
   let name := get vars "POOL_NAME" in
   let dir := get vars "POOL_DIR" in
   let invalid := KRet (Err (DNew (confPath +:+ ": invalid FIRST_SANDBOX_ID "
                                     +:+ quote (get vars "FIRST_SANDBOX_ID")))) in
   if bool_decide (name = EmptyString) || bool_decide (dir = EmptyString)
   then KRet (Err (DNew (confPath +:+ ": POOL_NAME and POOL_DIR are required")))
   else match ParseUint (get vars "FIRST_SANDBOX_ID") 32 with
        | None => invalid
        | Some first => if (first =? 0) || (maxThinID <? first) then invalid
                        else KRet (Ok (mkPool name dir (uint32 first)))
        end)%kprog.

Definition loadBase (p : Pool) : kprog (result derror base) :=
  let path := Join (p_Dir p) "base.env" in
  (r <-k readEnvFile path ;;
   vars <-? wrap_err "no base volume imported: " r in
   let bad_id := KRet (Err (DNew (path +:+ ": invalid BASE_THIN_ID "
                                    +:+ quote (get vars "BASE_THIN_ID")))) in
   let bad_sectors := KRet (Err (DNew (path +:+ ": invalid BASE_SECTORS "
                                         +:+ quote (get vars "BASE_SECTORS")))) in
   match ParseUint (get vars "BASE_THIN_ID") 32 with
   | None => bad_id
   | Some id =>
       if (id =? 0) || (p_FirstSandboxID p <=? id) then bad_id
       else match ParseUint (get vars "BASE_SECTORS") 64 with
            | None => bad_sectors
            | Some sectors => if sectors =? 0 then bad_sectors
                              else KRet (Ok (mkBase (uint32 id) sectors))
            end
   end)%kprog.

Definition volumeName (sandboxID : string) : result derror string :=
  if validSandboxID sandboxID then Ok (volumePrefix +:+ sandboxID)
  else Err (DNew ("invalid sandbox id " +:+ quote sandboxID)).

Definition VolumePath (sandboxID : string) : string := Join mapperDir (volumePrefix +:+ sandboxID).

Definition create_snap_msg (id baseID : Z) : string :=
  "create_snap " +:+ Itoa id +:+ " " +:+ Itoa baseID.

Definition delete_msg (id : Z) : string := "delete " +:+ Itoa id.

(** The draws from one with [attempts] left. *)
Fixpoint snapshot_attempts (attempts : nat) (p : Pool) (baseID : Z) : kprog (result derror Z) :=
  match attempts with
  | O => KRet (Err (DNew ("no free thin id after " +:+ Itoa (Z.of_nat createAttempts) +:+ " attempts")))
  | S n =>
      KOp (Uint32N (uint32 (maxThinID - p_FirstSandboxID p + 1))) (fun x =>
        let id := uint32 (p_FirstSandboxID p + x) in
        (r <-k message quote (p_Name p) 0 (create_snap_msg id baseID) ;;
         match r with
         | Ok _ => KRet (Ok id)
         | Err e => if is_errno e EEXIST then snapshot_attempts n p baseID else KRet (Err e)
         end)%kprog)
  end.

Definition createSnapshot (p : Pool) (baseID : Z) : kprog (result derror Z) :=
  snapshot_attempts createAttempts p baseID.

(** [%+v] of a table. *)
Definition target_text (t : target) : string :=
  "{start:" +:+ Itoa (tg_start t) +:+ " length:" +:+ Itoa (tg_length t) +:+ " typ:" +:+ tg_typ t
    +:+ " params:" +:+ tg_params t +:+ "}".
Definition table_text (l : list target) : string := "[" +:+ join_with " " (target_text <$> l) +:+ "]".

Definition sandboxThinID (p : Pool) (name : string) (tbl : list target) : result derror Z :=
  let refuse := Err (DNew ("refusing to remove " +:+ name +:+ ", unexpected table: " +:+ table_text tbl)) in
  match tbl with
  | [t] =>
      if bool_decide (tg_typ t = "thin"%string)
      then match Fields (tg_params t) with
           | [_; f] =>
               match ParseUint f 32 with
               | Some id => if (p_FirstSandboxID p <=? id) && (id <=? maxThinID)
                            then Ok (uint32 id) else refuse
               | None => refuse
               end
           | _ => refuse
           end
      else refuse
  | _ => refuse
  end.

Definition removeNode (path : string) : kprog (result derror unit) :=
  KOp (RemoveFile path) (fun r =>
    KRet (match r with
          | Some e => if decide (e = ENOENT) then Ok tt
                      else Err (DWrap ("remove node " +:+ path +:+ ": ") (Errno e))
          | None => Ok tt
          end)).

Definition S_IFMT : Z := 61440.
Definition S_IFBLK : Z := 24576.

(** The rounds of [ensureNode], then its last check. *)
Fixpoint ensure_rounds (rounds : nat) (path : string) (dev want : Z) : kprog (result derror unit) :=
  match rounds with
  | O =>
      KOp (Stat path) (fun r =>
        let bad := Err (DNew ("node " +:+ path +:+ " does not point to device "
                                +:+ Itoa (Major dev) +:+ ":" +:+ Itoa (Minor dev))) in
        KRet (match r with
              | Ok (_, rdev) => if rdev =? want then Ok tt else bad
              | Err _ => bad
              end))
  | S n =>
      let mknod :=
        KOp (Mknod path (Z.lor S_IFBLK 384) want) (fun r =>
          match r with
          | None | Some EEXIST => ensure_rounds n path dev want
          | Some e => KRet (Err (DWrap ("mknod " +:+ path +:+ ": ") (Errno e)))
          end) in
      KOp (Stat path) (fun r =>
        match r with
        | Ok (mode, rdev) =>
            if (Z.land mode S_IFMT =? S_IFBLK) && (rdev =? want) then KRet (Ok tt)
            else KOp (RemoveFile path) (fun rm =>
                   match rm with
                   | None | Some ENOENT => mknod
                   | Some e => KRet (Err (DWrap ("remove stale node " +:+ path +:+ ": ") (Errno e)))
                   end)
        | Err _ => mknod
        end)
  end.

Definition ensureNode (path : string) (dev : Z) : kprog (result derror unit) :=
  ensure_rounds 2 path dev (Mkdev (Major dev) (Minor dev)).

Definition openControl {A} (k : kprog (result derror A)) : kprog (result derror A) :=
  KOp OpenControl (fun r => match r with
                         | Some e => KRet (Err (DWrap "open /dev/mapper/control: " (Errno e)))
                         | None => k
                         end).

Definition RemoveVolume (p : Pool) (sandboxID : string) : kprog (result derror unit) :=
  (name <-? volumeName sandboxID in
   openControl (
     let path := VolumePath sandboxID in
     r <-k table quote name ;;
     match r with
     | Err e => if is_errno e ENXIO then removeNode path else KRet (Err e)
     | Ok tbl =>
         thinID <-? sandboxThinID p name tbl in
         r <-k removeDevice quote name ;;
         _ <-? r in
         r <-k removeNode path ;;
         _ <-? r in
         message quote (p_Name p) 0 (delete_msg thinID)
     end))%kprog.

(** [err = errors.Join(err, e2)] when the second one is not nil. *)
Definition join_err {A B} (err : derror) (r : result derror B) : kprog (result derror A) :=
  KRet (Err (match r with Ok _ => err | Err e2 => DJoin err e2 end)).

Definition CreateVolume (p : Pool) (sandboxID : string) : kprog (result derror string) :=
  (name <-? volumeName sandboxID in
   r <-k loadBase p ;;
   b <-? r in
   openControl (
     r <-k createSnapshot p (b_thinID b) ;;
     thinID <-? r in
     r <-k createDevice quote name
             [mkTarget 0 (b_sectors b) "thin" (Join mapperDir (p_Name p) +:+ " " +:+ Itoa thinID)] ;;
     match r with
     | Err err =>
         rm <-k message quote (p_Name p) 0 (delete_msg thinID) ;;
         join_err err rm
     | Ok dev =>
         let path := VolumePath sandboxID in
         r <-k ensureNode path dev ;;
         match r with
         | Err err => rm <-k RemoveVolume p sandboxID ;; join_err err rm
         | Ok _ => KRet (Ok path)
         end
     end))%kprog.

End Pool.

(** Paths and settings on examples. *)
Example clean_path : VolumePath "a" = "/dev/mapper/fire2-sb-a"%string
  /\ Join "/var/lib/../pool/" "base.env" = "/var/pool/base.env"%string.
Proof. vm_compute. auto. Qed.

(** ** What the programs may ask of the kernel *)

(** An id of a sandbox volume. *)
Definition sandbox_id (p : Pool) (id : Z) : Prop := p_FirstSandboxID p <= id <= maxThinID.

(** The ioctls of a sandbox: messages to the pool that create or delete a volume with the
    id of a sandbox, and commands on the device of that sandbox. *)
Definition touches_ioctl (p : Pool) (sandboxID : string) (r : Z) (b : bytes) : Prop :=
  (r = ioctlRequest cmdTargetMsg
   /\ exists quote id, sandbox_id p id
      /\ (message_request quote (p_Name p) 0 (delete_msg id) = Ok b
          \/ exists base, 0 < base < p_FirstSandboxID p
             /\ message_request quote (p_Name p) 0 (create_snap_msg id base) = Ok b))
  \/ (r <> ioctlRequest cmdTargetMsg
      /\ cString (sub offName nameSize b) = volumePrefix +:+ sandboxID).

(** Of files, only the node of that device is made or removed. *)
Definition touches (p : Pool) (sandboxID : string) (X : Type) (o : hop X) : Prop :=
  match o with
  | Ioctl r b => touches_ioctl p sandboxID r b
  | RemoveFile path | Mknod path _ _ => path = VolumePath sandboxID
  | OpenControl | ReadFile _ | Stat _ | Sleep _ | Uint32N _ => True
  | _ => False
  end.

Definition pool_ok (p : Pool) : Prop := 0 < p_FirstSandboxID p <= maxThinID.

(** A delete message never names a base volume. *)
Lemma delete_msg_inj a b : 0 <= a < 2 ^ 32 -> 0 <= b < 2 ^ 32 -> delete_msg a = delete_msg b -> a = b.
Proof.
  intros Ha Hb E. apply Itoa_inj; [done|done|]. unfold delete_msg in E.
  apply (f_equal to_bytes) in E. rewrite !to_bytes_app in E. apply app_inv_head in E.
  by rewrite <- (of_to_bytes (Itoa a)), E, of_to_bytes.
Qed.

Section Safety.

Context (quote : string -> string) (Major Minor : Z -> Z) (Mkdev : Z -> Z -> Z).
Context (p : Pool) (sandboxID name : string).
Context (Hp : pool_ok p) (Hname : volumeName quote sandboxID = Ok name).

Lemma name_ok :
  name = volumePrefix +:+ sandboxID /\ (String.length name < nameSize)%nat /\ byte 0 ∉ to_bytes name.
Proof using Hname.
  unfold volumeName in Hname. destruct (validSandboxID sandboxID) eqn:Hv; [|done].
  injection Hname as <-. unfold validSandboxID in Hv. apply andb_prop in Hv as [Hl Hf].
  apply andb_prop in Hl as [_ Hl%Nat.leb_le]. split; [done|].
  rewrite <- length_to_bytes, to_bytes_app, length_app. split; [unfold nameSize; change (length (to_bytes volumePrefix)) with 9%nat; lia|].
  intros [H|H]%elem_of_app.
  - revert H. apply (bool_decide_eq_false_1 (byte 0 ∈ to_bytes volumePrefix)). vm_compute. reflexivity.
  - apply list_elem_of_In in H. rewrite forallb_forall in Hf. specialize (Hf _ H). vm_compute in Hf. discriminate Hf.
Qed.

Lemma ioctl_touches nr b :
  ioctlRequest nr <> ioctlRequest cmdTargetMsg -> cString (sub offName nameSize b) = name ->
  kwp (touches p sandboxID) (ioctl nr b) (fun _ => True).
Proof using Hname.
  intros Hn Hb. destruct name_ok as [-> _]. cbn. split; [|by intros]. right. split; [done|exact Hb].
Qed.

Lemma request_name n :
  exists buf, newRequest quote name n = Ok buf /\ length buf = (headerSize + n)%nat
    /\ cString (sub offName nameSize buf) = name.
Proof using Hname.
  destruct name_ok as (-> & Hl & Hz). destruct (newRequest_ok quote (volumePrefix +:+ sandboxID) n Hl) as (buf & E & Hb & _ & _ & _ & H & _). eauto.
Qed.

Lemma removeDevice_touches : kwp (touches p sandboxID) (removeDevice quote name) (fun _ => True).
Proof using Hname.
  unfold removeDevice. generalize removeRetries. destruct (request_name 0) as (buf & E & _ & Hb).
  intros n. induction n as [|n IH]; cbn [remove_attempts]; rewrite E; apply kwp_bind;
    (eapply kwp_mono; [|by apply ioctl_touches]); intros [x|e] _; cbn; try done.
  by destruct (is_errno e EBUSY); [cbn; split|].
Qed.

Lemma table_touches : kwp (touches p sandboxID) (table quote name) (fun _ => True).
Proof using Hname.
  unfold table. generalize table_fuel, 4096. intros fuel. induction fuel as [|fuel IH]; intros size; [done|].
  cbn [table_from]. destruct (request_name (Z.to_nat size)) as (buf & -> & Hl & Hb).
  apply kwp_bind. eapply kwp_mono; [|apply ioctl_touches; [done|]].
  - intros [x|e] _; cbn [wrap_err]; [|done]. destruct (negb _); [|done]. by destruct (_ <=? size).
  - unfold PutUint32. rewrite sub_put_after; [done|..]; lens.
Qed.

Lemma load_touches targets dev :
  kwp (touches p sandboxID) (load_and_resume quote name targets dev) (fun _ => True).
Proof using Hname.
  unfold load_and_resume. destruct (encodeTargets quote targets) as [payload|e]; [|done].
  destruct (request_name (length payload)) as (buf & -> & Hl & Hb).
  apply kwp_bind. eapply kwp_mono; [|apply ioctl_touches; [done|]].
  - intros [x|e] _; cbn [wrap_err]; [|done]. destruct (request_name 0) as (buf2 & -> & _ & Hb2).
    apply kwp_bind. eapply kwp_mono; [|by apply ioctl_touches]. by intros [y|e] _.
  - unfold table_load, PutUint32. rewrite sub_put_after; [|lens..]. rewrite sub_put_before; [done|lens..].
Qed.

Lemma createDevice_touches targets :
  kwp (touches p sandboxID) (createDevice quote name targets) (fun _ => True).
Proof using Hname.
  unfold createDevice. destruct (request_name 0) as (buf & -> & _ & Hb).
  apply kwp_bind. eapply kwp_mono; [|by apply ioctl_touches]. intros [x|e] _; cbn [wrap_err]; [|done].
  apply kwp_bind. eapply kwp_mono; [|apply load_touches]. intros [d|e] _; [done|].
  apply kwp_bind. eapply kwp_mono; [|apply removeDevice_touches]. done.
Qed.

Lemma message_touches msg :
  (forall b, message_request quote (p_Name p) 0 msg = Ok b -> touches_ioctl p sandboxID (ioctlRequest cmdTargetMsg) b) ->
  kwp (touches p sandboxID) (message quote (p_Name p) 0 msg) (fun _ => True).
Proof using.
  intros H. unfold message. destruct (message_request quote (p_Name p) 0 msg) as [b|e]; [|done].
  cbn. split; [by apply H|]. by intros [x|e].
Qed.

Lemma delete_touches id :
  sandbox_id p id -> kwp (touches p sandboxID) (message quote (p_Name p) 0 (delete_msg id)) (fun _ => True).
Proof using. intros Hid. apply message_touches. intros b E. left. split; [done|]. exists quote, id. auto. Qed.

Lemma snapshot_touches base :
  0 < base < p_FirstSandboxID p ->
  kwp (touches p sandboxID) (createSnapshot quote p base)
    (fun r => forall id, r = Ok id -> sandbox_id p id).
Proof using Hp.
  intros Hbase. unfold createSnapshot. generalize createAttempts. intros n.
  induction n as [|n IH]; [done|]. cbn [snapshot_attempts kwp possible]. split; [done|]. intros x Hx.
  assert (sandbox_id p (uint32 (p_FirstSandboxID p + x))) as Hid.
  { unfold pool_ok, sandbox_id, uint32, maxThinID in *. rewrite Z.mod_small in Hx by lia.
    rewrite Z.mod_small by lia. lia. }
  apply kwp_bind. eapply kwp_mono; [|apply message_touches].
  - intros [y|e] _; [by intros id [= <-]|]. by destruct (is_errno e EEXIST).
  - intros b E. left. split; [done|]. exists quote, (uint32 (p_FirstSandboxID p + x)). split; [done|]. right. by exists base.
Qed.

Lemma sandboxThinID_range tbl id : sandboxThinID p name tbl = Ok id -> sandbox_id p id.
Proof using Hp.
  unfold sandboxThinID. intros H. repeat case_match; try done. injection H as <-.
  match goal with E : (_ && _) = true |- _ => apply andb_prop in E as [?%Z.leb_le ?%Z.leb_le] end.
  unfold sandbox_id, pool_ok, uint32, maxThinID in *. rewrite Z.mod_small; lia.
Qed.

Lemma RemoveVolume_touches :
  kwp (touches p sandboxID) (RemoveVolume quote p sandboxID) (fun _ => True).
Proof using Hp Hname.
  unfold RemoveVolume. rewrite Hname. cbn [openControl kwp]. split; [done|]. intros [e|] _; [done|].
  apply kwp_bind. eapply kwp_mono; [|apply table_touches]. intros [tbl|e] _.
  - destruct (sandboxThinID p name tbl) as [id|e] eqn:Eid; [|done].
    apply kwp_bind. eapply kwp_mono; [|apply removeDevice_touches]. intros [u|e] _; [|done].
    apply kwp_bind. cbn. split; [done|]. intros [e|] _; [destruct (decide (e = ENOENT))|]; cbn; try done;
      apply delete_touches; by eapply sandboxThinID_range.
  - destruct (is_errno e ENXIO); [|done]. cbn. by split.
Qed.

End Safety.

(** ** The text of a message *)

Lemma digits_no_nul f n : 0 <= n -> byte 0 ∉ digits f n.
Proof.
  assert (forall d, 0 <= d < 10 -> byte 0 ∉ [digit_byte d]) as Hd.
  { intros d Hd H. apply list_elem_of_singleton in H. pose proof (digit_value_byte d Hd) as E.
    rewrite <- H in E. discriminate E. }
  revert n. induction f as [|f IH]; intros n Hn; cbn [digits]; [apply not_elem_of_nil|].
  destruct (Z.ltb_spec n 10); [apply Hd; lia|].
  intros [H'|H']%elem_of_app; [|by apply (Hd (n mod 10)); [apply Z.mod_pos_bound|]].
  revert H'. apply IH. apply Z.div_pos; lia.
Qed.

Lemma Itoa_no_nul n : 0 <= n -> byte 0 ∉ to_bytes (Itoa n).
Proof.
  intros Hn. unfold Itoa, Itoa_bytes. rewrite to_of_bytes. destruct (Z.ltb_spec n 0); [lia|].
  by apply digits_no_nul.
Qed.

(** The text of a message is read back from its buffer. *)
Definition message_text (b : bytes) : string := cString (drop (headerSize + 8) b).

Lemma message_text_ok quote name sector msg b :
  byte 0 ∉ to_bytes msg -> message_request quote name sector msg = Ok b -> message_text b = msg.
Proof.
  intros Hz. unfold message_request, message_text.
  pose proof (align8_bounds (8 + String.length msg + 1)) as Hal.
  set (n := align8 (8 + String.length msg + 1)) in *.
  destruct (decide (nameSize <= String.length name)%nat) as [|Hn].
  { unfold newRequest. by rewrite decide_True. }
  destruct (newRequest_ok quote name n ltac:(lia)) as (buf & -> & Hl & _ & _ & _ & _ & Hpad).
  intros [= <-]. rewrite sub_all, length_put by (unfold PutUint64; lens).
  unfold PutUint64 at 1. rewrite length_put, Hl by lens.
  apply cString_field; [unfold PutUint64; lens|lens|done|].
  unfold PutUint64. rewrite sub_put_after; [|lens..]. apply Hpad; lens.
Qed.

Lemma touches_no_base p sandboxID b base :
  pool_ok p -> touches_ioctl p sandboxID (ioctlRequest cmdTargetMsg) b -> 0 <= base < p_FirstSandboxID p ->
  message_text b <> delete_msg base.
Proof.
  intros Hp [(_ & quote & id & Hid & H)|[[] _]] Hbase Ht; [|done].
  unfold sandbox_id, pool_ok, maxThinID in *. destruct H as [E|(b0 & Hb0 & E)].
  - apply message_text_ok in E; [|unfold delete_msg; rewrite to_bytes_app; intros [H|H]%elem_of_app].
    + rewrite E in Ht. apply delete_msg_inj in Ht; lia.
    + revert H. apply (bool_decide_eq_false_1 (byte 0 ∈ to_bytes "delete ")). vm_compute. reflexivity.
    + revert H. apply Itoa_no_nul. lia.
  - apply message_text_ok in E.
    + rewrite E in Ht. discriminate Ht.
    + unfold create_snap_msg. rewrite !to_bytes_app. intros [H|[H|[H|H]%elem_of_app]%elem_of_app]%elem_of_app; revert H.
      * apply (bool_decide_eq_false_1 (byte 0 ∈ to_bytes "create_snap ")). vm_compute. reflexivity.
      * apply Itoa_no_nul. lia.
      * apply (bool_decide_eq_false_1 (byte 0 ∈ to_bytes " ")). vm_compute. reflexivity.
      * apply Itoa_no_nul. lia.
Qed.

(** ** What the settings guarantee *)

(** Programs that only read files. *)
Definition only_reads (X : Type) (o : hop X) : Prop := match o with ReadFile _ => True | _ => False end.

Lemma LoadPool_ok quote confPath :
  kwp only_reads (LoadPool quote confPath) (fun r => forall p, r = Ok p -> pool_ok p).
Proof.
  unfold LoadPool. apply kwp_bind. cbn. split; [done|]. intros [content|e] _; [|done].
  destruct (parse_env confPath content) as [vars|e]; [|done].
  destruct (_ || _); [done|]. destruct (ParseUint _ 32) as [first|] eqn:Ef; [|done].
  apply ParseUint_range in Ef.
  destruct ((first =? 0) || (maxThinID <? first)) eqn:E; [done|].
  apply orb_false_elim in E as [E1%Z.eqb_neq E2%Z.ltb_ge]. intros p [= <-].
  unfold pool_ok, uint32, maxThinID in *. cbn [p_FirstSandboxID]. rewrite Z.mod_small; lia.
Qed.

Lemma loadBase_ok quote p :
  pool_ok p ->
  kwp only_reads (loadBase quote p) (fun r => forall b, r = Ok b -> 0 < b_thinID b < p_FirstSandboxID p).
Proof.
  intros Hp. unfold loadBase. apply kwp_bind. cbn. split; [done|]. intros [content|e] _; [|done].
  destruct (parse_env _ content) as [vars|e]; [|done]. cbn [wrap_err].
  destruct (ParseUint _ 32) as [id|] eqn:Eid; [|done]. apply ParseUint_range in Eid.
  destruct (_ || _) eqn:E; [done|]. apply orb_false_elim in E as [E1%Z.eqb_neq E2%Z.leb_gt].
  destruct (ParseUint _ 64) as [sectors|]; [|done]. destruct (sectors =? 0); [done|].
  intros b [= <-]. unfold pool_ok, uint32, maxThinID in *. cbn [b_thinID]. rewrite Z.mod_small; lia.
Qed.

(** [ensureNode] works on the node alone. *)
Lemma ensure_touches Major Minor p sandboxID n dev want :
  kwp (touches p sandboxID) (ensure_rounds Major Minor n (VolumePath sandboxID) dev want) (fun _ => True).
Proof.
  induction n as [|n IH]; cbn [ensure_rounds kwp]; [by split|].
  assert (kwp (touches p sandboxID) (KOp (Mknod (VolumePath sandboxID) (Z.lor S_IFBLK 384) want) (fun r =>
            match r with
            | None | Some EEXIST => ensure_rounds Major Minor n (VolumePath sandboxID) dev want
            | Some e => KRet (Err (DWrap ("mknod " +:+ VolumePath sandboxID +:+ ": ") (Errno e)))
            end)) (fun _ => True)) as Hmk.
  { split; [done|]. by intros [[]|] _. }
  split; [done|]. intros [[mode rdev]|e] _; [|done].
  destruct (_ && _); [done|]. split; [done|]. by intros [[]|] _.
Qed.

Lemma CreateVolume_touches quote Major Minor Mkdev p sandboxID :
  pool_ok p ->
  kwp (touches p sandboxID) (CreateVolume quote Major Minor Mkdev p sandboxID) (fun _ => True).
Proof.
  intros Hp. unfold CreateVolume. destruct (volumeName quote sandboxID) as [name|e] eqn:Hn; [|done].
  apply kwp_bind. eapply kwp_mono; [|eapply kwp_weaken; [|by apply loadBase_ok]; by intros ? []].
  intros [b|e] Hb; [|done].
  specialize (Hb b eq_refl). cbn [openControl kwp]. split; [done|]. intros [e|] _; [done|].
  apply kwp_bind. eapply kwp_mono; [|by apply snapshot_touches]. intros [id|e] Hid; [|done].
  specialize (Hid id eq_refl). apply kwp_bind. eapply kwp_mono; [|by eapply createDevice_touches].
  intros [dev|e] _.
  - apply kwp_bind. eapply kwp_mono with (Q := fun _ => True).
    + intros [u|e] _; [done|]. apply kwp_bind. by eapply kwp_mono; [|by eapply RemoveVolume_touches].
    + apply ensure_touches.
  - apply kwp_bind. by eapply kwp_mono; [|by eapply delete_touches].
Qed.

(** The text of the message an operation sends to the pool, if it is one. *)
Definition pool_message {X} (o : hop X) : option string :=
  match o with
  | Ioctl r b => if r =? ioctlRequest cmdTargetMsg then Some (message_text b) else None
  | _ => None
  end.

(** C21: a sandbox cannot destroy a base volume.  With the settings [LoadPool] accepts,
    creating or removing the volume of a sandbox only ever sends commands to the device of
    that sandbox, makes or removes its node, and sends the pool messages that create or
    delete a volume with the id of a sandbox; no message deletes an id below the first
    sandbox id, where the base volumes are.  This holds whatever the kernel answers, the
    reported table of the device included. *)
Theorem thin_spares_base quote Major Minor Mkdev confPath sandboxID :
  kwp only_reads (LoadPool quote confPath) (fun r => forall p, r = Ok p ->
    let allowed X (o : hop X) :=
      touches p sandboxID X o
      /\ (forall base, 0 <= base < p_FirstSandboxID p -> pool_message o <> Some (delete_msg base)) in
    kwp allowed (CreateVolume quote Major Minor Mkdev p sandboxID) (fun _ => True)
    /\ kwp allowed (RemoveVolume quote p sandboxID) (fun _ => True)).
Proof.
  eapply kwp_mono; [|apply LoadPool_ok]. intros r Hr p Hp allowed. specialize (Hr p Hp).
  assert (forall X (o : hop X), touches p sandboxID X o -> allowed X o) as Hall.
  { intros X o Ht. split; [done|]. intros base Hbase. destruct o; try done. cbn.
    destruct (Z.eqb_spec req (ioctlRequest cmdTargetMsg)) as [->|]; [|done].
    intros [= E]. by eapply touches_no_base. }
  split; eapply kwp_weaken; try done.
  - by apply CreateVolume_touches.
  - destruct (volumeName quote sandboxID) as [name|e] eqn:E; [by eapply RemoveVolume_touches|].
    unfold RemoveVolume. by rewrite E.
Qed.
