(* ===== verification/Shim.v ===== *)
(** * The shim, seen from the worker

    internal/packages/shim: the files and the line of the protocol (shim.go), the worker's
    side of it (client.go), as programs over the host, and the arguments the shim's Main
    takes (server.go), with what package flag does with them.  The rest of the shim is in
    ShimProtocol.v.  [quote] is the verb [%q], [text] the message of a machine error. *)

From Stdlib Require Import ZArith Lia Ascii.
From stdpp Require Import base tactics option list gmap strings numbers.
From S2P Require Import Prelude GoStd Host.

Open Scope Z_scope.

(** ** shim.go *)

Definition ConfigFile : string := "vm.json".
Definition PidFile : string := "shim.pid".
Definition SocketFile : string := "shim.sock".
Definition APISocket : string := "firecracker.sock".
Definition ShimLogFile : string := "shim.log".
Definition ProcessName : string := "fire2-shim".
Definition ExitFile : string := "shim.exit".
Definition exitedPrefix : string := "exited ".

Definition newline : string := of_bytes [byte 10].

Definition exitedLine (code : Z) : string := exitedPrefix +:+ Itoa code +:+ newline.

Definition Path (dir file : string) : string := Join dir file.

(** The text of [strconv.Atoi]'s error, which depends on why it fails. *)
Definition atoi_reason (s : string) : string :=
  let digits := match to_bytes s with
                | c :: b => if Ascii.eqb c (byte 45) || Ascii.eqb c (byte 43) then b else c :: b
                | [] => []
                end in
  match parse_digits digits 0, digits with
  | Some _, _ :: _ => "value out of range"
  | _, _ => "invalid syntax"
  end.

(** Nanoseconds of the durations. *)
Definition connectTimeout : Z := 3 * 10 ^ 9.
Definition connectPoll : Z := 10 * 10 ^ 6.

(** [cmd.Args]. *)
Definition spawn_args (dir firecrackerPath : string) : list string :=
  [ProcessName; "-dir"%string; dir; "-firecracker"%string; firecrackerPath].

Section Shim.

Context (quote : string -> string) (text : derror -> string).

Definition Atoi_err (s : string) : result derror Z :=
  match Atoi s with
  | Some n => Ok n
  | None => Err (DNew ("strconv.Atoi: parsing " +:+ quote s +:+ ": " +:+ atoi_reason s))
  end.

Definition parseExitedLine (line : string) : result derror Z :=
  match CutPrefix (TrimSpace line) (TrimSpace exitedPrefix) with
  | None => Err (DNew ("unexpected shim message " +:+ quote line))
  | Some rest => Atoi_err (TrimSpace rest)
  end.

Definition writeExit (dir : string) (code : Z) : kprog (option derror) :=
  let tmp := Path dir (ExitFile +:+ ".tmp") in
  KOp (WriteFile tmp (Itoa code)) (fun r =>
    match r with
    | Some e => KRet (Some e)
    | None => KOp (Rename tmp (Path dir ExitFile)) KRet
    end).

Definition readExit (dir : string) : kprog (result derror Z) :=
  (r <-op ReadFile (Path dir ExitFile) ;;
   b <-? r in
   KRet (Atoi_err (TrimSpace b)))%kprog.

(** server.go's half of the pid file. *)
Definition writePidFile (dir : string) (getpid : Z) : kprog (option derror) :=
  let tmp := Path dir (PidFile +:+ ".tmp") in
  KOp (WriteFile tmp (Itoa getpid +:+ newline)) (fun r =>
    match r with
    | Some e => KRet (Some (DWrap "write pid file: " e))
    | None => KOp (Rename tmp (Path dir PidFile)) (fun r =>
        KRet (match r with
              | Some e => Some (DWrap "write pid file: " e)
              | None => None
              end))
    end).

(** ** client.go *)

Definition readPid (dir : string) : kprog (result derror Z) :=
  (r <-op ReadFile (Path dir PidFile) ;;
   raw <-? r in
   let invalid := KRet (Err (DNew ("invalid pid file " +:+ quote raw))) in
   match Atoi (TrimSpace raw) with
   | None => invalid
   | Some pid => if pid <=? 0 then invalid else KRet (Ok pid)
   end)%kprog.

(** [strings.Split(strings.TrimRight(raw, "\x00"), "\x00")]. *)
Definition argv (raw : string) : list string :=
  Split (of_bytes (rev (trim_left [[byte 0]] (rev (to_bytes raw))))) (byte 0).

(** [flag] is followed by [value] somewhere in [args]. *)
Fixpoint has_flag (flag value : string) (args : list string) : bool :=
  match args with
  | a :: (b :: _) as rest => (bool_decide (a = flag) && bool_decide (b = value)) || has_flag flag value rest
  | _ => false
  end.

Definition shim_argv (dir : string) (args : list string) : bool :=
  match args with
  | [] => false
  | a0 :: rest => bool_decide (Base a0 = ProcessName) && has_flag "-dir" dir rest
  end.

Definition cmdline (pid : string) : string := Join (Join "/proc" pid) "cmdline".

Definition isShimOf (pid : Z) (dir : string) : kprog bool :=
  (r <-op ReadFile (cmdline (Itoa pid)) ;;
   KRet (match r with
         | Err _ => false
         | Ok raw => shim_argv dir (argv raw)
         end))%kprog.

(** [h_conn]: connected; a handle that is not was done when Spawn returned, with that
    code. *)
Record Handle : Type := mkHandle {
  h_dir : string;
  h_pid : Z;
  h_conn : bool;
  h_code : Z;
}.

Definition newHandle (dir : string) (pid : Z) : Handle := mkHandle dir pid true 0.

(** The rounds of the connection loop; [None]: the fuel ran out. *)
Fixpoint connect_loop (fuel : nat) (dir : string) (pid deadline : Z) : kprog (option (result derror Handle)) :=
  match fuel with
  | O => KRet None
  | S n =>
      (r <-op Dial (Path dir SocketFile) ;;
       match r with
       | None => KRet (Some (Ok (newHandle dir pid)))
       | Some err =>
           exited <-op ProcessExited pid ;;
           if (exited : bool) then
             c <-k readExit dir ;;
             KRet (Some (match c with
                         | Err e => Err (DWrap ("shim exited before accepting connections (see "
                                                  +:+ Path dir ShimLogFile +:+ "): ") e)
                         | Ok code => Ok (mkHandle dir pid false code)
                         end))
           else
             now <-op TimeNow ;;
             if deadline <? now then
               _ <-op KillProcess pid SIGKILL ;;
               KRet (Some (Err (DWrap "shim did not listen within 3s: " err)))
             else
               _ <-op Sleep connectPoll ;;
               connect_loop n dir pid deadline
       end)%kprog
  end.

(** Three seconds of polling at ten milliseconds, and a round after the deadline. *)
Definition connect_fuel : nat := 302.

Definition Spawn (shimPath dir firecrackerPath : string) : kprog (option (result derror Handle)) :=
  (r <-op OpenFile (Path dir ShimLogFile) ;;
   match r with
   | Some e => KRet (Some (Err (DWrap "open shim log: " e)))
   | None =>
       r <-op RemoveFile (Path dir ExitFile) ;;
       let start :=
         r <-op StartProcess shimPath (spawn_args dir firecrackerPath) ;;
         match r with
         | Err e => KRet (Some (Err (DWrap "start shim: " e)))
         | Ok pid =>
             now <-op TimeNow ;;
             connect_loop connect_fuel dir pid (now + connectTimeout)
         end in
       match r with
       | None => start
       | Some e => if decide (e = ENOENT) then start
                   else KRet (Some (Err (DWrap "remove stale exit file: " (Errno e))))
       end
   end)%kprog.

(** [fmt.Errorf("%w: ...", ErrShimGone, ...)]. *)
Definition shim_gone (suf : string) : derror := DGo (WrapSuf (Sentinel Shim_ErrShimGone) (": " +:+ suf)).

Definition Attach (dir : string) : kprog (result derror Handle) :=
  (r <-k readPid dir ;;
   match r with
   | Err e => KRet (Err (shim_gone (text e)))
   | Ok pid =>
       ok <-k isShimOf pid dir ;;
       if negb ok then
         KRet (Err (shim_gone ("pid " +:+ Itoa pid +:+ " is not the shim of " +:+ dir)))
       else
         c <-k readExit dir ;;
         match c with
         | Ok code => KRet (Err (shim_gone ("its VM already exited with code " +:+ Itoa code)))
         | Err _ =>
             r <-op Dial (Path dir SocketFile) ;;
             KRet (match r with
                   | Some e => Err (shim_gone (text e))
                   | None => Ok (newHandle dir pid)
                   end)
         end
   end)%kprog.

(** What [read] leaves in the handle: its code and error. *)
Definition read (dir : string) : kprog (Z * option derror) :=
  (r <-op ReadLine (Path dir SocketFile) ;;
   _ <-op CloseConn (Path dir SocketFile) ;;
   let from_file err :=
     c <-k readExit dir ;;
     KRet (match c with
           | Ok code => (code, None)
           | Err _ => (-1, Some err)
           end) in
   match r with
   | Ok line =>
       match parseExitedLine line with
       | Ok code => KRet (code, None)
       | Err e => from_file e
       end
   | Err _ => from_file (DNew "shim died without reporting an exit")
   end)%kprog.

Definition Wait (h : Handle) : kprog (Z * option derror) :=
  if h_conn h then
    (r <-op WaitDone (h_pid h) ;;
     KRet (match r with
           | Ok res => res
           | Err e => (-1, Some e)
           end))%kprog
  else KRet (h_code h, None).

(** A signal to the shim; a shim that is gone is not an error. *)
Definition signal_shim (what : string) (pid : Z) (sig : signal) (k : kprog (option derror))
    : kprog (option derror) :=
  (r <-op KillProcess pid sig ;;
   match r with
   | None => k
   | Some e => if decide (e = ESRCH) then k
               else KRet (Some (DWrap (what +:+ Itoa pid +:+ ": ") (Errno e)))
   end)%kprog.

(** [case <-h.done] within a delay. *)
Definition done_within (h : Handle) (d : Z) (k : bool -> kprog (option derror)) : kprog (option derror) :=
  if h_conn h then KOp (DoneWithin (h_pid h) d) k else k true.

Definition Stop (h : Handle) (grace : Z) : kprog (option derror) :=
  done_within h 0 (fun gone =>
    if gone then KRet None
    else signal_shim "signal shim " (h_pid h) SIGTERM (
      done_within h grace (fun gone =>
        if gone then KRet None
        else signal_shim "kill shim " (h_pid h) SIGKILL (
          done_within h (2 * 10 ^ 9) (fun gone =>
            KRet (if gone then None
                  else Some (DNew ("shim " +:+ Itoa (h_pid h) +:+ " still connected after SIGKILL")))))))).

(** Dropping the connection; a handle without one was done when Spawn returned. *)
Definition Close (h : Handle) : kprog unit :=
  if h_conn h then KOp (CloseConn (Path (h_dir h) SocketFile)) KRet else KRet tt.

Definition KillStale (dir : string) : kprog (option derror) :=
  (r <-k readPid dir ;;
   match r with
   | Err _ => KRet None
   | Ok pid =>
       ok <-k isShimOf pid dir ;;
       if ok then signal_shim "kill shim " pid SIGKILL (KRet None) else KRet None
   end)%kprog.

End Shim.

(** ** server.go: the arguments of Main *)

(** [-dir] and [-firecracker]. *)
Definition set_flag (name value : string) (v : string * string) : option (string * string) :=
  if bool_decide (name = "dir"%string) then Some (value, v.2)
  else if bool_decide (name = "firecracker"%string) then Some (v.1, value)
  else None.

(** An argument of package flag: its name and what follows an equals sign. *)
Definition cut_flag (name : bytes) : string * option string :=
  match name with
  | [] => (EmptyString, None)
  | c :: rest =>
      match index_byte (byte 61) rest with
      | Some i => (of_bytes (c :: take i rest), Some (of_bytes (drop (S i) rest)))
      | None => (of_bytes name, None)
      end
  end.

(** The flag an argument is: none, a terminator, a malformed one, a name after its dashes. *)
Inductive flag_arg : Type :=
| NotFlag
| Terminator
| BadFlag
| FlagName (name : bytes).

Definition flag_name (arg : string) : flag_arg :=
  let check name := match name with
                    | [] => BadFlag
                    | c :: _ => if Ascii.eqb c (byte 45) || Ascii.eqb c (byte 61) then BadFlag else FlagName name
                    end in
  match to_bytes arg with
  | a :: b :: rest =>
      if negb (Ascii.eqb a (byte 45)) then NotFlag
      else if Ascii.eqb b (byte 45)
      then match rest with [] => Terminator | _ => check rest end
      else check (b :: rest)
  | _ => NotFlag
  end.

(** [fs.Parse(args)] of the two string flags; [None] is an error. *)
Fixpoint parse_flags (args : list string) (v : string * string) : option (string * string) :=
  match args with
  | [] => Some v
  | arg :: rest =>
      match flag_name arg with
      | NotFlag | Terminator => Some v
      | BadFlag => None
      | FlagName name =>
          match cut_flag name, rest with
          | (name, Some value), _ => set_flag name value v ≫= parse_flags rest
          | (name, None), value :: rest' => set_flag name value v ≫= parse_flags rest'
          | (name, None), [] => None
          end
      end
  end.

(** The exit code; [serve] is the shim of ShimProtocol.v, an error if it could not run. *)
Definition Main (serve : string -> string -> option derror) (args : list string) : Z :=
  match parse_flags args (EmptyString, EmptyString) with
  | None => 2
  | Some (dir, firecracker) =>
      if bool_decide (dir = EmptyString) || bool_decide (firecracker = EmptyString) then 2
      else match serve dir firecracker with Some _ => 1 | None => 0 end
  end.

(** The arguments in [/proc/<pid>/cmdline]: each is followed by a NUL. *)
Definition proc_args (args : list string) : bytes := concat ((fun a => to_bytes a ++ [byte 0]) <$> args).

Definition no_nul (s : string) : Prop := byte 0 ∉ to_bytes s.

(** ** What the programs may ask *)

Section Arguments.

Lemma split_run sep cur l b :
  sep ∉ l -> split_bytes sep cur (l ++ b) = split_bytes sep (rev l ++ cur) b.
Proof.
  revert cur. induction l as [|c l IH]; intros cur Hl; [done|]. apply not_elem_of_cons in Hl as [Hc Hl].
  cbn [split_bytes app rev]. destruct (Ascii.eqb_spec c sep) as [->|_]; [done|]. rewrite IH by done.
  by rewrite <- app_assoc.
Qed.

Lemma split_args args z :
  Forall no_nul args -> byte 0 ∉ z ->
  split_bytes (byte 0) [] (proc_args args ++ z) = (to_bytes <$> args) ++ [z].
Proof.
  intros HF Hz. induction HF as [|a args Ha _ IH].
  - cbn [proc_args fmap list_fmap concat app]. rewrite <- (app_nil_r z) at 1. rewrite split_run by done. cbn.
    by rewrite app_nil_r, rev_involutive.
  - change (proc_args (a :: args)) with ((to_bytes a ++ [byte 0]) ++ proc_args args). rewrite <- !app_assoc, split_run by done. cbn [split_bytes app].
    rewrite Ascii.eqb_refl. cbn. by rewrite IH, app_nil_r, rev_involutive.
Qed.

Lemma trim_nul r d : d <> byte 0 -> trim_left [[byte 0]] (byte 0 :: d :: r) = d :: r.
Proof. intros Hd. unfold trim_left. cbn -[byte]. rewrite Ascii.eqb_refl. by destruct (Ascii.eqb_spec (byte 0) d) as [<-|_]. Qed.

(** A command line whose last argument is not empty reads back. *)
Lemma argv_cmdline args z :
  Forall no_nul (args ++ [z]) -> z <> EmptyString -> argv (of_bytes (proc_args (args ++ [z]))) = args ++ [z].
Proof.
  intros [HF Hz]%Forall_app Hne. inversion Hz as [|? ? Hz' _]. clear Hz. rename Hz' into Hz. subst. unfold argv, proc_args. rewrite fmap_app, concat_app. cbn [fmap list_fmap concat].
  fold (proc_args args). rewrite app_nil_r, app_assoc, to_of_bytes, rev_app_distr. cbn [rev app].
  destruct (rev (to_bytes z)) as [|d r] eqn:E.
  { destruct Hne. by rewrite <- (of_to_bytes z), <- (rev_involutive (to_bytes z)), E. }
  assert (d <> byte 0) as Hd.
  { intros ->. apply Hz. rewrite <- (rev_involutive (to_bytes z)), E. cbn. apply elem_of_app. right. by left. }
  rewrite rev_app_distr, E. cbn [app]. rewrite trim_nul by done. change (d :: r ++ rev (proc_args args)) with ((d :: r) ++ rev (proc_args args)).
  rewrite <- E, <- rev_app_distr, rev_involutive. unfold Split. rewrite to_of_bytes, split_args by done.
  rewrite fmap_app, <- list_fmap_compose. cbn. rewrite of_to_bytes. f_equal.
  rewrite <- (list_fmap_id args) at 2. apply list_fmap_ext. intros i a _. apply of_to_bytes.
Qed.

(** The shim parses the arguments Spawn starts it with, and is recognised by them. *)
Lemma spawned_args serve dir firecracker :
  dir <> EmptyString -> firecracker <> EmptyString ->
  Main serve (tail (spawn_args dir firecracker))
  = match serve dir firecracker with Some _ => 1 | None => 0 end.
Proof.
  intros Hd Hf. unfold Main. cbn. by destruct dir, firecracker.
Qed.

Lemma no_nul_const s : bool_decide (byte 0 ∈ to_bytes s) = false -> no_nul s.
Proof. apply bool_decide_eq_false_1. Qed.

Lemma spawned_recognised dir firecracker :
  no_nul dir -> no_nul firecracker -> firecracker <> EmptyString ->
  shim_argv dir (argv (of_bytes (proc_args (spawn_args dir firecracker)))) = true.
Proof.
  intros Hd Hf Hne. change (spawn_args dir firecracker)
    with ([ProcessName; "-dir"%string; dir; "-firecracker"%string] ++ [firecracker]).
  rewrite argv_cmdline; [|by repeat (constructor; [first [done|by apply no_nul_const]|])|done].
  unfold shim_argv. cbn [app]. rewrite bool_decide_eq_true_2 by reflexivity. cbn [has_flag].
  rewrite (bool_decide_eq_true_2 ("-dir"%string = "-dir"%string)) by done.
  by rewrite (bool_decide_eq_true_2 (dir = dir)).
Qed.

End Arguments.

(** The line and the files read back. *)
Section Roundtrip.

Context (quote : string -> string).

Lemma solid_prefix c l b : graphic c = true -> solid b -> solid (c :: l ++ b).
Proof.
  intros Hc (c' & l' & d & r & _ & Hr & _ & Hd). exists c, (l ++ b), d, (r ++ rev (c :: l)).
  split; [done|]. split; [|done]. by rewrite app_comm_cons, rev_app_distr, Hr.
Qed.

Lemma parse_exited code :
  min_int64 <= code <= max_int64 -> parseExitedLine quote (exitedLine code) = Ok code.
Proof.
  intros Hc. unfold parseExitedLine, exitedLine, TrimSpace at 1.
  rewrite !to_bytes_app. change (to_bytes newline) with [byte 10]. rewrite app_assoc.
  rewrite TrimSpace_newline by (apply (solid_prefix "e"%char (tail (to_bytes exitedPrefix))); [done|apply Itoa_solid]).
  change (TrimSpace exitedPrefix) with "exited"%string. unfold CutPrefix. rewrite to_of_bytes.
  rewrite (proj2 (strip_prefix_Some _ _ (byte 32 :: to_bytes (Itoa code)))) by done. cbn [fmap option_fmap option_map].
  unfold TrimSpace. rewrite to_of_bytes, TrimSpace_space by apply Itoa_solid.
  unfold Atoi_err. by rewrite of_to_bytes, Atoi_Itoa.
Qed.

Lemma trim_Itoa code : TrimSpace (Itoa code) = Itoa code /\ TrimSpace (Itoa code +:+ newline) = Itoa code.
Proof.
  unfold TrimSpace. rewrite to_bytes_app. change (to_bytes newline) with [byte 10].
  rewrite TrimSpace_solid, TrimSpace_newline by apply Itoa_solid. by rewrite of_to_bytes.
Qed.

End Roundtrip.

(** ** The connection loop ends *)
Section Termination.

Context {W : Type} (answer : forall X, hop X -> W -> X * W) (clock : W -> Z).
Context `{!Clocked W answer clock}.
Context (quote : string -> string).

Lemma readExit_total {A} dir (g : result derror Z -> A) w :
  exists c w', krun answer (kbind (readExit quote dir) (fun c => KRet (g c))) w = (g c, w').
Proof.
  unfold readExit. cbn. destruct (answer _ _ w) as [[b|e] w1]; cbn; by do 2 eexists.
Qed.

(** A round returns, or the deadline is not over and a poll passes. *)
Lemma connect_round n dir pid deadline w :
  (exists r w', krun answer (connect_loop quote (S n) dir pid deadline) w = (Some r, w'))
  \/ exists w', krun answer (connect_loop quote (S n) dir pid deadline) w
                 = krun answer (connect_loop quote n dir pid deadline) w'
               /\ clock w <= deadline /\ clock w + connectPoll <= clock w'.
Proof using Clocked0.
  cbn [connect_loop krun]. pose proof (clock_mono _ (Dial (Path dir SocketFile)) w) as H1.
  destruct (answer _ (Dial _) w) as [[err|] w1]; [|left; by do 2 eexists].
  cbn [krun snd] in *. pose proof (clock_mono _ (ProcessExited pid) w1) as H2.
  destruct (answer _ (ProcessExited pid) w1) as [[] w2]; cbn [snd] in *.
  { left. match goal with |- context [kbind _ (fun c => KRet (@?g c))] =>
      destruct (readExit_total dir g w2) as (c & w' & ->) end. by do 2 eexists. }
  cbn [krun]. pose proof (clock_now w2) as H3.
  destruct (answer _ TimeNow w2) as [now w3]; cbn [fst snd] in *.
  destruct (Z.ltb_spec deadline now).
  { left. cbn. destruct (answer _ (KillProcess pid SIGKILL) w3). by do 2 eexists. }
  right. cbn [krun]. pose proof (clock_sleep connectPoll w3) as H5.
  destruct (answer _ (Sleep connectPoll) w3) as [[] w4]. cbn [snd] in *.
  exists w4. split; [done|]. lia.
Qed.

Lemma connect_loop_ends n dir pid deadline w :
  deadline < clock w + Z.of_nat n * connectPoll ->
  exists r w', krun answer (connect_loop quote (S n) dir pid deadline) w = (Some r, w').
Proof using Clocked0.
  revert w. induction n as [|n IH]; intros w Hd.
  - destruct (connect_round 0 dir pid deadline w) as [?|(w' & -> & ? & ?)]; [done|lia].
  - destruct (connect_round (S n) dir pid deadline w) as [?|(w' & -> & ? & ?)]; [done|]. apply IH. lia.
Qed.

Lemma Spawn_ends shimPath dir firecracker w :
  exists r w', krun answer (Spawn quote shimPath dir firecracker) w = (Some r, w').
Proof using Clocked0.
  unfold Spawn. cbn [krun]. destruct (answer _ (OpenFile _) w) as [[e|] w1]; [by do 2 eexists|].
  cbn [krun]. destruct (answer _ (RemoveFile _) w1) as [[e|] w2]; [destruct (decide (e = ENOENT))|];
    [|by do 2 eexists|]; cbn [krun]; destruct (answer _ (StartProcess _ _) w2) as [[pid|e'] w3];
    [|by do 2 eexists| |by do 2 eexists]; cbn [krun];
    pose proof (clock_now w3) as H; destruct (answer _ TimeNow w3) as [now w4]; cbn [fst snd] in *;
    apply connect_loop_ends; unfold connectTimeout, connectPoll; lia.
Qed.

End Termination.

(** ** The shared files, on a machine with files *)
Definition file_machine (X : Type) (o : hop X) (fs : gmap string string) : X * gmap string string :=
  match o in hop Y return Y * gmap string string with
  | ReadFile p => (match fs !! p with Some c => Ok c | None => Err (Errno ENOENT) end, fs)
  | WriteFile p c => (None, <[p := c]> fs)
  | Rename a b => match fs !! a with
                  | Some c => (None, <[b := c]> (delete a fs))
                  | None => (Some (Errno ENOENT), fs)
                  end
  | o => ((empty_machine _ o 0).1, fs)
  end.

(** C38: what the shim and the worker tell each other.  For every exit code of an int, the
    line on the socket parses back to it, and so does the exit file; the pid file gives back
    the shim's pid; the arguments Spawn starts the shim with are the directory and the
    binary it serves, and from its command line in /proc Attach and KillStale recognise it as
    the shim of that directory. *)
Theorem report_roundtrip quote serve dir firecracker code pid fs :
  min_int64 <= code <= max_int64 -> 0 < pid <= max_int64 ->
  no_nul dir -> dir <> EmptyString -> no_nul firecracker -> firecracker <> EmptyString ->
  parseExitedLine quote (exitedLine code) = Ok code
  /\ (krun file_machine (kbind (writeExit dir code) (fun _ => readExit quote dir)) fs).1 = Ok code
  /\ (krun file_machine (kbind (writePidFile dir pid) (fun _ => readPid quote dir)) fs).1 = Ok pid
  /\ Main serve (tail (spawn_args dir firecracker))
     = match serve dir firecracker with Some _ => 1 | None => 0 end
  /\ let proc := <[cmdline (Itoa pid) := of_bytes (proc_args (spawn_args dir firecracker))]> fs in
     (krun file_machine (isShimOf pid dir) proc).1 = true.
Proof.
  intros Hc Hp Hd1 Hd2 Hf1 Hf2. split; [by apply parse_exited|]. split; [|split; [|split]].
  - unfold writeExit, readExit. cbn. rewrite lookup_insert_eq. cbn. rewrite lookup_insert_eq. cbn.
    unfold Atoi_err. by rewrite (proj1 (trim_Itoa code)), Atoi_Itoa.
  - unfold writePidFile, readPid. cbn [kbind krun file_machine fst]. rewrite lookup_insert_eq.
    cbn [kbind krun file_machine fst]. rewrite lookup_insert_eq.
    rewrite (proj2 (trim_Itoa pid)), Atoi_Itoa by (unfold min_int64 in *; lia).
    destruct (Z.leb_spec pid 0); [lia|done].
  - by apply spawned_args.
  - unfold isShimOf. cbn [krun file_machine fst]. rewrite lookup_insert_eq. by apply spawned_recognised.
Qed.

Lemma report_roundtrip_witness :
  parseExitedLine (fun s => s) (exitedLine 137) = Ok 137
  /\ Main (fun _ _ => None) (tail (spawn_args "/srv/a" "/fc")) = 0.
Proof.
  destruct (report_roundtrip (fun s => s) (fun _ _ => None) "/srv/a" "/fc" 137 4242 ∅) as (H1 & _ & _ & H4 & _);
    [vm_compute; split; discriminate|vm_compute; split; congruence|by apply no_nul_const|discriminate|by apply no_nul_const|discriminate|].
  split; [exact H1|exact H4].
Defined.
