(* ===== verification/ShimProtocol.v ===== *)
(** * The shim and the worker's handles

    internal/packages/shim/server.go as a transition system: the main goroutine of the
    shim ([serve]), its accept loop, the Firecracker process it runs, the connections to
    its socket and the handles of the workers that dialed it ([Handle.read] and
    [Handle.Close], Shim.v).
    A run starts once Spawn has removed the exit file and started the process. *)

From Stdlib Require Import ZArith Lia.
From stdpp Require Import base tactics option list gmap strings numbers.
From S2P Require Import Prelude GoStd Host Shim.

Open Scope Z_scope.

#[local] Set Warnings "-clear-no-such-hyp".

(** ** exitCode *)

(** [syscall.WaitStatus] on Linux. *)
Definition Exited (ws : Z) : bool := Z.land ws 127 =? 0.
Definition Signaled (ws : Z) : bool := negb (Z.land ws 127 =? 127) && negb (Exited ws).
Definition Signal (ws : Z) : Z := if Signaled ws then Z.land ws 127 else -1.
Definition ExitStatus (ws : Z) : Z := if Exited ws then Z.land (Z.shiftr ws 8) 255 else -1.

(** What [cmd.Wait] returns: no error, an [exec.ExitError], another error. *)
Inductive wait_error : Type :=
| WaitNil
| ExitError (ws : Z)
| WaitFailed.

Definition exitCode (err : wait_error) : Z :=
  match err with
  | WaitNil => 0
  | ExitError ws => if Signaled ws then 128 + Signal ws else ExitStatus ws
  | WaitFailed => -1
  end.

Lemma land_mask a n : 0 <= n -> 0 <= Z.land a (Z.ones n) < 2 ^ n.
Proof. intros Hn. rewrite Z.land_ones by done. apply Z.mod_pos_bound. lia. Qed.

Lemma exitCode_range err : -1 <= exitCode err <= 255.
Proof.
  destruct err as [|ws|]; cbn [exitCode]; [lia| |lia]. unfold Signal, ExitStatus.
  pose proof (land_mask ws 7 ltac:(lia)) as H1. pose proof (land_mask (Z.shiftr ws 8) 8 ltac:(lia)) as H2.
  change (Z.ones 7) with 127 in H1. change (Z.ones 8) with 255 in H2. change (2 ^ 7) with 128 in H1. change (2 ^ 8) with 256 in H2.
  destruct (Signaled ws) eqn:E; [lia|]. destruct (Exited ws); lia.
Qed.

(** ** The system *)

(** The server of the shim: clients are connections, the line is empty until the exit. *)
Record server : Type := mkServer {
  sv_clients : list nat;
  sv_final : string;
}.

(** The lock section of [accept] on a new connection: the line to write to it at once, if
    the VM is over. *)
Definition accept_section (conn : nat) (s : server) : option string * server :=
  if bool_decide (sv_final s = EmptyString)
  then (None, mkServer (sv_clients s ++ [conn]) (sv_final s))
  else (Some (sv_final s), s).

Inductive accept_pc : Type :=
| AIdle
| AGot (conn : nat)
| AFinal (conn : nat) (line : string).

(** Where [serve] is; [PSending] is the loop of [finish], which holds the lock. *)
Inductive phase : Type :=
| PListen
| PPidFile
| PStarting
| PWait
| PWriteExit (code : Z)
| PFinish (code : Z)
| PSending (line : string) (todo : list nat)
| PClose
| PReturned
| PGone.

Inductive vmstate : Type :=
| VMNone
| VMStartFailed
| VMRunning
| VMExited (code : Z)
| VMKilled.

(** [time.After(killGrace)]: not armed, armed, fired. *)
Inductive timer : Type := TNil | TArmed | TFired.

(** A connection: the line the client can read, whether the shim's end is open. *)
Record conn : Type := mkConn {
  cn_line : option string;
  cn_open : bool;
}.

(** The goroutine of a handle: waiting for the line, about to read the exit file (the
    error it would keep), done (code and error). *)
Inductive handle : Type :=
| HReading
| HFile (err : derror)
| HDone (code : Z) (err : option derror).

(** [y_closed] are the handles whose worker closed its connection ([Handle.Close]).
    [y_lost] remembers that the exit could not be recorded: the shim was killed or could
    not set up before it wrote the exit file, or the file could not be written or read. *)
Record shimsys : Type := mkShim {
  y_phase : phase;
  y_vm : vmstate;
  y_signals : bool;
  y_timer : timer;
  y_exit : option Z;
  y_server : server;
  y_accept : accept_pc;
  y_listening : bool;
  y_queue : list nat;
  y_conns : gmap nat conn;
  y_handles : gmap nat handle;
  y_closed : gset nat;
  y_lost : bool;
}.

Definition shim_init : shimsys :=
  mkShim PListen VMNone false TNil None (mkServer [] EmptyString) AIdle false [] ∅ ∅ ∅ false.

Definition set_phase (p : phase) (y : shimsys) : shimsys :=
  mkShim p (y_vm y) (y_signals y) (y_timer y) (y_exit y) (y_server y) (y_accept y)
    (y_listening y) (y_queue y) (y_conns y) (y_handles y) (y_closed y) (y_lost y).
Definition set_vm (v : vmstate) (y : shimsys) : shimsys :=
  mkShim (y_phase y) v (y_signals y) (y_timer y) (y_exit y) (y_server y) (y_accept y)
    (y_listening y) (y_queue y) (y_conns y) (y_handles y) (y_closed y) (y_lost y).
Definition set_signals (b : bool) (t : timer) (y : shimsys) : shimsys :=
  mkShim (y_phase y) (y_vm y) b t (y_exit y) (y_server y) (y_accept y)
    (y_listening y) (y_queue y) (y_conns y) (y_handles y) (y_closed y) (y_lost y).
Definition set_exit (e : option Z) (lost : bool) (y : shimsys) : shimsys :=
  mkShim (y_phase y) (y_vm y) (y_signals y) (y_timer y) e (y_server y) (y_accept y)
    (y_listening y) (y_queue y) (y_conns y) (y_handles y) (y_closed y) lost.
Definition set_server (s : server) (a : accept_pc) (y : shimsys) : shimsys :=
  mkShim (y_phase y) (y_vm y) (y_signals y) (y_timer y) (y_exit y) s a
    (y_listening y) (y_queue y) (y_conns y) (y_handles y) (y_closed y) (y_lost y).
Definition set_listener (b : bool) (q : list nat) (y : shimsys) : shimsys :=
  mkShim (y_phase y) (y_vm y) (y_signals y) (y_timer y) (y_exit y) (y_server y) (y_accept y)
    b q (y_conns y) (y_handles y) (y_closed y) (y_lost y).
Definition set_conns (f : gmap nat conn -> gmap nat conn) (y : shimsys) : shimsys :=
  mkShim (y_phase y) (y_vm y) (y_signals y) (y_timer y) (y_exit y) (y_server y) (y_accept y)
    (y_listening y) (y_queue y) (f (y_conns y)) (y_handles y) (y_closed y) (y_lost y).
Definition set_handle (c : nat) (h : handle) (y : shimsys) : shimsys :=
  mkShim (y_phase y) (y_vm y) (y_signals y) (y_timer y) (y_exit y) (y_server y) (y_accept y)
    (y_listening y) (y_queue y) (y_conns y) (<[c := h]> (y_handles y)) (y_closed y) (y_lost y).
Definition set_closed (c : nat) (y : shimsys) : shimsys :=
  mkShim (y_phase y) (y_vm y) (y_signals y) (y_timer y) (y_exit y) (y_server y) (y_accept y)
    (y_listening y) (y_queue y) (y_conns y) (y_handles y) ({[c]} ∪ y_closed y) (y_lost y).

(** Closing the shim's end; writing the line first, which may fail. *)
Definition close_conn (c : conn) : conn := mkConn (cn_line c) false.
Definition write_close (line : string) (ok : bool) (c : conn) : conn :=
  mkConn (if ok then Some line else cn_line c) false.

(** The process is over: its sockets close.  A Firecracker it leaves behind is still there
    until the kernel's signal (Pdeathsig) reaches it, which may come later.  What was not
    recorded by then never is. *)
Definition process_exit (y : shimsys) : shimsys :=
  mkShim PGone (y_vm y) false (y_timer y) (y_exit y)
    (y_server y) AIdle false [] (close_conn <$> y_conns y) (y_handles y) (y_closed y)
    (match y_exit y with Some _ => y_lost y | None => true end).

(** [h.read] once the line is read or the connection drops. *)
Definition read_line (quote : string -> string) (line : string) : handle :=
  match parseExitedLine quote line with
  | Ok code => HDone code None
  | Err e => HFile e
  end.

Definition shim_died : derror := DNew "shim died without reporting an exit".

Section Steps.

Context (quote : string -> string).

Inductive sstep : shimsys -> shimsys -> Prop :=
(** serve: the socket, the pid file, then the accept loop and Firecracker. *)
| s_listen y :
    y_phase y = PListen -> sstep y (set_listener true [] (set_phase PPidFile y))
| s_pid_file y :
    y_phase y = PPidFile -> sstep y (set_phase PStarting y)
| s_start y :
    y_phase y = PStarting -> sstep y (set_vm VMRunning (set_phase PWait y))
| s_start_failed y :
    y_phase y = PStarting -> sstep y (set_vm VMStartFailed (set_phase (PWriteExit (-1)) y))
(** Firecracker exits by itself or on a signal. *)
| s_vm_exit y err :
    y_vm y = VMRunning -> sstep y (set_vm (VMExited (exitCode err)) y)
(** The select of serve: the exit, a signal, the kill timer. *)
| s_exited y code :
    y_phase y = PWait -> y_vm y = VMExited code -> sstep y (set_phase (PWriteExit code) y)
| s_signal y :
    y_phase y = PWait -> y_signals y = true ->
    sstep y (set_signals false (match y_timer y with TNil => TArmed | t => t end) y)
| s_kill y :
    y_phase y = PWait -> y_timer y = TArmed ->
    sstep y (set_vm (match y_vm y with VMRunning => VMExited (exitCode (ExitError 9)) | v => v end)
               (set_signals (y_signals y) TFired y))
(** The exit file, written or not. *)
| s_write_exit y code :
    y_phase y = PWriteExit code ->
    sstep y (set_exit (Some code) (y_lost y) (set_phase (PFinish code) y))
| s_write_exit_failed y code :
    y_phase y = PWriteExit code -> sstep y (set_exit (y_exit y) true (set_phase (PFinish code) y))
(** finish. *)
| s_finish y code :
    y_phase y = PFinish code ->
    sstep y (set_server (mkServer (sv_clients (y_server y)) (exitedLine code)) (y_accept y)
               (set_phase (PSending (exitedLine code) (sv_clients (y_server y))) y))
| s_send y line c todo ok :
    y_phase y = PSending line (c :: todo) ->
    sstep y (set_conns (alter (write_close line ok) c) (set_phase (PSending line todo) y))
| s_sent y line :
    y_phase y = PSending line [] ->
    sstep y (set_server (mkServer [] (sv_final (y_server y))) (y_accept y) (set_phase PClose y))
(** Closing the listener drops the connections still in its queue. *)
| s_close y :
    y_phase y = PClose ->
    sstep y (set_conns (fun m => foldr (alter close_conn) m (y_queue y))
               (set_listener false [] (set_phase PReturned y)))
(** The process ends: serve returned, could not set up, or it is killed. *)
| s_gone y :
    y_phase y <> PGone -> sstep y (process_exit y)
| s_pdeathsig y :
    y_phase y = PGone -> y_vm y = VMRunning -> sstep y (set_vm VMKilled y)
(** accept. *)
| s_accept y c q :
    y_phase y <> PListen -> y_phase y <> PPidFile -> y_listening y = true ->
    y_accept y = AIdle -> y_queue y = c :: q ->
    sstep y (set_server (y_server y) (AGot c) (set_listener true q y))
| s_accept_section y c line s' :
    y_accept y = AGot c -> (forall l todo, y_phase y <> PSending l todo) ->
    accept_section c (y_server y) = (line, s') ->
    sstep y (set_server s' (match line with Some l => AFinal c l | None => AIdle end) y)
| s_accept_final y c line ok :
    y_accept y = AFinal c line ->
    sstep y (set_conns (alter (write_close line ok) c) (set_server (y_server y) AIdle y))
(** The workers: SIGTERM to the shim, dialing it (Spawn or Attach), the goroutine of a
    handle, and a Spawn that finds the process over and reads the exit file.  Close drops
    the worker's end of a handle's connection, which ends the handle's read. *)
| s_sigterm y :
    y_phase y <> PGone -> sstep y (set_signals true (y_timer y) y)
| s_dial y c :
    y_listening y = true -> y_conns y !! c = None -> y_handles y !! c = None ->
    sstep y (set_handle c HReading (set_conns <[c := mkConn None true]>
               (set_listener true (y_queue y ++ [c]) y)))
| s_early y c code :
    y_phase y = PGone -> y_conns y !! c = None -> y_handles y !! c = None -> y_exit y = Some code ->
    sstep y (set_handle c (HDone code None) y)
| s_line y c cn line :
    y_handles y !! c = Some HReading -> y_conns y !! c = Some cn -> cn_line cn = Some line ->
    sstep y (set_handle c (read_line quote line) y)
| s_eof y c cn :
    y_handles y !! c = Some HReading -> y_conns y !! c = Some cn -> cn_line cn = None -> cn_open cn = false ->
    sstep y (set_handle c (HFile shim_died) y)
| s_handle_close y c :
    is_Some (y_conns y !! c) -> sstep y (set_closed c y)
| s_closed y c :
    y_handles y !! c = Some HReading -> c ∈ y_closed y -> sstep y (set_handle c (HFile shim_died) y)
| s_file y c e :
    y_handles y !! c = Some (HFile e) ->
    sstep y (set_handle c (match y_exit y with
                           | Some code => HDone code None
                           | None => HDone (-1) (Some e)
                           end) y)
| s_file_failed y c e :
    y_handles y !! c = Some (HFile e) ->
    sstep y (set_exit (y_exit y) true (set_handle c (HDone (-1) (Some e)) y)).

Definition shim_reach (y : shimsys) : Prop := rtc sstep shim_init y.

End Steps.

(** ** The invariant *)

(** The code Firecracker exited with; -1 stands for a Firecracker that did not start. *)
Definition vm_code (y : shimsys) : option Z :=
  match y_vm y with
  | VMExited code => Some code
  | VMStartFailed => Some (-1)
  | VMNone | VMRunning | VMKilled => None
  end.

(** The VM exited or never started, or its shim is gone: the kernel kills what is left. *)
Definition over (y : shimsys) : Prop :=
  is_Some (vm_code y) \/ y_phase y = PGone.

(** The exit is in the file, unless it was lost. *)
Definition recorded (y : shimsys) : Prop := is_Some (y_exit y) \/ y_lost y = true.

Definition true_line (y : shimsys) (line : string) : Prop :=
  exists code, vm_code y = Some code /\ line = exitedLine code.

Definition phase_ok (y : shimsys) : Prop :=
  match y_phase y with
  | PListen | PPidFile | PStarting => y_vm y = VMNone
  | PWait => True
  | PWriteExit code => vm_code y = Some code
  | PFinish code => vm_code y = Some code /\ recorded y
  | PSending line _ => true_line y line /\ recorded y
  | PClose | PReturned => is_Some (vm_code y) /\ recorded y
  | PGone => recorded y
  end.

Definition accept_ok (y : shimsys) : Prop :=
  match y_accept y with
  | AFinal _ line => true_line y line /\ recorded y
  | AIdle | AGot _ => True
  end.

(** A connection the shim closed, a line, a handle that is not waiting and whose worker did
    not close it: the VM is over. *)
Definition conn_ok (y : shimsys) (c : conn) : Prop :=
  (forall line, cn_line c = Some line -> true_line y line)
  /\ (cn_open c = false -> over y /\ recorded y).

Definition handle_ok (y : shimsys) (c : nat) (h : handle) : Prop :=
  match h with
  | HReading => True
  | HFile _ => c ∈ y_closed y \/ (over y /\ recorded y)
  | HDone code None => vm_code y = Some code
  | HDone _ (Some _) => c ∈ y_closed y \/ (over y /\ y_lost y = true)
  end.

Record shim_inv (y : shimsys) : Prop := {
  si_exit : forall code, y_exit y = Some code -> vm_code y = Some code;
  si_phase : phase_ok y;
  si_final : sv_final (y_server y) <> EmptyString -> true_line y (sv_final (y_server y)) /\ recorded y;
  si_accept : accept_ok y;
  si_conns : map_Forall (fun _ => conn_ok y) (y_conns y);
  si_handles : map_Forall (handle_ok y) (y_handles y);
  si_range : forall code, vm_code y = Some code -> -1 <= code <= 255;
}.

(** What no step takes back: the code, that the VM is over, what was recorded. *)
Definition extends (y y' : shimsys) : Prop :=
  (forall code, vm_code y = Some code -> vm_code y' = Some code)
  /\ (over y -> over y') /\ (recorded y -> recorded y') /\ (y_lost y = true -> y_lost y' = true)
  /\ y_closed y ⊆ y_closed y'.

Lemma true_line_mono y y' line : extends y y' -> true_line y line -> true_line y' line.
Proof. intros [H _] (code & ? & ->). exists code. auto. Qed.

Lemma conn_ok_mono y y' c : extends y y' -> conn_ok y c -> conn_ok y' c.
Proof.
  intros He [H1 H2]. pose proof He as (_ & Ho & Hr & _). split.
  - intros line Hl. eapply true_line_mono; eauto.
  - intros Hc. destruct (H2 Hc). auto.
Qed.

Lemma handle_ok_mono y y' c h : extends y y' -> handle_ok y c h -> handle_ok y' c h.
Proof.
  intros (Hc & Ho & Hr & Hl & Hcl). destruct h as [|e|code [e|]]; cbn; [done| |naive_solver..].
  intros [?|[? ?]]; [left; set_solver|right; auto].
Qed.

Lemma conns_mono y y' : extends y y' -> map_Forall (fun _ => conn_ok y) (y_conns y) ->
  map_Forall (fun _ => conn_ok y') (y_conns y).
Proof. intros He H i c Hc. eapply conn_ok_mono; eauto. Qed.

Lemma handles_mono y y' : extends y y' -> map_Forall (handle_ok y) (y_handles y) ->
  map_Forall (handle_ok y') (y_handles y).
Proof. intros He H i h Hh. eapply handle_ok_mono; eauto. Qed.

Lemma exitedLine_nonempty code : exitedLine code <> EmptyString.
Proof. done. Qed.

Section Inv.

Context (quote : string -> string).

(** Every step extends. *)
Lemma sstep_extends y y' : shim_inv y -> sstep quote y y' -> extends y y'.
Proof.
  intros Hi Hs. pose proof (si_phase _ Hi) as Hp. pose proof (si_exit _ Hi) as He.
  assert (y_closed y ⊆ y_closed y') as Hcl by (inversion Hs; subst; cbn; set_solver).
  unfold extends, over, recorded, vm_code, phase_ok, vm_code in *.
  inversion Hs; subst; cbn in *; clear Hs;
    repeat match goal with H : y_phase y = _ |- _ => rewrite H in *; revert H end;
    repeat match goal with H : y_vm y = _ |- _ => rewrite H in *; revert H end;
    try (destruct (y_vm y) eqn:?; destruct (y_exit y) eqn:?; naive_solver).
Qed.

(** The connections after their step, against the extended state. *)
Lemma alter_conns y (m : gmap nat conn) c f :
  map_Forall (fun _ => conn_ok y) m -> (forall cn, conn_ok y cn -> conn_ok y (f cn)) ->
  map_Forall (fun _ => conn_ok y) (alter f c m).
Proof.
  intros Hm Hf i cn Hi. destruct (decide (i = c)) as [->|]; simplify_map_eq; [|by eapply Hm].
  destruct (m !! c) as [cn0|] eqn:E; simplify_map_eq. by eapply Hf, Hm.
Qed.

Lemma close_ok y cn : over y -> recorded y -> conn_ok y cn -> conn_ok y (close_conn cn).
Proof. intros ? ? [? ?]. by split. Qed.

Lemma write_close_ok y line ok cn :
  true_line y line -> over y -> recorded y -> conn_ok y cn -> conn_ok y (write_close line ok cn).
Proof. intros ? ? ? [? ?]. split; [|done]. destruct ok; cbn; [|done]. by intros ? [= <-]. Qed.

Lemma true_line_over y line : true_line y line -> over y.
Proof. intros (code & H & _). left. by rewrite H. Qed.

Lemma foldr_close_ok y (m : gmap nat conn) q :
  over y -> recorded y -> map_Forall (fun _ => conn_ok y) m ->
  map_Forall (fun _ => conn_ok y) (foldr (alter close_conn) m q).
Proof.
  intros Ho Hr Hm. induction q as [|c q IH]; cbn; [done|].
  apply alter_conns; [done|]. intros cn. by apply close_ok.
Qed.

Lemma sstep_conns y y' :
  shim_inv y -> sstep quote y y' -> map_Forall (fun _ => conn_ok y') (y_conns y').
Proof.
  intros Hi Hs. pose proof (sstep_extends _ _ Hi Hs) as He. pose proof He as (_ & Ho & Hr & _).
  pose proof (conns_mono _ _ He (si_conns _ Hi)) as Hc.
  pose proof (si_phase _ Hi) as Hp. pose proof (si_accept _ Hi) as Ha.
  unfold phase_ok, accept_ok in *.
  inversion Hs; subst; try done;
    repeat match goal with
           | H : y_phase y = _, Hp : context [match y_phase y with _ => _ end] |- _ => rewrite H in Hp
           | H : y_accept y = _, Ha : context [match y_accept y with _ => _ end] |- _ => rewrite H in Ha
           end.
  - destruct Hp as [Hl ?]. apply alter_conns; [done|]. intros cn.
    apply write_close_ok; eauto using true_line_mono, true_line_over.
  - destruct Hp as [Hl ?]. apply foldr_close_ok; [apply Ho; by left|by apply Hr|done].
  - intros i cn. cbn [y_conns process_exit]. rewrite lookup_fmap, fmap_Some. intros (cn0 & Hi0 & ->).
    assert (over (process_exit y)) as Hov by by right.
    apply close_ok; [done| |by eapply Hc]. unfold recorded. cbn. destruct (y_exit y); [left|right]; done.
  - destruct Ha as [Hl ?]. apply alter_conns; [done|]. intros cn.
    apply write_close_ok; eauto using true_line_mono, true_line_over.
  - cbn [y_conns set_conns set_handle set_listener]. apply map_Forall_insert_2; [|done]. by split.
Qed.

Lemma read_line_true line code :
  -1 <= code <= 255 -> line = exitedLine code -> read_line quote line = HDone code None.
Proof.
  intros Hc ->. unfold read_line. rewrite parse_exited; [done|]. unfold min_int64, max_int64. lia.
Qed.

Lemma sstep_handles y y' :
  shim_inv y -> sstep quote y y' -> map_Forall (handle_ok y') (y_handles y').
Proof.
  intros Hi Hs. pose proof (sstep_extends _ _ Hi Hs) as He.
  pose proof (handles_mono _ _ He (si_handles _ Hi)) as Hh. pose proof (si_handles _ Hi) as Hh0.
  inversion Hs; subst; try done; cbn [y_handles set_handle set_exit]; (apply map_Forall_insert_2; [|done]).
  - done.
  - by apply (si_exit _ Hi).
  - destruct (proj1 (si_conns _ Hi _ _ H0) _ H1) as (code & Hcode & Hl).
    by rewrite (read_line_true line code (si_range _ Hi _ Hcode) Hl).
  - destruct He as (_ & Ho & Hr & _). destruct (proj2 (si_conns _ Hi _ _ H0) H2). right. split; auto.
  - by left.
  - destruct He as (_ & Ho & Hr & Hl & _). destruct (y_exit y) eqn:E; [by apply (si_exit _ Hi)|].
    destruct (Hh0 _ _ H) as [?|[? [[code ?]|?]]]; [by left|congruence|]. right. split; auto.
  - destruct He as (_ & Ho & _). destruct (Hh0 _ _ H) as [?|[? ?]]; [by left|]. right. split; auto.
Qed.

Lemma sstep_exit y y' code :
  shim_inv y -> sstep quote y y' -> y_exit y' = Some code -> vm_code y' = Some code.
Proof.
  intros Hi Hs. pose proof (sstep_extends _ _ Hi Hs) as (Hc & _). pose proof (si_exit _ Hi) as He.
  pose proof (si_phase _ Hi) as Hp. unfold phase_ok in Hp.
  inversion Hs; subst; cbn [y_exit set_exit set_phase set_vm set_signals set_server set_listener
    set_conns set_handle process_exit] in *; auto.
  intros [= <-]. apply Hc. by rewrite H in Hp.
Qed.

Lemma phase_ok_same y y' :
  extends y y' -> y_phase y' = y_phase y -> y_vm y' = y_vm y -> phase_ok y -> phase_ok y'.
Proof.
  intros He Hp Hv. pose proof He as (Hc & _ & Hr & _). unfold phase_ok. rewrite Hp, Hv.
  assert (vm_code y' = vm_code y) as -> by (unfold vm_code; by rewrite Hv).
  destruct (y_phase y); try done; intros [? ?]; eauto using true_line_mono.
Qed.

(** While Firecracker runs, serve waits for it, or its process is gone. *)
Lemma running_waits y : shim_inv y -> y_vm y = VMRunning -> y_phase y = PWait \/ y_phase y = PGone.
Proof.
  intros Hi Hv. pose proof (si_phase _ Hi) as Hp. unfold phase_ok, true_line, vm_code in Hp. rewrite Hv in Hp.
  destruct (y_phase y); try done; (by left) || (by right) || naive_solver.
Qed.

Lemma sstep_phase y y' : shim_inv y -> sstep quote y y' -> phase_ok y'.
Proof.
  intros Hi Hs. pose proof (sstep_extends _ _ Hi Hs) as He. pose proof He as (Hc & _ & Hr & _).
  pose proof (si_phase _ Hi) as Hp.
  inversion Hs; subst; try (by apply (phase_ok_same y)); unfold phase_ok in *;
    repeat match goal with H : y_phase y = _ |- _ => rewrite H in Hp end; cbn; try done.
  - by destruct (running_waits y Hi H) as [E|E]; rewrite E in *.
  - unfold vm_code. cbn. by rewrite H0.
  - by rewrite H.
  - split; [done|]. by left.
  - split; [done|]. by right.
  - destruct Hp. split; [by exists code|]. by apply Hr.
  - destruct Hp as [(code & E & _) ?]. split; [exists code; by apply Hc|]. by apply Hr.
  - unfold recorded. cbn. destruct (y_exit y); [left|right]; done.
  - rewrite H. by apply Hr.
Qed.

Lemma sstep_final y y' : shim_inv y -> sstep quote y y' ->
  sv_final (y_server y') <> EmptyString -> true_line y' (sv_final (y_server y')) /\ recorded y'.
Proof.
  intros Hi Hs. pose proof (sstep_extends _ _ Hi Hs) as He. pose proof He as (_ & _ & Hr & _).
  pose proof (si_final _ Hi) as Hf. pose proof (si_phase _ Hi) as Hp. unfold phase_ok in Hp.
  assert (sv_final (y_server y) <> EmptyString -> true_line y' (sv_final (y_server y)) /\ recorded y') as Hf'.
  { intros Hn. destruct (Hf Hn). eauto using true_line_mono. }
  inversion Hs; subst; try done.
  - rewrite H in Hp. destruct Hp. intros _. split; [by exists code|]. by apply Hr.
  - unfold accept_section in H1. destruct (bool_decide _); by simplify_eq.
Qed.

Lemma sstep_accept y y' : shim_inv y -> sstep quote y y' -> accept_ok y'.
Proof.
  intros Hi Hs. pose proof (sstep_extends _ _ Hi Hs) as He. pose proof He as (_ & _ & Hr & _).
  pose proof (si_accept _ Hi) as Ha.
  assert (match y_accept y with AFinal _ line => true_line y' line /\ recorded y' | _ => True end) as Ha'.
  { unfold accept_ok in Ha. destruct (y_accept y); try done. destruct Ha. eauto using true_line_mono. }
  inversion Hs; subst; try done.
  unfold accept_section in H1. destruct (bool_decide_reflect (sv_final (y_server y) = EmptyString));
    simplify_eq; [done|]. destruct (si_final _ Hi); [done|]. split; [by eapply true_line_mono|by apply Hr].
Qed.

Lemma sstep_range y y' code :
  shim_inv y -> sstep quote y y' -> vm_code y' = Some code -> -1 <= code <= 255.
Proof.
  intros Hi Hs. pose proof (si_range _ Hi) as Hg. unfold vm_code in *.
  inversion Hs; subst; cbn in *; try (by apply Hg); try done.
  - intros [= <-]. lia.
  - intros [= <-]. apply exitCode_range.
  - destruct (y_vm y); try done; try (by apply Hg). intros [= <-]. apply (exitCode_range (ExitError 9)).
Qed.

Lemma sstep_inv y y' : shim_inv y -> sstep quote y y' -> shim_inv y'.
Proof.
  intros Hi Hs. constructor; eauto using sstep_exit, sstep_phase, sstep_final, sstep_accept,
    sstep_conns, sstep_handles, sstep_range.
Qed.

Lemma shim_reach_inv y : shim_reach quote y -> shim_inv y.
Proof.
  unfold shim_reach. apply rtc_ind_r; [|eauto using sstep_inv]. constructor; try done; apply map_Forall_empty.
Qed.

End Inv.

(** The goroutine of a handle is [read] of client.go: what it reads on the connection,
    then, if need be, in the exit file. *)
Definition goroutine (quote : string -> string) (line file : result derror string) : Z * option derror :=
  match (match line with Ok l => read_line quote l | Err _ => HFile shim_died end) with
  | HDone code err => (code, err)
  | HFile e => match file with
               | Ok b => match Atoi_err quote (TrimSpace b) with Ok code => (code, None) | Err _ => (-1, Some e) end
               | Err _ => (-1, Some e)
               end
  | HReading => (0, None)
  end.

Lemma goroutine_read quote dir line file (answer : forall X, hop X -> unit -> X * unit) :
  (answer _ (ReadLine (Path dir SocketFile)) tt).1 = line ->
  (answer _ (ReadFile (Path dir ExitFile)) tt).1 = file ->
  (krun answer (read quote dir) tt).1 = goroutine quote line file.
Proof.
  intros H1 H2. unfold goroutine, read. cbn [krun].
  destruct (answer _ (ReadLine _) tt) as [r []]. cbn in H1. subst r. cbn [krun].
  destruct (answer _ (CloseConn _) tt) as [u []].
  unfold read_line, readExit. destruct line as [l|e]; [destruct (parseExitedLine quote l); [done|]|];
    cbn [kbind krun]; destruct (answer _ (ReadFile _) tt) as [fl []]; cbn in H2; subst fl;
    (destruct file as [b|e']; [cbn; by destruct (Atoi_err quote (TrimSpace b))|done]).
Qed.

(** From a state where the VM is over, Firecracker runs on only without its shim. *)
Lemma over_later quote y y' :
  shim_inv y -> over y -> rtc (sstep quote) y y' -> over y' /\ shim_inv y'.
Proof.
  intros Hi Ho Hs. revert Hi Ho. induction Hs as [|y1 y2 y3 H1 _ IH]; [done|]. intros Hi Ho.
  pose proof (sstep_extends _ _ _ Hi H1) as (_ & He & _). eauto using sstep_inv.
Qed.

Lemma code_later quote y y' code :
  shim_inv y -> vm_code y = Some code -> rtc (sstep quote) y y' -> vm_code y' = Some code.
Proof.
  intros Hi Hc Hs. revert Hi Hc. induction Hs as [|y1 y2 y3 H1 _ IH]; [done|]. intros Hi Hc.
  pose proof (sstep_extends _ _ _ Hi H1) as (He & _). eauto using sstep_inv.
Qed.

(** C14: what a handle that is done says.  Without an error, the VM is over for good and
    the code is the one Firecracker exited with (-1 if it did not start), also when the
    connection was dropped unanswered from the socket's queue, or the worker closed it.
    With an error, either this worker closed the handle's connection itself (Handle.Close,
    which leaves the VM alone), or the exit was never recorded (the shim was killed or
    could not set up before, or the exit file could not be written or read) and the VM is
    over: from then on a Firecracker still running has lost its shim, and the kernel's
    signal is on its way to it. *)
Theorem handle_verdict quote y y' c code err :
  shim_reach quote y -> y_handles y !! c = Some (HDone code err) -> rtc (sstep quote) y y' ->
  match err with
  | None => vm_code y = Some code /\ vm_code y' = Some code /\ y_vm y' <> VMRunning
  | Some _ =>
      c ∈ y_closed y
      \/ (y_lost y = true
          /\ (y_vm y' = VMRunning -> y_phase y' = PGone /\ sstep quote y' (set_vm VMKilled y')))
  end.
Proof.
  intros Hr Hh Hs. pose proof (shim_reach_inv _ _ Hr) as Hi. pose proof (si_handles _ Hi _ _ Hh) as Hd.
  destruct err as [e|]; cbn in Hd.
  - destruct Hd as [?|[Ho Hl]]; [by left|]. right. split; [done|]. intros Hv.
    destruct (over_later _ _ _ Hi Ho Hs) as [[[code' E]|Hg] _].
    + unfold vm_code in E. by rewrite Hv in E.
    + split; [done|by apply s_pdeathsig].
  - pose proof (code_later _ _ _ _ Hi Hd Hs) as Hd'. split; [done|]. split; [done|]. intros Hv.
    unfold vm_code in Hd'. by rewrite Hv in Hd'.
Qed.

(** A connection dropped from the queue still reports the exit code. *)
Definition dropped_handle : shimsys :=
  mkShim PReturned (VMExited 3) false TNil (Some 3) (mkServer [] (exitedLine 3)) AIdle false []
    {[0%nat := mkConn None false]} {[0%nat := HDone 3 None]} ∅ false.

Lemma dropped_handle_reach quote : shim_reach quote dropped_handle.
Proof.
  unfold shim_reach. eapply rtc_l; [by apply s_listen|]. eapply rtc_l; [by apply s_pid_file|].
  eapply rtc_l; [by apply s_start|]. eapply rtc_l; [by apply (s_vm_exit _ _ (ExitError 768))|].
  eapply rtc_l; [by apply (s_exited _ _ 3)|]. eapply rtc_l; [by apply (s_write_exit _ _ 3)|].
  eapply rtc_l; [by apply (s_finish _ _ 3)|]. eapply rtc_l; [by eapply (s_sent _ _ (exitedLine 3))|].
  eapply rtc_l; [by apply (s_dial _ _ 0)|]. eapply rtc_l; [by apply s_close|].
  eapply rtc_l; [by eapply (s_eof _ _ 0%nat)|]. eapply rtc_l; [by eapply (s_file _ _ 0%nat)|].
  replace dropped_handle with dropped_handle by done. apply rtc_refl.
Qed.

(** A handle closed by its worker while the VM runs: done with an error, and the VM still
    there for the next worker. *)
Definition closed_handle : shimsys :=
  mkShim PWait VMRunning false TNil None (mkServer [] EmptyString) AIdle true [0%nat]
    {[0%nat := mkConn None true]} {[0%nat := HDone (-1) (Some shim_died)]} {[0%nat]} false.

Lemma closed_handle_reach quote : shim_reach quote closed_handle.
Proof.
  unfold shim_reach. eapply rtc_l; [by apply s_listen|]. eapply rtc_l; [by apply s_pid_file|].
  eapply rtc_l; [by apply s_start|]. eapply rtc_l; [by apply (s_dial _ _ 0)|].
  eapply rtc_l; [by eapply (s_handle_close _ _ 0%nat)|]. eapply rtc_l; [by eapply (s_closed _ _ 0%nat)|].
  eapply rtc_l; [by eapply (s_file _ _ 0%nat)|].
  replace closed_handle with closed_handle by done. apply rtc_refl.
Qed.

(** A handle whose shim was killed: Firecracker may still be dying. *)
Definition killed_shim : shimsys :=
  mkShim PGone VMRunning false TNil None (mkServer [] EmptyString) AIdle false []
    {[0%nat := mkConn None false]} {[0%nat := HDone (-1) (Some shim_died)]} ∅ true.

Lemma killed_shim_reach quote : shim_reach quote killed_shim.
Proof.
  unfold shim_reach. eapply rtc_l; [by apply s_listen|]. eapply rtc_l; [by apply s_pid_file|].
  eapply rtc_l; [by apply s_start|]. eapply rtc_l; [by apply (s_dial _ _ 0)|].
  eapply rtc_l; [by eapply s_gone|]. eapply rtc_l; [by eapply (s_eof _ _ 0%nat)|].
  eapply rtc_l; [by eapply (s_file _ _ 0%nat)|].
  replace killed_shim with killed_shim by done. apply rtc_refl.
Qed.

Lemma handle_verdict_witness :
  shim_reach (fun s => s) dropped_handle /\ vm_code dropped_handle = Some 3
  /\ (shim_reach (fun s => s) closed_handle /\ y_vm closed_handle = VMRunning
      /\ 0%nat ∈ y_closed closed_handle)
  /\ (shim_reach (fun s => s) killed_shim /\ 0%nat ∉ y_closed killed_shim
      /\ sstep (fun s => s) killed_shim (set_vm VMKilled killed_shim)).
Proof.
  split; [exact (dropped_handle_reach _)|].
  split; [apply (handle_verdict (fun s => s) dropped_handle dropped_handle 0 3 None (dropped_handle_reach _)
           (eq_refl _) (rtc_refl _ _))|].
  split.
  - split; [exact (closed_handle_reach _)|]. split; [done|].
    destruct (handle_verdict (fun s => s) closed_handle closed_handle 0 (-1) (Some shim_died)
      (closed_handle_reach _) (eq_refl _) (rtc_refl _ _)) as [H|[H _]]; [exact H|discriminate H].
  - split; [exact (killed_shim_reach _)|]. assert (0%nat ∉ y_closed killed_shim) as Hn by (by apply not_elem_of_empty).
    split; [done|].
    destruct (handle_verdict (fun s => s) killed_shim killed_shim 0 (-1) (Some shim_died)
      (killed_shim_reach _) (eq_refl _) (rtc_refl _ _)) as [H|[_ H]]; [done|by apply H].
Defined.
