(* ===== verification/Runtime.v ===== *)
(** * One VM on its host

    internal/packages/runtime: the client of a sandbox's VM (client.go, state.go) and the
    reaping of what a sandbox left on the host (reconcile.go), as programs over the host.
    [uuid.Parse] (whether it accepts), the environment variables and the JSON encoding of
    a string are parameters. *)

From Stdlib Require Import ZArith Lia Ascii.
From stdpp Require Import base tactics option list strings numbers.
From S2P Require Import Prelude GoStd EventGRPC Manager Host Dm ThinPool Shim.

Open Scope Z_scope.

Definition stopGrace : Z := 5 * 10 ^ 9.
Definition defaultSandboxBaseDir : string := "/tmp".

Record SpawnRequest : Type := mkSpawnRequest {
  sr_ShimPath : string;
  sr_FirecrackerPath : string;
  sr_KernelPath : string;
  sr_RootDrivePath : string;
  sr_VcpuCount : Z;
  sr_MemSizeMib : Z;
  sr_BootArgs : string;
}.

(** The API client is the socket of the directory. *)
Record Client : Type := mkClient {
  cl_sandboxId : string;
  cl_Dir : string;
  cl_handle : option Handle;
}.

Definition newClient (sandboxId dir : string) : Client := mkClient sandboxId dir None.

(** ** state.go *)

Definition client_State (quote : string -> string) (c : Client) : kprog (result derror SandboxState) :=
  (r <-op HTTPGet (Path (cl_Dir c) APISocket) ;;
   resp <-? r in
   if negb (ha_code resp =? 200) then KRet (Err (DNew ("instance info: " +:+ ha_status resp)))
   else
     state <-? wrap_err "instance info: " (ha_state resp) in
     KRet (if bool_decide (state = "Running"%string) then Ok STATE_RUNNING
           else if bool_decide (state = "Paused"%string) then Ok STATE_PAUSED
           else if bool_decide (state = "Not started"%string) then Ok STATE_STARTING
           else Err (DNew ("unexpected instance state " +:+ quote state))))%kprog.

(** ** The VM's configuration file *)

Definition double_quote : string := of_bytes [byte 34].
Definition json_key (k : string) : string := double_quote +:+ k +:+ double_quote +:+ ": ".

(** [json.MarshalIndent(v, "", "  ")] of an object or an array, at a depth. *)
Definition indent (depth : nat) : string := join_with EmptyString (replicate depth "  "%string).
Definition json_block (o c : string) (depth : nat) (items : list string) : string :=
  o +:+ newline
  +:+ join_with ("," +:+ newline) ((fun i => indent (S depth) +:+ i) <$> items)
  +:+ newline +:+ indent depth +:+ c.

Section Runtime.

Context (quote : string -> string) (text : derror -> string) (uuid_Parse : string -> bool).
Context (Getenv : string -> string) (json_string : string -> string).

Definition vm_config (req : SpawnRequest) : string :=
  json_block "{" "}" 0
    [json_key "boot-source" +:+ json_block "{" "}" 1
       [json_key "kernel_image_path" +:+ json_string (sr_KernelPath req);
        json_key "boot_args" +:+ json_string (sr_BootArgs req)];
     json_key "drives" +:+ json_block "[" "]" 1
       [json_block "{" "}" 2
          [json_key "drive_id" +:+ json_string "rootfs";
           json_key "path_on_host" +:+ json_string (sr_RootDrivePath req);
           json_key "is_root_device" +:+ "true";
           json_key "is_read_only" +:+ "false"]];
     json_key "machine-config" +:+ json_block "{" "}" 1
       [json_key "vcpu_count" +:+ Itoa (sr_VcpuCount req);
        json_key "mem_size_mib" +:+ Itoa (sr_MemSizeMib req)]].

Definition writeVMConfig (path : string) (req : SpawnRequest) : kprog (option derror) :=
  KOp (WriteFile path (vm_config req)) (fun r =>
    KRet (match r with
          | Some e => Some (DWrap "write vm config: " e)
          | None => None
          end)).

(** ** client.go *)

Definition SandboxBaseDir : string :=
  let dir := Getenv "FIRECRACKER_SANDBOX_DIR" in
  if negb (bool_decide (dir = EmptyString)) then dir else defaultSandboxBaseDir.

Definition NewClient (sandboxId : string) : kprog (result derror Client) :=
  match CheckSandboxID uuid_Parse quote sandboxId with
  | Some e => KRet (Err (DGo e))
  | None =>
      let dir := Join SandboxBaseDir sandboxId in
      KOp (MkdirAll dir) (fun r =>
        KRet (match r with
              | Some e => Err (DWrap "create sandbox dir: " e)
              | None => Ok (newClient sandboxId dir)
              end))
  end.

Definition AttachClient (sandboxId : string) : kprog (result derror Client) :=
  match CheckSandboxID uuid_Parse quote sandboxId with
  | Some e => KRet (Err (DGo e))
  | None =>
      let dir := Join SandboxBaseDir sandboxId in
      (r <-k Attach quote text dir ;;
       h <-? r in
       KRet (Ok (mkClient sandboxId dir (Some h))))%kprog
  end.

(** The client after the call, and its error. *)
Definition client_Spawn (c : Client) (req : SpawnRequest) : kprog (option (option derror * Client)) :=
  match cl_handle c with
  | Some _ => KRet (Some (Some (DNew ("sandbox " +:+ cl_sandboxId c +:+ ": already spawned")), c))
  | None =>
      if bool_decide (sr_RootDrivePath req = EmptyString) then KRet (Some (Some (DNew "no root drive"), c))
      else
        (w <-k writeVMConfig (Path (cl_Dir c) ConfigFile) req ;;
         match w with
         | Some e => KRet (Some (Some e, c))
         | None =>
             r <-f Spawn quote (sr_ShimPath req) (cl_Dir c) (sr_FirecrackerPath req) ;;
             KRet (Some (match r with
                         | Err e => (Some e, c)
                         | Ok h => (None, mkClient (cl_sandboxId c) (cl_Dir c) (Some h))
                         end))
         end)%kprog
  end.

Definition client_Stop (c : Client) : kprog (option derror) :=
  match cl_handle c with
  | None => KRet None
  | Some h => Stop h stopGrace
  end.

(** Never nil: it says why the wait ended. *)
Definition client_Wait (c : Client) : kprog derror :=
  match cl_handle c with
  | None => KRet (DNew "vm not spawned")
  | Some h =>
      (r <-k Wait h ;;
       KRet (match r.2 with
             | Some e => e
             | None => DNew ("firecracker exited with code " +:+ Itoa r.1)
             end))%kprog
  end.

(** ** reconcile.go *)

Definition ListSandboxDirs (baseDir : string) : kprog (result derror (list string)) :=
  (r <-op ReadDir baseDir ;;
   KRet (match r with
         | Err e => if is_errno e ENOENT then Ok [] else Err (DWrap "read sandbox base dir: " e)
         | Ok entries => Ok (fst <$> filter (fun e : string * bool => snd e && IsSandboxID uuid_Parse (fst e)) entries)
         end))%kprog.

Definition firecracker_argv (socketPath : string) (args : list string) : bool :=
  match args with
  | [] => false
  | a0 :: _ => Contains a0 "firecracker" && has_flag "--api-sock" socketPath args
  end.

(** The processes of [/proc], from one on. *)
Fixpoint scan_procs (socketPath : string) (entries : list (string * bool)) : kprog (option Z) :=
  match entries with
  | [] => KRet None
  | (name, _) :: rest =>
      match Atoi name with
      | None => scan_procs socketPath rest
      | Some p =>
          (r <-op ReadFile (cmdline name) ;;
           match r with
           | Err _ => scan_procs socketPath rest
           | Ok raw => if firecracker_argv socketPath (argv raw) then KRet (Some p)
                       else scan_procs socketPath rest
           end)%kprog
      end
  end.

Definition findProcessHoldingSocket (socketPath : string) : kprog (option Z) :=
  (r <-op ReadDir "/proc" ;;
   match r with
   | Err _ => KRet None
   | Ok entries => scan_procs socketPath entries
   end)%kprog.

Definition socketPoll : Z := 50 * 10 ^ 6.

Fixpoint gone_loop (fuel : nat) (socketPath : string) (deadline : Z) : kprog (option unit) :=
  match fuel with
  | O => KRet None
  | S n =>
      (now <-op TimeNow ;;
       if now <? deadline then
         r <-op Dial socketPath ;;
         match r with
         | Some _ => KRet (Some tt)
         | None =>
             _ <-op CloseConn socketPath ;;
             _ <-op Sleep socketPoll ;;
             gone_loop n socketPath deadline
         end
       else KRet (Some tt))%kprog
  end.

(** Rounds of a poll each, and the one that sees the deadline. *)
Definition gone_fuel (timeout : Z) : nat := S (Z.to_nat (timeout / socketPoll + 1)).

Definition waitForSocketGone (socketPath : string) (timeout : Z) : kprog (option unit) :=
  (now <-op TimeNow ;; gone_loop (gone_fuel timeout) socketPath (now + timeout))%kprog.

(** The last two steps: the volume, then the directory. *)
Definition remove_resources (dir sandboxID : string) (removeVolume : string -> kprog (result derror unit))
    : kprog (option (option derror)) :=
  (r <-k removeVolume sandboxID ;;
   match r with
   | Err e => KRet (Some (Some e))
   | Ok _ =>
       r <-op RemoveAll dir ;;
       KRet (Some (match r with
                   | Some e => Some (DWrap ("remove orphaned sandbox dir " +:+ dir +:+ ": ") e)
                   | None => None
                   end))
   end)%kprog.

Definition ReapSandbox (baseDir sandboxID : string) (removeVolume : string -> kprog (result derror unit))
    : kprog (option (option derror)) :=
  if negb (IsSandboxID uuid_Parse sandboxID)
  then KRet (Some (Some (DNew ("refusing to reap " +:+ quote sandboxID +:+ ": not a sandbox id"))))
  else
    let dir := Join baseDir sandboxID in
    let socketPath := Path dir APISocket in
    (r <-k KillStale quote dir ;;
     match r with
     | Some e => KRet (Some (Some e))
     | None =>
         found <-k findProcessHoldingSocket socketPath ;;
         match found with
         | None => remove_resources dir sandboxID removeVolume
         | Some pid =>
             r <-op KillProcess pid SIGTERM ;;
             let wait := _ <-f waitForSocketGone socketPath (2 * 10 ^ 9) ;;
                         remove_resources dir sandboxID removeVolume in
             match r with
             | None => wait
             | Some e => if decide (e = ESRCH) then wait
                         else KRet (Some (Some (DWrap ("kill orphaned firecracker pid=" +:+ Itoa pid
                                                         +:+ " for " +:+ sandboxID +:+ ": ") (Errno e))))
             end
         end
     end)%kprog.

(** [errors.Join] of a list; nil if it is empty. *)
Fixpoint join_errors (errs : list derror) : option derror :=
  match errs with
  | [] => None
  | [e] => Some e
  | e :: rest => match join_errors rest with Some e' => Some (DJoin e e') | None => Some e end
  end.

Fixpoint reap_all (baseDir : string) (removeVolume : string -> kprog (result derror unit))
    (ids : list string) (errs : list derror) : kprog (option (option derror)) :=
  match ids with
  | [] => KRet (Some (join_errors errs))
  | id :: rest =>
      (r <-f ReapSandbox baseDir id removeVolume ;;
       reap_all baseDir removeVolume rest (match r with Some e => errs ++ [e] | None => errs end))%kprog
  end.

Definition ReapOrphans (baseDir : string) (removeVolume : string -> kprog (result derror unit))
    : kprog (option (option derror)) :=
  (r <-k ListSandboxDirs baseDir ;;
   match r with
   | Err e => KRet (Some (Some e))
   | Ok ids => reap_all baseDir removeVolume ids []
   end)%kprog.

End Runtime.
