(* ===== verification/Vm.v ===== *)
(** * The Firecracker VM of a sandbox

    internal/packages/sandboxmgr/vm.go, the implementation of the vm interface the manager
    drives (Manager.v), and lock.go, the lock of the base directory.  The text of a state
    (generated code) is a parameter. *)

From Stdlib Require Import ZArith Lia Ascii.
From stdpp Require Import base tactics option list strings numbers.
From S2P Require Import Prelude GoStd EventGRPC Manager Host Dm ThinPool Shim.
From S2P Require Import Runtime.

Open Scope Z_scope.

Definition defaultBootArgs : string := "console=ttyS0 reboot=k panic=1 pci=off".
(** How long a new VM may take to report Running, and how often it is asked. *)
Definition bootTimeout : Z := 30 * Second.
Definition bootPoll : Z := 50 * Millisecond.

Definition DefaultConfPath : string := "/etc/fire2/thinpool.conf".

Record Config : Type := mkVMConfig {
  vc_ImageDir : string;
  vc_ThinPoolConf : string;
  vc_BaseDir : string;
  vc_ShimPath : string;
  vc_FirecrackerPath : string;
}.

Record firecrackerVM : Type := mkFirecrackerVM {
  fv_client : Client;
  fv_kernelPath : string;
  fv_in : CreateInput;
}.

(** ** lock.go *)

Definition lockFileName : string := ".fire2-worker.lock".

(** The lock is the open file. *)
Definition LockBaseDir (baseDir : string) : kprog (option derror) :=
  (r <-op MkdirAll baseDir ;;
   match r with
   | Some e => KRet (Some (DWrap "create sandbox base dir: " e))
   | None =>
       let path := Join baseDir lockFileName in
       r <-op OpenFile path ;;
       match r with
       | Some e => KRet (Some (DWrap "open lock file: " e))
       | None =>
           r <-op Flock path ;;
           KRet (match r with
                 | None => None
                 | Some e => if decide (e = EWOULDBLOCK)
                             then Some (DGo (WrapSuf (Sentinel Sandboxmgr_ErrBaseDirLocked) (": " +:+ path)))
                             else Some (DWrap ("lock " +:+ path +:+ ": ") (Errno e))
                 end)
       end
   end)%kprog.

Section Vm.

Context (quote : string -> string) (text : derror -> string) (uuid_Parse : string -> bool).
Context (Getenv : string -> string) (json_string : string -> string).
Context (Major Minor : Z -> Z) (Mkdev : Z -> Z -> Z) (state_String : SandboxState -> string).

(** ** Config *)

Definition envOr (key fallback : string) : string :=
  let v := Getenv key in
  if negb (bool_decide (v = EmptyString)) then v else fallback.

Definition ConfigFromEnv : Config :=
  mkVMConfig (Getenv "FIRECRACKER_IMAGE_DIR") (envOr "FIRE2_THINPOOL_CONF" DefaultConfPath)
    (SandboxBaseDir Getenv) (envOr "FIRE2_SHIM_PATH" "/opt/fire2/fire2-shim")
    (envOr "FIRECRACKER_BIN" "/usr/local/bin/firecracker").

Definition kernelPath (c : Config) : kprog (result derror string) :=
  if bool_decide (vc_ImageDir c = EmptyString)
  then KRet (Err (DNew "FIRECRACKER_IMAGE_DIR environment variable is not set"))
  else
    let path := Join (vc_ImageDir c) "vmlinux" in
    (r <-op Stat path ;;
     KRet (match r with
           | Err e => Err (DWrap "vmlinux not found in FIRECRACKER_IMAGE_DIR: " (Errno e))
           | Ok _ => Ok path
           end))%kprog.

Definition pool (c : Config) : kprog (result derror Pool) := LoadPool quote (vc_ThinPoolConf c).

Definition cfg_RemoveVolume (c : Config) (sandboxID : string) : kprog (result derror unit) :=
  (r <-k pool c ;;
   p <-? r in
   RemoveVolume quote p sandboxID)%kprog.

Definition newFirecrackerVM (c : Config) (vm_in : CreateInput) : kprog (result derror firecrackerVM) :=
  (r <-k kernelPath c ;;
   kernel <-? r in
   r <-k NewClient quote uuid_Parse Getenv (ci_ID vm_in) ;;
   client <-? wrap_err ("create runtime client for sandbox " +:+ ci_ID vm_in +:+ ": ") r in
   KRet (Ok (mkFirecrackerVM client kernel vm_in)))%kprog.

Definition attach (sandboxID : string) : kprog (result derror firecrackerVM) :=
  (r <-k AttachClient quote text uuid_Parse Getenv sandboxID ;;
   client <-? r in
   KRet (Ok (mkFirecrackerVM client EmptyString (mkCreateInput sandboxID 0 0))))%kprog.

Definition reap (c : Config) (sandboxID : string) : kprog (option (option derror)) :=
  ReapSandbox quote uuid_Parse (vc_BaseDir c) sandboxID (cfg_RemoveVolume c).

(** [worker -reap-all] of cmd/worker/main.go: its exit code. *)
Definition worker_reap_all (c : Config) : kprog (option Z) :=
  (r <-k LockBaseDir (vc_BaseDir c) ;;
   match r with
   | Some _ => KRet (Some 1)
   | None =>
       r <-f ReapOrphans quote uuid_Parse (vc_BaseDir c) (cfg_RemoveVolume c) ;;
       KRet (Some (match r with Some _ => 1 | None => 0 end))
   end)%kprog.

Definition listDisk (c : Config) : kprog (result derror (list string)) :=
  ListSandboxDirs uuid_Parse (vc_BaseDir c).

(** ** The VM *)

(** The polls until the VM runs, the timer and the ticker started at [start] and [taken]
    ticks received; [None]: the fuel ran out. *)
Fixpoint waitRunning_loop (fuel : nat) (c : Client) (pid start timeout poll : Z) (taken : nat)
    : kprog (option (option derror)) :=
  match fuel with
  | O => KRet None
  | S n =>
      (st <-k client_State quote c ;;
       if match st with Ok s => bool_decide (s = StateRunning) | Err _ => false end
       then KRet (Some None)
       else
         let last := match st with
                     | Ok s => DNew ("state " +:+ state_String s)
                     | Err e => e
                     end in
         ev <-op BootSelect pid start timeout poll taken ;;
         match ev with
         | BootGone => KRet (Some (Some (DNew "vm exited while booting (see firecracker.log in the sandbox dir)")))
         | BootDeadline => KRet (Some (Some (DWrap ("vm not running after " +:+ Duration_String timeout +:+ ": ") last)))
         | BootCtx e => KRet (Some (Some (DWrap "boot aborted: " e)))
         | BootTick => waitRunning_loop n c pid start timeout poll (S taken)
         end)%kprog
  end.

Definition waitRunning (fuel : nat) (c : Client) (pid timeout poll : Z) : kprog (option (option derror)) :=
  (start <-op TimeNow ;;
   waitRunning_loop fuel c pid start timeout poll 0)%kprog.

(** The VM after the call, and its error. *)
Definition vm_Create (fuel : nat) (cfg : Config) (f : firecrackerVM)
    : kprog (option (option derror * firecrackerVM)) :=
  (r <-k pool cfg ;;
   match r with
   | Err e => KRet (Some (Some e, f))
   | Ok p =>
       r <-k CreateVolume quote Major Minor Mkdev p (ci_ID (fv_in f)) ;;
       match r with
       | Err e => KRet (Some (Some e, f))
       | Ok rootDrive =>
           s <-f client_Spawn quote json_string (fv_client f)
                   (mkSpawnRequest (vc_ShimPath cfg) (vc_FirecrackerPath cfg) (fv_kernelPath f) rootDrive
                      (ci_VcpuCount (fv_in f)) (ci_MemSizeMib (fv_in f)) defaultBootArgs) ;;
           let f' := mkFirecrackerVM s.2 (fv_kernelPath f) (fv_in f) in
           match s.1 with
           | Some e => KRet (Some (Some e, f'))
           | None =>
               w <-f waitRunning fuel (fv_client f') (match cl_handle (fv_client f') with
                                                      | Some h => h_pid h
                                                      | None => 0
                                                      end) bootTimeout bootPoll ;;
               KRet (Some (w, f'))
           end
       end
   end)%kprog.

Definition vm_Stop (f : firecrackerVM) : kprog (option derror) := client_Stop (fv_client f).
Definition vm_Wait (f : firecrackerVM) : kprog derror := client_Wait (fv_client f).
Definition vm_State (f : firecrackerVM) : kprog (result derror SandboxState) := client_State quote (fv_client f).

Definition vm_Cleanup (cfg : Config) (f : firecrackerVM) : kprog (option derror) :=
  (r <-k cfg_RemoveVolume cfg (ci_ID (fv_in f)) ;;
   match r with
   | Err e => KRet (Some e)
   | Ok _ =>
       r <-op RemoveAll (cl_Dir (fv_client f)) ;;
       KRet (match r with
             | Some e => if is_errno e ENOENT then None else Some (DWrap "remove sandbox dir: " e)
             | None => None
             end)
   end)%kprog.

End Vm.
