(* ===== verification/Reaping.v ===== *)
(** * What reaping a sandbox may do

    The operations of ReapSandbox and of the cleanup of a VM (Runtime.v, Vm.v) on the host,
    whatever it answers: which processes they kill, when they remove the directory. *)

From Stdlib Require Import ZArith Lia Ascii.
From stdpp Require Import base tactics option list strings numbers.
From S2P Require Import Prelude GoStd EventGRPC Manager Host Dm ThinPool Shim.
From S2P Require Import Runtime Vm.

Open Scope Z_scope.

(** The device a request names. *)
Definition device_name (b : bytes) : string := cString (sub offName nameSize b).

(** The answers that show the volume is gone: its device does not exist, or the volume
    that the table of its device names was deleted from the pool. *)
Definition volume_gone (quote : string -> string) (sandboxID : string) (h : list event) : Prop :=
  let name := volumePrefix +:+ sandboxID in
  (exists b, Ev (Ioctl (ioctlRequest cmdTableStatus) b) (Err ENXIO) ∈ h /\ device_name b = name)
  \/ (exists p tid tbl bt outt b out,
       Ev (Ioctl (ioctlRequest cmdTableStatus) bt) (Ok outt) ∈ h /\ device_name bt = name
       /\ decodeTargets outt = Ok tbl /\ sandboxThinID p name tbl = Ok tid
       /\ Ev (Ioctl (ioctlRequest cmdTargetMsg) b) (Ok out) ∈ h
       /\ message_request quote (p_Name p) 0 (delete_msg tid) = Ok b).

Lemma volume_gone_mono quote sandboxID h h' :
  volume_gone quote sandboxID h -> h `suffix_of` h' -> volume_gone quote sandboxID h'.
Proof.
  intros [(b & Hb & Hn)|(p & tid & tbl & bt & outt & b & out & H1 & Hn & Hd & Ht & H2 & Hm)] Hs; [left|right].
  - exists b. split; [by eapply elem_of_suffix|done].
  - exists p, tid, tbl, bt, outt, b, out. split_and!; try done; by eapply elem_of_suffix.
Qed.

Lemma decode_loop_errno n off data e m : decode_loop n off data = Err e -> is_errno e m = false.
Proof.
  revert off. induction n as [|n IH]; intros off; cbn [decode_loop]; [done|].
  destruct (decide _); [by intros [= <-]|]. destruct (decode_loop n _ data) eqn:E; [done|].
  intros [= <-]. by eapply IH.
Qed.

Lemma decodeTargets_errno b e m : decodeTargets b = Err e -> is_errno e m = false.
Proof.
  unfold decodeTargets. destruct (decide _); [by intros [= <-]|].
  destruct (decide _); [by intros [= <-]|]. apply decode_loop_errno.
Qed.

Section Gone.

Context (quote : string -> string) (p : Pool) (sandboxID name : string).
Context (Hname : volumeName quote sandboxID = Ok name).

(** What [table] saw. *)
Lemma table_hist h :
  hwp anyop h (table quote name) (fun h' r =>
    match r with
    | Ok tbl => exists b out, Ev (Ioctl (ioctlRequest cmdTableStatus) b) (Ok out) ∈ h'
                              /\ device_name b = name /\ decodeTargets out = Ok tbl
    | Err e => is_errno e ENXIO = true ->
               exists b, Ev (Ioctl (ioctlRequest cmdTableStatus) b) (Err ENXIO) ∈ h' /\ device_name b = name
    end).
Proof using Hname.
  unfold table. generalize table_fuel, 4096. intros fuel. revert h.
  induction fuel as [|fuel IH]; intros h size; [done|].
  cbn [table_from]. destruct (request_name _ _ _ Hname (Z.to_nat size)) as (buf & -> & Hl & Hb).
  assert (device_name (PutUint32 offFlags flagStatusTable buf) = name) as Hd.
  { unfold device_name, PutUint32. rewrite sub_put_after; [done|..]; lens. }
  cbn [ioctl kbind hwp]. split; [done|]. intros [out|e] _; cbn [wrap_err].
  - destruct (negb _); [destruct (_ <=? size); [done|apply IH]|]. cbn.
    destruct (decodeTargets out) as [tbl|e] eqn:Ed.
    + do 2 eexists. split; [left|]. done.
    + by rewrite (decodeTargets_errno _ _ _ Ed).
  - cbn. intros He%bool_decide_eq_true. subst e. eexists. split; [left|]. done.
Qed.

Lemma message_hist h msg :
  hwp anyop h (message quote (p_Name p) 0 msg) (fun h' r => r = Ok tt ->
    exists b out, message_request quote (p_Name p) 0 msg = Ok b
                  /\ Ev (Ioctl (ioctlRequest cmdTargetMsg) b) (Ok out) ∈ h').
Proof using.
  unfold message. destruct (message_request quote (p_Name p) 0 msg) as [b|e]; [|done].
  cbn. split; [done|]. intros [out|e] _; cbn; [|done]. intros _. do 2 eexists. split; [done|left].
Qed.

Lemma RemoveVolume_gone h :
  hwp anyop h (RemoveVolume quote p sandboxID) (fun h' r => r = Ok tt -> volume_gone quote sandboxID h').
Proof using Hname.
  pose proof (name_ok _ _ _ Hname) as [En _].
  unfold RemoveVolume. rewrite Hname. cbn [openControl hwp]. split; [done|]. intros [e|] _; [done|].
  apply hwp_bind. eapply hwp_mono; [|apply table_hist]. intros h1 [tbl|e] H1; cbn beta.
  - destruct (sandboxThinID p name tbl) as [id|e] eqn:Eid; [|done].
    destruct H1 as (bt & outt & Hin & Hd & Hdec).
    apply hwp_bind. eapply hwp_mono; [|apply hwp_keep, hwp_any]. intros h2 [u|e] [_ Hs2]; [|done].
    apply hwp_bind. eapply hwp_mono; [|apply hwp_keep, hwp_any]. intros h3 [u3|e] [_ Hs3]; [|done].
    eapply hwp_mono; [|apply hwp_keep, message_hist]. cbn beta. intros h4 r [Hm Hs4] Hr.
    destruct (Hm Hr) as (b & out & Eb & Hb). right. subst name.
    exists p, id, tbl, bt, outt, b, out. repeat (split; [solve [done|eauto using elem_of_suffix]|]). done.
  - destruct (is_errno e ENXIO); [|done]. destruct (H1 eq_refl) as (b & Hin & Hd). subst name.
    eapply hwp_mono; [|apply hwp_keep, hwp_any]. intros h2 r [_ Hs] _. left.
    exists b. split; [by eapply elem_of_suffix|done].
Qed.

End Gone.

(** ** The guard *)

(** A process whose command line was read and is that of the shim of [dir], or of a
    Firecracker that serves its API socket. *)
Definition verified (dir : string) (h : list event) (pid : Z) : Prop :=
  exists entry raw,
    Ev (ReadFile (cmdline entry)) (Ok raw) ∈ h /\ Atoi entry = Some pid
    /\ (shim_argv dir (argv raw) = true \/ firecracker_argv (Path dir APISocket) (argv raw) = true).

Definition reap_guard (quote : string -> string) (dir sandboxID : string) (h : list event)
    (X : Type) (o : hop X) : Prop :=
  match o with
  | KillProcess pid _ => verified dir h pid
  | RemoveAll path => path = dir /\ volume_gone quote sandboxID h
  | RemoveFile path | Mknod path _ _ => path = VolumePath sandboxID
  | Ioctl r b => exists p, pool_ok p /\ touches_ioctl p sandboxID r b
  | OpenControl | ReadFile _ | ReadDir _ | Stat _ | Dial _ | CloseConn _
  | TimeNow | Sleep _ | Uint32N _ => True
  | _ => False
  end.

Section Guard.

Context (quote : string -> string) (uuid_Parse : string -> bool) (dir sandboxID : string).

Abbreviation guard := (reap_guard quote dir sandboxID).

Lemma KillStale_guard h : hwp guard h (KillStale quote dir) (fun _ _ => True).
Proof.
  unfold KillStale, readPid. cbn. split; [done|]. intros [raw|e] _; cbn; [|done].
  destruct (Atoi (TrimSpace raw)) as [pid|] eqn:Ea; cbn; [|done].
  destruct (pid <=? 0); cbn; [done|]. split; [done|]. intros [cmd|e] _; cbn; [|done].
  destruct (shim_argv dir (argv cmd)) eqn:Es; cbn; [|done]. split.
  - exists (Itoa pid), cmd. split; [left|]. split; [|by left]. apply Atoi_Itoa. by eapply Atoi_range.
  - intros [e|] _; cbn; [|done]. by destruct (decide (e = ESRCH)).
Qed.

Lemma scan_procs_guard entries h :
  hwp guard h (scan_procs (Path dir APISocket) entries) (fun h' r => forall pid, r = Some pid -> verified dir h' pid).
Proof.
  revert h. induction entries as [|[entry d] entries IH]; intros h; cbn [scan_procs]; [done|].
  destruct (Atoi entry) as [p|] eqn:Ea; [|apply IH]. cbn. split; [done|]. intros [raw|e] _; [|apply IH].
  destruct (firecracker_argv _ (argv raw)) eqn:Ef; [|apply IH]. cbn. intros pid [= <-].
  exists entry, raw. split; [left|]. auto.
Qed.

Lemma gone_loop_guard fuel socketPath deadline h :
  hwp guard h (gone_loop fuel socketPath deadline) (fun _ _ => True).
Proof.
  revert h. induction fuel as [|fuel IH]; intros h; [done|]. cbn [gone_loop hwp]. split; [done|].
  intros now _. destruct (now <? deadline); [|done]. cbn [hwp]. split; [done|]. intros [e|] _; [done|].
  cbn [hwp]. do 2 (split; [done|]; intros ? _). apply IH.
Qed.

(** Removing the volume, with the settings of the configuration file. *)
Lemma cfg_RemoveVolume_guard cfg h :
  hwp guard h (cfg_RemoveVolume quote cfg sandboxID) (fun h' r => r = Ok tt -> volume_gone quote sandboxID h').
Proof.
  unfold cfg_RemoveVolume, pool. apply hwp_bind.
  eapply hwp_mono; [|eapply hwp_weaken; [|apply kwp_hwp, LoadPool_ok]; by intros ? ? []].
  intros h1 [p|e] [Hp _]; [|done]. specialize (Hp p eq_refl).
  destruct (volumeName quote sandboxID) as [name|e] eqn:Hn; [|unfold RemoveVolume; by rewrite Hn].
  eapply hwp_mono; [|eapply hwp_weaken; [|apply hwp_and; [apply kwp_hwp; by eapply RemoveVolume_touches|by eapply RemoveVolume_gone]]].
  - intros h' r [_ H]. exact H.
  - intros h' X o [Ht _]. destruct o; try done. cbn. eauto.
Qed.

Lemma remove_resources_guard cfg h :
  hwp guard h (remove_resources dir sandboxID (cfg_RemoveVolume quote cfg)) (fun h' r =>
    r = Some None -> Ev (RemoveAll dir) None ∈ h' /\ volume_gone quote sandboxID h').
Proof.
  unfold remove_resources. apply hwp_bind. eapply hwp_mono; [|apply cfg_RemoveVolume_guard].
  intros h1 [[]|e] Hg; [|done]. cbn. split; [auto|]. intros [e|] _; cbn; [done|]. intros _.
  split; [left|]. by eapply volume_gone_mono; [apply Hg|exists [Ev (RemoveAll dir) None]].
Qed.

End Guard.

(** ReapSandbox within its guard, from any point of a run. *)
Lemma ReapSandbox_guard quote uuid_Parse cfg sandboxID h :
  let dir := Join (vc_BaseDir cfg) sandboxID in
  hwp (fun h' X o => IsSandboxID uuid_Parse sandboxID = true /\ reap_guard quote dir sandboxID h' X o) h
    (reap quote uuid_Parse cfg sandboxID) (fun h' r =>
    (r = Some None -> Ev (RemoveAll dir) None ∈ h' /\ volume_gone quote sandboxID h')
    /\ (IsSandboxID uuid_Parse sandboxID = false -> h' = h /\ exists e, r = Some (Some e))).
Proof.
  intros dir. unfold reap, ReapSandbox. destruct (IsSandboxID uuid_Parse sandboxID); cbn [negb]; [|cbn; naive_solver].
  set (Q := fun (h' : list event) (r : option (option derror)) =>
    (r = Some None -> Ev (RemoveAll dir) None ∈ h' /\ volume_gone quote sandboxID h')
    /\ (true = false -> h' = h /\ exists e, r = Some (Some e))).
  eapply hwp_weaken; [by intros h' X o Hg; split; [|exact Hg]|].
  assert (forall h1, hwp (reap_guard quote dir sandboxID) h1
            (remove_resources dir sandboxID (cfg_RemoveVolume quote cfg)) Q) as Hres.
  { intros h1. eapply hwp_mono; [|apply remove_resources_guard]. by intros h' r H. }
  apply hwp_bind. eapply hwp_mono; [|apply KillStale_guard]. intros h1 [e|] _; [done|].
  apply hwp_bind. unfold findProcessHoldingSocket. cbn [hwp]. split; [done|].
  intros [entries|e] _; [|apply Hres].
  eapply hwp_mono; [|apply scan_procs_guard]. intros h2 [pid|] Hpid; [|apply Hres].
  cbn [hwp]. split; [by apply Hpid|]. intros r _.
  match goal with |- context [kbind (waitForSocketGone ?s ?t) ?g] => set (wait := kbind (waitForSocketGone s t) g) end.
  assert (forall h1, hwp (reap_guard quote dir sandboxID) h1 wait Q) as Hwait.
  { intros h3. unfold wait. apply hwp_bind. unfold waitForSocketGone. cbn [hwp]. split; [done|].
    intros now _. eapply hwp_mono; [|apply gone_loop_guard]. intros h' [[]|] _; [apply Hres|done]. }
  destruct r as [e|]; [|apply Hwait]. destruct (decide (e = ESRCH)); [apply Hwait|done].
Qed.

(** The operations that destroy something. *)
Definition destructive {X} (o : hop X) : Prop :=
  match o with
  | KillProcess _ _ | RemoveAll _ | RemoveFile _ | Mknod _ _ _ | Ioctl _ _ => True
  | _ => False
  end.

(** Destroying something needs the lock of the base directory and is about a sandbox. *)
Definition locked_guard (quote : string -> string) (uuid_Parse : string -> bool) (cfg : Config)
    (h : list event) (X : Type) (o : hop X) : Prop :=
  destructive o ->
  Ev (Flock (Join (vc_BaseDir cfg) lockFileName)) None ∈ h
  /\ exists sandboxID, IsSandboxID uuid_Parse sandboxID = true
       /\ reap_guard quote (Join (vc_BaseDir cfg) sandboxID) sandboxID h X o.

Lemma reap_all_guard quote uuid_Parse cfg ids errs h :
  Ev (Flock (Join (vc_BaseDir cfg) lockFileName)) None ∈ h ->
  hwp (locked_guard quote uuid_Parse cfg) h
    (reap_all quote uuid_Parse (vc_BaseDir cfg) (cfg_RemoveVolume quote cfg) ids errs) (fun _ _ => True).
Proof.
  revert h errs. induction ids as [|id ids IH]; intros h errs Hl; [done|]. cbn [reap_all]. apply hwp_bind.
  eapply hwp_mono; [|eapply hwp_weaken; [|apply hwp_and; [apply (ReapSandbox_guard quote uuid_Parse cfg id)|exact (hwp_persist _ h _ Hl)]]].
  - intros h' [r|] [_ Hl']; [by apply IH|done].
  - intros h' X o [Hg Hl'] _. split; [done|]. exists id. exact Hg.
Qed.

(** C13: reaping is confined to the sandbox.  Whatever the host answers, ReapSandbox only
    signals a process whose command line it has read and that is the shim of the sandbox's
    directory or a Firecracker serving its socket; it removes that directory, and nothing
    else, and only after the answers showed that the volume is gone; what it asks of the
    device-mapper is about this sandbox's volume.  It reports success only after the
    volume was gone and the directory removed, and refuses an ID that is not a sandbox ID
    without asking anything.  The cleanup of a VM obeys the same rules, and worker
    -reap-all destroys nothing before it holds the lock of the base directory. *)
Theorem reap_confined quote uuid_Parse cfg sandboxID f :
  let dir := Join (vc_BaseDir cfg) sandboxID in
  let guard := reap_guard quote dir sandboxID in
  hwp guard [] (reap quote uuid_Parse cfg sandboxID) (fun h r =>
    (r = Some None -> Ev (RemoveAll dir) None ∈ h /\ volume_gone quote sandboxID h)
    /\ (IsSandboxID uuid_Parse sandboxID = false -> h = [] /\ exists e, r = Some (Some e)))
  /\ (ci_ID (fv_in f) = sandboxID -> cl_Dir (fv_client f) = dir ->
      hwp guard [] (vm_Cleanup quote cfg f) (fun h r =>
        r = None -> volume_gone quote sandboxID h
        /\ exists x, Ev (RemoveAll dir) x ∈ h /\ forall e, x = Some e -> is_errno e ENOENT = true))
  /\ hwp (locked_guard quote uuid_Parse cfg) [] (worker_reap_all quote uuid_Parse cfg) (fun _ _ => True).
Proof.
  intros dir guard. split; [|split].
  - eapply hwp_weaken; [|apply ReapSandbox_guard]. by intros h' X o [_ Hg].
  - intros <- Hdir. unfold vm_Cleanup. rewrite Hdir. apply hwp_bind.
    eapply hwp_mono; [|apply cfg_RemoveVolume_guard]. intros h1 [[]|e] Hg; [|done]. cbn. split; [auto|].
    assert (forall x, volume_gone quote (ci_ID (fv_in f)) (Ev (RemoveAll dir) x :: h1)) as Hg'.
    { intros x. by eapply volume_gone_mono; [apply Hg|exists [Ev (RemoveAll dir) x]]. }
    intros [e|] _; cbn; [destruct (is_errno e ENOENT) eqn:Ee; [|done]|]; intros _; (split; [apply Hg'|]);
      eexists; (split; [left|]); [by intros ? [= <-]|done].
  - unfold worker_reap_all. apply hwp_bind. unfold LockBaseDir. cbn [hwp]. split; [by intros []|].
    intros [e|] _; [done|]. cbn [hwp]. split; [by intros []|]. intros [e|] _; [done|]. cbn [hwp]. split; [by intros []|].
    intros [e|] _; [by destruct (decide (e = EWOULDBLOCK))|]. cbn [hwp].
    apply hwp_bind. unfold ReapOrphans, ListSandboxDirs. cbn [kbind hwp]. split; [by intros []|].
    intros [entries|e] _; cbn [hwp].
    + eapply hwp_mono; [|apply reap_all_guard; right; left]. by intros h' [r|] _.
    + by destruct (is_errno e ENOENT).
Qed.

(** A VM whose cleanup the rules cover. *)
Lemma reap_confined_witness :
  let id := "6f1c2a52-58a4-4f4e-9a5f-0d1d2f6b7c01"%string in
  let cfg := mkVMConfig "/images" "/etc/fire2/thinpool.conf" "/srv" "/shim" "/fc" in
  let f := mkFirecrackerVM (newClient id (Join "/srv" id)) "/images/vmlinux" (mkCreateInput id 1 256) in
  hwp (reap_guard (fun s => s) (Join "/srv" id) id) [] (vm_Cleanup (fun s => s) cfg f) (fun h r =>
    r = None -> volume_gone (fun s => s) id h
    /\ exists x, Ev (RemoveAll (Join "/srv" id)) x ∈ h /\ forall e, x = Some e -> is_errno e ENOENT = true).
Proof.
  intros id cfg f.
  refine (proj1 (proj2 (reap_confined (fun s => s) (fun _ => true) cfg id f)) _ _); reflexivity.
Defined.

(** ** The waits end *)

(** The ticks of a boot before its deadline, and the rounds of its loop when the deadline is
    passed over at most [L] times. *)
Definition boot_ticks : nat := Z.to_nat (bootTimeout / bootPoll).
Definition boot_rounds (L : nat) : nat := S (boot_ticks + L).

Section Termination.

Context {W : Type} (answer : forall X, hop X -> W -> X * W) (clock : W -> Z).
Context `{!Clocked W answer clock}.
Context (quote : string -> string) (uuid_Parse : string -> bool).

Lemma gone_round n socketPath deadline w :
  (exists w', krun answer (gone_loop (S n) socketPath deadline) w = (Some tt, w'))
  \/ exists w', krun answer (gone_loop (S n) socketPath deadline) w = krun answer (gone_loop n socketPath deadline) w'
               /\ clock w <= deadline /\ clock w + socketPoll <= clock w'.
Proof using Clocked0.
  cbn [gone_loop krun]. pose proof (clock_now w) as H1. destruct (answer _ TimeNow w) as [now w1]. cbn [fst snd] in *.
  destruct (Z.ltb_spec now deadline); [|left; by eexists]. cbn [krun].
  pose proof (clock_mono _ (Dial socketPath) w1) as H2.
  destruct (answer _ (Dial socketPath) w1) as [[e|] w2]; cbn [snd] in *; [left; by eexists|]. cbn [krun].
  pose proof (clock_mono _ (CloseConn socketPath) w2) as H3. destruct (answer _ (CloseConn _) w2) as [u w3]. cbn [snd] in *.
  pose proof (clock_sleep socketPoll w3) as H4. destruct (answer _ (Sleep socketPoll) w3) as [u' w4]. cbn [snd] in *.
  right. exists w4. split; [done|]. lia.
Qed.

Lemma gone_loop_ends n socketPath deadline w :
  deadline < clock w + Z.of_nat n * socketPoll ->
  exists w', krun answer (gone_loop (S n) socketPath deadline) w = (Some tt, w').
Proof using Clocked0.
  revert w. induction n as [|n IH]; intros w Hd.
  - destruct (gone_round 0 socketPath deadline w) as [?|(w' & -> & ? & ?)]; [done|lia].
  - destruct (gone_round (S n) socketPath deadline w) as [?|(w' & -> & ? & ?)]; [done|]. apply IH. lia.
Qed.

Lemma waitForSocketGone_ends socketPath timeout w :
  0 <= timeout -> exists w', krun answer (waitForSocketGone socketPath timeout) w = (Some tt, w').
Proof using Clocked0.
  intros Ht. unfold waitForSocketGone, gone_fuel. cbn [krun]. pose proof (clock_now w) as H1.
  destruct (answer _ TimeNow w) as [now w1]. cbn [fst snd] in *. apply gone_loop_ends.
  pose proof (Z.div_pos timeout socketPoll Ht ltac:(done)) as Hd.
  pose proof (Z.mul_succ_div_gt timeout socketPoll ltac:(done)) as H2. rewrite Z2Nat.id by lia. lia.
Qed.

Lemma remove_resources_ends dir sandboxID rv w :
  exists r w', krun answer (remove_resources dir sandboxID rv) w = (Some r, w').
Proof.
  unfold remove_resources. rewrite krun_bind. destruct (krun answer (rv sandboxID) w) as [[u|e] w1]; cbn; [|by do 2 eexists].
  destruct (answer _ (RemoveAll dir) w1). by do 2 eexists.
Qed.

Lemma ReapSandbox_ends baseDir sandboxID rv w :
  exists r w', krun answer (ReapSandbox quote uuid_Parse baseDir sandboxID rv) w = (Some r, w').
Proof using Clocked0.
  unfold ReapSandbox. destruct (IsSandboxID uuid_Parse sandboxID); cbn [negb]; [|by do 2 eexists].
  rewrite krun_bind. destruct (krun answer (KillStale quote _) w) as [[e|] w1]; [by do 2 eexists|].
  rewrite krun_bind. destruct (krun answer (findProcessHoldingSocket _) w1) as [[pid|] w2]; [|apply remove_resources_ends].
  cbn [krun]. destruct (answer _ (KillProcess pid SIGTERM) w2) as [r w3].
  match goal with |- context [kbind (waitForSocketGone ?s ?t) ?g] => set (wait := kbind (waitForSocketGone s t) g) end.
  assert (exists r w', krun answer wait w3 = (Some r, w')) as Hwait.
  { unfold wait. rewrite krun_bind. edestruct (waitForSocketGone_ends) as [w4 ->]; [|apply remove_resources_ends]. lia. }
  destruct r as [e|]; [|done]. by destruct (decide (e = ESRCH)); [|do 2 eexists].
Qed.

Lemma ReapOrphans_ends baseDir rv w :
  exists r w', krun answer (ReapOrphans quote uuid_Parse baseDir rv) w = (Some r, w').
Proof using Clocked0.
  unfold ReapOrphans. rewrite krun_bind. destruct (krun answer (ListSandboxDirs _ _) w) as [[ids|e] w1]; [|by do 2 eexists].
  revert w1. generalize (@nil derror). induction ids as [|id ids IH]; intros errs w1; [by do 2 eexists|].
  cbn [reap_all]. rewrite krun_bind. destruct (ReapSandbox_ends baseDir id rv w1) as (r & w2 & ->). apply IH.
Qed.

Context (json_string : string -> string).

Lemma client_Spawn_ends c req w :
  exists r w', krun answer (client_Spawn quote json_string c req) w = (Some r, w').
Proof using Clocked0.
  unfold client_Spawn. destruct (cl_handle c); [by do 2 eexists|]. case_bool_decide; [by do 2 eexists|].
  rewrite krun_bind. destruct (krun answer (writeVMConfig _ _ _) w) as [[e|] w1]; [by do 2 eexists|].
  rewrite krun_bind. destruct (Spawn_ends answer clock quote (sr_ShimPath req) (cl_Dir c) (sr_FirecrackerPath req) w1) as (r & w2 & ->).
  by do 2 eexists.
Qed.

(** The boot. *)
Context (Major Minor : Z -> Z) (Mkdev : Z -> Z -> Z).
Context (state_String : SandboxState -> string) (passed_over : Z -> Z -> W -> nat) (L : nat).
Context `{!Timed W answer clock passed_over L}.

Lemma krun_clock {A} (p : kprog A) w : clock w <= clock (krun answer p w).2.
Proof using Clocked0.
  revert w. induction p as [a|X o k IH]; intros w; cbn; [done|]. pose proof (clock_mono _ o w) as H.
  destruct (answer X o w) as [x w']. cbn in *. etrans; [exact H|apply IH].
Qed.

Lemma krun_passed pid start {A} (p : kprog A) w :
  (passed_over pid start w <= passed_over pid start (krun answer p w).2)%nat.
Proof using Timed0.
  revert w. induction p as [a|X o k IH]; intros w; cbn; [done|]. pose proof (passed_mono pid start _ o w) as H.
  destruct (answer X o w) as [x w']. cbn in *. etrans; [exact H|apply IH].
Qed.

(** The rounds left: the ticks that fit before the deadline, the times the ticker may still
    be taken after it. *)
Definition rounds_left (pid start : Z) (taken : nat) (w : W) : nat :=
  (if decide (start + bootTimeout <= clock w) then 0 else boot_ticks - taken) + (L - passed_over pid start w).

(** A tick uses one of them up. *)
Lemma tick_round pid start taken w w1 w2 :
  clock w <= clock w1 -> (passed_over pid start w <= passed_over pid start w1)%nat ->
  start + Z.of_nat taken * bootPoll <= clock w ->
  answer _ (BootSelect pid start bootTimeout bootPoll taken) w1 = (BootTick, w2) ->
  (rounds_left pid start (S taken) w2 < rounds_left pid start taken w)%nat
  /\ start + Z.of_nat (S taken) * bootPoll <= clock w2.
Proof using Clocked0 Timed0.
  intros Hc Hp Ht E.
  pose proof (ticker_rate pid start bootTimeout bootPoll taken w1) as Hr.
  pose proof (passed_mono pid start _ (BootSelect pid start bootTimeout bootPoll taken) w1) as Hm.
  pose proof (passed_bound pid start bootTimeout bootPoll taken w1) as Hb.
  pose proof (clock_mono _ (BootSelect pid start bootTimeout bootPoll taken) w1) as Hc1.
  rewrite E in *. cbn [fst snd] in *. specialize (Hr eq_refl). specialize (Hb eq_refl).
  split; [|done]. unfold rounds_left.
  assert (bootTimeout = Z.of_nat boot_ticks * bootPoll) as Hticks by reflexivity.
  destruct (decide (start + bootTimeout <= clock w1)) as [Hd|Hd].
  - specialize (Hb Hd). rewrite decide_True by lia. lia.
  - rewrite (decide_False (P := start + bootTimeout <= clock w)) by lia.
    assert (taken < boot_ticks)%nat as Hlt.
    { assert (Z.of_nat taken * bootPoll < Z.of_nat boot_ticks * bootPoll) as H by lia.
      apply Nat2Z.inj_lt. unfold bootPoll, Millisecond in H. lia. }
    destruct (decide (start + bootTimeout <= clock w2)); lia.
Qed.

Lemma waitRunning_loop_ends n c pid start taken w :
  start + Z.of_nat taken * bootPoll <= clock w -> (rounds_left pid start taken w < n)%nat ->
  exists r w', krun answer (waitRunning_loop quote state_String n c pid start bootTimeout bootPoll taken) w = (Some r, w').
Proof using Clocked0 Timed0.
  revert taken w. induction n as [|n IH]; intros taken w Ht Hn; [lia|]. cbn [waitRunning_loop]. rewrite krun_bind.
  pose proof (krun_clock (client_State quote c) w) as Hc. pose proof (krun_passed pid start (client_State quote c) w) as Hp.
  destruct (krun answer (client_State quote c) w) as [st w1]. cbn [snd] in Hc, Hp.
  destruct (match st with Ok _ => _ | Err _ => _ end); [by do 2 eexists|]. cbn [krun].
  destruct (answer _ (BootSelect pid start bootTimeout bootPoll taken) w1) as [ev w2] eqn:E.
  destruct ev; try (by do 2 eexists). destruct (tick_round pid start taken w w1 w2 Hc Hp Ht E) as [Hlt Ht2].
  apply IH; [done|lia].
Qed.

(** The deadline's error comes no earlier than the deadline. *)
Lemma waitRunning_loop_deadline n c pid start taken w e w' :
  krun answer (waitRunning_loop quote state_String n c pid start bootTimeout bootPoll taken) w
    = (Some (Some (DWrap "vm not running after 30s: " e)), w') ->
  start + bootTimeout <= clock w'.
Proof using Clocked0 Timed0.
  revert taken w. induction n as [|n IH]; intros taken w; [done|]. cbn [waitRunning_loop]. rewrite krun_bind.
  destruct (krun answer (client_State quote c) w) as [st w1].
  destruct (match st with Ok _ => _ | Err _ => _ end); [done|]. cbn [krun].
  pose proof (timer_late pid start bootTimeout bootPoll taken w1) as Ht.
  destruct (answer _ (BootSelect pid start bootTimeout bootPoll taken) w1) as [ev w2]. cbn [fst snd] in Ht.
  destruct ev; try done; [|apply IH]. intros [= _ <-]. by apply Ht.
Qed.

Lemma waitRunning_ends c pid w :
  exists r w', krun answer (waitRunning quote state_String (boot_rounds L) c pid bootTimeout bootPoll) w = (Some r, w')
    /\ forall e, r = Some (DWrap "vm not running after 30s: " e) -> clock w + bootTimeout <= clock w'.
Proof using Clocked0 Timed0.
  unfold waitRunning. cbn [krun]. pose proof (clock_now w) as H. destruct (answer _ TimeNow w) as [start w1]. cbn [fst snd] in H.
  destruct (waitRunning_loop_ends (boot_rounds L) c pid start 0 w1) as (r & w' & E); [lia| |].
  - unfold rounds_left, boot_rounds. destruct (decide _); lia.
  - exists r, w'. split; [exact E|]. intros e ->. apply waitRunning_loop_deadline in E. lia.
Qed.

Lemma vm_Create_ends cfg f w :
  exists r w', krun answer (vm_Create quote json_string Major Minor Mkdev state_String (boot_rounds L) cfg f) w = (Some r, w').
Proof using Clocked0 Timed0.
  unfold vm_Create. rewrite krun_bind. destruct (krun answer (pool quote cfg) w) as [[p|e] w1]; [|by do 2 eexists].
  rewrite krun_bind. destruct (krun answer (CreateVolume _ _ _ _ p _) w1) as [[root|e] w2]; [|by do 2 eexists].
  rewrite krun_bind. match goal with |- context [client_Spawn _ _ ?c ?r] => destruct (client_Spawn_ends c r w2) as ([[e|] c'] & w3 & ->) end;
    [by do 2 eexists|]. cbn [fst snd]. rewrite krun_bind.
  match goal with |- context [waitRunning _ _ _ ?c ?p _ _] => destruct (waitRunning_ends c p w3) as (r & w4 & -> & _) end.
  by do 2 eexists.
Qed.

End Termination.

(** C39: the polling loops end.  On a host whose clock never goes back and advances in a
    sleep, Spawn returns a handle or an error, and so do ReapSandbox and the reaping of
    every sandbox (worker -reap-all): the rounds of the model, three seconds of polling at
    10 ms and two at 50 ms, are always enough, whatever the processes and files do.  So
    does the boot of a VM, whatever its API answers, and with it vm.Create, when the timer
    and the ticker of the boot keep time and the select, once the timer has fired, passes
    it over at most [L] times: the thirty seconds of the deadline hold 600 ticks of 50 ms,
    so 600 + [L] ticks at most.  And a boot that fails for the deadline has waited that
    long. *)
Theorem waits_end {W : Type} (answer : forall X, hop X -> W -> X * W) (clock : W -> Z) quote uuid_Parse
    shimPath dir firecracker baseDir sandboxID removeVolume w :
  Clocked W answer clock ->
  is_Some (krun answer (Spawn quote shimPath dir firecracker) w).1
  /\ is_Some (krun answer (ReapSandbox quote uuid_Parse baseDir sandboxID removeVolume) w).1
  /\ is_Some (krun answer (ReapOrphans quote uuid_Parse baseDir removeVolume) w).1
  /\ forall json_string Major Minor Mkdev state_String passed_over L cfg f c pid,
       Timed W answer clock passed_over L ->
       is_Some (krun answer (vm_Create quote json_string Major Minor Mkdev state_String (boot_rounds L) cfg f) w).1
       /\ exists r w', krun answer (waitRunning quote state_String (boot_rounds L) c pid bootTimeout bootPoll) w
                       = (Some r, w')
            /\ forall e, r = Some (DWrap "vm not running after 30s: " e) -> clock w + bootTimeout <= clock w'.
Proof.
  intros Hc. destruct (Spawn_ends answer clock quote shimPath dir firecracker w) as (r1 & w1 & ->).
  destruct (ReapSandbox_ends answer clock quote uuid_Parse baseDir sandboxID removeVolume w) as (r2 & w2 & ->).
  destruct (ReapOrphans_ends answer clock quote uuid_Parse baseDir removeVolume w) as (r3 & w3 & ->).
  split_and!; [done..|]. intros json_string Major Minor Mkdev state_String passed_over L cfg f c pid Ht.
  destruct (vm_Create_ends answer clock quote json_string Major Minor Mkdev state_String passed_over L cfg f w)
    as (r4 & w4 & ->).
  split; [done|]. by apply (waitRunning_ends answer clock quote state_String passed_over).
Qed.

(** A host on which every step of a creation succeeds, and the VM it boots hangs: its API
    never answers.  The ticker is taken at its next period until the timer has fired. *)
Definition pool_files : string :=
  of_bytes (to_bytes "POOL_NAME=pool" ++ [byte 10] ++ to_bytes "POOL_DIR=/pool" ++ [byte 10]
    ++ to_bytes "FIRST_SANDBOX_ID=100" ++ [byte 10] ++ to_bytes "BASE_THIN_ID=1" ++ [byte 10]
    ++ to_bytes "BASE_SECTORS=8" ++ [byte 10]).

Definition hanging_machine (X : Type) (o : hop X) (w : Z) : X * Z :=
  match o in hop Y return Y * Z with
  | Ioctl _ b => (Ok b, w)
  | ReadFile _ => (Ok pool_files, w)
  | Stat _ => (Ok (S_IFBLK, 0), w)
  | RemoveFile _ => (None, w)
  | Dial _ => (None, w)
  | BootSelect _ start timeout poll k =>
      if start + timeout <=? w then (BootDeadline, w)
      else (BootTick, Z.max w (start + Z.of_nat (S k) * poll))
  | o => empty_machine _ o w
  end.

#[export] Instance hanging_clocked : Clocked Z hanging_machine id.
Proof. split; unfold id; [intros ? [] ?|..]; intros; cbn; try case_match; cbn; lia. Qed.

#[export] Instance hanging_timed : Timed Z hanging_machine id (fun _ _ _ => 0%nat) 0.
Proof.
  split; unfold id; intros; cbn in *; try lia; destruct (Z.leb_spec (start + timeout) w); cbn in *; try done; lia.
Qed.

(** A shim that never listens: Spawn gives up after the deadline.  A VM that hangs: its
    creation polls for thirty seconds, then fails. *)
Lemma waits_end_witness :
  let vm := mkFirecrackerVM (newClient "a" "/srv/a") "/srv/vmlinux" (mkCreateInput "a" 1 256) in
  let create := vm_Create (fun s => s) (fun s => s) id id (fun a _ => a) (fun _ => EmptyString) (boot_rounds 0)
                  (ConfigFromEnv (fun _ => EmptyString)) vm in
  is_Some (krun empty_machine (Spawn (fun s => s) "/shim" "/srv/a" "/fc") 0).1
  /\ is_Some (krun hanging_machine create 0).1
  /\ (krun hanging_machine create 0).2 = bootTimeout
  /\ exists e f, (krun hanging_machine create 0).1 = Some (Some (DWrap "vm not running after 30s: " e), f).
Proof.
  intros vm create. split; [|split; [|split]].
  - apply (waits_end empty_machine id (fun s => s) (fun _ => true) "/shim" "/srv/a" "/fc" "/srv" "a"
              (fun _ => KRet (Ok tt)) 0 empty_clocked).
  - apply (waits_end hanging_machine id (fun s => s) (fun _ => true) "/shim" "/srv/a" "/fc" "/srv" "a"
              (fun _ => KRet (Ok tt)) 0 hanging_clocked) with (passed_over := fun _ _ _ => 0%nat);
      [exact (newClient "a" "/srv/a")|exact 1|exact hanging_timed].
  - vm_compute. reflexivity.
  - vm_compute. do 2 eexists. reflexivity.
Defined.
