(* ===== verification/Confinement.v ===== *)
(** * The operations of a VM on its host

    What the methods of the vm interface (Vm.v), the factory that builds one, the attacher
    and the reaper may do to the machine: [vm_guard] is what belongs to one sandbox, its
    directory, its volume and its processes, and every operation stays within it.  The
    guard and what is known of a VM only grow with the history of the host, so that they
    hold whatever other goroutines do in between (Machine.v). *)

From Stdlib Require Import ZArith Lia Ascii.
From stdpp Require Import base tactics option list sets strings numbers.
From S2P Require Import Prelude GoStd EventGRPC Manager Host Dm ThinPool Shim.
From S2P Require Import Runtime Vm Reaping.

Open Scope Z_scope.

#[local] Set Warnings "-clear-no-such-hyp".

(** ** Histories that grow *)

Lemma suffix_subseteq {A} (l l' : list A) : l `suffix_of` l' -> l ⊆ l'.
Proof. intros Hs x Hx. by eapply elem_of_suffix. Qed.

Definition grows {A} (Q : list event -> A -> Prop) : Prop :=
  forall h h' a, h ⊆ h' -> Q h a -> Q h' a.

Lemma hwp_grows {A} (P : list event -> forall X, hop X -> Prop) (Q : list event -> A -> Prop) h h' (p : kprog A) :
  (forall X, grows (fun h (o : hop X) => P h X o)) -> grows Q -> h ⊆ h' -> hwp P h p Q -> hwp P h' p Q.
Proof.
  intros HP HQ. revert h h'. induction p as [a|X o k IH]; intros h h' Hh; cbn; [by apply HQ|].
  intros [Ho Hk]. split; [by eapply HP|]. intros x Hx. eapply IH; [|by apply Hk]. set_solver.
Qed.

(** A program that needs nothing of the past: what it shows, it saw itself. *)
Lemma hwp_since {A} (P : list event -> forall X, hop X -> Prop) (Q : list event -> A -> Prop) h (p : kprog A) :
  (forall X, grows (fun h (o : hop X) => P h X o)) -> hwp P [] p Q ->
  hwp P h p (fun h' a => exists new, h' = new ++ h /\ Q new a).
Proof.
  intros HP. change h with ([] ++ h) at 1. generalize (@nil event). induction p as [a|X o k IH]; intros new; cbn; [eauto|].
  intros [Ho Hk]. split; [eapply HP; [|done]; set_solver|]. intros x Hx. apply (IH x (Ev o x :: new)), Hk, Hx.
Qed.

Lemma volume_gone_grows quote id : grows (fun h (_ : unit) => volume_gone quote id h).
Proof.
  intros h h' _ Hs [(b & Hb & Hn)|(p & tid & tbl & bt & outt & b & out & H1 & Hn & Hd & Ht & H2 & Hm)]; [left|right].
  - exists b. auto.
  - exists p, tid, tbl, bt, outt, b, out. repeat split; auto.
Qed.

(** ** Names in a directory *)

Definition plain_name (s : string) : Prop :=
  (slash ∉ to_bytes s) /\ s <> EmptyString /\ s <> "."%string /\ s <> ".."%string.

#[local] Instance to_bytes_inj : Inj eq eq to_bytes.
Proof. intros x y E. by rewrite <- (of_to_bytes x), E, of_to_bytes. Qed.

Lemma split_last sep cur a b :
  sep ∉ b -> split_bytes sep cur (a ++ sep :: b) = split_bytes sep cur a ++ [b].
Proof.
  intros Hb. revert cur. induction a as [|c a IH]; intros cur; cbn [app split_bytes].
  - rewrite Ascii.eqb_refl. f_equal. rewrite <- (app_nil_r b) at 1. rewrite split_run by done. cbn.
    by rewrite app_nil_r, rev_involutive.
  - destruct (Ascii.eqb c sep); [|apply IH]. cbn. by rewrite IH.
Qed.

Lemma clean_last rooted stack l s :
  plain_name s -> clean_components rooted stack (l ++ [s]) = s :: clean_components rooted stack l.
Proof.
  intros (_ & H1 & H2 & H3). revert stack. induction l as [|c l IH]; intros stack; cbn [app clean_components].
  - by rewrite !bool_decide_eq_false_2.
  - destruct (_ || _); [apply IH|]. destruct (bool_decide (c = ".."%string)); [|apply IH].
    destruct stack as [|top below]; [destruct rooted; apply IH|]. destruct (bool_decide _); apply IH.
Qed.

Lemma join_last sep l : exists pre, forall s, join_with sep (l ++ [s]) = pre +:+ s.
Proof.
  induction l as [|x l [pre IH]]; [by exists EmptyString|].
  exists (x +:+ sep +:+ pre). intros s. cbn. destruct (l ++ [s]) as [|y l'] eqn:E; [by destruct l|].
  rewrite <- E, IH. apply (inj to_bytes). by rewrite !to_bytes_app, <- !app_assoc.
Qed.

(** The directories of two sandboxes are different. *)
Lemma Join_inj base a b : base <> EmptyString -> plain_name a -> plain_name b -> Join base a = Join base b -> a = b.
Proof.
  intros Hne Ha Hb. unfold Join. rewrite bool_decide_eq_false_2 by done. unfold Clean.
  assert (forall s, plain_name s -> Split (base +:+ "/" +:+ s) slash = Split base slash ++ [s]) as Hsplit.
  { intros s [Hs _]. unfold Split. rewrite !to_bytes_app. change (to_bytes "/" ++ to_bytes s) with (slash :: to_bytes s).
    rewrite split_last by done. rewrite fmap_app. cbn. by rewrite of_to_bytes. }
  assert (forall s, HasPrefix (base +:+ "/" +:+ s) "/" = HasPrefix base "/") as Hroot.
  { intros s. unfold HasPrefix, CutPrefix. rewrite !to_bytes_app. change (to_bytes "/") with [slash].
    destruct base as [|c base]; [done|]. cbn. by destruct (Ascii.eqb slash c). }
  rewrite !Hroot, !Hsplit, !clean_last by done. cbn [rev]. set (l := rev _).
  destruct (join_last "/" l) as [pre Hpre].
  assert (forall s : string, match l ++ [s] with [] => "."%string | _ => join_with "/" (l ++ [s]) end = join_with "/" (l ++ [s])) as Hm
    by (intros s; by destruct l).
  rewrite !Hm, !Hpre. assert (forall p x y, p +:+ x = p +:+ y -> x = y) as Hinj.
  { intros p x y E. apply (f_equal to_bytes) in E. rewrite !to_bytes_app in E. apply app_inv_head in E.
    by apply (inj to_bytes). }
  destruct (HasPrefix base "/"); intros E; [apply Hinj in E|]; by apply Hinj in E.
Qed.

(** ** What belongs to a sandbox *)

(** A process the worker started as the shim of [dir], or recognised as one of its. *)
Definition own_process (dir : string) (h : list event) (pid : Z) : Prop :=
  verified dir h pid \/ exists shim fc, Ev (StartProcess shim (spawn_args dir fc)) (Ok pid) ∈ h.

Section Confinement.

Context (quote : string -> string) (text : derror -> string) (uuid_Parse : string -> bool).
Context (Getenv : string -> string) (json_string : string -> string).
Context (Major Minor : Z -> Z) (Mkdev : Z -> Z -> Z) (state_String : SandboxState -> string).

Definition sandbox_dir (id : string) : string := Join (SandboxBaseDir Getenv) id.

(** What an operation changes belongs to the sandbox [id]; reading, connecting and waiting
    are free. *)
Definition vm_guard (id : string) (h : list event) (X : Type) (o : hop X) : Prop :=
  let dir := sandbox_dir id in
  let own P := IsSandboxID uuid_Parse id = true /\ P in
  match o with
  | KillProcess pid _ => own (own_process dir h pid)
  | RemoveAll path => own (path = dir /\ volume_gone quote id h)
  | RemoveFile path => own (path = VolumePath id \/ path = Path dir ExitFile)
  | Mknod path _ _ => own (path = VolumePath id)
  | Ioctl r b => own (exists p, pool_ok p /\ touches_ioctl p id r b)
  | MkdirAll path => own (path = dir)
  | WriteFile path _ => own (path = Path dir ConfigFile)
  | OpenFile path => own (path = Path dir ShimLogFile)
  | StartProcess _ args => own (exists fc, args = spawn_args dir fc)
  | Rename _ _ | Flock _ => False
  | _ => True
  end.

(** Operations that change nothing. *)
Definition harmless (X : Type) (o : hop X) : Prop :=
  match o with
  | KillProcess _ _ | RemoveAll _ | RemoveFile _ | Mknod _ _ _ | Ioctl _ _ | MkdirAll _ | WriteFile _ _
  | OpenFile _ | StartProcess _ _ | Rename _ _ | Flock _ => False
  | _ => True
  end.

Lemma harmless_guard id h X (o : hop X) : harmless X o -> vm_guard id h X o.
Proof. by destruct o. Qed.

(** The 36 bytes of a UUID are hexadecimal digits and dashes. *)
Lemma sandbox_dir_inj id id' :
  (forall s, IsSandboxID uuid_Parse s = true -> slash ∉ to_bytes s) ->
  IsSandboxID uuid_Parse id = true -> IsSandboxID uuid_Parse id' = true -> sandbox_dir id = sandbox_dir id' -> id = id'.
Proof.
  intros Hu. assert (forall s, IsSandboxID uuid_Parse s = true -> plain_name s) as Hp.
  { intros s Hs. split; [by apply Hu|]. unfold IsSandboxID in Hs. apply andb_prop in Hs as [_ Hl].
    by split_and!; intros ->. }
  intros H1 H2. apply Join_inj; [|by apply Hp..]. unfold SandboxBaseDir. by case_bool_decide.
Qed.

Lemma own_process_grows dir : grows (own_process dir).
Proof.
  intros h h' pid Hs [(entry & raw & H1 & H2)|(shim & fc & H)]; [left|right].
  - exists entry, raw. auto.
  - exists shim, fc. auto.
Qed.

Lemma vm_guard_grows id X : grows (fun h (o : hop X) => vm_guard id h X o).
Proof.
  intros h h' o Hs. destruct o; try done; cbn.
  - intros [? [? ?]]. split_and!; [done..|]. by eapply (volume_gone_grows quote id h h' tt).
  - intros [? ?]. split; [done|]. by eapply own_process_grows.
Qed.

(** A VM of the sandbox: its directory, and its shim if it has one. *)
Record vm_of (id : string) (h : list event) (f : firecrackerVM) : Prop := {
  vo_valid : IsSandboxID uuid_Parse id = true;
  vo_in : ci_ID (fv_in f) = id;
  vo_dir : cl_Dir (fv_client f) = sandbox_dir id;
  vo_pid : forall hd, cl_handle (fv_client f) = Some hd -> own_process (sandbox_dir id) h (h_pid hd);
}.

Lemma vm_of_grows id : grows (vm_of id).
Proof. intros h h' f Hs [H1 H2 H3 H4]. split; try done. intros hd Hd. eapply own_process_grows; eauto. Qed.

Lemma CheckSandboxID_None id : CheckSandboxID uuid_Parse quote id = None -> IsSandboxID uuid_Parse id = true.
Proof. unfold CheckSandboxID. by destruct (IsSandboxID uuid_Parse id). Qed.

(** ** Each operation *)

Abbreviation cfg := (ConfigFromEnv Getenv).

Lemma newVM_confined h c :
  hwp (vm_guard (ci_ID c)) h (newFirecrackerVM quote uuid_Parse Getenv cfg c) (fun h' r =>
    forall f, r = Ok f -> vm_of (ci_ID c) h' f).
Proof.
  unfold newFirecrackerVM. apply hwp_bind. unfold kernelPath. destruct (bool_decide _); [done|].
  cbn [hwp]. split; [done|]. intros [st|e] _; [|done]. cbn [hwp]. apply hwp_bind. unfold NewClient.
  destruct (CheckSandboxID uuid_Parse quote (ci_ID c)) eqn:E; [done|]. apply CheckSandboxID_None in E.
  cbn [hwp]. split; [done|]. intros [e|] _; [done|]. cbn. intros f [= <-]. by split.
Qed.

Lemma Attach_pid dir h :
  hwp (fun _ => harmless) h (Attach quote text dir) (fun h' r => forall hd, r = Ok hd -> verified dir h' (h_pid hd)).
Proof.
  unfold Attach, readPid. cbn [kbind hwp]. split; [done|]. intros [raw|e] _; [|done].
  destruct (Atoi (TrimSpace raw)) as [pid|] eqn:Ea; [|done]. destruct (pid <=? 0); [done|].
  cbn [kbind hwp]. split; [done|]. intros [cmd|e] _; [|done].
  cbn [kbind]. destruct (shim_argv dir (argv cmd)) eqn:Es; cbn [negb]; [|done].
  assert (forall h', Ev (ReadFile (cmdline (Itoa pid))) (Ok cmd) ∈ h' -> verified dir h' pid) as Hv.
  { intros h' Hin. exists (Itoa pid), cmd. split; [done|]. split; [|by left]. apply Atoi_Itoa. by eapply Atoi_range. }
  unfold readExit. cbn [kbind hwp]. split; [done|].
  intros [b|e] _; cbn [kbind hwp]; [destruct (Atoi_err quote (TrimSpace b)) as [code|e]; [done|]|];
    cbn [hwp]; (split; [done|]); intros [e'|] _; cbn; try done; intros hd [= <-]; apply Hv; by do 2 right; left.
Qed.

Lemma attach_confined h id :
  hwp (vm_guard id) h (attach quote text uuid_Parse Getenv id) (fun h' r => forall f, r = Ok f -> vm_of id h' f).
Proof.
  unfold attach, AttachClient. destruct (CheckSandboxID uuid_Parse quote id) eqn:E; [done|].
  apply CheckSandboxID_None in E. apply hwp_bind, hwp_bind.
  eapply hwp_mono; [|eapply hwp_weaken; [|apply Attach_pid]].
  - intros h' [hd|e] Hp; [|done]. cbn. intros f [= <-]. split; try done. cbn. intros hd' [= <-]. left. by apply Hp.
  - intros h' X o. apply harmless_guard.
Qed.

Lemma connect_loop_harmless fuel dir pid deadline h :
  own_process dir h pid ->
  hwp (fun h X o => match o with KillProcess pid' _ => own_process dir h pid' | o => harmless _ o end) h
    (connect_loop quote fuel dir pid deadline) (fun h' r =>
      forall hd, r = Some (Ok hd) -> own_process dir h' (h_pid hd)).
Proof.
  revert h. induction fuel as [|fuel IH]; intros h Hp; [done|]. cbn [connect_loop hwp]. split; [done|].
  intros [err|] _; cbn [hwp].
  - split; [done|]. intros [] _.
    + unfold readExit. cbn [kbind hwp]. split; [done|]. intros r _.
      assert (own_process dir (Ev (ReadFile (Path dir ExitFile)) r :: Ev (ProcessExited pid) true :: Ev (Dial (Path dir SocketFile)) (Some err) :: h) pid) as Hp'
        by (eapply own_process_grows; [|exact Hp]; set_solver).
      destruct r as [b|e]; cbn; [|done]. destruct (Atoi_err quote (TrimSpace b)); [|done]. by intros hd [= <-].
    + cbn [hwp]. split; [done|]. intros now _.
      destruct (deadline <? now); cbn [hwp].
      * split; [eapply own_process_grows; [|exact Hp]; set_solver|]. done.
      * split; [done|]. intros [] _. apply IH. eapply own_process_grows; [|exact Hp]. set_solver.
  - intros hd [= <-]. eapply own_process_grows; [|exact Hp]. set_solver.
Qed.

Lemma Spawn_confined h id shimPath fc :
  IsSandboxID uuid_Parse id = true ->
  hwp (vm_guard id) h (Spawn quote shimPath (sandbox_dir id) fc) (fun h' r =>
    forall hd, r = Some (Ok hd) -> own_process (sandbox_dir id) h' (h_pid hd)).
Proof.
  intros Hid. unfold Spawn. cbn [hwp]. split; [done|]. intros [e|] _; [done|]. cbn [hwp]. split; [by split; [|right]|].
  intros r _. set (start := KOp (StartProcess _ _) _).
  assert (forall h, hwp (vm_guard id) h start (fun h' r => forall hd, r = Some (Ok hd) -> own_process (sandbox_dir id) h' (h_pid hd))) as Hs.
  { intros h1. unfold start. cbn [hwp]. split; [by split; [|eexists]|]. intros [pid|e] _; [|done].
    cbn [hwp]. split; [done|]. intros now _. eapply hwp_weaken; [|apply connect_loop_harmless; right; do 2 eexists; right; left].
    intros h' X o. by destruct o. }
  destruct r as [e|]; [destruct (decide (e = ENOENT)); [apply Hs|done]|apply Hs].
Qed.

Lemma client_Spawn_confined h id c req :
  IsSandboxID uuid_Parse id = true -> cl_Dir c = sandbox_dir id ->
  (forall hd, cl_handle c = Some hd -> own_process (sandbox_dir id) h (h_pid hd)) ->
  hwp (vm_guard id) h (client_Spawn quote json_string c req) (fun h' r => forall b, r = Some b ->
    cl_Dir b.2 = sandbox_dir id /\ forall hd, cl_handle b.2 = Some hd -> own_process (sandbox_dir id) h' (h_pid hd)).
Proof.
  intros Hid Hd Hp. unfold client_Spawn. destruct (cl_handle c) as [hd0|] eqn:Eh.
  { intros b [= <-]. cbn. rewrite Eh. auto. }
  case_bool_decide; [intros b [= <-]; cbn; by rewrite Eh|]. rewrite Hd.
  cbn [writeVMConfig kbind hwp]. split; [done|]. intros [e|] _; [intros b [= <-]; cbn; by rewrite Eh|].
  apply hwp_bind. eapply hwp_mono; [|by apply Spawn_confined]. intros h' [[hd|e]|] H'; [|by intros b [= <-]; cbn; rewrite Eh|done].
  intros b [= <-]. cbn. split; [done|]. intros hd' [= <-]. by apply H'.
Qed.

Lemma waitRunning_loop_harmless fuel c pid start timeout poll taken :
  kwp harmless (waitRunning_loop quote state_String fuel c pid start timeout poll taken) (fun _ => True).
Proof.
  revert taken. induction fuel as [|fuel IH]; intros taken; [done|]. cbn [waitRunning_loop]. apply kwp_bind. unfold client_State. cbn [kwp].
  split; [done|]. assert (forall st, kwp harmless
     (if match st with Ok s => bool_decide (s = StateRunning) | Err _ => false end
       then KRet (Some None)
       else KOp (BootSelect pid start timeout poll taken) (fun ev => match ev with
         | BootGone => KRet (Some (Some (DNew "vm exited while booting (see firecracker.log in the sandbox dir)")))
         | BootDeadline => KRet (Some (Some (DWrap ("vm not running after " +:+ Duration_String timeout +:+ ": ") match st with Ok s => DNew ("state " +:+ state_String s) | Err e => e end)))
         | BootCtx e => KRet (Some (Some (DWrap "boot aborted: " e)))
         | BootTick => waitRunning_loop quote state_String fuel c pid start timeout poll (S taken)
         end)) (fun _ => True)) as Hst.
  { intros st. destruct (match st with Ok _ => _ | Err _ => _ end); [done|]. cbn [kwp]. split; [done|]. by intros []. }
  intros [resp|e] _; [|apply (Hst (Err e))]. destruct (negb _); [apply Hst|].
  destruct (wrap_err _ _) as [st|e]; [|apply (Hst (Err e))]. cbn [kwp]. apply Hst.
Qed.

Lemma waitRunning_harmless fuel c pid timeout poll :
  kwp harmless (waitRunning quote state_String fuel c pid timeout poll) (fun _ => True).
Proof. unfold waitRunning. cbn [kwp]. split; [done|]. intros start _. apply waitRunning_loop_harmless. Qed.

Lemma vm_Create_confined fuel h id f :
  vm_of id h f ->
  hwp (vm_guard id) h (vm_Create quote json_string Major Minor Mkdev state_String fuel cfg f) (fun h' r =>
    forall b, r = Some b -> vm_of id h' b.2).
Proof.
  intros Hf. unfold vm_Create, pool. apply hwp_bind.
  eapply hwp_mono; [|eapply hwp_weaken; [|apply kwp_hwp, LoadPool_ok]; intros ? ? [] ?; by apply harmless_guard].
  intros h1 [p|e] [Hp Hs1%suffix_subseteq].
  2: { intros b [= <-]. by eapply vm_of_grows. }
  specialize (Hp p eq_refl). apply hwp_bind. rewrite (vo_in _ _ _ Hf).
  eapply hwp_mono; [|eapply hwp_weaken; [|apply kwp_hwp, (CreateVolume_touches quote Major Minor Mkdev p id Hp)]].
  2: { pose proof (vo_valid _ _ _ Hf). intros h' X o Ht. destruct o; try done; cbn in *; eauto. }
  intros h2 [root|e] [_ Hs2%suffix_subseteq].
  2: { intros b [= <-]. eapply vm_of_grows; [|done]. etrans; eassumption. }
  assert (vm_of id h2 f) as [H1 H2 H3 H4] by (eapply vm_of_grows; [|done]; etrans; eassumption).
  apply hwp_bind. eapply hwp_mono; [|by apply client_Spawn_confined].
  intros h3 [[err c]|] H; [|done]. destruct (H _ eq_refl) as [Hc1 Hc2]. cbn [snd fst] in *.
  assert (vm_of id h3 (mkFirecrackerVM c (fv_kernelPath f) (fv_in f))) as Hf' by (by split).
  destruct err as [e|]; [by intros b [= <-]|]. apply hwp_bind.
  eapply hwp_mono; [|eapply hwp_weaken; [|apply kwp_hwp, waitRunning_harmless]; intros; by apply harmless_guard].
  intros h4 [w|] [_ Hs4%suffix_subseteq]; [|done]. intros b [= <-]. by eapply vm_of_grows.
Qed.

Lemma Stop_confined h id hd grace :
  IsSandboxID uuid_Parse id = true -> own_process (sandbox_dir id) h (h_pid hd) ->
  hwp (vm_guard id) h (Shim.Stop hd grace) (fun _ _ => True).
Proof.
  intros Hid Hp. unfold Shim.Stop, done_within, signal_shim. destruct (h_conn hd); [|done].
  cbn [hwp]. split; [done|]. intros [] _; [done|]. cbn [hwp].
  split; [split; [done|]; eapply own_process_grows; [|exact Hp]; set_solver|]. intros r _.
  set (k := KOp (DoneWithin _ grace) _).
  assert (forall h', h ⊆ h' -> hwp (vm_guard id) h' k (fun _ _ => True)) as Hk.
  { intros h' Hs. unfold k. cbn [hwp]. split; [done|]. intros [] _; [done|]. cbn [hwp].
    split; [split; [done|]; eapply own_process_grows; [|exact Hp]; set_solver|].
    intros [e|] _; [destruct (decide (e = ESRCH)); [|done]|]; cbn [hwp]; (split; [done|]); by intros [] _. }
  destruct r as [e|]; [destruct (decide (e = ESRCH)); [|done]|]; apply Hk; set_solver.
Qed.

Lemma vm_Stop_confined h id f : vm_of id h f -> hwp (vm_guard id) h (vm_Stop f) (fun _ _ => True).
Proof.
  intros [Hid _ _ Hp]. unfold vm_Stop, client_Stop. destruct (cl_handle (fv_client f)) as [hd|]; [|done].
  by apply Stop_confined; [|apply Hp].
Qed.

Lemma vm_State_confined h id f : hwp (vm_guard id) h (vm_State quote f) (fun _ _ => True).
Proof.
  unfold vm_State, client_State. cbn [hwp]. split; [done|]. intros [resp|e] _; [|done].
  destruct (negb _); [done|]. by destruct (wrap_err _ _).
Qed.

Lemma reap_guard_vm id h X (o : hop X) :
  IsSandboxID uuid_Parse id = true -> reap_guard quote (sandbox_dir id) id h X o -> vm_guard id h X o.
Proof. intros Hid. destruct o; try done; cbn; auto. intros H. split; [done|]. by left. Qed.

(** The outcome of a cleanup: what its success shows. *)
Definition removed (id : string) (h : list event) : Prop :=
  volume_gone quote id h
  /\ exists x, Ev (RemoveAll (sandbox_dir id)) x ∈ h /\ forall e, x = Some e -> is_errno e ENOENT = true.

(** Success, since [h]. *)
Definition removed_since (id : string) (h h' : list event) : Prop := exists new, h' = new ++ h /\ removed id new.

Lemma Cleanup_confined h id f :
  IsSandboxID uuid_Parse id = true -> ci_ID (fv_in f) = id -> cl_Dir (fv_client f) = sandbox_dir id ->
  hwp (vm_guard id) h (vm_Cleanup quote cfg f) (fun h' r => r = None -> removed id h').
Proof.
  intros Hid Hin Hdir. unfold vm_Cleanup. rewrite Hin, Hdir. apply hwp_bind.
  eapply hwp_mono; [|eapply hwp_weaken; [|apply (cfg_RemoveVolume_guard quote (sandbox_dir id))]; intros; by apply reap_guard_vm].
  intros h1 [[]|e] Hg; [|done]. cbn [hwp]. split; [by cbn; auto|]. intros x _.
  assert (volume_gone quote id (Ev (RemoveAll (sandbox_dir id)) x :: h1)) as Hg'
    by (eapply (volume_gone_grows quote id h1 _ tt); [set_solver|auto]).
  destruct x as [e|]; cbn; [destruct (is_errno e ENOENT) eqn:Ee; [|done]|]; intros _; (split; [done|]);
    eexists; (split; [left|]); [by intros ? [= <-]|done].
Qed.

Lemma reap_vm_confined h id :
  hwp (vm_guard id) h (reap quote uuid_Parse cfg id) (fun h' r => r = Some None -> removed id h').
Proof.
  eapply hwp_mono; [|eapply hwp_weaken; [|apply (ReapSandbox_guard quote uuid_Parse cfg id)]].
  - intros h' r [Hr _] E. destruct (Hr E) as [H1 H2]. split; [done|]. by eexists.
  - intros h' X o [Hid Hg]. by apply reap_guard_vm.
Qed.

Lemma since_removed {A} id h (p : kprog A) (ok : A -> Prop) :
  hwp (vm_guard id) [] p (fun h' r => ok r -> removed id h') ->
  hwp (vm_guard id) h p (fun h' r => ok r -> removed_since id h h').
Proof.
  intros H. eapply hwp_mono; [|eapply hwp_since; [apply vm_guard_grows|exact H]].
  intros h' r (new & -> & Hr) Hok. exists new. auto.
Qed.

Lemma vm_Cleanup_confined h id f :
  vm_of id h f -> hwp (vm_guard id) h (vm_Cleanup quote cfg f) (fun h' r => r = None -> removed_since id h h').
Proof. intros [Hid Hin Hdir _]. by apply since_removed, Cleanup_confined. Qed.

Lemma reap_since h id :
  hwp (vm_guard id) h (reap quote uuid_Parse cfg id) (fun h' r => r = Some None -> removed_since id h h').
Proof. apply since_removed, reap_vm_confined. Qed.

End Confinement.
