(* ===== verification/Machine.v ===== *)
(** * The worker's manager on its host

    The interleaving of Manager.v (Ownership.v, Recovery.v) with the operations on a
    sandbox's resources run as the programs of Vm.v on the machine, one host operation at a
    time: the whole of internal/packages/sandboxmgr.  [host_op] is the vm interface
    implemented by the Firecracker VM; a goroutine that is on the resources of a sandbox
    runs its host program to the end, interleaved with everything else. *)

From Stdlib Require Import ZArith Lia Ascii.
From stdpp Require Import base tactics option list gmap sets strings numbers relations.
From S2P Require Import Prelude GoStd Database EventGRPC Manager Ownership Recovery.
From S2P Require Import Host Dm ThinPool Shim Runtime Vm Reaping Confinement.

Open Scope Z_scope.

#[local] Set Warnings "-clear-no-such-hyp".

(** ** The vm interface, implemented *)

Section Machine.

Context (quote : string -> string) (text : derror -> string) (uuid_Parse : string -> bool).
Context (Getenv : string -> string) (json_string : string -> string).
Context (Major Minor : Z -> Z) (Mkdev : Z -> Z -> Z) (state_String : SandboxState -> string).

(** The polls a boot may take: a run of any length is a run with enough of them. *)
Context (fuel : nat).

(** An error of the machine as the manager sees it: its wrappings, and what it wraps of the
    other packages. *)
Fixpoint go_error (e : derror) : error :=
  match e with
  | DGo e => e
  | DWrap pre e => Wrap pre (go_error e)
  | Errno _ | DNew _ | DJoin _ _ => NewError (text e)
  end.

Abbreviation cfg := (ConfigFromEnv Getenv).

(** A method on a nil VM, or one whose fuel ran out, does not return. *)
Definition on_vm {X} (v : option firecrackerVM) (p : firecrackerVM -> kprog (option (X * firecrackerVM)))
    : kprog (option (X * option firecrackerVM)) :=
  match v with
  | Some f => (r <-f p f ;; KRet (Some (r.1, Some r.2)))%kprog
  | None => KRet None
  end.

(** An operation on the resources of the sandbox [id] by a goroutine whose VM is [v]: its
    answer, and the VM afterwards. *)
Definition host_op (v : option firecrackerVM) (id : string) (X : Type) (o : vmop X)
    : kprog (option (X * option firecrackerVM)) :=
  (match o in vmop X return kprog (option (X * option firecrackerVM)) with
   | VMAttach =>
       r <-k attach quote text uuid_Parse Getenv id ;;
       KRet (Some (match r with Ok f => (None, Some f) | Err e => (Some (go_error e), v) end))
   | NewVM c =>
       r <-k newFirecrackerVM quote uuid_Parse Getenv cfg c ;;
       KRet (Some (match r with Ok f => (None, Some f) | Err e => (Some (go_error e), v) end))
   | VMCreate =>
       on_vm v (fun f =>
         r <-f vm_Create quote json_string Major Minor Mkdev state_String fuel cfg f ;;
         KRet (Some (go_error <$> r.1, r.2)))
   | VMStop => on_vm v (fun f => r <-k vm_Stop f ;; KRet (Some (go_error <$> r, f)))
   | VMState =>
       on_vm v (fun f =>
         r <-k vm_State quote f ;;
         KRet (Some (match r with Ok st => Ok st | Err e => Err (go_error e) end, f)))
   | VMCleanup => on_vm v (fun f => r <-k vm_Cleanup quote cfg f ;; KRet (Some (go_error <$> r, f)))
   | Reap => r <-f reap quote uuid_Parse cfg id ;; KRet (Some (go_error <$> r, v))
   end)%kprog.

(** ** The machine *)

(** A host program that ends with the goroutine's next program, and its VM. *)
Definition hprog (A : Type) : Type := kprog (option (mprog A * option firecrackerVM)).

Definition begin {A} (v : option firecrackerVM) (p : mprog A) : option (hprog A) :=
  match p with
  | MVM id o k => Some (r <-f host_op v id _ o ;; KRet (Some (k r.1, r.2)))%kprog
  | _ => None
  end.

(** - [mc_main]: Recover, which has returned once the worker serves, and the VM it has just
      attached;
    - [mc_vms]: the vm field of each Service;
    - [mc_mop], [mc_tops], [mc_aops]: the host programs under way, of Recover, of the calls
      and of the actors;
    - [mc_log]: what the host was asked and answered, the latest first. *)
Record machine : Type := mkMachine {
  mc_config : config;
  mc_main : mprog (result error Z);
  mc_attached : option firecrackerVM;
  mc_vms : gmap nat firecrackerVM;
  mc_mop : option (hprog (result error Z));
  mc_tops : gmap nat (hprog (option error));
  mc_aops : gmap nat (hprog (bool * option error));
  mc_log : list Host.event;
}.

Definition machine_init : machine := mkMachine start_config Recover None ∅ None ∅ ∅ [].

Definition set_thread (t : nat) (p : mprog (option error)) (c : config) : config :=
  mkConfig (c_mgr c) (c_next c) (c_actors c) (<[t := Running p]> (c_threads c)).
Definition set_actor (n : nat) (a : actor) (c : config) : config :=
  mkConfig (c_mgr c) (c_next c) (<[n := a]> (c_actors c)) (c_threads c).

Definition serving (z : machine) : Prop := exists r, mc_main z = MRet r.

(** The goroutines on the resources of a sandbox do not move. *)
Definition undisturbed (c c' : config) : Prop :=
  (forall t p, c_threads c !! t = Some (Running p) -> touching p <> None -> c_threads c' !! t = Some (Running p))
  /\ (forall n t s p, c_actors c !! n = Some (Busy t s p) -> touching p <> None ->
      c_actors c' !! n = Some (Busy t s p)).

Inductive hstep (z : machine) : machine -> Prop :=
(** The manager: no call is served before Recover returns. *)
| H_manager c' :
    mstep uuid_Parse quote (mc_config z) c' -> undisturbed (mc_config z) c' ->
    (serving z \/ c_threads c' = ∅) ->
    hstep z (mkMachine c' (mc_main z) (mc_attached z) (mc_vms z) (mc_mop z) (mc_tops z) (mc_aops z) (mc_log z))
(** A panic in the middle of an operation. *)
| H_panic n t s p :
    c_actors (mc_config z) !! n = Some (Busy t s p) ->
    hstep z (mkMachine (set_actor n (Panicked s (on_panic (s_id s) n)) (mc_config z)) (mc_main z)
               (mc_attached z) (mc_vms z) (mc_mop z) (mc_tops z) (delete n (mc_aops z)) (mc_log z))
(** The calls. *)
| H_thread_begin t p kp :
    c_threads (mc_config z) !! t = Some (Running p) -> mc_tops z !! t = None -> begin None p = Some kp ->
    hstep z (mkMachine (mc_config z) (mc_main z) (mc_attached z) (mc_vms z) (mc_mop z)
               (<[t := kp]> (mc_tops z)) (mc_aops z) (mc_log z))
| H_thread_host t X (o : hop X) k x :
    mc_tops z !! t = Some (KOp o k) -> possible o x ->
    hstep z (mkMachine (mc_config z) (mc_main z) (mc_attached z) (mc_vms z) (mc_mop z)
               (<[t := k x]> (mc_tops z)) (mc_aops z) (Host.Ev o x :: mc_log z))
| H_thread_end t q v :
    mc_tops z !! t = Some (KRet (Some (q, v))) ->
    hstep z (mkMachine (set_thread t q (mc_config z)) (mc_main z) (mc_attached z) (mc_vms z) (mc_mop z)
               (delete t (mc_tops z)) (mc_aops z) (mc_log z))
(** The actors. *)
| H_actor_begin n t s p kp :
    c_actors (mc_config z) !! n = Some (Busy t s p) -> mc_aops z !! n = None ->
    begin (mc_vms z !! n) p = Some kp ->
    hstep z (mkMachine (mc_config z) (mc_main z) (mc_attached z) (mc_vms z) (mc_mop z)
               (mc_tops z) (<[n := kp]> (mc_aops z)) (mc_log z))
| H_actor_host n X (o : hop X) k x :
    mc_aops z !! n = Some (KOp o k) -> possible o x ->
    hstep z (mkMachine (mc_config z) (mc_main z) (mc_attached z) (mc_vms z) (mc_mop z)
               (mc_tops z) (<[n := k x]> (mc_aops z)) (Host.Ev o x :: mc_log z))
| H_actor_end n t s p q v :
    mc_aops z !! n = Some (KRet (Some (q, v))) -> c_actors (mc_config z) !! n = Some (Busy t s p) ->
    hstep z (mkMachine (set_actor n (Busy t s q) (mc_config z)) (mc_main z) (mc_attached z)
               (partial_alter (fun _ => v) n (mc_vms z)) (mc_mop z)
               (mc_tops z) (delete n (mc_aops z)) (mc_log z))
(** Recover. *)
| H_main_lock q m' :
    after_lock (env_of (mc_config z)) (c_mgr (mc_config z)) (mc_main z) q m' ->
    hstep z (mkMachine (mkConfig m' (S (c_next (mc_config z))) (c_actors (mc_config z)) (c_threads (mc_config z)))
               q (mc_attached z) (mc_vms z) (mc_mop z) (mc_tops z) (mc_aops z) (mc_log z))
| H_main_list q :
    touching (mc_main z) = None -> recover_env (mc_main z) q ->
    hstep z (mkMachine (mc_config z) q (mc_attached z) (mc_vms z) (mc_mop z) (mc_tops z) (mc_aops z) (mc_log z))
| H_main_go n s k :
    mc_main z = MGo n s k ->
    hstep z (mkMachine (set_actor n (Selecting s) (mc_config z)) k (mc_attached z)
               (partial_alter (fun _ => mc_attached z) n (mc_vms z)) (mc_mop z)
               (mc_tops z) (mc_aops z) (mc_log z))
| H_main_begin kp :
    mc_mop z = None -> begin (mc_attached z) (mc_main z) = Some kp ->
    hstep z (mkMachine (mc_config z) (mc_main z) (mc_attached z) (mc_vms z) (Some kp)
               (mc_tops z) (mc_aops z) (mc_log z))
| H_main_host X (o : hop X) k x :
    mc_mop z = Some (KOp o k) -> possible o x ->
    hstep z (mkMachine (mc_config z) (mc_main z) (mc_attached z) (mc_vms z) (Some (k x))
               (mc_tops z) (mc_aops z) (Host.Ev o x :: mc_log z))
| H_main_end q v :
    mc_mop z = Some (KRet (Some (q, v))) ->
    hstep z (mkMachine (mc_config z) q v (mc_vms z) None (mc_tops z) (mc_aops z) (mc_log z)).

Definition hreach (z : machine) : Prop := rtc hstep machine_init z.

(** ** What an operation leaves *)

Abbreviation guard := (vm_guard quote uuid_Parse Getenv).
Abbreviation vmof := (vm_of uuid_Parse Getenv).

(** A method needs a VM of the sandbox, the factory an ID of its own. *)
Definition op_needs (v : option firecrackerVM) (id : string) (h : list Host.event) {X} (o : vmop X) : Prop :=
  match o with
  | VMCreate | VMStop | VMState | VMCleanup => exists f, v = Some f /\ vmof id h f
  | NewVM c => ci_ID c = id
  | VMAttach | Reap => True
  end.

Definition op_leaves (v : option firecrackerVM) (id : string) (h : list Host.event) {X} (o : vmop X)
    : X -> option firecrackerVM -> Prop :=
  match o in vmop X return X -> option firecrackerVM -> Prop with
  | VMAttach | NewVM _ => fun r v' =>
      match r with None => exists f, v' = Some f /\ vmof id h f | Some _ => v' = v end
  | Reap => fun _ v' => v' = v
  | _ => fun _ v' => exists f, v' = Some f /\ vmof id h f
  end.

Lemma on_vm_spec {X} id h f (p : firecrackerVM -> kprog (option (X * firecrackerVM))) :
  hwp (guard id) h (p f) (fun h' r => forall b, r = Some b -> vmof id h' b.2) ->
  hwp (guard id) h (on_vm (Some f) p) (fun h' r => forall x v', r = Some (x, v') ->
    exists f, v' = Some f /\ vmof id h' f).
Proof.
  intros Hp. cbn [on_vm]. apply hwp_bind. eapply hwp_mono; [|exact Hp].
  intros h' [b|] Hb; [|done]. cbn. intros x v' [= <- <-]. eauto.
Qed.

(** A program that leaves the VM as it is. *)
Lemma keeps_vm {A} id h f (p : kprog A) :
  vmof id h f -> hwp (guard id) h p (fun _ _ => True) -> hwp (guard id) h p (fun h' _ => vmof id h' f).
Proof.
  intros Hf Hp. eapply hwp_mono; [|apply hwp_keep, Hp]. cbn. intros h' _ [_ Hs%suffix_subseteq]. by eapply vm_of_grows.
Qed.

Lemma host_op_spec v id X (o : vmop X) h :
  op_needs v id h o ->
  hwp (guard id) h (host_op v id X o) (fun h' r => forall x v', r = Some (x, v') -> op_leaves v id h' o x v').
Proof.
  destruct o as [|c| | | | |]; cbn [op_needs host_op op_leaves].
  - intros _. apply hwp_bind. eapply hwp_mono; [|apply attach_confined].
    intros h' [f|e] Hf; cbn; intros x v' [= <- <-]; [|done].
    exists f. split; [done|]. by apply Hf.
  - intros <-. apply hwp_bind. eapply hwp_mono; [|apply newVM_confined].
    intros h' [f|e] Hf; cbn; intros x v' [= <- <-]; [|done].
    exists f. split; [done|]. by apply Hf.
  - intros (f & -> & Hf). apply on_vm_spec, hwp_bind. eapply hwp_mono; [|by apply vm_Create_confined].
    intros h' [b|] Hb; [|done]. cbn. intros b' [= <-]. by apply Hb.
  - intros (f & -> & Hf). apply on_vm_spec, hwp_bind. eapply hwp_mono; [|by apply keeps_vm, vm_Stop_confined].
    intros h' r Hr. cbn. by intros b [= <-].
  - intros (f & -> & Hf). apply on_vm_spec, hwp_bind. eapply hwp_mono; [|by apply keeps_vm, vm_State_confined].
    intros h' r Hr. cbn. by intros b [= <-].
  - intros (f & -> & Hf). apply on_vm_spec, hwp_bind. eapply hwp_mono; [|apply keeps_vm; [done|]].
    + intros h' r Hr. cbn. by intros b [= <-].
    + eapply hwp_mono; [|by apply vm_Cleanup_confined]. done.
  - intros _. apply hwp_bind. eapply hwp_mono; [|apply reap_vm_confined].
    intros h' [r|] _; [|done]. cbn. by intros x v' [= <- <-].
Qed.

(** ** The programs of the goroutines *)

(** An actor with a VM ([b]) or not; the methods are called on one. *)
Definition op_ok (b : bool) (id : string) {X} (o : vmop X) : Prop :=
  match o with
  | NewVM c => ci_ID c = id
  | VMCreate | VMStop | VMState | VMCleanup => b = true
  | VMAttach | Reap => False
  end.

Definition op_after (b : bool) {X} (o : vmop X) : X -> bool -> Prop :=
  match o in vmop X return X -> bool -> Prop with
  | NewVM _ => fun r b' => b' = match r with None => true | Some _ => b end
  | _ => fun _ b' => b' = b
  end.

Fixpoint aprog {A} (b : bool) (s : Service) (p : mprog A) (Q : bool -> Service -> A -> Prop) : Prop :=
  match p with
  | MRet a => Q b s a
  | MLock f k => forall env m, aprog b s (k (f env m).1) Q
  | MVM id o k => op_ok b id o /\ forall x b', op_after b o x b' -> aprog b' s (k x) Q
  | MSelf f k => aprog b (f s).2 (k (f s).1) Q
  | MNow k => forall x, aprog b s (k x) Q
  | MGo _ _ _ | MDo _ _ _ | MListDisk _ => False
  end.

(** The vm field is set only once there is a VM. *)
Definition ready {A} (b : bool) (s : Service) (_ : A) : Prop := s_vm s = true -> b = true.

(** What a handled command leaves of an actor that goes on. *)
Definition rest (b : bool) (s : Service) (r : bool * option error) : Prop := r.1 = false -> ready b s tt.

Lemma aprog_bind {A B} b s (p : mprog A) (g : A -> mprog B) Q :
  aprog b s p (fun b s a => aprog b s (g a) Q) -> aprog b s (mbind p g) Q.
Proof. revert b s. induction p; intros ? ?; cbn; intros Hp; auto. destruct Hp. eauto. Qed.

Lemma aprog_mono {A} b s (p : mprog A) (Q Q' : bool -> Service -> A -> Prop) :
  (forall b s a, Q b s a -> Q' b s a) -> aprog b s p Q -> aprog b s p Q'.
Proof. intros HQ. revert b s. induction p; intros ? ?; cbn; intros Hp; auto. destruct Hp. eauto. Qed.

Lemma setState_aprog b s id n st : (s_vm s = true -> b = true) -> aprog b s (setState id n st) ready.
Proof.
  intros Hs. cbn. destruct (decide (st = s_state s)); cbn; [done|]. intros env m.
  by destruct (report_section id n st m).1; cbn.
Qed.

Lemma poll_aprog b s id n : (s_vm s = true -> b = true) -> aprog b s (poll id n) ready.
Proof.
  intros Hs. cbn [poll aprog fst snd]. destruct (negb (s_vm s)) eqn:E; cbn [orb]; [done|].
  destruct (bool_decide _); [done|]. apply negb_false_iff in E. split; [by apply Hs|]. intros x b' ->.
  by apply setState_aprog.
Qed.

Lemma svc_remove_aprog b s id : (s_vm s = true -> b = true) -> aprog b s (svc_remove id) (fun _ _ _ => True).
Proof.
  intros Hs. cbn [svc_remove aprog fst snd]. destruct (s_vm s) eqn:E; cbn [negb]; [|done].
  split; [by apply Hs|]. intros x b' ->. split; [by apply Hs|]. done.
Qed.

Lemma handle_aprog b s id n cmd :
  (s_vm s = true -> b = true) -> (forall c, cmd = cmdCreate c -> ci_ID c = id) ->
  aprog b s (handle id n cmd) rest.
Proof.
  intros Hs Hc. destruct cmd as [c| |]; cbn [handle].
  - apply aprog_bind. cbn [svc_create aprog fst snd]. destruct (s_vm s) eqn:E; [done|].
    split; [by apply Hc|]. intros [e|] b' ->; [done|]. cbn [aprog fst snd]. split; [done|].
    intros [e|] b' ->.
    + apply aprog_bind. eapply aprog_mono; [|by apply svc_remove_aprog]. done.
    + cbn [mbind watch aprog fst snd]. apply aprog_bind. eapply aprog_mono; [|by apply poll_aprog].
      intros b0 s0 [] H. cbn. intros _. exact H.
  - cbn. destruct (negb (s_vm s)) eqn:E; [by intros _|]. apply negb_false_iff in E. split; [by apply Hs|].
    intros x b' ->. by intros _.
  - apply aprog_bind. eapply aprog_mono; [|by apply svc_remove_aprog]. done.
Qed.

Lemma event_aprog b s n p :
  (s_vm s = true -> b = true) -> Ownership.event n s p -> aprog b s (_ <-m p ;; MRet (false, None))%mprog rest.
Proof.
  intros Hs He. apply aprog_bind. eapply (aprog_mono _ _ _ ready); [by intros b0 s0 [] H _|].
  destruct He; [by apply poll_aprog|]. cbn [on_exited aprog fst snd]. by apply setState_aprog.
Qed.

Lemma aprog_lock {A} b s (p : mprog A) Q env m q m' : aprog b s p Q -> after_lock env m p q m' -> aprog b s q Q.
Proof. destruct p; try done. by intros Hp [-> _]. Qed.

Lemma aprog_self {A} b s (p : mprog A) Q q s' : aprog b s p Q -> after_self s p q s' -> aprog b s' q Q.
Proof. destruct p; try done. by intros Hp [-> ->]. Qed.

Lemma aprog_env {A} b s (p : mprog A) Q q : aprog b s p Q -> touching p = None -> after_env p q -> aprog b s q Q.
Proof. destruct p; try done. by intros Hp _ [x ->]. Qed.

(** A call reaps and does nothing else to a sandbox; it hands a create to the actor it has
    just started, for the same sandbox. *)
Definition is_reap {X} (o : vmop X) : Prop := match o with Reap => True | _ => False end.

Definition not_create {A} (p : mprog A) : Prop :=
  match p with MDo _ (cmdCreate _) _ => False | _ => True end.

Definition starts (n : nat) (s : Service) {A} (k : mprog A) : Prop :=
  match k with MDo m (cmdCreate c) _ => m = n /\ ci_ID c = s_id s | _ => True end.

Fixpoint tprog {A} (p : mprog A) : Prop :=
  match p with
  | MRet _ => True
  | MLock f k => forall env m, tprog (k (f env m).1) /\ not_create (k (f env m).1)
  | MVM _ o k => is_reap o /\ forall x, tprog (k x) /\ not_create (k x)
  | MGo n s k => s_vm s = false /\ tprog k /\ starts n s k
  | MDo _ _ k => forall x, tprog (k x) /\ not_create (k x)
  | MListDisk k => forall x, tprog (k x) /\ not_create (k x)
  | MNow k => forall x, tprog (k x) /\ not_create (k x)
  | MSelf _ _ => False
  end.

Definition tnew {A} (p : mprog A) : Prop := tprog p /\ not_create p.

Lemma tnew_ret {A} (a : A) : tnew (MRet a).
Proof. done. Qed.

Lemma not_create_starts {A} n s (p : mprog A) : not_create p -> starts n s p.
Proof. by destruct p as [| | | | |? [] ?| |]. Qed.

Lemma tnew_bind {A B} (p : mprog A) (g : A -> mprog B) : tnew p -> (forall a, tnew (g a)) -> tnew (mbind p g).
Proof.
  intros Hp Hg. assert (forall q : mprog A, not_create q -> not_create (mbind q g)) as Hn.
  { intros q Hq. destruct q as [a| | | | |? [] ?| |]; try done. apply Hg. }
  destruct Hp as [Hp Hn']. split; [|by apply Hn]. clear Hn'.
  induction p as [a|X f k IH|X id o k IH|X f k IH|n s k IH|n c k IH|k IH|k IH]; cbn in *; try done.
  - apply Hg.
  - intros env m. destruct (Hp env m). auto.
  - destruct Hp as [Ho Hp]. split; [done|]. intros x. destruct (Hp x). auto.
  - destruct Hp as (Hs & Hk & Hst). split_and!; [done|by apply IH|].
    destruct k as [a| | | | |? [] ?| |]; cbn in *; try done. apply not_create_starts, Hg.
  - intros x. destruct (Hp x). auto.
  - intros x. destruct (Hp x). auto.
  - intros x. destruct (Hp x). auto.
Qed.

Lemma emit_all_tnew ids st : tnew (emit_all ids st).
Proof.
  induction ids as [|id ids IH]; [done|]. split; [|done]. cbn. intros now. split; [|done]. intros env m. exact IH.
Qed.

Lemma reap_orphans_tnew ids : tnew (reap_orphans ids).
Proof.
  induction ids as [|id ids IH]; [done|]. split; [|done]. cbn. split; [done|]. intros x. split; [|done].
  intros env m. exact IH.
Qed.

Lemma call_tnew r : tnew (call uuid_Parse quote r).
Proof.
  destruct r as [c|id|id| |z|]; cbn [call].
  - unfold Create. destruct (CheckSandboxID _ _ _); [done|]. split; [|done]. cbn [tprog]. intros env m.
    destruct (create_section c env m).1 as [svc|err]; [|done]. split; [|done]. cbn. split; [done|]. split; [|done].
    intros [e|]; cbn; [|done]. done.
  - split; [|done]. cbn. intros env m. destruct (mg_services m !! id); [|done]. done.
  - unfold Remove. destruct (CheckSandboxID _ _ _); [done|]. split; [|done]. cbn [tprog]. intros env m.
    destruct (remove_section id m).1 as [svc|err]; [|done]. split; [|done]. cbn. intros x. unfold remove_after.
    destruct (exited_err x); [|done]. split; [|done]. cbn. done.
  - apply tnew_bind; [|done]. apply tnew_bind.
    + split; [|done]. intros env m. apply emit_all_tnew.
    + intros []. split; [|done]. intros [ids|e]; [|done]. split; [|done]. intros env m. apply reap_orphans_tnew.
  - done.
  - done.
Qed.

(** Recover attaches a VM, asks its state and starts its actor; [w] is whose VM it holds. *)
Definition mop_ok (w : option string) (id : string) {X} (o : vmop X) : Prop :=
  match o with
  | VMAttach | Reap => True
  | VMState => w = Some id
  | _ => False
  end.

Definition mop_after (w : option string) (id : string) {X} (o : vmop X) : X -> option string -> Prop :=
  match o in vmop X return X -> option string -> Prop with
  | VMAttach => fun r w' => w' = match r with None => Some id | Some _ => w end
  | _ => fun _ w' => w' = w
  end.

Fixpoint mainprog {A} (w : option string) (p : mprog A) : Prop :=
  match p with
  | MRet _ => True
  | MLock f k => forall env m, mainprog w (k (f env m).1)
  | MVM id o k => mop_ok w id o /\ forall x w', mop_after w id o x w' -> mainprog w' (k x)
  | MListDisk k => forall x, mainprog w (k x)
  | MNow k => forall x, mainprog w (k x)
  | MGo _ s k => w = Some (s_id s) /\ mainprog w k
  | MSelf _ _ | MDo _ _ _ => False
  end.

Lemma recover_loop_main w ids n : mainprog w (recover_loop ids n).
Proof.
  revert w n. induction ids as [|id ids IH]; intros w n; [done|]. cbn. split; [done|]. intros [e|] w' ->; cbn.
  - split; [done|]. by intros x w' ->.
  - split; [done|]. intros x w' ->. intros env m. split; [done|]. apply IH.
Qed.

Lemma Recover_main : mainprog None Recover.
Proof. cbn. intros [ids|e]; [|done]. apply recover_loop_main. Qed.

(** ** The configuration and the VMs *)

Definition held (v : option firecrackerVM) : bool := match v with Some _ => true | None => false end.

Definition actor_fits (v : option firecrackerVM) (a : actor) : Prop :=
  match a with
  | Selecting s => ready (held v) s tt
  | Busy _ s p => aprog (held v) s p rest
  | Panicked _ _ | Returned | Exited => True
  end.

(** A create is handed to a started actor of the same sandbox. *)
Definition thread_fits (actors : gmap nat actor) (th : thread) : Prop :=
  match th with
  | Running p =>
      tprog p /\ match p with
                 | MDo n (cmdCreate c) _ =>
                     exists a, actors !! n = Some a /\ forall i, aid a = Some i -> i = ci_ID c
                 | _ => True
                 end
  | Waiting _ _ k => forall x, tnew (k x)
  end.

Record fits (vms : gmap nat firecrackerVM) (c : config) : Prop := {
  ft_actors : forall n a, c_actors c !! n = Some a -> actor_fits (vms !! n) a;
  ft_threads : forall t th, c_threads c !! t = Some th -> thread_fits (c_actors c) th;
  ft_dom : forall n f, vms !! n = Some f -> is_Some (c_actors c !! n);
}.

Lemma tnew_fits actors p : tnew p -> thread_fits actors (Running p).
Proof. intros [Hp Hn]. split; [done|]. by destruct p as [| | | | |? [] ?| |]. Qed.

Lemma fits_thread vms c t th m' next' :
  fits vms c -> thread_fits (c_actors c) th ->
  fits vms (mkConfig m' next' (c_actors c) (<[t := th]> (c_threads c))).
Proof.
  intros [F1 F2 F3] Hth. split; cbn; try done. intros u x Hu. destruct (decide (u = t)) as [->|].
  - rewrite lookup_insert_eq in Hu. by injection Hu as <-.
  - rewrite lookup_insert_ne in Hu by done. by apply F2 in Hu.
Qed.

(** An actor changes, or the one a call has just allocated starts. *)
Lemma threads_see (actors : gmap nat actor) n a' th :
  (forall a i, actors !! n = Some a -> aid a' = Some i -> aid a = Some i) ->
  thread_fits actors th -> thread_fits (<[n := a']> actors) th.
Proof.
  intros Hid. destruct th as [p|]; [|done]. intros [Hp Hd]. split; [done|].
  destruct p as [| | | | |m [c| |] k| |]; try done. destruct Hd as (a & Ha & Hi).
  destruct (decide (m = n)) as [->|]; [|exists a; by rewrite lookup_insert_ne].
  exists a'. rewrite lookup_insert_eq. split; [done|]. intros i E. eapply Hi, Hid; eauto.
Qed.

Lemma fits_actor vms vms' c n a' m' next' :
  fits vms c -> (forall a i, c_actors c !! n = Some a -> aid a' = Some i -> aid a = Some i) ->
  actor_fits (vms' !! n) a' -> (forall m, m <> n -> vms' !! m = vms !! m) ->
  fits vms' (mkConfig m' next' (<[n := a']> (c_actors c)) (c_threads c)).
Proof.
  intros [F1 F2 F3] Hid Ha' Hv. split; cbn.
  - intros m a Hm. destruct (decide (m = n)) as [->|]; [rewrite lookup_insert_eq in Hm; by injection Hm as <-|].
    rewrite lookup_insert_ne in Hm by done. rewrite Hv by done. by apply F1.
  - intros t th Ht. apply threads_see; [done|]. by eapply F2.
  - intros m f Hm. destruct (decide (m = n)) as [->|]; [rewrite lookup_insert_eq; by eexists|].
    rewrite lookup_insert_ne by done. rewrite Hv in Hm by done. by eapply F3.
Qed.

Lemma tprog_lock {A} (p q : mprog A) env m m' : tprog p -> after_lock env m p q m' -> tnew q.
Proof. destruct p; try done. intros Hp [-> _]. apply Hp. Qed.

Lemma tprog_env {A} (p q : mprog A) : tprog p -> after_env p q -> tnew q.
Proof. destruct p; try done; intros Hp [x ->]; by apply Hp || by apply Hp. Qed.

Lemma fresh_vm g vms c t n s k :
  minv g c -> fits vms c -> c_threads c !! t = Some (Running (MGo n s k)) -> c_actors c !! n = None /\ vms !! n = None.
Proof.
  intros I F Ht. destruct (i_go _ _ I _ _ _ _ Ht) as [Hn _]. split; [done|].
  destruct (vms !! n) as [f|] eqn:E; [|done]. destruct (ft_dom _ _ F _ _ E) as [a Ha]. congruence.
Qed.

Lemma self_id g c n t s p q s' :
  minv g c -> c_actors c !! n = Some (Busy t s p) -> after_self s p q s' -> s_id s' = s_id s.
Proof.
  intros I Ha Hq. pose proof (proj2 (i_actors _ _ I _ _ Ha)) as Hok.
  destruct t as [t|]; [destruct Hok as (k & cmd & _ & _ & Hok)|]; by eapply aok_self.
Qed.

(** The step of an actor that keeps its id and its VM. *)
Ltac fits_step F Ha :=
  eapply fits_actor; [exact F|intros ? ? Ha'; rewrite Ha in Ha'; injection Ha' as <-; cbn| |done];
  [try done|pose proof (ft_actors _ _ F _ _ Ha) as Hfit; cbn in *].

Lemma mstep_fits g vms c c' :
  minv g c -> mstep uuid_Parse quote c c' -> undisturbed c c' -> fits vms c -> fits vms c'.
Proof.
  intros I Hstep [U1 U2] F. pose proof (ft_threads _ _ F) as FT. destruct Hstep as
    [t r Ht|t p q m' Ht Hq|t p q Ht Hq|t n s k Ht|t n cmd k s Ht Ha|t n cmd k Ht Ha|t n r k Ht|t n k Ht Ha
    |n t s p q m' Ha Hq|n t s p q Ha Hq|n t s p q s' Ha Hq|n t s p Ha|n t s k exit err Ha Ht|n s exit err Ha
    |n s p Ha He|n s Ha|n s p q m' Ha Hq|n s p q Ha Hq|n s p q s' Ha Hq|n s u Ha|n Ha|ev rest' Hev];
    try (pose proof (FT _ _ Ht) as Htf); cbn [c_actors c_threads] in *.
  - apply fits_thread; [done|]. apply tnew_fits, call_tnew.
  - apply fits_thread; [done|]. eapply tnew_fits, tprog_lock; [apply Htf|done].
  - apply fits_thread; [done|]. eapply tnew_fits, tprog_env; [apply Htf|done].
  - destruct (fresh_vm _ _ _ _ _ _ _ I F Ht) as [Hn Hv]. destruct Htf as [(Hs & Hk & Hst) _].
    pose proof (fits_actor vms vms c n (Selecting s) (c_mgr c) (c_next c) F) as F'.
    assert (fits vms (mkConfig (c_mgr c) (c_next c) (<[n := Selecting s]> (c_actors c)) (c_threads c))) as F''.
    { apply F'; [by rewrite Hn| |done]. cbn. unfold ready. by rewrite Hs. }
    apply (fits_thread vms _ t _ (c_mgr c) (c_next c) F''). split; [done|]. cbn.
    destruct k as [| | | | |m [ci| |] k| |]; try done. destruct Hst as [-> Hst]. exists (Selecting s).
    rewrite lookup_insert_eq. split; [done|]. by intros i [= <-].
  - assert (fits vms (mkConfig (c_mgr c) (c_next c) (<[n := Busy (Some t) s (handle (s_id s) n cmd)]> (c_actors c)) (c_threads c))) as F'.
    { fits_step F Ha. apply handle_aprog; [done|]. intros ci ->. destruct Htf as [_ (a & Ha' & Hi)].
      rewrite Ha in Ha'. injection Ha' as <-. by rewrite <- (Hi _ eq_refl). }
    apply (fits_thread vms _ t _ (c_mgr c) (c_next c) F'). apply Htf.
  - apply fits_thread; [done|]. apply tnew_fits, Htf.
  - apply fits_thread; [done|]. apply tnew_fits, Htf.
  - apply fits_thread; [done|]. apply tnew_fits, Htf.
  - fits_step F Ha. by eapply aprog_lock.
  - destruct (touching p) as [i|] eqn:Et.
    + pose proof (U2 n t s p Ha ltac:(congruence)) as E. rewrite lookup_insert_eq in E. injection E as ->.
      fits_step F Ha. done.
    + fits_step F Ha. by eapply aprog_env.
  - pose proof (self_id _ _ _ _ _ _ _ _ I Ha Hq) as Hid. fits_step F Ha; [by rewrite Hid|]. by eapply aprog_self.
  - fits_step F Ha. done.
  - assert (fits vms (mkConfig (c_mgr c) (c_next c) (<[n := if exit then Returned else Selecting s]> (c_actors c)) (c_threads c))) as F'.
    { fits_step F Ha; [by destruct exit|]. destruct exit; [done|]. by apply Hfit. }
    by apply (fits_thread vms _ t _ (c_mgr c) (c_next c) F').
  - pose proof (proj2 (i_actors _ _ I _ _ Ha)) as [= -> ->]. fits_step F Ha. by apply Hfit.
  - fits_step F Ha. by eapply event_aprog.
  - fits_step F Ha. done.
  - fits_step F Ha. done.
  - fits_step F Ha. done.
  - fits_step F Ha. done.
  - fits_step F Ha. done.
  - fits_step F Ha. done.
  - by destruct F; split.
Qed.

(** An actor with a VM keeps its id. *)
Lemma mstep_ids g vms c c' n a' i :
  minv g c -> mstep uuid_Parse quote c c' -> fits vms c -> c_actors c' !! n = Some a' -> aid a' = Some i ->
  vms !! n = None \/ exists a, c_actors c !! n = Some a /\ aid a = Some i.
Proof.
  intros I Hstep F Hn Hi.
  assert (forall m b, (<[m := b]> (c_actors c)) !! n = Some a' ->
    (m = n -> vms !! n = None \/ exists a, c_actors c !! n = Some a /\ aid a = aid b) ->
    vms !! n = None \/ exists a, c_actors c !! n = Some a /\ aid a = Some i) as Hins.
  { intros m b Hm Hb. destruct (decide (m = n)) as [->|].
    - rewrite lookup_insert_eq in Hm. injection Hm as ->. destruct (Hb eq_refl) as [?|(a & ? & E)]; [by left|].
      right. exists a. by rewrite E.
    - rewrite lookup_insert_ne in Hm by done. right. eauto. }
  destruct Hstep as
    [t r Ht|t p q m' Ht Hq|t p q Ht Hq|t m s k Ht|t m cmd k s Ht Ha|t m cmd k Ht Ha|t m r k Ht|t m k Ht Ha
    |m t s p q m' Ha Hq|m t s p q Ha Hq|m t s p q s' Ha Hq|m t s p Ha|m t s k exit err Ha Ht|m s exit err Ha
    |m s p Ha He|m s Ha|m s p q m' Ha Hq|m s p q Ha Hq|m s p q s' Ha Hq|m s u Ha|m Ha|ev rest' Hev];
    cbn [c_actors] in Hn; try (by right; eauto); try (eapply Hins; [exact Hn|]; intros ->; right; by eauto).
  - eapply Hins; [exact Hn|]. intros ->. left. by eapply fresh_vm.
  - eapply Hins; [exact Hn|]. intros ->. right. eexists. split; [exact Ha|]. cbn.
    by rewrite (self_id _ _ _ _ _ _ _ _ I Ha Hq).
  - destruct (decide (m = n)) as [->|]; [rewrite lookup_insert_eq in Hn; by injection Hn as <-|].
    rewrite lookup_insert_ne in Hn by done. right. eauto.
  - destruct (decide (m = n)) as [->|]; [rewrite lookup_insert_eq in Hn|rewrite lookup_insert_ne in Hn by done; right; eauto].
    injection Hn as <-. destruct exit; [done|]. right. eauto.
  - destruct (decide (m = n)) as [->|]; [rewrite lookup_insert_eq in Hn; by injection Hn as <-|].
    rewrite lookup_insert_ne in Hn by done. right. eauto.
Qed.

(** ** The invariant *)

(** The machine without its host is an interleaving of the manager. *)
Definition projected (z : machine) : Prop :=
  recovering uuid_Parse quote (mc_config z, mc_main z)
  \/ exists r c0, mc_main z = MRet r /\ recovering uuid_Parse quote (c0, MRet r)
                  /\ rtc (mstep uuid_Parse quote) c0 (mc_config z).

(** What a host program under way will end with. *)
Definition thread_post (p : mprog (option error)) (h : list Host.event)
    (r : option (mprog (option error) * option firecrackerVM)) : Prop :=
  forall q v, r = Some (q, v) -> after_env p q.

Definition actor_post (s : Service) (p : mprog (bool * option error)) (h : list Host.event)
    (r : option (mprog (bool * option error) * option firecrackerVM)) : Prop :=
  forall q v, r = Some (q, v) ->
    after_env p q /\ aprog (held v) s q rest /\ forall f, v = Some f -> vmof (s_id s) h f.

Definition holds_vm (w : option string) (v : option firecrackerVM) (h : list Host.event) : Prop :=
  forall id, w = Some id -> exists f, v = Some f /\ vmof id h f.

Definition main_post (p : mprog (result error Z)) (h : list Host.event)
    (r : option (mprog (result error Z) * option firecrackerVM)) : Prop :=
  forall q v, r = Some (q, v) -> after_env p q /\ exists w, mainprog w q /\ holds_vm w v h.

Record zinv (z : machine) : Prop := {
  z_proj : projected z;
  z_fits : fits (mc_vms z) (mc_config z);
  z_vms : forall n a i f, c_actors (mc_config z) !! n = Some a -> aid a = Some i -> mc_vms z !! n = Some f ->
          vmof i (mc_log z) f;
  z_main : exists w, mainprog w (mc_main z) /\ holds_vm w (mc_attached z) (mc_log z);
  z_mop : forall kp, mc_mop z = Some kp ->
          exists id, touching (mc_main z) = Some id /\ hwp (guard id) (mc_log z) kp (main_post (mc_main z));
  z_tops : forall t kp, mc_tops z !! t = Some kp ->
           exists p id, c_threads (mc_config z) !! t = Some (Running p) /\ touching p = Some id
                        /\ hwp (guard id) (mc_log z) kp (thread_post p);
  z_aops : forall n kp, mc_aops z !! n = Some kp ->
           exists t s p, c_actors (mc_config z) !! n = Some (Busy t s p) /\ touching p = Some (s_id s)
                         /\ hwp (guard (s_id s)) (mc_log z) kp (actor_post s p);
}.

Lemma holds_vm_grows w v h h' : h ⊆ h' -> holds_vm w v h -> holds_vm w v h'.
Proof. intros Hs H id E. destruct (H id E) as (f & -> & Hf). exists f. split; [done|]. by eapply vm_of_grows. Qed.

Lemma actor_post_grows s p : grows (actor_post s p).
Proof.
  intros h h' r Hs H q v E. destruct (H q v E) as (? & ? & Hf). split_and!; [done..|]. intros f Ef.
  eapply vm_of_grows; eauto.
Qed.

Lemma main_post_grows p : grows (main_post p).
Proof.
  intros h h' r Hs H q v E. destruct (H q v E) as (? & w & ? & ?). split; [done|]. exists w. split; [done|].
  by eapply holds_vm_grows.
Qed.

Lemma guarded_grows {A} id (Q : list Host.event -> A -> Prop) h h' kp :
  grows Q -> h ⊆ h' -> hwp (guard id) h kp Q -> hwp (guard id) h' kp Q.
Proof. intros HQ. apply hwp_grows; [apply vm_guard_grows|done]. Qed.

(** The host answered something. *)
Lemma zinv_log z ev :
  zinv z -> zinv (mkMachine (mc_config z) (mc_main z) (mc_attached z) (mc_vms z) (mc_mop z) (mc_tops z) (mc_aops z)
                    (ev :: mc_log z)).
Proof.
  intros [Z1 Z2 Z3 Z4 Z5 Z6 Z7]. assert (mc_log z ⊆ ev :: mc_log z) as Hs by set_solver.
  split; cbn; try done.
  - intros n a i f H1 H2 H3. eapply vm_of_grows; eauto.
  - destruct Z4 as (w & ? & ?). exists w. split; [done|]. by eapply holds_vm_grows.
  - intros kp H. destruct (Z5 kp H) as (id & ? & ?). exists id. split; [done|].
    eapply guarded_grows; [apply main_post_grows|done..].
  - intros t kp H. destruct (Z6 t kp H) as (p & id & ? & ? & ?). exists p, id. split_and!; [done..|].
    eapply guarded_grows; [by intros ????|done..].
  - intros n kp H. destruct (Z7 n kp H) as (t & s & p & ? & ? & ?). exists t, s, p. split_and!; [done..|].
    eapply guarded_grows; [apply actor_post_grows|done..].
Qed.

Lemma projected_minv z : projected z -> exists g, minv g (mc_config z).
Proof.
  intros [H|(r & c0 & _ & H0 & Hr)].
  - apply (ri_minv _ (recovering_inv _ _ _ H)).
  - apply (mreachable_minv uuid_Parse quote). by exists c0, r.
Qed.

Lemma projected_mstep z c' att vms mop tops aops log :
  projected z -> mstep uuid_Parse quote (mc_config z) c' ->
  (serving z \/ c_threads c' = ∅) -> projected (mkMachine c' (mc_main z) att vms mop tops aops log).
Proof.
  intros [Hr|(r & c0 & E & H0 & Hr)] Hs Hc; [|right].
  - destruct Hc as [[r E]|He].
    + right. exists r, (mc_config z). cbn. rewrite E in *. split_and!; [done..|by apply rtc_once].
    + left. cbn. eapply rtc_r; [exact Hr|]. by apply R_actor.
  - exists r, c0. split_and!; [done..|]. cbn. by eapply rtc_r.
Qed.

Lemma no_threads z t th : projected z -> c_threads (mc_config z) !! t = Some th -> serving z.
Proof.
  intros [Hr|(r & c0 & E & _)] Ht; [|by eexists].
  pose proof (ri_threads _ (recovering_inv _ _ _ Hr)) as He. cbn in He. by rewrite He, lookup_empty in Ht.
Qed.

Lemma same_threads z c' :
  projected z -> c_threads c' = c_threads (mc_config z) -> serving z \/ c_threads c' = ∅.
Proof.
  intros [Hr|(r & c0 & E & _)] ->; [right|left; by eexists].
  apply (ri_threads _ (recovering_inv _ _ _ Hr)).
Qed.

Lemma begin_spec {A} v id (p : mprog A) kp h (Q : list Host.event -> option (mprog A * option firecrackerVM) -> Prop) :
  begin v p = Some kp -> touching p = Some id ->
  (match p with
   | MVM i o k => op_needs v i h o /\
       forall h' x v', h ⊆ h' -> op_leaves v i h' o x v' -> Q h' (Some (k x, v'))
   | _ => True
   end) ->
  (forall h', Q h' None) -> hwp (guard id) h kp Q.
Proof.
  destruct p as [| |X i o k| | | | |]; try done. intros [= <-] [= ->] [Hn HQ] H0.
  apply hwp_bind. eapply hwp_mono; [|apply hwp_keep, (host_op_spec v id X o h Hn)].
  intros h' [[x v']|] [Hl Hs%suffix_subseteq]; cbn; [|done]. apply HQ; [done|]. by apply Hl.
Qed.

Lemma busy_touching g c n t s p id :
  minv g c -> c_actors c !! n = Some (Busy t s p) -> touching p = Some id -> id = s_id s.
Proof.
  intros I Ha Ht. assert (actor_touches c n id) as Hl by (left; eauto).
  apply (actor_touches_live g) in Hl; [|done]. destruct (i_actors _ _ I _ _ Ha) as [_ Hok]. cbn in Hok. unfold touching in Ht.
  destruct t as [t|]; [destruct Hok as (k & cmd & _ & _ & Hok)|]; destruct p; try done; injection Ht as ->; by destruct Hok as [[= ->] _].
Qed.

(** ** Preservation *)

Lemma manager_preserves z c' :
  zinv z -> mstep uuid_Parse quote (mc_config z) c' -> undisturbed (mc_config z) c' ->
  (serving z \/ c_threads c' = ∅) ->
  zinv (mkMachine c' (mc_main z) (mc_attached z) (mc_vms z) (mc_mop z) (mc_tops z) (mc_aops z) (mc_log z)).
Proof.
  intros Z Hs U Hc. destruct (projected_minv z (z_proj _ Z)) as [g I]. destruct Z as [Z1 Z2 Z3 Z4 Z5 Z6 Z7].
  split; cbn; try done.
  - by eapply projected_mstep.
  - by eapply mstep_fits.
  - intros n a i f Hn Hi Hf. destruct (mstep_ids g _ _ _ _ _ _ I Hs Z2 Hn Hi) as [E|(a0 & Ha0 & Hi0)]; [congruence|].
    by eapply Z3.
  - intros t kp H. destruct (Z6 t kp H) as (p & id & Ht & Hid & Hk). exists p, id. split; [|done].
    apply U; [done|]. by rewrite Hid.
  - intros n kp H. destruct (Z7 n kp H) as (t & s & p & Hn & Hid & Hk). exists t, s, p. split; [|done].
    apply U; [done|]. by rewrite Hid.
Qed.

(** The actor [n] changes: its program, its VM; its host program is over. *)
Lemma actor_preserves z n t s p a' v :
  zinv z -> c_actors (mc_config z) !! n = Some (Busy t s p) ->
  mstep uuid_Parse quote (mc_config z) (set_actor n a' (mc_config z)) ->
  (forall i, aid a' = Some i -> i = s_id s) -> actor_fits v a' -> (forall f, v = Some f -> aid a' <> None -> vmof (s_id s) (mc_log z) f) ->
  zinv (mkMachine (set_actor n a' (mc_config z)) (mc_main z) (mc_attached z)
          (partial_alter (fun _ => v) n (mc_vms z)) (mc_mop z) (mc_tops z) (delete n (mc_aops z)) (mc_log z)).
Proof.
  intros Z Ha Hs Hid Hf Hv. destruct Z as [Z1 Z2 Z3 Z4 Z5 Z6 Z7]. split; cbn; try done.
  - eapply projected_mstep; [done..|by apply same_threads].
  - eapply fits_actor; [done| |by rewrite lookup_partial_alter_eq|intros m Hm; by rewrite lookup_partial_alter_ne].
    intros a i Ha0 Hi. rewrite Ha in Ha0. injection Ha0 as <-. cbn. by rewrite (Hid i Hi).
  - intros m a i f Hm Hi Hf'. destruct (decide (m = n)) as [->|].
    + rewrite lookup_insert_eq in Hm. injection Hm as <-. rewrite lookup_partial_alter_eq in Hf'.
      rewrite (Hid i Hi). apply Hv; [done|]. by rewrite Hi.
    + rewrite lookup_insert_ne in Hm by done. rewrite lookup_partial_alter_ne in Hf' by done. by eapply Z3.
  - intros m kp [Hne H]%lookup_delete_Some. destruct (Z7 m kp H) as (t' & s' & p' & Hm & Hk). exists t', s', p'.
    by rewrite lookup_insert_ne.
Qed.

Lemma panic_preserves z n t s p :
  zinv z -> c_actors (mc_config z) !! n = Some (Busy t s p) ->
  zinv (mkMachine (set_actor n (Panicked s (on_panic (s_id s) n)) (mc_config z)) (mc_main z)
          (mc_attached z) (mc_vms z) (mc_mop z) (mc_tops z) (delete n (mc_aops z)) (mc_log z)).
Proof.
  intros Z Ha. pose proof (actor_preserves z n t s p (Panicked s (on_panic (s_id s) n)) (mc_vms z !! n) Z Ha) as H.
  rewrite partial_alter_self in H. apply H; try done. by eapply A_panic.
Qed.

Lemma thread_end_preserves z t q v :
  zinv z -> mc_tops z !! t = Some (KRet (Some (q, v))) ->
  zinv (mkMachine (set_thread t q (mc_config z)) (mc_main z) (mc_attached z) (mc_vms z) (mc_mop z)
          (delete t (mc_tops z)) (mc_aops z) (mc_log z)).
Proof.
  intros [Z1 Z2 Z3 Z4 Z5 Z6 Z7] Ht. destruct (Z6 t _ Ht) as (p & id & Hp & Hid & Hq).
  cbn in Hq. specialize (Hq q v eq_refl). split; cbn; try done.
  - eapply projected_mstep; [done|by eapply T_env|]. left. by eapply no_threads.
  - apply fits_thread; [done|]. eapply tnew_fits, tprog_env; [|exact Hq]. apply (ft_threads _ _ Z2 _ _ Hp).
  - intros u kp [Hne H]%lookup_delete_Some. destruct (Z6 u kp H) as (p' & id' & Hu & Hk). exists p', id'.
    by rewrite lookup_insert_ne.
Qed.

Lemma actor_end_preserves z n t s p q v :
  zinv z -> mc_aops z !! n = Some (KRet (Some (q, v))) -> c_actors (mc_config z) !! n = Some (Busy t s p) ->
  zinv (mkMachine (set_actor n (Busy t s q) (mc_config z)) (mc_main z) (mc_attached z)
          (partial_alter (fun _ => v) n (mc_vms z)) (mc_mop z) (mc_tops z) (delete n (mc_aops z)) (mc_log z)).
Proof.
  intros Z Hn Ha. destruct (z_aops _ Z n _ Hn) as (t' & s' & p' & Ha' & Hid & Hq). rewrite Ha in Ha'. injection Ha' as <- <- <-.
  destruct (Hq q v eq_refl) as (He & Hp & Hv). eapply actor_preserves; try done.
  - by eapply A_env.
  - by intros i [= <-].
  - auto.
Qed.

Lemma thread_begin_preserves z t p kp :
  zinv z -> c_threads (mc_config z) !! t = Some (Running p) -> begin None p = Some kp ->
  zinv (mkMachine (mc_config z) (mc_main z) (mc_attached z) (mc_vms z) (mc_mop z)
          (<[t := kp]> (mc_tops z)) (mc_aops z) (mc_log z)).
Proof.
  intros [Z1 Z2 Z3 Z4 Z5 Z6 Z7] Ht Hb. split; cbn; try done. intros u k Hu. destruct (decide (u = t)) as [->|].
  - rewrite lookup_insert_eq in Hu. injection Hu as <-. destruct (ft_threads _ _ Z2 _ _ Ht) as [Htp _].
    destruct p as [| |X id o k| | | | |]; try done. exists (MVM id o k), id. split_and!; [done..|].
    eapply begin_spec; [done|done| |by intros ??]. destruct Htp as [Ho _]. split; [by destruct o|].
    intros h' x v' _ _ q v [= <- <-]. by eexists.
  - rewrite lookup_insert_ne in Hu by done. auto.
Qed.

Lemma op_ok_needs v id h X (o : vmop X) :
  op_ok (held v) id o -> (forall f, v = Some f -> vmof id h f) -> op_needs v id h o.
Proof. intros Ho Hv. destruct o; try done; destruct v as [f|]; try done; exists f; auto. Qed.

Lemma op_leaves_after v id h X (o : vmop X) x v' :
  op_ok (held v) id o -> (forall f, v = Some f -> vmof id h f) -> op_leaves v id h o x v' ->
  op_after (held v) o x (held v') /\ forall f, v' = Some f -> vmof id h f.
Proof.
  intros Ho Hv. destruct o; try done; cbn in *; [destruct x; [by intros ->|]|..];
    intros (f & -> & Hf); (split; [done|]); by intros f' [= <-].
Qed.

Lemma actor_begin_preserves z n t s p kp :
  zinv z -> c_actors (mc_config z) !! n = Some (Busy t s p) -> begin (mc_vms z !! n) p = Some kp ->
  zinv (mkMachine (mc_config z) (mc_main z) (mc_attached z) (mc_vms z) (mc_mop z)
          (mc_tops z) (<[n := kp]> (mc_aops z)) (mc_log z)).
Proof.
  intros Z Ha Hb. destruct (projected_minv z (z_proj _ Z)) as [g I]. destruct Z as [Z1 Z2 Z3 Z4 Z5 Z6 Z7].
  split; cbn; try done. intros m k Hm. destruct (decide (m = n)) as [->|]; [|rewrite lookup_insert_ne in Hm by done; auto].
  rewrite lookup_insert_eq in Hm. injection Hm as <-. exists t, s, p. split; [done|].
  destruct p as [| |X id o k| | | | |]; try done. pose proof (busy_touching _ _ _ _ _ _ id I Ha eq_refl) as ->.
  split; [done|]. destruct (ft_actors _ _ Z2 _ _ Ha) as [Ho Hk].
  assert (forall f, mc_vms z !! n = Some f -> vmof (s_id s) (mc_log z) f) as Hv by (intros f; by eapply Z3).
  eapply begin_spec; [done|done| |by intros ???]. split; [by apply op_ok_needs|].
  intros h' x v' Hs Hl q v [= <- <-]. apply op_leaves_after in Hl as [H1 H2]; [|done|].
  - split_and!; [by eexists|by apply Hk|done].
  - intros f Hf. eapply vm_of_grows; eauto.
Qed.

(** Recover moves: it has not returned, and is not on a sandbox. *)
Lemma main_recovering z : projected z -> (forall r, mc_main z <> MRet r) ->
  recovering uuid_Parse quote (mc_config z, mc_main z).
Proof. intros [H|(r & c0 & E & _)] Hn; [done|by destruct (Hn r)]. Qed.

Lemma main_moves z c' q w :
  zinv z -> touching (mc_main z) = None -> (forall r, mc_main z <> MRet r) ->
  rstep uuid_Parse quote (mc_config z, mc_main z) (c', q) ->
  c_actors c' = c_actors (mc_config z) -> c_threads c' = c_threads (mc_config z) ->
  mainprog w q -> holds_vm w (mc_attached z) (mc_log z) ->
  zinv (mkMachine c' q (mc_attached z) (mc_vms z) (mc_mop z) (mc_tops z) (mc_aops z) (mc_log z)).
Proof.
  intros [Z1 Z2 Z3 Z4 Z5 Z6 Z7] Ht Hn Hs Ea Et Hq Hw. split; cbn; rewrite ?Ea, ?Et; try done.
  - left. cbn. eapply rtc_r; [by apply main_recovering|done].
  - destruct Z2 as [F1 F2 F3]. by split; rewrite ?Ea, ?Et.
  - eauto.
  - intros kp H. destruct (Z5 kp H) as (id & E & _). congruence.
Qed.

Lemma main_lock_preserves z q m' :
  zinv z -> after_lock (env_of (mc_config z)) (c_mgr (mc_config z)) (mc_main z) q m' ->
  zinv (mkMachine (mkConfig m' (S (c_next (mc_config z))) (c_actors (mc_config z)) (c_threads (mc_config z)))
          q (mc_attached z) (mc_vms z) (mc_mop z) (mc_tops z) (mc_aops z) (mc_log z)).
Proof.
  intros Z Hq. destruct (z_main _ Z) as (w & Hw & Hv).
  apply (main_moves z _ q w Z); [by destruct (mc_main z)|by intros r E; rewrite E in Hq|by apply R_lock|done|done| |done].
  destruct (mc_main z); try done. by destruct Hq as [-> _].
Qed.

Lemma main_list_preserves z q :
  zinv z -> touching (mc_main z) = None -> recover_env (mc_main z) q ->
  zinv (mkMachine (mc_config z) q (mc_attached z) (mc_vms z) (mc_mop z) (mc_tops z) (mc_aops z) (mc_log z)).
Proof.
  intros Z Ht Hq. destruct (z_main _ Z) as (w & Hw & Hv).
  apply (main_moves z _ q w Z); [done|by intros r E; rewrite E in Hq|by apply R_env|done|done| |done].
  destruct (mc_main z); try done; [by destruct Hq as (x & _ & ->)|by destruct Hq as [x ->]].
Qed.

Lemma main_go_preserves z n s k :
  zinv z -> mc_main z = MGo n s k ->
  zinv (mkMachine (set_actor n (Selecting s) (mc_config z)) k (mc_attached z)
          (partial_alter (fun _ => mc_attached z) n (mc_vms z)) (mc_mop z) (mc_tops z) (mc_aops z) (mc_log z)).
Proof.
  intros Z E. pose proof (main_recovering z (z_proj _ Z) ltac:(by rewrite E)) as Hr. rewrite E in Hr.
  assert (c_actors (mc_config z) !! n = None) as Hn.
  { pose proof (ri_form _ (recovering_inv _ _ _ Hr)) as F. cbn in F.
    inversion F as [| |ids m Hp| | | |id ids m svc st Hp Hsv Ha Hlt]; [by destruct ids|done]. }
  destruct Z as [Z1 Z2 Z3 (w & Hw & Hv) Z5 Z6 Z7]. rewrite E in Hw. destruct Hw as [-> Hw].
  destruct (Hv _ eq_refl) as (f & Ef & Hf). split; cbn; try done.
  - left. eapply rtc_r; [exact Hr|]. apply R_go.
  - eapply fits_actor; [done|by rewrite Hn| |intros m Hm; by rewrite lookup_partial_alter_ne].
    rewrite lookup_partial_alter_eq, Ef. by intros _.
  - intros m a i f' Hm Hi Hf'. destruct (decide (m = n)) as [->|].
    + rewrite lookup_insert_eq in Hm. injection Hm as <-. injection Hi as <-. rewrite lookup_partial_alter_eq, Ef in Hf'.
      by injection Hf' as <-.
    + rewrite lookup_insert_ne in Hm by done. rewrite lookup_partial_alter_ne in Hf' by done. by eapply Z3.
  - eauto.
  - intros kp H. destruct (Z5 kp H) as (id & Et & _). by rewrite E in Et.
  - intros m kp H. destruct (Z7 m kp H) as (t & s' & p & Hm & Hk). exists t, s', p.
    rewrite lookup_insert_ne; [done|]. intros <-. congruence.
Qed.

Lemma main_begin_preserves z kp :
  zinv z -> begin (mc_attached z) (mc_main z) = Some kp ->
  zinv (mkMachine (mc_config z) (mc_main z) (mc_attached z) (mc_vms z) (Some kp) (mc_tops z) (mc_aops z) (mc_log z)).
Proof.
  intros [Z1 Z2 Z3 (w & Hw & Hv) Z5 Z6 Z7] Hb. split; cbn; try done; [by eauto|]. intros kp' [= <-].
  destruct (mc_main z) as [| |X id o k| | | | |] eqn:Em; try done. exists id. split; [done|].
  destruct Hw as [Ho Hk]. eapply begin_spec; [done|done| |by intros ???].
  split; [destruct o; try done; by apply Hv|].
  intros h' x v' Hs Hl q v [= <- <-]. split; [by eexists|].
  destruct o as [|c| | | | |]; try done; cbn in Hl, Hk.
  - destruct x as [e|]; cbn in Hl; [subst v'|].
    + exists w. split; [by apply Hk|by eapply holds_vm_grows].
    + exists (Some id). split; [by apply Hk|]. by intros i [= <-].
  - exists w. split; [by apply Hk|]. cbn in Ho. subst w. by intros i [= <-].
  - subst v'. exists w. split; [by apply Hk|by eapply holds_vm_grows].
Qed.

Lemma main_end_preserves z q v :
  zinv z -> mc_mop z = Some (KRet (Some (q, v))) ->
  zinv (mkMachine (mc_config z) q v (mc_vms z) None (mc_tops z) (mc_aops z) (mc_log z)).
Proof.
  intros Z Hm. destruct (z_mop _ Z _ Hm) as (id & Ht & Hq). destruct (Hq q v eq_refl) as (He & w & Hw & Hv).
  pose proof (main_recovering z (z_proj _ Z) ltac:(by intros r E; rewrite E in Ht)) as Hr.
  destruct Z as [Z1 Z2 Z3 Z4 Z5 Z6 Z7]. split; cbn; try done; [|by eauto].
  left. eapply rtc_r; [exact Hr|]. apply R_env. by destruct (mc_main z).
Qed.

Lemma hstep_inv z z' : zinv z -> hstep z z' -> zinv z'.
Proof.
  intros Z Hs. destruct Hs as [c' Hm U Hc|n t s p Ha|t p kp Ht Hn Hb|t X o k x Ht Hx|t q v Ht|n t s p kp Ha Hn Hb
    |n X o k x Hn Hx|n t s p q v Hn Ha|q m' Hq|q Ht Hq|n s k E|kp Hn Hb|X o k x Hm Hx|q v Hm].
  - by apply manager_preserves.
  - by eapply panic_preserves.
  - by eapply thread_begin_preserves.
  - destruct (z_tops _ Z _ _ Ht) as (p & id & Hp & Hid & [_ Hk]).
    destruct (zinv_log z (Host.Ev o x) Z) as [Z1 Z2 Z3 Z4 Z5 Z6 Z7]. split; cbn in *; try done.
    intros u kp Hu. destruct (decide (u = t)) as [->|]; [|rewrite lookup_insert_ne in Hu by done; auto].
    rewrite lookup_insert_eq in Hu. injection Hu as <-. exists p, id. auto.
  - by eapply thread_end_preserves.
  - by eapply actor_begin_preserves.
  - destruct (z_aops _ Z _ _ Hn) as (t & s & p & Hp & Hid & [_ Hk]).
    destruct (zinv_log z (Host.Ev o x) Z) as [Z1 Z2 Z3 Z4 Z5 Z6 Z7]. split; cbn in *; try done.
    intros m kp Hm. destruct (decide (m = n)) as [->|]; [|rewrite lookup_insert_ne in Hm by done; auto].
    rewrite lookup_insert_eq in Hm. injection Hm as <-. exists t, s, p. auto.
  - by eapply actor_end_preserves.
  - by apply main_lock_preserves.
  - by apply main_list_preserves.
  - by apply main_go_preserves.
  - by apply main_begin_preserves.
  - destruct (z_mop _ Z _ Hm) as (id & Hid & [_ Hk]).
    destruct (zinv_log z (Host.Ev o x) Z) as [Z1 Z2 Z3 Z4 Z5 Z6 Z7]. split; cbn in *; try done.
    intros kp [= <-]. exists id. auto.
  - by apply main_end_preserves.
Qed.

Lemma hreach_inv z : hreach z -> zinv z.
Proof.
  intros Hr. assert (zinv machine_init) as H0.
  { split; [left; apply rtc_refl|by split| | |done..].
    - by intros n a i f _ _ [=].
    - exists None. split; [apply Recover_main|done]. }
  induction Hr as [|x y z' Hs _ IH]; [done|]. eauto using hstep_inv.
Qed.

(** ** Isolation *)

Inductive goroutine : Type := MainG | CallG (t : nat) | ActorG (n : nat).

(** The next operation of a host program. *)
Definition next_op {A} (kp : kprog A) : option {X : Type & hop X} :=
  match kp with KOp o _ => Some (existT _ o) | KRet _ => None end.

(** The goroutine is on the resources of [id], and its host program is about to ask [op]. *)
Definition under_way (z : machine) (w : goroutine) (id : string) (op : option {X : Type & hop X}) : Prop :=
  match w with
  | MainG => touching (mc_main z) = Some id /\ exists kp, mc_mop z = Some kp /\ next_op kp = op
  | CallG t => (exists p, c_threads (mc_config z) !! t = Some (Running p) /\ touching p = Some id)
               /\ exists kp, mc_tops z !! t = Some kp /\ next_op kp = op
  | ActorG n => (exists t s p, c_actors (mc_config z) !! n = Some (Busy t s p) /\ touching p = Some id)
                /\ exists kp, mc_aops z !! n = Some kp /\ next_op kp = op
  end.

Definition works (z : machine) (w : goroutine) (id : string) : Prop := exists op, under_way z w id op.

Definition asks (z : machine) (w : goroutine) (id : string) {X} (o : hop X) : Prop :=
  under_way z w id (Some (existT X o)).

Lemma works_touches z w id : works z w id ->
  match w with
  | MainG => touching (mc_main z) = Some id
  | CallG t => thread_touches (mc_config z) t id
  | ActorG n => actor_touches (mc_config z) n id
  end.
Proof.
  intros [op H]. destruct w as [|t|n]; [by destruct H|..]; destruct H as [H _]; [done|by left].
Qed.

Lemma works_unique z w w' id : zinv z -> works z w id -> works z w' id -> w = w'.
Proof.
  intros Z H%works_touches H'%works_touches. destruct (projected_minv z (z_proj _ Z)) as [g I].
  destruct (minv_exclusive _ _ I) as [E1 E2].
  assert (forall i, touching (mc_main z) = Some i ->
            (forall t, ~ thread_touches (mc_config z) t i) /\ forall n, ~ actor_touches (mc_config z) n i) as Em.
  { intros i Hi. pose proof (main_recovering z (z_proj _ Z) ltac:(by intros r E; rewrite E in Hi)) as Hr. split.
    - intros t (p & Ht & _). pose proof (ri_threads _ (recovering_inv _ _ _ Hr)) as He. cbn in He.
      by rewrite He, lookup_empty in Ht.
    - by apply (recovering_touches _ _ _ _ _ Hr). }
  destruct w as [|t|n], w' as [|t'|n']; try done.
  - by destruct (proj1 (Em id H) t').
  - by destruct (proj2 (Em id H) n').
  - by destruct (proj1 (Em id H') t).
  - f_equal. symmetry. by apply (E1 t id H).
  - by destruct (proj1 (proj2 (proj2 (E1 t id H))) n').
  - by destruct (proj2 (Em id H') n).
  - by destruct (proj1 (proj2 (proj2 (E1 t' id H'))) n).
  - f_equal. symmetry. by apply (E2 n id H).
Qed.

Lemma next_guarded {A} id h (kp : kprog A) Q X (o : hop X) :
  next_op kp = Some (existT X o) -> hwp (guard id) h kp Q -> guard id h X o.
Proof.
  intros E Hw. assert (match next_op kp with Some (existT Y q) => guard id h Y q | None => True end) as H
    by (destruct kp; [done|apply Hw]). by rewrite E in H.
Qed.

Lemma asks_guarded z w id X (o : hop X) : zinv z -> asks z w id o -> guard id (mc_log z) X o.
Proof.
  intros Z H. destruct w as [|t|n].
  - destruct H as (Ht & kp & Hm & E). destruct (z_mop _ Z _ Hm) as (i & Hi & Hw). rewrite Ht in Hi. injection Hi as <-.
    by eapply next_guarded.
  - destruct H as ((p & Hp & Ht) & kp & Hm & E). destruct (z_tops _ Z _ _ Hm) as (p' & i & Hp' & Hi & Hw).
    rewrite Hp in Hp'. injection Hp' as <-. rewrite Ht in Hi. injection Hi as <-. by eapply next_guarded.
  - destruct H as ((t & s & p & Hp & Ht) & kp & Hm & E). destruct (z_aops _ Z _ _ Hm) as (t' & s' & p' & Hp' & Hi & Hw).
    rewrite Hp in Hp'. injection Hp' as <- <- <-. rewrite Ht in Hi. injection Hi as ->. by eapply next_guarded.
Qed.

End Machine.

(** C8: sandboxes are isolated on their host.  Over the whole life of a worker, from the
    recovery on, in every interleaving of its calls, actors, audits and panics and whatever
    the machine answers: what a goroutine changes on the host belongs to the one sandbox it
    is on (its directory and files, the device and the node of its volume, a shim started for
    it or recognised by its command line), the directory is removed only once the volume is
    gone, and the ID is a sandbox ID; two goroutines on resources at the same time are on
    different sandboxes, whose directories differ; and a method of the vm interface is never
    called on a nil VM.  [uuid_plain]: a UUID has no slash. *)
Theorem worker_isolated quote text uuid_Parse Getenv json_string Major Minor Mkdev state_String fuel z
    (uuid_plain : forall s, IsSandboxID uuid_Parse s = true -> slash ∉ to_bytes s) :
  hreach quote text uuid_Parse Getenv json_string Major Minor Mkdev state_String fuel z ->
  (forall w id X (o : hop X), asks z w id o -> vm_guard quote uuid_Parse Getenv id (mc_log z) X o)
  /\ (forall w w' id id', works z w id -> works z w' id' -> w <> w' ->
       id <> id' /\ (IsSandboxID uuid_Parse id = true -> IsSandboxID uuid_Parse id' = true ->
                     sandbox_dir Getenv id <> sandbox_dir Getenv id'))
  /\ (forall n t s id X (o : vmop X) k, c_actors (mc_config z) !! n = Some (Busy t s (MVM id o k)) ->
       id = s_id s /\ match o with NewVM c => ci_ID c = id | _ => is_Some (mc_vms z !! n) end).
Proof.
  intros Z%hreach_inv. split; [|split].
  - intros w id X o. by apply asks_guarded with (1 := Z).
  - intros w w' id id' Hw Hw' Hne. assert (id <> id') as Hid.
    { intros ->. apply Hne. eapply works_unique; eauto. }
    split; [done|]. intros Hv Hv' E. apply Hid. by eapply sandbox_dir_inj.
  - intros n t s id X o k Ha. destruct (projected_minv _ _ z (z_proj _ _ _ _ Z)) as [g I].
    pose proof (busy_touching _ _ _ _ _ _ id I Ha eq_refl) as ->. split; [done|].
    destruct (ft_actors _ _ (z_fits _ _ _ _ Z) _ _ Ha) as [Ho _].
    destruct o; try done; by destruct (mc_vms z !! n).
Qed.

(** ** A run

    The steps as functions: the manager, its goroutines on their hosts, and a recovery that
    finds nothing. *)
Inductive haction : Type := HManager (a : action) | HThread (t : nat) | HActor (n : nat) | HEmpty.

Definition off_resources {A} (p : mprog A) : bool := match touching p with None => true | Some _ => false end.

Definition quiet_thread (c : config) (t : nat) : bool :=
  match c_threads c !! t with Some (Running p) => off_resources p | _ => true end.
Definition quiet_actor (c : config) (n : nat) : bool :=
  match c_actors c !! n with Some (Busy _ _ p) => off_resources p | _ => true end.

(** The goroutines an action moves are not on the resources of a sandbox. *)
Definition quiet (c : config) (a : action) : bool :=
  match a with
  | Ownership.Spawn _ _ => true
  | Thread t =>
      quiet_thread c t
      && match c_threads c !! t with
         | Some (Running (MGo n _ _)) | Some (Running (MDo n _ _)) => quiet_actor c n
         | _ => true
         end
  | Actor n => quiet_actor c n
  end.

Definition upd {A} (m m' : gmap nat A) (i : option nat) : Prop := forall j, Some j <> i -> m' !! j = m !! j.

Lemma quiet_undisturbed_at c c' (t n : option nat) :
  upd (c_threads c) (c_threads c') t -> upd (c_actors c) (c_actors c') n ->
  (forall i, t = Some i -> quiet_thread c i = true) -> (forall i, n = Some i -> quiet_actor c i = true) ->
  undisturbed c c'.
Proof.
  intros U1 U2 Q1 Q2. split.
  - intros i p Hi Hne. rewrite U1; [done|]. intros E. specialize (Q1 i (eq_sym E)). unfold quiet_thread in Q1.
    rewrite Hi in Q1. unfold off_resources in Q1. by destruct (touching p).
  - intros i j s p Hi Hne. rewrite U2; [done|]. intros E. specialize (Q2 i (eq_sym E)). unfold quiet_actor in Q2.
    rewrite Hi in Q2. unfold off_resources in Q2. by destruct (touching p).
Qed.

Lemma upd_refl {A} (m : gmap nat A) i : upd m m i.
Proof. by intros j _. Qed.
Lemma upd_insert {A} (m : gmap nat A) i x : upd m (<[i := x]> m) (Some i).
Proof. intros j Hj. apply lookup_insert_ne. by intros ->. Qed.

#[local] Hint Resolve upd_refl upd_insert : core.

Section Run.

Context (quote : string -> string) (text : derror -> string) (uuid_Parse : string -> bool).
Context (Getenv : string -> string) (json_string : string -> string).
Context (Major Minor : Z -> Z) (Mkdev : Z -> Z -> Z) (state_String : SandboxState -> string) (fuel : nat).
Context (answer : forall X, vmop X -> X) (disk : list string) (now : Z).
Context (reply : forall X, hop X -> option X).
Hypothesis reply_possible : forall X (o : hop X) x, reply X o = Some x -> possible o x.

Abbreviation step := (hstep quote text uuid_Parse Getenv json_string Major Minor Mkdev state_String fuel).
Abbreviation exec := (exec_action uuid_Parse quote answer disk now).
Abbreviation start := (begin quote text uuid_Parse Getenv json_string Major Minor Mkdev state_String fuel).

Lemma quiet_undisturbed c a : quiet c a = true -> undisturbed c (exec c a).
Proof.
  destruct a as [t r|t|n]; cbn [quiet exec_action].
  - intros _. destruct (c_threads c !! t) eqn:Ht.
    + by apply (quiet_undisturbed_at c c None None).
    + apply (quiet_undisturbed_at _ _ (Some t) None); cbn; auto; try done.
      intros i [= <-]. unfold quiet_thread. by rewrite Ht.
  - intros [Q1 Q2]%andb_prop.
    assert (forall q n, upd (c_actors c) (c_actors q) n -> upd (c_threads c) (c_threads q) (Some t) ->
              (forall i, n = Some i -> quiet_actor c i = true) -> undisturbed c q) as H.
    { intros q n U1 U2 Q. apply (quiet_undisturbed_at _ _ (Some t) n); auto. by intros i [= <-]. }
    destruct (c_threads c !! t) as [[p|n [r|] k]|] eqn:Ht.
    + unfold thread_exec. destruct p as [| | | |n s k|n d k| |]; cbn [answered]; try (apply (H _ None); cbn; auto; done).
      * apply (H _ (Some n)); cbn; auto. by intros i [= <-].
      * repeat case_match; try (apply (H _ None); cbn; auto; done).
        apply (H _ (Some n)); cbn; auto. by intros i [= <-].
    + apply (H _ None); cbn; auto; done.
    + repeat case_match; apply (H _ None); cbn; auto; done.
    + apply (H _ None); cbn; auto; done.
  - intros Q. destruct (c_actors c !! n) as [a|] eqn:Ha; [|by apply (quiet_undisturbed_at c c None None)].
    assert (forall q t, upd (c_actors c) (c_actors q) (Some n) -> upd (c_threads c) (c_threads q) t ->
              (forall i, t = Some i -> quiet_thread c i = true) -> undisturbed c q) as H.
    { intros q t U1 U2 Q'. apply (quiet_undisturbed_at _ _ t (Some n)); auto. by intros i [= <-]. }
    unfold actor_exec. destruct a as [s|t s p|s p| |]; try (apply (H _ None); cbn; auto; done);
      [|destruct p; cbn [answered]; apply (H _ None); cbn; auto; done].
    destruct p as [[x e]| | | | | | |]; cbn [answered]; try (apply (H _ None); cbn; auto; done).
    destruct t as [t|]; [|apply (H _ None); cbn; auto; done].
    destruct (c_threads c !! t) as [[|m [r|] k]|] eqn:Ht; try (apply (H _ None); cbn; auto; done).
    destruct (decide (m = n)); [|apply (H _ None); cbn; auto; done].
    apply (H _ (Some t)); cbn; auto. intros i [= <-]. unfold quiet_thread. by rewrite Ht.
Qed.

Definition hexec (z : machine) (a : haction) : machine :=
  match a with
  | HManager a =>
      match mc_main z with
      | MRet _ =>
          if quiet (mc_config z) a
          then mkMachine (exec (mc_config z) a) (mc_main z) (mc_attached z) (mc_vms z) (mc_mop z) (mc_tops z)
                 (mc_aops z) (mc_log z)
          else z
      | _ => z
      end
  | HThread t =>
      match mc_tops z !! t with
      | None =>
          match c_threads (mc_config z) !! t with
          | Some (Running p) =>
              match start None p with
              | Some kp => mkMachine (mc_config z) (mc_main z) (mc_attached z) (mc_vms z) (mc_mop z)
                             (<[t := kp]> (mc_tops z)) (mc_aops z) (mc_log z)
              | None => z
              end
          | _ => z
          end
      | Some (KOp o k) =>
          match reply _ o with
          | Some x => mkMachine (mc_config z) (mc_main z) (mc_attached z) (mc_vms z) (mc_mop z)
                        (<[t := k x]> (mc_tops z)) (mc_aops z) (Host.Ev o x :: mc_log z)
          | None => z
          end
      | Some (KRet (Some (q, v))) =>
          mkMachine (set_thread t q (mc_config z)) (mc_main z) (mc_attached z) (mc_vms z) (mc_mop z)
            (delete t (mc_tops z)) (mc_aops z) (mc_log z)
      | Some (KRet None) => z
      end
  | HActor n =>
      match c_actors (mc_config z) !! n, mc_aops z !! n with
      | Some (Busy t s p), None =>
          match start (mc_vms z !! n) p with
          | Some kp => mkMachine (mc_config z) (mc_main z) (mc_attached z) (mc_vms z) (mc_mop z)
                         (mc_tops z) (<[n := kp]> (mc_aops z)) (mc_log z)
          | None => z
          end
      | Some (Busy t s p), Some (KOp o k) =>
          match reply _ o with
          | Some x => mkMachine (mc_config z) (mc_main z) (mc_attached z) (mc_vms z) (mc_mop z)
                        (mc_tops z) (<[n := k x]> (mc_aops z)) (Host.Ev o x :: mc_log z)
          | None => z
          end
      | Some (Busy t s p), Some (KRet (Some (q, v))) =>
          mkMachine (set_actor n (Busy t s q) (mc_config z)) (mc_main z) (mc_attached z)
            (partial_alter (fun _ => v) n (mc_vms z)) (mc_mop z) (mc_tops z) (delete n (mc_aops z)) (mc_log z)
      | _, _ => z
      end
  | HEmpty =>
      match mc_main z with
      | MListDisk k =>
          mkMachine (mc_config z) (k (Ok [])) (mc_attached z) (mc_vms z) (mc_mop z) (mc_tops z) (mc_aops z) (mc_log z)
      | _ => z
      end
  end.

Lemma hexec_sound z a : rtc step z (hexec z a).
Proof.
  destruct a as [a|t|n|]; cbn [hexec].
  - destruct (mc_main z) eqn:Em; try done. destruct (quiet _ _) eqn:Q; [|done].
    destruct (exec_action_step uuid_Parse quote answer disk now (mc_config z) a) as [->|H]; [by destruct z; rewrite <- Em|].
    rewrite <- Em. apply rtc_once, H_manager; [done|by apply quiet_undisturbed|left; by eexists].
  - destruct (mc_tops z !! t) as [[[[q v]|]|X o k]|] eqn:Ht; try done; [by eapply rtc_once, H_thread_end| |].
    + destruct (reply X o) eqn:Hx; [|done]. eapply rtc_once, H_thread_host; eauto.
    + destruct (c_threads (mc_config z) !! t) as [[p|]|] eqn:Hp; try done.
      destruct (start None p) eqn:Hs; [|done]. by eapply rtc_once, H_thread_begin.
  - destruct (c_actors (mc_config z) !! n) as [[|t s p| | |]|] eqn:Ha; try done.
    destruct (mc_aops z !! n) as [[[[q v]|]|X o k]|] eqn:Hn; try done; [by eapply rtc_once, H_actor_end| |].
    + destruct (reply X o) eqn:Hx; [|done]. eapply rtc_once, H_actor_host; eauto.
    + destruct (start _ p) eqn:Hs; [|done]. by eapply rtc_once, H_actor_begin.
  - destruct (mc_main z) as [| | | | | |k|] eqn:Em; try done. apply rtc_once, H_main_list; rewrite Em; [done|].
    exists (Ok []). split; [intros ids [= <-]; constructor|done].
Qed.

Lemma hrun_reach l z : rtc step z (foldl hexec z l).
Proof. revert z. induction l as [|a l IH]; intros z; [done|]. etrans; [apply hexec_sound|apply IH]. Qed.

End Run.

(** What an actor, or a call, is about to make or ask. *)
Definition host_path {X} (o : hop X) : option string :=
  match o with MkdirAll d | Stat d | ReadDir d | RemoveAll d | ReadFile d | OpenFile d => Some d | _ => None end.

Definition call_asks (z : machine) (t : nat) : option (string * option string) :=
  match c_threads (mc_config z) !! t, mc_tops z !! t with
  | Some (Running p), Some (KOp o _) => id ← touching p; Some (id, host_path o)
  | _, _ => None
  end.
Definition actor_asks (z : machine) (n : nat) : option (string * option string) :=
  match c_actors (mc_config z) !! n, mc_aops z !! n with
  | Some (Busy _ _ p), Some (KOp o _) => id ← touching p; Some (id, host_path o)
  | _, _ => None
  end.

Definition demo_uuid (s : string) : bool := bool_decide (s = demo_id1) || bool_decide (s = demo_id2).

(** A host that says yes. *)
Definition demo_reply (X : Type) (o : hop X) : option X :=
  match o in hop X return option X with
  | Ioctl _ b => Some (Ok b)
  | OpenControl | RemoveFile _ | Mknod _ _ _ | Flock _ | KillProcess _ _ => Some None
  | RemoveAll _ | MkdirAll _ | WriteFile _ _ | Rename _ _ | OpenFile _ | Dial _ => Some None
  | ReadFile _ | ReadLine _ => Some (Ok EmptyString)
  | Stat _ => Some (Ok (0, 0))
  | ReadDir _ => Some (Ok [])
  | StartProcess _ _ => Some (Ok 1)
  | ProcessExited _ | DoneWithin _ _ => Some true
  | CloseConn _ | Sleep _ => Some tt
  | TimeNow => Some 0
  | WaitDone _ | HTTPGet _ | BootSelect _ _ _ _ _ | Uint32N _ => None
  end.

Lemma demo_reply_possible X (o : hop X) x : demo_reply X o = Some x -> possible o x.
Proof. by destruct o. Qed.

Definition demo_run : list haction -> machine :=
  foldl (hexec id (fun _ => EmptyString) demo_uuid (fun _ => "/srv"%string) id id id (fun a _ => a)
           (fun _ => EmptyString) 0 demo_answer [demo_id1; demo_id2] 0 demo_reply) machine_init.

(** A worker that recovers nothing: the audit (call 1) reaps an orphan and looks for its
    shim in /proc, the actor of a new sandbox (call 0, actor 1) is about to make its
    directory. *)
Definition demo_machine : machine :=
  demo_run
    [HEmpty; HManager (Ownership.Spawn 1 ReqAudit); HManager (Thread 1); HManager (Thread 1);
     HManager (Ownership.Spawn 0 (ReqCreate (mkCreateInput demo_id1 1 256)));
     HManager (Thread 0); HManager (Thread 0); HManager (Thread 0); HManager (Actor 1); HManager (Thread 1);
     HActor 1; HThread 1; HActor 1; HThread 1].

Lemma call_asks_works z t id d : call_asks z t = Some (id, d) -> works z (CallG t) id.
Proof.
  unfold call_asks. destruct (c_threads (mc_config z) !! t) as [[p|]|] eqn:Hp; try done.
  destruct (mc_tops z !! t) as [[|X o k]|] eqn:Ho; try done.
  destruct (touching p) as [i|] eqn:Ht; [|done]. intros [= <- _]. eexists.
  split; [by exists p|by eexists].
Qed.

Lemma actor_asks_works z n id d : actor_asks z n = Some (id, d) -> works z (ActorG n) id.
Proof.
  unfold actor_asks. destruct (c_actors (mc_config z) !! n) as [[|t s p| | |]|] eqn:Hp; try done.
  destruct (mc_aops z !! n) as [[|X o k]|] eqn:Ho; try done.
  destruct (touching p) as [i|] eqn:Ht; [|done]. intros [= <- _]. eexists.
  split; [by exists t, s, p|by eexists].
Qed.

Lemma demo_plain s : IsSandboxID demo_uuid s = true -> slash ∉ to_bytes s.
Proof.
  unfold IsSandboxID, demo_uuid. intros H. assert (s = demo_id1 \/ s = demo_id2) as [-> | ->].
  { destruct (bool_decide_reflect (s = demo_id1)); [by left|].
    destruct (bool_decide_reflect (s = demo_id2)); [by right|]. by destruct (_ =? _)%nat. }
  all: by eapply bool_decide_unpack; vm_compute.
Qed.

Lemma worker_isolated_witness :
  exists z, hreach id (fun _ => EmptyString) demo_uuid (fun _ => "/srv"%string) id id id (fun a _ => a)
              (fun _ => EmptyString) 0 z
    /\ works z (CallG 1) demo_id2 /\ works z (ActorG 1) demo_id1
    /\ sandbox_dir (fun _ => "/srv"%string) demo_id2 <> sandbox_dir (fun _ => "/srv"%string) demo_id1.
Proof.
  exists demo_machine.
  assert (hreach id (fun _ => EmptyString) demo_uuid (fun _ => "/srv"%string) id id id (fun a _ => a)
            (fun _ => EmptyString) 0 demo_machine) as Hr by apply hrun_reach, demo_reply_possible.
  assert (works demo_machine (CallG 1) demo_id2) as H2 by (eapply call_asks_works; vm_compute; reflexivity).
  assert (works demo_machine (ActorG 1) demo_id1) as H1 by (eapply actor_asks_works; vm_compute; reflexivity).
  split; [exact Hr|]. split; [exact H2|]. split; [exact H1|].
  destruct (worker_isolated _ _ _ _ _ _ _ _ _ _ _ demo_plain Hr) as (_ & H & _).
  by apply (H (CallG 1%nat) (ActorG 1%nat) demo_id2 demo_id1).
Defined.
