(* ===== verification/Outcomes.v ===== *)
(** * What a command did to the host

    The commands of an actor (service.go) with the operations of its VM run on the machine
    (Vm.v): what an answer says of the host since the command was taken up.  [awp] runs a
    program of the manager against every answer of the host and every state its locked
    sections may find; it demands that the program goes on after each operation, unless
    one that waits (the boot, the reaping of what was left) ran out of fuel. *)

From Stdlib Require Import ZArith Lia Ascii.
From stdpp Require Import base tactics option list gmap sets strings numbers.
From S2P Require Import Prelude GoStd EventGRPC Manager Recovery Host Dm Shim.
From S2P Require Import Runtime Vm Reaping Confinement Machine.

Open Scope Z_scope.

#[local] Set Warnings "-clear-no-such-hyp".

(** ** Since a moment *)

Definition since (h h' : list event) (P : list event -> Prop) : Prop := exists new, h' = new ++ h /\ P new.

Definition lasts (P : list event -> Prop) : Prop := grows (fun h (_ : unit) => P h).

Lemma since_later h h1 h2 P : lasts P -> h1 `suffix_of` h2 -> since h h1 P -> since h h2 P.
Proof.
  intros HP [l ->] (new & -> & H). exists (l ++ new). split; [by rewrite app_assoc|].
  eapply (HP new _ tt); [set_solver|done].
Qed.

Lemma since_earlier h h1 h2 P : lasts P -> h `suffix_of` h1 -> since h1 h2 P -> since h h2 P.
Proof.
  intros HP [l ->] (new & -> & H). exists (new ++ l). split; [by rewrite app_assoc|].
  eapply (HP new _ tt); [set_solver|done].
Qed.

(** A program that needs nothing of the past. *)
Lemma hwp_from {A} (G : list event -> forall X, hop X -> Prop) h (p : kprog A) (P : A -> list event -> Prop) :
  hwp (fun _ _ _ => True) [] p (fun h' a => P a h') -> hwp G h p (fun _ _ => True) ->
  hwp G h p (fun h' a => since h h' (P a)).
Proof.
  intros H H'. eapply hwp_mono; [|eapply hwp_weaken; [|apply hwp_and; [exact H'|eapply hwp_since; [|exact H]]]].
  - cbn. intros h' a [_ (new & -> & Ha)]. by exists new.
  - by cbn; intros ??? [? _].
  - by intros X ????.
Qed.

Lemma hwp_true {A} h (p : kprog A) : hwp (fun _ _ _ => True) h p (fun _ _ => True).
Proof. revert h. induction p; cbn; auto. Qed.

(** ** What an operation shows *)

(** The shim has gone: it said so when Spawn returned, or the connection to it ended. *)
Definition stopped (hd : Handle) (h : list event) : Prop :=
  h_conn hd = false \/ exists d, Ev (DoneWithin (h_pid hd) d) true ∈ h.

Definition vm_stopped (f : firecrackerVM) (h : list event) : Prop :=
  forall hd, cl_handle (fv_client f) = Some hd -> stopped hd h.

(** A shim of the directory was started, and the API behind its socket says that the VM
    runs. *)
Definition booted (dir : string) (h : list event) : Prop :=
  (exists shim fc pid, Ev (StartProcess shim (spawn_args dir fc)) (Ok pid) ∈ h)
  /\ exists resp, Ev (HTTPGet (Path dir APISocket)) (Ok resp) ∈ h /\ ha_code resp = 200
                  /\ ha_state resp = Ok "Running"%string.

Lemma stopped_lasts f : lasts (vm_stopped f).
Proof. intros h h' _ Hs H hd Hd. destruct (H hd Hd) as [?|[d ?]]; [by left|right; eauto]. Qed.

Lemma booted_lasts dir : lasts (booted dir).
Proof.
  intros h h' _ Hs [(shim & fc & pid & H) (resp & H1 & H2)]. split; [exists shim, fc, pid; auto|exists resp; auto].
Qed.

Lemma removed_lasts quote Getenv id : lasts (removed quote Getenv id).
Proof.
  intros h h' _ Hs [H (x & Hx & He)]. split; [by eapply (volume_gone_grows quote id h h' tt)|exists x; auto].
Qed.

Section Operations.

Context (quote : string -> string) (text : derror -> string) (uuid_Parse : string -> bool).
Context (Getenv : string -> string) (json_string : string -> string).
Context (Major Minor : Z -> Z) (Mkdev : Z -> Z -> Z) (state_String : SandboxState -> string).
Context (fuel : nat).

Abbreviation free := (fun (_ : list event) (X : Type) (_ : hop X) => True).
Abbreviation guard := (vm_guard quote uuid_Parse Getenv).
Abbreviation vmof := (vm_of uuid_Parse Getenv).
Abbreviation cfg := (ConfigFromEnv Getenv).

Lemma Stop_stops hd grace h : hwp free h (Shim.Stop hd grace) (fun h' r => r = None -> stopped hd h').
Proof.
  unfold Shim.Stop, done_within, signal_shim, stopped. destruct (h_conn hd) eqn:Ec; [|by intros _; left].
  assert (forall h d, exists d', Ev (DoneWithin (h_pid hd) d') true ∈ Ev (DoneWithin (h_pid hd) d) true :: h) as Hd
    by (intros; eexists; left).
  cbn [hwp]. split; [done|]. intros [] _; [by intros _; right|]. cbn [hwp]. split; [done|].
  intros r _.
  set (k := KOp (DoneWithin _ grace) _).
  assert (forall h', hwp free h' k (fun h' r => r = None -> true = false \/ exists d, Ev (DoneWithin (h_pid hd) d) true ∈ h')) as Hk.
  { intros h'. unfold k. cbn [hwp]. split; [done|]. intros [] _; [by intros _; right|]. cbn [hwp]. split; [done|].
    intros [e|] _; [destruct (decide (e = ESRCH)); [|done]|]; cbn [hwp]; (split; [done|]); intros [] _; cbn; auto; done. }
  destruct r as [e|]; [destruct (decide (e = ESRCH)); [|done]|]; apply Hk.
Qed.

Lemma Spawn_starts shimPath dir fc h :
  hwp free h (Spawn quote shimPath dir fc) (fun h' r => forall hd, r = Some (Ok hd) ->
    exists shim fc pid, Ev (StartProcess shim (spawn_args dir fc)) (Ok pid) ∈ h').
Proof.
  unfold Spawn. cbn [hwp]. split; [done|]. intros [e|] _; [done|]. cbn [hwp]. split; [done|].
  intros r _. set (start := KOp (StartProcess _ _) _).
  assert (forall h, hwp free h start (fun h' r => forall hd, r = Some (Ok hd) ->
    exists shim fc pid, Ev (StartProcess shim (spawn_args dir fc)) (Ok pid) ∈ h')) as Hs.
  { intros h1. unfold start. cbn [hwp]. split; [done|]. intros [pid|e] _; [|done]. cbn [hwp]. split; [done|]. intros now _.
    eapply hwp_mono; [|apply hwp_keep, hwp_true]. cbn. intros h' r' [_ Hs%suffix_subseteq] hd _.
    exists shimPath, fc, pid. apply Hs. by right; left. }
  destruct r as [e|]; [destruct (decide (e = ENOENT)); [apply Hs|done]|apply Hs].
Qed.

Lemma client_Spawn_starts c req h :
  hwp free h (client_Spawn quote json_string c req) (fun h' r => forall b, r = Some b ->
    cl_Dir b.2 = cl_Dir c /\ (b.1 = None -> exists shim fc pid, Ev (StartProcess shim (spawn_args (cl_Dir c) fc)) (Ok pid) ∈ h')).
Proof.
  unfold client_Spawn. destruct (cl_handle c) eqn:Eh; [by intros b [= <-]|]. case_bool_decide; [by intros b [= <-]|].
  cbn [writeVMConfig kbind hwp]. split; [done|]. intros [e|] _; [by intros b [= <-]|].
  apply hwp_bind. eapply hwp_mono; [|apply Spawn_starts]. intros h' [[hd|e]|] H'; [|by intros b [= <-]|done].
  intros b [= <-]. cbn. split; [done|]. intros _. eauto.
Qed.

(** The API says so. *)
Definition says_running (dir : string) (h : list event) : Prop :=
  exists resp, Ev (HTTPGet (Path dir APISocket)) (Ok resp) ∈ h /\ ha_code resp = 200
               /\ ha_state resp = Ok "Running"%string.

Lemma State_says c h :
  hwp free h (client_State quote c) (fun h' st => st = Ok StateRunning -> says_running (cl_Dir c) h').
Proof.
  unfold client_State. cbn [hwp]. split; [done|]. intros [resp|e] _; [|done].
  destruct (ha_code resp =? 200) eqn:Ec; [|done]. apply Z.eqb_eq in Ec. cbn [negb].
  destruct (ha_state resp) as [st|e] eqn:Es; [|done]. cbn [wrap_err hwp].
  case_bool_decide as Hr; [|by repeat case_bool_decide]. subst st. intros _. exists resp. split; [left|done].
Qed.

Lemma waitRunning_loop_runs c pid start timeout poll taken h :
  hwp free h (waitRunning_loop quote state_String fuel c pid start timeout poll taken)
    (fun h' r => r = Some None -> says_running (cl_Dir c) h').
Proof.
  revert taken h. induction fuel as [|n IH]; intros taken h; [done|]. cbn [waitRunning_loop]. apply hwp_bind.
  eapply hwp_mono; [|apply State_says]. intros h1 st Hst.
  destruct (match st with Ok _ => _ | Err _ => _ end) eqn:E.
  - intros _. apply Hst. destruct st as [s|]; [|done]. by apply bool_decide_eq_true in E as ->.
  - cbn [hwp]. split; [done|]. by intros [] _.
Qed.

Lemma waitRunning_runs c pid timeout poll h :
  hwp free h (waitRunning quote state_String fuel c pid timeout poll)
    (fun h' r => r = Some None -> says_running (cl_Dir c) h').
Proof. unfold waitRunning. cbn [hwp]. split; [done|]. intros start _. apply waitRunning_loop_runs. Qed.

Lemma vm_Create_boots f h :
  hwp free h (vm_Create quote json_string Major Minor Mkdev state_String fuel cfg f) (fun h' r =>
    forall f', r = Some (None, f') -> booted (cl_Dir (fv_client f)) h').
Proof.
  unfold vm_Create. apply hwp_bind. eapply hwp_mono; [|apply hwp_true]. intros h1 [p|e] _; [|done].
  apply hwp_bind. eapply hwp_mono; [|apply hwp_true]. intros h2 [root|e] _; [|done].
  apply hwp_bind. eapply hwp_mono; [|apply client_Spawn_starts]. intros h3 [[err c]|] H; [|done].
  destruct (H _ eq_refl) as [Hd Hs]. cbn [fst snd] in *. destruct err as [e|]; [done|].
  apply hwp_bind. eapply hwp_mono; [|apply hwp_keep, waitRunning_runs].
  cbn. intros h4 [w|] [Hw Hk%suffix_subseteq]; [|done]. cbn. intros f' [= -> _].
  destruct (Hs eq_refl) as (shim & fc & pid & Hp). rewrite Hd in Hw. split; [exists shim, fc, pid; auto|by apply Hw].
Qed.

(** ** The operations on the host *)

Abbreviation dir := (sandbox_dir Getenv).
Abbreviation gone := (removed quote Getenv).
Abbreviation on_host := (host_op quote text uuid_Parse Getenv json_string Major Minor Mkdev state_String fuel).
Abbreviation needs := (op_needs uuid_Parse Getenv).

(** The operations with a loop that waits for a process. *)
Definition waits {X} (o : vmop X) : Prop := match o with VMCreate | Reap => True | _ => False end.

Definition op_shows (v : option firecrackerVM) (id : string) (h h' : list event) {X} (o : vmop X)
    : X -> option firecrackerVM -> Prop :=
  match o in vmop X return X -> option firecrackerVM -> Prop with
  | VMAttach | NewVM _ => fun r v' =>
      match r with None => exists f, v' = Some f /\ vmof id h' f | Some _ => v' = v end
  | VMCreate => fun r v' =>
      (exists f', v' = Some f' /\ vmof id h' f') /\ (r = None -> since h h' (booted (dir id)))
  | VMStop => fun r v' => v' = v /\ (r = None -> forall f, v = Some f -> since h h' (vm_stopped f))
  | VMState => fun _ v' => v' = v
  | VMCleanup | Reap => fun r v' => v' = v /\ (r = None -> since h h' (gone id))
  end.

Lemma vm_Stop_stops id f h :
  vmof id h f -> hwp (guard id) h (vm_Stop f) (fun h' r => r = None -> since h h' (vm_stopped f)).
Proof.
  intros Hf. eapply hwp_mono; [|eapply (hwp_from _ _ _ (fun r h => r = None -> vm_stopped f h)); [|by apply vm_Stop_confined]].
  - cbn. intros h' r (new & -> & H) Hr. exists new. auto.
  - unfold vm_Stop, client_Stop, vm_stopped. destruct (cl_handle (fv_client f)) as [hd|] eqn:E; [|done].
    eapply hwp_mono; [|apply Stop_stops]. cbn. intros h' r H Hr hd' [= <-]. auto.
Qed.

Lemma host_op_shows v id h X (o : vmop X) :
  needs v id h o ->
  hwp (guard id) h (on_host v id X o) (fun h' r => h `suffix_of` h' /\
    match r with Some (x, v') => op_shows v id h h' o x v' | None => waits o end).
Proof.
  destruct o as [|c| | | | |]; cbn [op_needs host_op op_shows waits].
  - intros _. apply hwp_bind. eapply hwp_mono; [|apply hwp_keep, attach_confined].
    intros h' [f|e] [Hf Hs]; cbn; [|done]. split; [done|]. exists f. split; [done|]. by apply Hf.
  - intros <-. apply hwp_bind. eapply hwp_mono; [|apply hwp_keep, newVM_confined].
    intros h' [f|e] [Hf Hs]; cbn; [|done]. split; [done|]. exists f. split; [done|]. by apply Hf.
  - intros (f & -> & Hf). cbn [on_vm]. apply hwp_bind, hwp_bind.
    eapply hwp_mono; [|eapply hwp_keep, hwp_weaken; [|apply hwp_and; [by eapply vm_Create_confined|]]].
    2: { by cbn; intros ??? [? _]. }
    2: { eapply hwp_since; [|apply vm_Create_boots]. by intros X ????. }
    cbn. intros h' [[r f']|] [[Hc (new & -> & Hb)] Hs]; [|done]. cbn. split; [done|]. split; [exists f'; split; [done|]; by apply (Hc _ eq_refl)|].
    intros Er. exists new. split; [done|]. rewrite <- (vo_dir _ _ _ _ _ Hf). destruct r as [e|]; [done|]. by eapply Hb.
  - intros (f & -> & Hf). cbn [on_vm]. apply hwp_bind, hwp_bind.
    eapply hwp_mono; [|apply hwp_keep, vm_Stop_stops, Hf]. cbn. intros h' r [H Hs]. split; [done|]. split; [done|].
    intros Hr f' [= <-]. destruct r; [done|]. auto.
  - intros (f & -> & Hf). cbn [on_vm]. apply hwp_bind, hwp_bind.
    eapply hwp_mono; [|apply hwp_keep, vm_State_confined]. cbn. by intros h' r [_ Hs].
  - intros (f & -> & Hf). cbn [on_vm]. apply hwp_bind, hwp_bind.
    eapply hwp_mono; [|apply hwp_keep, vm_Cleanup_confined, Hf]. cbn. intros h' r [H Hs]. split; [done|]. split; [done|].
    intros Hr. destruct r; [done|]. by apply H.
  - intros _. apply hwp_bind. eapply hwp_mono; [|apply hwp_keep, reap_since].
    cbn. intros h' [r|] [H Hs]; [|done]. cbn. split; [done|]. split; [done|]. intros Hr. destruct r; [done|]. by apply H.
Qed.

(** ** The programs of the manager on the host *)

Inductive vmcall : Type :=
| VCall (X : Type) (o : vmop X) (x : X).
Arguments VCall {X} o x.

(** [tr]: the operations on the VM, the latest first; [h]: those of the host. *)
Fixpoint awp {A} (tr : list vmcall) (h : list event) (v : option firecrackerVM) (s : Service) (p : mprog A)
    (Q : list vmcall -> list event -> option firecrackerVM -> Service -> A -> Prop) : Prop :=
  match p with
  | MRet a => Q tr h v s a
  | MLock f k => forall env m, awp tr h v s (k (f env m).1) Q
  | MVM id o k =>
      hwp (guard id) h (on_host v id _ o) (fun h' r =>
        match r with
        | Some (x, v') => awp (VCall o x :: tr) h' v' s (k x) Q
        | None => waits o
        end)
  | MSelf f k => awp tr h v (f s).2 (k (f s).1) Q
  | MNow k => forall now, awp tr h v s (k now) Q
  | MGo _ _ _ | MDo _ _ _ | MListDisk _ => False
  end.

Lemma awp_op {A X} tr h v s id (o : vmop X) (k : X -> mprog A) Q :
  needs v id h o ->
  (forall h' x v', h `suffix_of` h' -> op_shows v id h h' o x v' -> awp (VCall o x :: tr) h' v' s (k x) Q) ->
  awp tr h v s (MVM id o k) Q.
Proof.
  intros Hn Hk. eapply hwp_mono; [|by apply host_op_shows]. cbn. intros h' [[x v']|] [Hs Ho]; [|done]. by apply Hk.
Qed.

Lemma awp_bind {A B} tr h v s (p : mprog A) (g : A -> mprog B) Q :
  awp tr h v s p (fun tr h v s a => awp tr h v s (g a) Q) -> awp tr h v s (mbind p g) Q.
Proof.
  revert tr h v s. induction p as [|X f k IH|X id o k IH|X f k IH| | | |k IH]; intros tr h v self; cbn; intros Hp; auto.
  eapply hwp_mono; [|exact Hp]. cbn. intros h' [[x v']|]; [apply IH|done].
Qed.

Lemma awp_mono {A} tr h v s (p : mprog A) (Q Q' : list vmcall -> list event -> option firecrackerVM -> Service -> A -> Prop) :
  (forall tr h v s a, Q tr h v s a -> Q' tr h v s a) -> awp tr h v s p Q -> awp tr h v s p Q'.
Proof.
  intros HQ. revert tr h v s. induction p as [|X f k IH|X id o k IH|X f k IH| | | |k IH]; intros tr h v self; cbn; intros Hp; auto.
  eapply hwp_mono; [|exact Hp]. cbn. intros h' [[x v']|]; [apply IH|done].
Qed.

(** ** The commands *)

(** The answers of the two steps of a removal. *)
Definition removal (h h' : list event) (id : string) (f : firecrackerVM) (stop clean : option error) : Prop :=
  (stop = None -> since h h' (vm_stopped f)) /\ (clean = None -> since h h' (gone id)).

Lemma svc_remove_awp tr h s id f :
  vmof id h f -> s_vm s = true ->
  awp tr h (Some f) s (svc_remove id) (fun tr' h' v' _ r => exists stop clean,
    h `suffix_of` h' /\ v' = Some f /\ tr' = VCall VMCleanup clean :: VCall VMStop stop :: tr
    /\ removal h h' id f stop clean
    /\ r = match clean, stop with
           | Some e, _ => Some (Wrap ("remove sandbox " +:+ id +:+ ": ") e)
           | None, Some e => Some (Wrap ("stop sandbox " +:+ id +:+ " (cleaned up): ") e)
           | None, None => None
           end).
Proof.
  intros Hf Hs. cbn [svc_remove awp fst snd]. rewrite Hs. cbn [negb].
  apply awp_op; [by exists f|]. intros h1 stop v1 Hs1 [-> H1].
  apply awp_op; [exists f; split; [done|]; by eapply vm_of_grows; [apply suffix_subseteq|]|].
  intros h2 clean v2 Hs2 [-> H2]. cbn. exists stop, clean. split; [by etrans|]. split_and!; [done|done| |done].
  split.
  - intros ->. eapply since_later; [apply stopped_lasts|done|by apply H1].
  - intros ->. eapply since_earlier; [apply removed_lasts|done|by apply H2].
Qed.

Lemma setState_awp tr h v s id n st :
  awp tr h v s (setState id n st) (fun _ h' v' s' _ => h' = h /\ v' = v /\ s_vm s' = s_vm s).
Proof.
  cbn. destruct (decide (st = s_state s)); cbn; [done|]. intros env m.
  by destruct (report_section id n st m).1; cbn.
Qed.

Lemma poll_awp tr h s id n f :
  vmof id h f ->
  awp tr h (Some f) s (poll id n) (fun _ h' v' s' _ => h `suffix_of` h' /\ v' = Some f /\ s_vm s' = s_vm s).
Proof.
  intros Hf. cbn [poll awp fst snd]. destruct (negb (s_vm s) || _); [done|].
  apply awp_op; [by exists f|]. intros h' x v' Hs ->. eapply awp_mono; [|apply setState_awp].
  by cbn; intros tr' h1 v1 s1 _ (-> & -> & ->).
Qed.

(** A create: the VM runs, or what was made of it has been taken down again. *)
Definition create_outcome (id : string) (c : CreateInput) (h : list event) (tr : list vmcall) (h' : list event)
    (v' : option firecrackerVM) (s' : Service) (r : bool * option error) : Prop :=
  match r.2 with
  | None => r.1 = false /\ s_vm s' = true /\ (exists f, v' = Some f /\ vmof id h' f) /\ since h h' (booted (dir id))
  | Some e =>
      r.1 = true
      /\ (tr = [VCall (NewVM c) (Some e)]
          \/ exists f stop clean,
              tr = [VCall VMCleanup clean; VCall VMStop stop; VCall VMCreate (Some e); VCall (NewVM c) None]
              /\ removal h h' id f stop clean)
  end.

Lemma svc_create_awp h v s id n c :
  ci_ID c = id -> s_vm s = false ->
  awp [] h v s (handle id n (cmdCreate c)) (create_outcome id c h).
Proof.
  intros Hc Hs. cbn [handle]. apply awp_bind. cbn [svc_create awp fst snd]. rewrite Hs.
  apply awp_op; [done|]. intros h1 [e|] v1 Hs1 H1; [split; [done|]; by left|].
  destruct H1 as (f & -> & Hf). cbn [awp fst snd]. apply awp_op; [by exists f|].
  intros h2 r v2 Hs2 [(f2 & -> & Hf2) Hb]. destruct r as [e|].
  - apply awp_bind. eapply awp_mono; [|by apply svc_remove_awp]. cbn.
    intros tr h3 v3 s3 _ (stop & clean & Hs3 & _ & -> & [Hr1 Hr2] & _). split; [done|]. right. exists f2, stop, clean.
    split; [done|]. assert (h `suffix_of` h2) by (by etrans).
    split; intros E; (eapply since_earlier; [|done|by auto]); [apply stopped_lasts|apply removed_lasts].
  - cbn [mbind watch awp fst snd]. apply awp_bind. eapply awp_mono; [|by apply poll_awp]. cbn.
    intros tr h3 v3 s3 _ (Hs3 & -> & Hv). split; [done|]. split; [by rewrite Hv|].
    split; [exists f2; split; [done|]; by eapply vm_of_grows; [apply suffix_subseteq|]|].
    eapply since_earlier; [apply booted_lasts|done|]. eapply since_later; [apply booted_lasts|done|by apply Hb].
Qed.
End Operations.

(** C9: the answer of a command is true of the host.  Whatever the host answers and the
    other goroutines do to the manager in between, since an actor took up its command: a
    create answered nil has a shim of the sandbox's directory started and its API saying
    Running, and one that failed has run the stop and the cleanup of the VM it had made; a
    stop answered nil has seen the shim gone; a remove always answers and ends the actor,
    its nil means that the shim is gone, the volume too and then the directory, and its
    answer "cleaned up" that the latter two are; and a removal whose actor had ended falls
    back to the reaper, whose nil means the same of the volume and the directory.  Only the
    boot and the reaper can be left waiting. *)
Theorem command_outcomes quote text uuid_Parse Getenv json_string Major Minor Mkdev state_String fuel id n h s :
  let run := fun A => @awp quote text uuid_Parse Getenv json_string Major Minor Mkdev state_String fuel A [] h in
  (forall v c, ci_ID c = id -> s_vm s = false ->
     run _ v s (handle id n (cmdCreate c)) (create_outcome quote uuid_Parse Getenv id c h))
  /\ (forall f, vm_of uuid_Parse Getenv id h f -> s_vm s = true ->
       run _ (Some f) s (handle id n cmdStop) (fun _ h' v' _ r =>
         r.1 = false /\ v' = Some f /\ (r.2 = None -> since h h' (vm_stopped f)))
       /\ run _ (Some f) s (handle id n cmdRemove) (fun _ h' _ _ r =>
         r.1 = true
         /\ (r.2 = None -> since h h' (vm_stopped f) /\ since h h' (removed quote Getenv id))
         /\ forall e, r.2 = Some (Wrap ("stop sandbox " +:+ id +:+ " (cleaned up): ") e) ->
             since h h' (removed quote Getenv id)))
  /\ forall err, exited_err (Some err) = true ->
       run _ None s (remove_after id (Some err)) (fun _ h' _ _ r => r = None -> since h h' (removed quote Getenv id)).
Proof.
  cbn zeta beta. split; [|split].
  - intros v c. apply svc_create_awp.
  - intros f Hf Hs. split.
    + cbn [handle awp fst snd]. rewrite Hs. cbn [negb]. apply awp_op; [by exists f|].
      intros h' r v' Hs' [-> H]. cbn. split; [done|]. split; [done|]. intros Hr. destruct r; [done|]. by apply H.
    + cbn [handle]. apply awp_bind. eapply awp_mono; [|by apply svc_remove_awp]. cbn.
      intros tr h' v' s' r (stop & clean & _ & _ & _ & [H1 H2] & ->). split; [done|]. split.
      * destruct clean, stop; try done. auto.
      * intros e. destruct clean as [e'|]; [by intros [= E]|]. auto.
  - intros err He. unfold remove_after. rewrite He. apply awp_op; [done|].
    intros h' r v' Hs' [_ H]. cbn. intros _ _ ->. by apply H.
Qed.

(** A sandbox whose shim the worker started. *)
Definition demo_dir : string := sandbox_dir (fun _ => "/srv"%string) demo_id1.
Definition demo_vm : firecrackerVM :=
  mkFirecrackerVM (mkClient demo_id1 demo_dir (Some (mkHandle demo_dir 7 true 0))) "/srv/vmlinux"
    (mkCreateInput demo_id1 1 256).
Definition demo_history : list event := [Ev (StartProcess "/usr/bin/fire2-shim" (spawn_args demo_dir "fc")) (Ok 7)].

Lemma command_outcomes_witness :
  vm_of demo_uuid (fun _ => "/srv"%string) demo_id1 demo_history demo_vm
  /\ awp id (fun _ => EmptyString) demo_uuid (fun _ => "/srv"%string) id id id (fun a _ => a)
       (fun _ => EmptyString) 0 [] demo_history (Some demo_vm) (set_vm (newService demo_id1))
       (handle demo_id1 0 cmdRemove) (fun _ h' _ _ r => r.1 = true
         /\ (r.2 = None -> since demo_history h' (vm_stopped demo_vm)
                           /\ since demo_history h' (removed id (fun _ => "/srv"%string) demo_id1))
         /\ forall e, r.2 = Some (Wrap ("stop sandbox " +:+ demo_id1 +:+ " (cleaned up): ") e) ->
             since demo_history h' (removed id (fun _ => "/srv"%string) demo_id1)).
Proof.
  assert (vm_of demo_uuid (fun _ => "/srv"%string) demo_id1 demo_history demo_vm) as Hf.
  { split; [vm_compute; reflexivity|reflexivity|reflexivity|]. intros hd [= <-]. right. do 2 eexists. left. }
  split; [exact Hf|].
  exact (proj2 (proj1 (proj2 (command_outcomes id (fun _ => EmptyString) demo_uuid (fun _ => "/srv"%string) id id id
           (fun a _ => a) (fun _ => EmptyString) 0 demo_id1 0 demo_history (set_vm (newService demo_id1))))
         demo_vm Hf eq_refl)).
Defined.
