(* ===== verification/Lifecycle.v ===== *)
(** * The life of a sandbox: the specification the orchestrator refines

    - [status_step] is the state machine of a sandbox (README, "Creating a sandbox");
      [row_evolves] adds what else may change in a row;
    - [Inv] is the invariant of the database; [evolves] ([R] of the rely-guarantee
      proofs) is how it may change over any number of transactions; [guarantee] is what
      one transaction does, slots included;
    - [row_move] lists the ways a statement changes a row, and the lemmas of
      [UpdateOk] are those every transaction's preservation follows from. *)

From Stdlib Require Import ZArith Lia.
From stdpp Require Import base tactics option list gmap strings numbers relations.
From S2P Require Import Prelude GoStd Database SandboxRepo WorkerRepo Program Jobs.

Open Scope Z_scope.

(** ** The state machine *)
Inductive status_step : Status -> Status -> Prop :=
| step_schedule : status_step StatusPending StatusScheduling
| step_assign : status_step StatusScheduling StatusAssigned
| step_start : status_step StatusAssigned StatusStarting
| step_run : status_step StatusStarting StatusRunning
| step_claim st : st ∈ unfinished_statuses -> status_step st StatusCleanupPending
| step_fail : status_step StatusCleanupPending StatusFailed
| step_stop : status_step StatusCleanupPending StatusStopped.

(** Not yet given to a worker; given up (being cleaned up, or over). *)
Definition early (st : Status) : Prop := st = StatusPending \/ st = StatusScheduling.
Definition active (st : Status) : Prop := st ∈ active_statuses.
Definition terminal (st : Status) : Prop := st = StatusFailed \/ st = StatusStopped.
Definition given_up (st : Status) : Prop := st = StatusCleanupPending \/ terminal st.

(** The columns no statement ever changes. *)
Definition row_identity (r : sandbox_row) :=
  let s := row_sandbox r in
  (sb_ID s, sb_Runtime s, sb_TTL s, sb_CreatedAt s, sb_Port s, sb_PreviewURL s, sb_Image s,
   sb_VcpuCount s, sb_MemSizeMib s, sb_UserID s).

(** A sandbox keeps its worker until it is given up, and gets one only early. *)
Definition link_evolves (r r' : sandbox_row) : Prop :=
  row_worker r' = row_worker r
  \/ (row_worker r' = None /\ given_up (row_status r'))
  \/ (row_worker r = None /\ early (row_status r)).

Record row_evolves (r r' : sandbox_row) : Prop := {
  re_status : rtc status_step (row_status r) (row_status r');
  re_identity : row_identity r' = row_identity r;
  re_link : link_evolves r r';
}.

(** A worker's tokens only grow, and its incarnation's registration time is fixed. *)
Record worker_evolves (w w' : worker_row) : Prop := {
  we_token : wr_fencing_token w <= wr_fencing_token w';
  we_inventory : wr_inventory_token w <= wr_inventory_token w';
  we_registered : wr_fencing_token w' = wr_fencing_token w ->
                  wr_registered_at w' = wr_registered_at w;
}.

Record evolves (db db' : DB) : Prop := {
  ev_rows : forall id r, sandboxes db !! id = Some r ->
            exists r', sandboxes db' !! id = Some r' /\ row_evolves r r';
  ev_workers : forall id w, workers db !! id = Some w ->
               exists w', workers db' !! id = Some w' /\ worker_evolves w w';
  ev_jobs : jobs db `prefix_of` jobs db';
}.

(** ** The invariant *)

Definition cleanup_job (id : string) (db : DB) : Prop :=
  exists t, cleanupInsert id t ∈ jobs db.

Definition create_job (id : string) (db : DB) : Prop :=
  exists ji, ji ∈ jobs db /\ ji_args ji = JobCreate {| cr_SandboxID := id |}.

(** The River queue of each kind of job. *)
Definition job_queue (a : JobArgs) : string :=
  match a with
  | JobCreate _ => QueueDefault
  | JobCleanup _ | JobRemoveOrphan _ => "cleanup"
  end.

Definition valid_target (t : string) : Prop :=
  t = EmptyString \/ t = Status_string StatusFailed \/ t = Status_string StatusStopped.

(** What holds of one row. *)
Record row_ok (wks : gmap string worker_row) (id : string) (r : sandbox_row) : Prop := {
  ro_id : sb_ID (row_sandbox r) = id;
  ro_early : early (row_status r) -> row_worker r = None;
  ro_active : active (row_status r) -> is_Some (row_worker r);
  ro_terminal : terminal (row_status r) -> row_worker r = None;
  ro_known : early (row_status r) \/ active (row_status r) \/ given_up (row_status r);
  ro_worker : forall w, row_worker r = Some w -> is_Some (wks !! w);
  ro_owner : is_Some (sb_UserID (row_sandbox r));
}.

Definition worker_ok (w : worker_row) : Prop :=
  0 <= wr_inventory_token w <= wr_fencing_token w.

Record Inv (db : DB) : Prop := {
  inv_rows : forall id r, sandboxes db !! id = Some r -> row_ok (workers db) id r;
  inv_workers : forall id w, workers db !! id = Some w -> worker_ok w;
  inv_claimed : forall id r, sandboxes db !! id = Some r ->
                row_status r = StatusCleanupPending -> cleanup_job id db;
  inv_cleanup : forall ji a, ji ∈ jobs db -> ji_args ji = JobCleanup a ->
                valid_target (cl_TargetStatus a)
                /\ exists r, sandboxes db !! cl_SandboxID a = Some r /\ given_up (row_status r);
  inv_created : forall id, is_Some (sandboxes db !! id) <-> create_job id db;
  inv_queues : forall ji, ji ∈ jobs db -> ji_queue ji = job_queue (ji_args ji);
}.

(** One transaction: an evolution in which a worker's occupancy only grows within its
    capacity. *)
Definition slots_respected (db db' : DB) : Prop :=
  forall wid w, workers db !! wid = Some w ->
  occupancy db' wid <= Z.max (occupancy db wid) (wr_capacity w).

Definition guarantee (db db' : DB) : Prop := evolves db db' /\ slots_respected db db'.

(** ** Row moves *)
Inductive row_move : sandbox_row -> sandbox_row -> Prop :=
| mv_schedule r : row_status r = StatusPending ->
    row_move r (row_set_status StatusScheduling r)
| mv_start r : row_status r = StatusAssigned ->
    row_move r (row_set_status StatusStarting r)
| mv_run r : row_status r = StatusStarting ->
    row_move r (row_set_status StatusRunning r)
| mv_claim r : row_status r ∈ unfinished_statuses ->
    row_move r (row_set_status StatusCleanupPending r)
| mv_clear r : row_status r = StatusCleanupPending ->
    row_move r (row_set_worker None r)
| mv_finish r st : row_status r = StatusCleanupPending -> row_worker r = None -> terminal st ->
    row_move r (row_set_status st r)
| mv_seen r t : row_move r (row_set_seen t r)
| mv_same r : row_status r = StatusRunning -> row_move r (row_set_status StatusRunning r).

(** Every row of [m] moved to the row of [m'] with the same id; no row came or went. *)
Definition rows_moved (m m' : gmap string sandbox_row) : Prop :=
  forall id, match m !! id, m' !! id with
             | Some r, Some r' => rtc row_move r r'
             | None, None => True
             | _, _ => False
             end.

(** A transaction that keeps the invariant and its guarantee, provided [P] held. *)
Definition tx_ok {X} (P : DB -> Prop) (f : tx X) : Prop :=
  forall env db x db', Inv db -> P db -> f env db = (Ok x, db') -> guarantee db db' /\ Inv db'.

(** ** Lemmas: the state machine *)

Create HintDb life.
#[export] Hint Constructors status_step row_move : life.
#[export] Hint Unfold early active terminal given_up : life.

(** Membership in a literal list of statuses, as a case analysis. *)
Ltac status_cases :=
  unfold early, active, given_up, terminal, unfinished_statuses, active_statuses,
    holding_statuses, terminal_statuses in *;
  repeat match goal with
  | H : _ ∈ [] |- _ => by apply not_elem_of_nil in H
  | H : _ ∈ _ :: _ |- _ => apply elem_of_cons in H as [H|H]
  | H : _ \/ _ |- _ => destruct H as [H|H]
  | H : _ /\ _ |- _ => destruct H
  end.

Lemma given_up_closed st st' : status_step st st' -> given_up st -> given_up st'.
Proof. intros []; intros; status_cases; subst; try discriminate; eauto with life. Qed.

Lemma terminal_final st st' : status_step st st' -> ~ terminal st.
Proof. intros [] ?; status_cases; subst; discriminate. Qed.

Lemma rtc_given_up st st' : rtc status_step st st' -> given_up st -> given_up st'.
Proof. induction 1; eauto using given_up_closed. Qed.

Lemma rtc_terminal st st' : rtc status_step st st' -> terminal st -> st' = st.
Proof. destruct 1 as [|st st1 st' Hs _]; [done|]. intros Ht. by destruct (terminal_final _ _ Hs). Qed.

Lemma early_not_given_up st : early st -> given_up st -> False.
Proof. intros; status_cases; congruence. Qed.

Lemma early_pred st st' : status_step st st' -> early st' -> early st.
Proof. intros []; intros; status_cases; subst; try discriminate; eauto with life. Qed.

Lemma rtc_early st st' : rtc status_step st st' -> early st' -> early st.
Proof. induction 1; eauto using early_pred. Qed.

(** ** Lemmas: evolution is a preorder *)

Lemma link_evolves_trans r1 r2 r3 :
  rtc status_step (row_status r1) (row_status r2) ->
  rtc status_step (row_status r2) (row_status r3) ->
  link_evolves r1 r2 -> link_evolves r2 r3 -> link_evolves r1 r3.
Proof.
  unfold link_evolves. intros H12 H23 H L.
  destruct H as [E|[[E D]|[E D]]]; destruct L as [E'|[[E' D']|[E' D']]];
    try rewrite E in *; try rewrite E' in *; eauto 6.
  - right. right. eauto using rtc_early.
  - right. left. eauto using rtc_given_up.
  - by destruct (early_not_given_up _ D' D).
Qed.

#[export] Instance row_evolves_preorder : PreOrder row_evolves.
Proof.
  split.
  - intros r. split; [done|done|by left].
  - intros r1 r2 r3 [S1 I1 L1] [S2 I2 L2]. split; [by etrans|congruence|].
    by eapply link_evolves_trans.
Qed.

#[export] Instance worker_evolves_preorder : PreOrder worker_evolves.
Proof.
  split.
  - intros w. by split.
  - intros w1 w2 w3 [T1 I1 R1] [T2 I2 R2]. split; [lia|lia|]. intros E.
    rewrite R2, R1; [done|lia|lia].
Qed.

#[export] Instance evolves_preorder : PreOrder evolves.
Proof.
  split.
  - intros db. split; [intros id r H; by exists r|intros id w H; by exists w|done].
  - intros d1 d2 d3 [S1 W1 J1] [S2 W2 J2]. split.
    + intros id r H. destruct (S1 _ _ H) as (r2 & H2 & E2).
      destruct (S2 _ _ H2) as (r3 & H3 & E3). exists r3. split; [done|]. by etrans.
    + intros id w H. destruct (W1 _ _ H) as (w2 & H2 & E2).
      destruct (W2 _ _ H2) as (w3 & H3 & E3). exists w3. split; [done|]. by etrans.
    + by etrans.
Qed.

Lemma evolves_has id db db' :
  evolves db db' -> is_Some (sandboxes db !! id) -> is_Some (sandboxes db' !! id).
Proof. intros E [r H]. destruct (ev_rows _ _ E _ _ H) as (r' & H' & _). eauto. Qed.

(** A row that is given up and unlinked stays so. *)
Definition unlinked (id : string) (db : DB) : Prop :=
  exists r, sandboxes db !! id = Some r /\ given_up (row_status r) /\ row_worker r = None.

Lemma evolves_unlinked id db db' : evolves db db' -> unlinked id db -> unlinked id db'.
Proof.
  intros E (r & H & D & N). destruct (ev_rows _ _ E _ _ H) as (r' & H' & [S _ L]).
  exists r'. split; [done|]. split; [by eapply rtc_given_up|].
  destruct L as [L|[[L _]|[_ L]]]; [congruence|done|].
  by destruct (early_not_given_up _ L D).
Qed.

(** ** Lemmas: moves *)

Lemma row_move_ok wks id r r' : row_move r r' -> row_ok wks id r -> row_ok wks id r'.
Proof.
  intros Hm [Hid Hea Hac Hte Hkn Hwk Hus].
  destruct Hm; split; simpl; try done; intros; unfold row_status, row_worker in *; simpl in *;
    status_cases; simplify_eq; eauto 10 with life.
  all: try (apply Hac; unfold active, active_statuses; rewrite !elem_of_cons; tauto).
  all: try (unfold active, active_statuses; rewrite !elem_of_cons; tauto).
  all: congruence.
Qed.

Lemma row_moves_ok wks id r r' : rtc row_move r r' -> row_ok wks id r -> row_ok wks id r'.
Proof. induction 1; eauto using row_move_ok. Qed.

Lemma row_move_evolves r r' : row_move r r' -> row_evolves r r'.
Proof.
  intros Hm. destruct Hm as [r H|r H|r H|r H|r H|r st H HN Hst|r t|r H]; split; try done; simpl.
  all: unfold link_evolves, row_status, row_worker in *; simpl in *; auto.
  1-3: rewrite H; apply rtc_once; constructor.
  - apply rtc_once. by constructor.
  - right. left. unfold given_up. auto.
  - rewrite H. apply rtc_once. destruct Hst as [->| ->]; constructor.
  - by rewrite H.
Qed.

Lemma row_moves_evolve r r' : rtc row_move r r' -> row_evolves r r'.
Proof. induction 1; [reflexivity|]. etrans; [by apply row_move_evolves|done]. Qed.

Lemma holds_slot_true w r :
  holds_slot w r = true <-> row_worker r = Some w /\ row_status r ∈ holding_statuses.
Proof. unfold holds_slot, status_in. by rewrite andb_true_iff, !bool_decide_eq_true. Qed.

Lemma holding_iff st : st ∈ holding_statuses <-> active st \/ st = StatusCleanupPending.
Proof.
  unfold active, active_statuses, holding_statuses. rewrite !elem_of_cons, elem_of_nil. tauto.
Qed.

(** No move takes a slot. *)
Lemma row_move_holds wks id w r r' :
  row_move r r' -> row_ok wks id r -> holds_slot w r' = true -> holds_slot w r = true.
Proof.
  rewrite !holds_slot_true, !holding_iff. intros Hm Hok [Hw Hs].
  destruct Hm as [r H|r H|r H|r H|r H|r st H HN Hst|r t|r H];
    unfold row_worker, row_status in Hw, Hs; simpl in Hw, Hs; try discriminate.
  - status_cases; discriminate.
  - split; [done|]. left. rewrite H. unfold active, active_statuses. by repeat constructor.
  - split; [done|]. left. rewrite H. unfold active, active_statuses. by repeat constructor.
  - split; [done|]. left. clear Hs. status_cases; unfold active, active_statuses.
    1-2: change (row_worker r = Some w) in Hw;
         rewrite (ro_early _ _ _ Hok) in Hw; [done|unfold early; auto].
    all: rewrite H; by repeat constructor.
  - status_cases; subst; discriminate.
  - done.
  - split; [done|]. left. rewrite H. unfold active, active_statuses. by repeat constructor.
Qed.

Lemma row_moves_hold wks id w r r' :
  rtc row_move r r' -> row_ok wks id r -> holds_slot w r' = true -> holds_slot w r = true.
Proof. induction 1; eauto using row_move_holds, row_move_ok. Qed.

(** Fewer rows hold a slot: the count does not grow. *)
Lemma occupancy_mono db db' w :
  (forall id r', sandboxes db' !! id = Some r' -> holds_slot w r' = true ->
     exists r, sandboxes db !! id = Some r /\ holds_slot w r = true) ->
  occupancy db' w <= occupancy db w.
Proof.
  intros H. unfold occupancy. apply Nat2Z.inj_le.
  rewrite <- !size_dom. apply subseteq_size. intros id.
  rewrite !elem_of_dom. intros [r' Hr']. apply map_lookup_filter_Some in Hr' as [Hr' Hh].
  destruct (H _ _ Hr' Hh) as (r & Hr & Hh'). exists r. by apply map_lookup_filter_Some.
Qed.

(** ** The preservation lemma

    A transaction that moves rows, leaves the workers alone and appends jobs keeps the
    invariant and its guarantee, provided a newly claimed row got its cleanup job and
    every cleanup job it appended is for a row it left given up. *)
Section UpdateOk.

Context (db db' : DB) (l : list JobInsert).
Context (HI : Inv db).
Context (Hwk : workers db' = workers db).
Context (Hjobs : jobs db' = jobs db ++ l).
Context (Hrows : rows_moved (sandboxes db) (sandboxes db')).
Context (Hclaim : forall id r r', sandboxes db !! id = Some r -> sandboxes db' !! id = Some r' ->
                  row_status r <> StatusCleanupPending -> row_status r' = StatusCleanupPending ->
                  exists t, cleanupInsert id t ∈ l).
Context (Hnew : forall ji a, ji ∈ l -> ji_args ji = JobCleanup a ->
                valid_target (cl_TargetStatus a)
                /\ exists r', sandboxes db' !! cl_SandboxID a = Some r' /\ given_up (row_status r')).
Context (Hcr : forall ji, ji ∈ l -> ji_queue ji = job_queue (ji_args ji) /\ forall a, ji_args ji <> JobCreate a).

Lemma moved_back id r' :
  sandboxes db' !! id = Some r' -> exists r, sandboxes db !! id = Some r /\ rtc row_move r r'.
Proof.
  intros H. specialize (Hrows id). rewrite H in Hrows.
  destruct (sandboxes db !! id); [eauto|done].
Qed.

Lemma moved_forth id r :
  sandboxes db !! id = Some r -> exists r', sandboxes db' !! id = Some r' /\ rtc row_move r r'.
Proof.
  intros H. specialize (Hrows id). rewrite H in Hrows.
  destruct (sandboxes db' !! id); [eauto|done].
Qed.

Lemma update_evolves : evolves db db'.
Proof using HI Hwk Hjobs Hrows.
  split.
  - intros id r H. destruct (moved_forth _ _ H) as (r' & H' & Hm).
    exists r'. split; [done|]. by apply row_moves_evolve.
  - intros id w H. rewrite Hwk. exists w. split; [done|reflexivity].
  - rewrite Hjobs. by exists l.
Qed.

Lemma update_shrinks w : occupancy db' w <= occupancy db w.
Proof using HI Hrows.
  apply occupancy_mono.
  intros id r' H' Hh. destruct (moved_back _ _ H') as (r & H & Hm).
  exists r. split; [done|]. eapply row_moves_hold; [done| |done]. by apply (inv_rows _ HI).
Qed.

Lemma update_inv : Inv db'.
Proof using HI Hwk Hjobs Hrows Hclaim Hnew Hcr.
  split.
  - intros id r' H'. destruct (moved_back _ _ H') as (r & H & Hm).
    rewrite Hwk. eapply row_moves_ok; [done|]. by apply (inv_rows _ HI).
  - rewrite Hwk. apply (inv_workers _ HI).
  - intros id r' H' Hs. destruct (moved_back _ _ H') as (r & H & Hm).
    unfold cleanup_job. rewrite Hjobs. setoid_rewrite elem_of_app.
    destruct (decide (row_status r = StatusCleanupPending)) as [E|E].
    + destruct (inv_claimed _ HI _ _ H E) as [t Ht]. eauto.
    + destruct (Hclaim _ _ _ H H' E Hs) as [t Ht]. eauto.
  - intros ji a Hin Ha. rewrite Hjobs in Hin. apply elem_of_app in Hin as [Hin|Hin].
    + destruct (inv_cleanup _ HI _ _ Hin Ha) as (Hv & r & H & Hg). split; [done|].
      destruct (moved_forth _ _ H) as (r' & H' & Hm). exists r'. split; [done|].
      eapply rtc_given_up; [|done]. apply (re_status _ _ (row_moves_evolve _ _ Hm)).
    + by apply (Hnew ji).
  - intros id. unfold create_job. rewrite Hjobs. setoid_rewrite elem_of_app.
    split.
    + intros [r' H']. destruct (moved_back _ _ H') as (r & H & _).
      destruct (proj1 (inv_created _ HI id)) as (ji & ? & ?); [by exists r|]. eauto.
    + intros (ji & [Hin|Hin] & Ha).
      * destruct (proj2 (inv_created _ HI id)) as [r H]; [by exists ji|].
        destruct (moved_forth _ _ H) as (r' & H' & _). by exists r'.
      * by destruct (proj2 (Hcr ji Hin) {| cr_SandboxID := id |}).
  - intros ji. rewrite Hjobs. intros [Hin|Hin]%elem_of_app; [by apply (inv_queues _ HI)|by apply Hcr].
Qed.

End UpdateOk.
