(* ===== verification/Steps.v ===== *)
(** * Every transaction keeps the invariant and its guarantee

    One lemma per transaction of the jobs and handlers: [tx_ok P f] for the ones that
    write, [tx_reads] for the ones that do not.  The statements of a transaction are
    summarised by [claimed ids]: the rows moved, and the ids newly turned to
    cleanup_pending are among [ids], all of them given up afterwards. *)

From Stdlib Require Import ZArith Lia.
From stdpp Require Import base tactics option list gmap strings numbers relations.
From S2P Require Import Prelude GoStd Database SandboxRepo WorkerRepo Program Jobs EventGRPC.
From S2P Require Import Capacity HTTP Auth Lifecycle.

Open Scope Z_scope.

(** ** What the statements of one transaction did to the rows *)
Record claimed (ids : list string) (db db' : DB) : Prop := {
  cd_workers : workers db' = workers db;
  cd_jobs : jobs db' = jobs db;
  cd_rows : rows_moved (sandboxes db) (sandboxes db');
  cd_new : forall id r r', sandboxes db !! id = Some r -> sandboxes db' !! id = Some r' ->
           row_status r <> StatusCleanupPending -> row_status r' = StatusCleanupPending ->
           id ∈ ids;
  cd_given : forall id, id ∈ ids ->
             exists r', sandboxes db' !! id = Some r' /\ given_up (row_status r');
}.

Definition tx_reads {X} (f : tx X) : Prop := forall env db, (f env db).2 = db.

(** Nothing is a member of the empty list. *)
Ltac no_member :=
  intros; exfalso; match goal with H : _ ∈ [] |- _ => by apply not_elem_of_nil in H end.

(** ** Rows *)

Lemma rows_moved_refl m : rows_moved m m.
Proof. intros id. by destruct (m !! id). Qed.

Lemma rows_moved_trans m1 m2 m3 : rows_moved m1 m2 -> rows_moved m2 m3 -> rows_moved m1 m3.
Proof.
  intros H1 H2 id. specialize (H1 id). specialize (H2 id).
  destruct (m1 !! id), (m2 !! id), (m3 !! id); try done. by etrans.
Qed.

Lemma rows_moved_forth m m' id r :
  rows_moved m m' -> m !! id = Some r -> exists r', m' !! id = Some r' /\ rtc row_move r r'.
Proof. intros H E. specialize (H id). rewrite E in H. destruct (m' !! id); [eauto|done]. Qed.

Lemma claimed_refl db : claimed [] db db.
Proof.
  split; [done|done|apply rows_moved_refl|congruence|].
  no_member.
Qed.

Lemma claimed_trans l1 l2 d1 d2 d3 :
  claimed l1 d1 d2 -> claimed l2 d2 d3 -> claimed (l1 ++ l2) d1 d3.
Proof.
  intros [W1 J1 R1 N1 G1] [W2 J2 R2 N2 G2].
  split; [congruence|congruence|by eapply rows_moved_trans| |].
  - intros id r r3 H1 H3 Hn Hc. apply elem_of_app.
    destruct (rows_moved_forth _ _ _ _ R1 H1) as (r2 & H2 & _).
    destruct (decide (row_status r2 = StatusCleanupPending)); eauto.
  - intros id [H|H]%elem_of_app; [|by apply G2].
    destruct (G1 _ H) as (r2 & H2 & Hg). destruct (rows_moved_forth _ _ _ _ R2 H2) as (r3 & H3 & Hm).
    exists r3. split; [done|]. eapply rtc_given_up; [|done].
    apply (re_status _ _ (row_moves_evolve _ _ Hm)).
Qed.

(** An [UPDATE] that claims no row. *)
Lemma claimed_update P f env db ids db' :
  (forall id r, sandboxes db !! id = Some r -> P id r = true -> row_move r (f r)) ->
  (forall r, row_status (f r) = StatusCleanupPending -> row_status r = StatusCleanupPending) ->
  update_returning P f env db = (Ok ids, db') -> claimed [] db db'.
Proof.
  intros Hm Hs [= <- <-]. split; simpl; [done|done| | |].
  - intros id. rewrite lookup_update_rows. destruct (sandboxes db !! id) as [r|] eqn:E; [simpl|done].
    destruct (P id r) eqn:EP; [apply rtc_once; eauto|done].
  - intros id r r' H H'. rewrite lookup_update_rows, H in H'. simpl in H'.
    destruct (P id r); simplify_eq; intros; exfalso; eauto.
  - no_member.
Qed.

(** An [UPDATE ... SET status = 'cleanup_pending' ... RETURNING id]. *)
Lemma claimed_claim P env db ids db' :
  (forall id r, P id r = true -> row_status r ∈ unfinished_statuses) ->
  update_returning P (row_set_status StatusCleanupPending) env db = (Ok ids, db') ->
  claimed ids db db'.
Proof.
  intros Hm [= <- <-]. split; simpl; [done|done| | |].
  - intros id. rewrite lookup_update_rows. destruct (sandboxes db !! id) as [r|] eqn:E; [simpl|done].
    destruct (P id r) eqn:EP; [|done]. apply rtc_once. eauto with life.
  - intros id r r' H H'. rewrite lookup_update_rows, H in H'. simpl in H'.
    intros Hn Hc. destruct (P id r) eqn:EP; simplify_eq. apply elem_of_matching_ids. eauto.
  - intros id (r & H & EP)%elem_of_matching_ids. rewrite lookup_update_rows, H. simpl. rewrite EP.
    eexists. split; [done|]. by left.
Qed.

(** One row changed by its key. *)
Lemma claimed_insert ids db id r r' :
  sandboxes db !! id = Some r -> rtc row_move r r' ->
  (forall i, i ∈ ids -> i = id /\ given_up (row_status r')) ->
  (row_status r <> StatusCleanupPending -> row_status r' = StatusCleanupPending -> id ∈ ids) ->
  claimed ids db (set_sandboxes (<[id := r']> (sandboxes db)) db).
Proof.
  intros H Hm Hi Hc. split; simpl; [done|done| | |].
  - intros i. destruct (decide (i = id)) as [->|N].
    + by rewrite H, lookup_insert_eq.
    + rewrite lookup_insert_ne by done. by destruct (sandboxes db !! i).
  - intros i s s' Hs Hs'. destruct (decide (i = id)) as [->|N].
    + rewrite lookup_insert_eq in Hs'. simplify_eq. eauto.
    + rewrite lookup_insert_ne in Hs' by done. congruence.
  - intros i [-> Hg]%Hi. exists r'. by rewrite lookup_insert_eq.
Qed.

(** ** From the rows to the transaction *)

Definition calm (db db' : DB) : Prop :=
  evolves db db' /\ forall w, occupancy db' w <= occupancy db w.

Lemma calm_guarantee db db' : calm db db' -> guarantee db db'.
Proof. intros [E S]. split; [done|]. intros wid w _. apply Z.max_le_iff. auto. Qed.

#[export] Instance calm_preorder : PreOrder calm.
Proof.
  split.
  - intros db. split; [reflexivity|done].
  - intros d1 d2 d3 [E1 S1] [E2 S2]. split; [by etrans|]. intros w. specialize (S1 w). specialize (S2 w). lia.
Qed.

Lemma claimed_ok ids db db1 l :
  Inv db -> claimed ids db db1 ->
  (forall id, id ∈ ids -> exists t, cleanupInsert id t ∈ l) ->
  (forall ji a, ji ∈ l -> ji_args ji = JobCleanup a ->
     valid_target (cl_TargetStatus a) /\ cl_SandboxID a ∈ ids) ->
  (forall ji, ji ∈ l -> ji_queue ji = job_queue (ji_args ji) /\ forall a, ji_args ji <> JobCreate a) ->
  calm db (add_jobs l db1) /\ Inv (add_jobs l db1).
Proof.
  intros HI [W J R N G] Hj Hv Hcr.
  assert (Hn : forall ji a, ji ∈ l -> ji_args ji = JobCleanup a ->
     valid_target (cl_TargetStatus a)
     /\ exists r', sandboxes (add_jobs l db1) !! cl_SandboxID a = Some r' /\ given_up (row_status r')).
  { intros ji a H1 H2. destruct (Hv _ _ H1 H2) as [? Hin]. split; [done|]. by apply G. }
  assert (Hc : forall id r r', sandboxes db !! id = Some r ->
     sandboxes (add_jobs l db1) !! id = Some r' -> row_status r <> StatusCleanupPending ->
     row_status r' = StatusCleanupPending -> exists t, cleanupInsert id t ∈ l) by eauto.
  assert (HJ : jobs (add_jobs l db1) = jobs db ++ l) by (simpl; congruence).
  split; [split|].
  - by eapply update_evolves.
  - by eapply update_shrinks.
  - by eapply update_inv.
Qed.

Lemma claimed_nil_ok db db' : Inv db -> claimed [] db db' -> calm db db' /\ Inv db'.
Proof.
  intros HI Hc. replace db' with (add_jobs [] db') by (destruct db'; unfold add_jobs; simpl; by rewrite app_nil_r).
  apply (claimed_ok [] _ _ _ HI Hc); no_member.
Qed.

Lemma claimed_nil_guarantee db db' : Inv db -> claimed [] db db' -> guarantee db db' /\ Inv db'.
Proof. intros HI Hc. destruct (claimed_nil_ok _ _ HI Hc). split; [by apply calm_guarantee|done]. Qed.

(** Worker rows. *)
Lemma workers_ok db m :
  Inv db ->
  (forall id w, workers db !! id = Some w -> exists w', m !! id = Some w' /\ worker_evolves w w') ->
  (forall id w, m !! id = Some w -> worker_ok w) ->
  calm db (set_workers m db) /\ Inv (set_workers m db).
Proof.
  intros HI He Hw. split; [split; [split|done]|split]; simpl.
  - intros id r H. exists r. split; [done|reflexivity].
  - done.
  - done.
  - intros id r H. destruct (inv_rows _ HI _ _ H). split; eauto.
    intros w Hrw. destruct (ro_worker w Hrw) as [w0 H0]. destruct (He _ _ H0) as (w' & ? & _). by exists w'.
  - done.
  - apply (inv_claimed _ HI).
  - apply (inv_cleanup _ HI).
  - apply (inv_created _ HI).
  - apply (inv_queues _ HI).
Qed.

(** One worker row replaced or inserted. *)
Lemma worker_insert_ok db id w' :
  Inv db -> (forall w, workers db !! id = Some w -> worker_evolves w w') -> worker_ok w' ->
  calm db (set_workers (<[id := w']> (workers db)) db)
  /\ Inv (set_workers (<[id := w']> (workers db)) db).
Proof.
  intros HI He Hw. apply workers_ok; [done| |].
  - intros i w H. destruct (decide (i = id)) as [->|N].
    + exists w'. rewrite lookup_insert_eq. eauto.
    + exists w. rewrite lookup_insert_ne by done. split; [done|reflexivity].
  - intros i w. destruct (decide (i = id)) as [->|N].
    + rewrite lookup_insert_eq. congruence.
    + rewrite lookup_insert_ne by done. apply (inv_workers _ HI).
Qed.

(** ** sandbox.PostgresRepository *)

Lemma UpdateStatus_cases id st from env db x db' :
  UpdateStatus id st from env db = (Ok x, db') ->
  (exists r, sandboxes db !! id = Some r /\ row_status r ∈ from
             /\ x = (row_sandbox (row_set_status st r), 1)
             /\ db' = set_sandboxes (<[id := row_set_status st r]> (sandboxes db)) db)
  \/ (x = (zero_Sandbox, 0) /\ db' = db
      /\ forall r, sandboxes db !! id = Some r -> row_status r ∉ from).
Proof.
  unfold UpdateStatus. destruct from as [|a from]; [done|].
  destruct (sandboxes db !! id) as [r|] eqn:E; [|intros [= <- <-]; right; naive_solver].
  unfold status_in. case_bool_decide; intros [= <- <-]; [left|right]; naive_solver.
Qed.

(** A transition that does not claim. *)
Lemma UpdateStatus_ok P id st from :
  st <> StatusCleanupPending ->
  (forall db r, Inv db -> P db -> sandboxes db !! id = Some r -> row_status r ∈ from ->
     row_move r (row_set_status st r)) ->
  tx_ok P (UpdateStatus id st from).
Proof.
  intros Hst Hm env db x db' HI HP H.
  assert (claimed [] db db') as Hc.
  { apply UpdateStatus_cases in H as [(r & Hr & Hf & -> & ->)|(-> & -> & _)]; [|apply claimed_refl].
    apply claimed_insert with r; [done|apply rtc_once; eauto|no_member|done]. }
  by apply claimed_nil_guarantee.
Qed.

Definition always (db : DB) : Prop := True.

Ltac single_status := intros; match goal with
  H : row_status _ ∈ [_] |- _ => apply list_elem_of_singleton in H end; eauto with life.

Lemma UpdateStatus_scheduling_ok id : tx_ok always (UpdateStatus id StatusScheduling [StatusPending]).
Proof. apply UpdateStatus_ok; [done|]. single_status. Qed.

Lemma UpdateStatus_starting_ok id : tx_ok always (UpdateStatus id StatusStarting [StatusAssigned]).
Proof. apply UpdateStatus_ok; [done|]. single_status. Qed.

Lemma UpdateStatus_running_ok id : tx_ok always (UpdateStatus id StatusRunning [StatusStarting]).
Proof. apply UpdateStatus_ok; [done|]. single_status. Qed.

(** The end of a cleanup: the row is given up and has no worker any more. *)
Lemma UpdateStatus_terminal_ok id st :
  terminal st ->
  tx_ok (unlinked id)
    (UpdateStatus id st [StatusCleanupPending; StatusPending; StatusScheduling; StatusAssigned;
                         StatusStarting; StatusRunning]).
Proof.
  intros Ht. apply UpdateStatus_ok; [by intros ->; status_cases|].
  intros db r _ (r0 & Hr0 & Hg & Hw) Hr Hf. simplify_eq.
  apply mv_finish; [|done|done].
  clear Hw. status_cases; congruence.
Qed.

Lemma known_not_unfinished wks id r :
  row_ok wks id r -> row_status r ∉ unfinished_statuses -> given_up (row_status r).
Proof.
  intros Hok Hn. destruct (ro_known _ _ _ Hok) as [H|[H|H]]; [| |done]; destruct Hn;
    clear Hok; status_cases; rewrite H; by repeat constructor.
Qed.

(** The claim of one sandbox, as [maybeCleanup] and [deleteSandbox] make it. *)
Lemma UpdateStatus_claim id env db x db' :
  Inv db -> is_Some (sandboxes db !! id) ->
  UpdateStatus id StatusCleanupPending unfinished_statuses env db = (Ok x, db') ->
  claimed [id] db db'.
Proof.
  intros HI [r Hr] H. apply UpdateStatus_cases in H as [(r' & Hr' & Hf & -> & ->)|(-> & -> & Hn)].
  - simplify_eq. apply claimed_insert with r; [done|apply rtc_once; eauto with life| |].
    + intros i ->%list_elem_of_singleton. split; [done|by left].
    + intros _ _. by apply list_elem_of_singleton.
  - split; [done|done|apply rows_moved_refl|congruence|].
    intros i ->%list_elem_of_singleton. exists r. split; [done|].
    eapply known_not_unfinished; [by apply (inv_rows _ HI)|by apply Hn].
Qed.

(** One claimed sandbox and its cleanup job. *)
Lemma claimed_one_ok id t db db1 :
  Inv db -> valid_target t -> claimed [id] db db1 ->
  guarantee db (add_jobs [cleanupInsert id t] db1) /\ Inv (add_jobs [cleanupInsert id t] db1).
Proof.
  intros HI Ht Hc. destruct (claimed_ok [id] db db1 [cleanupInsert id t]) as [H1 H2]; try done.
  - intros i ->%list_elem_of_singleton. exists t. by apply list_elem_of_singleton.
  - intros ji a ->%list_elem_of_singleton [= <-]. split; [done|]. by apply list_elem_of_singleton.
  - by intros ji ->%list_elem_of_singleton.
  - split; [by apply calm_guarantee|done].
Qed.

Lemma maybeCleanup_ok id :
  tx_ok (fun db => is_Some (sandboxes db !! id)) (maybeCleanup_tx id).
Proof.
  intros env db x db' HI HP H. unfold maybeCleanup_tx, tx_bind in H.
  destruct (UpdateStatus _ _ _ env db) as [[y|e] db1] eqn:E; [|done].
  injection H as <- <-. apply claimed_one_ok; [done|by left|]. by eapply UpdateStatus_claim.
Qed.

Lemma delete_ok id : tx_ok (fun db => is_Some (sandboxes db !! id)) (delete_tx id).
Proof.
  intros env db x db' HI HP H. unfold delete_tx, tx_bind in H.
  destruct (UpdateStatus _ _ _ env db) as [[y|e] db1] eqn:E; [|done].
  pose proof (UpdateStatus_claim _ _ _ _ _ HI HP E) as Hc.
  apply UpdateStatus_cases in E as [(r & Hr & Hf & -> & ->)|(-> & -> & Hn)]; simpl in H.
  - injection H as <- <-. apply claimed_one_ok; [done|by right; right|done].
  - injection H as <- <-. apply claimed_nil_guarantee; [done|apply claimed_refl].
Qed.

Lemma ClearWorker_ok id : tx_ok always (ClearWorker id).
Proof.
  intros env db x db' HI _ H. assert (claimed [] db db') as Hc.
  { unfold ClearWorker in H. destruct (sandboxes db !! id) as [r|] eqn:E; [|simplify_eq; apply claimed_refl].
    case_bool_decide; simplify_eq; [|apply claimed_refl].
    apply claimed_insert with r; [done|apply rtc_once; eauto with life|no_member|congruence]. }
  by apply claimed_nil_guarantee.
Qed.

Lemma UpdateStatusFenced_ok id wid token :
  tx_ok always (UpdateStatusFenced id wid token StatusRunning [StatusStarting; StatusRunning]).
Proof.
  intros env db x db' HI _ H. assert (claimed [] db db') as Hc.
  { unfold UpdateStatusFenced in H.
    destruct (sandboxes db !! id) as [r|] eqn:E; [|simplify_eq; apply claimed_refl].
    destruct (workers db !! wid) as [w|]; [|simplify_eq; apply claimed_refl].
    destruct (_ && _ && _) eqn:EC; simplify_eq; [|apply claimed_refl].
    apply andb_true_iff in EC as [_ EC]. apply bool_decide_eq_true in EC.
    apply claimed_insert with r; [done|apply rtc_once|no_member|done].
    status_cases; eauto with life. }
  by apply claimed_nil_guarantee.
Qed.

(** *** Assignment *)

Lemma occupancy_insert_le db id r' w :
  occupancy (set_sandboxes (<[id := r']> (sandboxes db)) db) w <= occupancy db w + 1.
Proof.
  unfold occupancy. simpl.
  set (F := fun kv : string * sandbox_row => holds_slot w kv.2 = true).
  assert (filter F (<[id := r']> (sandboxes db)) ⊆ <[id := r']> (filter F (sandboxes db))) as Hs.
  { apply map_subseteq_spec. intros i x [Hx Hf]%map_lookup_filter_Some.
    destruct (decide (i = id)) as [->|N].
    - by rewrite lookup_insert_eq in Hx |- *.
    - rewrite lookup_insert_ne in Hx |- * by done. by apply map_lookup_filter_Some. }
  apply map_subseteq_size in Hs. rewrite map_size_insert in Hs.
  destruct (filter F (sandboxes db) !! id); cbn in Hs; unfold F in *; lia.
Qed.

(** The row [AssignWorker] writes. *)
Definition assigned_row (now : Z) (wid : string) (r : sandbox_row) : sandbox_row :=
  row_set_seen (Some now) (row_set_status StatusAssigned (row_set_worker (Some wid) r)).

Lemma AssignWorker_cases id wid env db x db' :
  AssignWorker id wid env db = (Ok x, db') ->
  (exists r w, sandboxes db !! id = Some r /\ workers db !! wid = Some w
     /\ row_status r = StatusScheduling /\ occupancy db wid < wr_capacity w
     /\ x = row_sandbox (assigned_row (tx_now env) wid r)
     /\ db' = set_sandboxes (<[id := assigned_row (tx_now env) wid r]> (sandboxes db)) db)
  \/ (x = zero_Sandbox /\ db' = db).
Proof.
  unfold AssignWorker. destruct (workers db !! wid) as [w|] eqn:Ew; [|done].
  destruct (sandboxes db !! id) as [r|] eqn:Er; [|done].
  destruct (bool_decide_reflect (row_status r = StatusScheduling)); simpl; [|intros [= <- <-]; auto].
  destruct (Z.ltb_spec (occupancy db wid) (wr_capacity w)); [|done].
  intros [= <- <-]. left. by exists r, w.
Qed.

Lemma assign_ok id wid now db r w :
  Inv db -> sandboxes db !! id = Some r -> workers db !! wid = Some w ->
  row_status r = StatusScheduling -> occupancy db wid < wr_capacity w ->
  let db' := set_sandboxes (<[id := assigned_row now wid r]> (sandboxes db)) db in
  guarantee db db' /\ Inv db'.
Proof.
  intros HI Hr Hw Hs Hc db'.
  pose proof (inv_rows _ HI _ _ Hr) as Hok.
  assert (row_worker r = None) as Hnone by (apply (ro_early _ _ _ Hok); by right).
  assert (forall i x, sandboxes db' !! i = Some x ->
          (i = id /\ x = assigned_row now wid r) \/ (i <> id /\ sandboxes db !! i = Some x)) as Hlk.
  { intros i x. unfold db'. simpl. intros [[<- <-]|[? ?]]%lookup_insert_Some; auto. }
  split; [split; [split|]|split]; simpl.
  - intros i s H. destruct (decide (i = id)) as [->|N]; simplify_eq.
    + eexists. rewrite lookup_insert_eq. split; [done|]. split; [|done|].
      * rewrite Hs. by apply rtc_once, step_assign.
      * right; right. split; [done|by right].
    + exists s. rewrite lookup_insert_ne by done. split; [done|reflexivity].
  - intros i s H. exists s. split; [done|reflexivity].
  - done.
  - intros w' wr Hw'. destruct (decide (w' = wid)) as [->|N]; simplify_eq.
    + pose proof (occupancy_insert_le db id (assigned_row now wid r) wid). unfold db'. lia.
    + apply Z.max_le_iff. left. apply occupancy_mono. intros i x [[-> ->]|[? ?]]%Hlk Hh; [|eauto].
      apply holds_slot_true in Hh as [Hh _]. unfold row_worker in Hh. simpl in Hh. congruence.
  - intros i x [[-> ->]|[? ?]]%Hlk; [|by apply (inv_rows _ HI)].
    destruct Hok as [? _ _ _ _ _ ?]. split; unfold row_status, row_worker; simpl; try done.
    + intros [?|?]; done.
    + intros [?|?]; done.
    + right; left. unfold active, active_statuses. by repeat constructor.
    + intros ? [= <-]. eauto.
  - apply (inv_workers _ HI).
  - intros i x [[-> ->]|[? ?]]%Hlk; [done|]. by apply (inv_claimed _ HI _ x).
  - intros ji a Hj Ha. destruct (inv_cleanup _ HI _ _ Hj Ha) as (Hv & s & H & Hg).
    split; [done|]. exists s. split; [|done]. rewrite lookup_insert_ne; [done|].
    intros E. rewrite <- E in H. simplify_eq. clear -Hs Hg. status_cases; congruence.
  - intros i. change (create_job i _) with (create_job i db). rewrite <- (inv_created _ HI i).
    destruct (decide (i = id)) as [->|N].
    + rewrite lookup_insert_eq, Hr. split; eauto.
    + by rewrite lookup_insert_ne.
  - apply (inv_queues _ HI).
Qed.

Lemma AssignWorker_ok id wid : tx_ok always (AssignWorker id wid).
Proof.
  intros env db x db' HI _ H.
  apply AssignWorker_cases in H as [(r & w & Hr & Hw & Hs & Hc & -> & ->)|[-> ->]].
  - by apply (assign_ok id wid _ db r w).
  - apply claimed_nil_guarantee; [done|apply claimed_refl].
Qed.

(** *** The reapers *)

Lemma status_in_true st l : status_in st l = true <-> st ∈ l.
Proof. apply bool_decide_eq_true. Qed.

Lemma active_unfinished st : st ∈ active_statuses -> st ∈ unfinished_statuses.
Proof. intros; status_cases; subst; by repeat constructor. Qed.

Lemma ClaimTTLExpired_claimed env db ids db' :
  ClaimTTLExpired env db = (Ok ids, db') -> claimed ids db db'.
Proof.
  apply claimed_claim. intros id r H. apply andb_true_iff in H as [_ H].
  apply andb_true_iff in H as [H _]. by apply status_in_true.
Qed.

Lemma ClaimLivenessExpired_claimed lt wt env db ids db' :
  ClaimLivenessExpired lt wt env db = (Ok ids, db') -> claimed ids db db'.
Proof.
  unfold ClaimLivenessExpired. destruct (wt <=? 0); [done|].
  apply claimed_claim. intros id r H. apply andb_true_iff in H as [_ H].
  unfold liveness_expired in H. destruct (row_worker r) as [w|]; [|done].
  destruct (workers db !! w); [|done]. apply andb_true_iff in H as [H _].
  by apply active_unfinished, status_in_true.
Qed.

Lemma ClaimStalledCreation_claimed t env db ids db' :
  ClaimStalledCreation t env db = (Ok ids, db') -> claimed ids db db'.
Proof.
  unfold ClaimStalledCreation. destruct (t <=? 0); [done|].
  apply claimed_claim. intros id r H. apply andb_true_iff in H as [_ H].
  apply andb_true_iff in H as [H%status_in_true _]. status_cases; rewrite H; by repeat constructor.
Qed.

(** The jobs of a list of ids with their targets. *)
Lemma cleanupParams_in (st : Status) id (ids : list string) :
  id ∈ ids -> cleanupInsert id (Status_string st) ∈ (fun i => cleanupParams i st) <$> ids.
Proof. intros H. apply list_elem_of_fmap. by exists id. Qed.

Lemma cleanupParams_inv (st : Status) ji a (ids : list string) :
  terminal st -> ji ∈ (fun i => cleanupParams i st) <$> ids -> ji_args ji = JobCleanup a ->
  valid_target (cl_TargetStatus a) /\ cl_SandboxID a ∈ ids.
Proof.
  intros Ht (i & -> & Hi)%list_elem_of_fmap [= <-]. split; [|done].
  unfold valid_target. destruct Ht as [->| ->]; auto.
Qed.

Lemma cleanupParams_not_create (st : Status) ji (ids : list string) :
  ji ∈ (fun i => cleanupParams i st) <$> ids ->
  ji_queue ji = job_queue (ji_args ji) /\ forall a, ji_args ji <> JobCreate a.
Proof. by intros (i & -> & _)%list_elem_of_fmap. Qed.

Lemma reap_sandbox_claimed w env db db' :
  reap_sandbox_tx w env db = (Ok tt, db') ->
  db' = db \/ exists db1 expired dead stalled,
    claimed (expired ++ dead ++ stalled) db db1
    /\ db' = add_jobs (((fun id => cleanupParams id StatusStopped) <$> expired)
                         ++ ((fun id => cleanupParams id StatusFailed) <$> dead)
                         ++ ((fun id => cleanupParams id StatusFailed) <$> stalled)) db1.
Proof.
  unfold reap_sandbox_tx, tx_bind.
  destruct (ClaimTTLExpired env db) as [[l1|e] d1] eqn:E1; [|done].
  destruct (ClaimLivenessExpired _ _ env d1) as [[l2|e] d2] eqn:E2; [|done].
  apply ClaimTTLExpired_claimed in E1. apply ClaimLivenessExpired_claimed in E2.
  destruct ((if 0 <? rs_createTimeout w then ClaimStalledCreation (rs_createTimeout w)
             else tx_ret []) env d2) as [[l3|e] d3] eqn:E3; [|done].
  assert (claimed l3 d2 d3) as C3.
  { destruct (0 <? rs_createTimeout w); [by apply ClaimStalledCreation_claimed in E3|].
    injection E3 as <- <-. apply claimed_refl. }
  assert (claimed (l1 ++ l2 ++ l3) db d3) as C by (eapply claimed_trans; [done|by eapply claimed_trans]).
  destruct (l1 ++ l2 ++ l3) eqn:El; intros [= <-]; [by left|].
  right. exists d3, l1, l2, l3. by rewrite El.
Qed.

Lemma reap_sandbox_ok w : tx_ok always (reap_sandbox_tx w).
Proof.
  intros env db [] db' HI _ H.
  apply reap_sandbox_claimed in H as [->|(db1 & l1 & l2 & l3 & C & ->)].
  { apply claimed_nil_guarantee; [done|apply claimed_refl]. }
  destruct (claimed_ok _ _ _ (((fun id => cleanupParams id StatusStopped) <$> l1)
     ++ ((fun id => cleanupParams id StatusFailed) <$> l2)
     ++ ((fun id => cleanupParams id StatusFailed) <$> l3)) HI C) as [? ?].
  - intros id. rewrite !elem_of_app. intros [H|[H|H]]; eexists; rewrite !elem_of_app;
      eauto using cleanupParams_in.
  - intros ji a. rewrite !elem_of_app. intros [H|[H|H]] Ha;
      (apply cleanupParams_inv with (a := a) in H as [? ?]; [|unfold terminal; auto|done]); auto.
  - intros ji. rewrite !elem_of_app. intros [H|[H|H]]; by eapply cleanupParams_not_create.
  - split; [by apply calm_guarantee|done].
Qed.

(** ** worker.PostgresRepository *)

Lemma Register_calm w env db x db' :
  Inv db -> Register w env db = (Ok x, db') -> calm db db' /\ Inv db'.
Proof.
  unfold Register, next_token. intros HI H. destruct (_ <=? max_int64); [|done].
  injection H as <- <-. apply worker_insert_ok; [done| |].
  - intros r Hr. pose proof (inv_workers _ HI _ _ Hr) as [? ?]. rewrite Hr. split; simpl; lia.
  - unfold worker_ok. simpl. destruct (workers db !! wk_ID w) as [r|] eqn:Hr; [|lia].
    pose proof (inv_workers _ HI _ _ Hr) as [? ?]. lia.
Qed.

Lemma Update_calm w env db x db' :
  Inv db -> WorkerRepo.Update w env db = (Ok x, db') -> calm db db' /\ Inv db'.
Proof.
  unfold Update. intros HI H. destruct (workers db !! wk_ID w) as [r|] eqn:Hr; [|done].
  destruct (_ =? _); [|done]. injection H as <- <-.
  pose proof (inv_workers _ HI _ _ Hr) as [? ?].
  apply worker_insert_ok; [done| |by unfold worker_ok].
  intros r' Hr'. simplify_eq. split; simpl; done.
Qed.

Lemma ClaimInventory_calm id token env db x db' :
  Inv db -> ClaimInventory id token env db = (Ok x, db') -> calm db db' /\ Inv db'.
Proof.
  unfold ClaimInventory. intros HI H. destruct (workers db !! id) as [r|] eqn:Hr; [|by simplify_eq].
  destruct (Z.eqb_spec (wr_fencing_token r) token); simpl in H; [|by simplify_eq].
  destruct (_ =? _); simpl in H; [by simplify_eq|]. injection H as <- <-.
  pose proof (inv_workers _ HI _ _ Hr) as [? ?].
  apply worker_insert_ok; [done| |unfold worker_ok; simpl; lia].
  intros r' Hr'. simplify_eq. split; simpl; [done|lia|done].
Qed.

Lemma MarkStaleInactive_calm t env db x db' :
  Inv db -> MarkStaleInactive t env db = (Ok x, db') -> calm db db' /\ Inv db'.
Proof.
  unfold MarkStaleInactive. intros HI [= <- <-]. apply workers_ok; [done| |].
  - intros id r Hr. rewrite lookup_fmap, Hr. eexists. split; [done|].
    destruct (is_stale _ _ r); [by split|reflexivity].
  - intros id r. rewrite lookup_fmap. intros (r0 & Hr & ->)%fmap_Some_1.
    pose proof (inv_workers _ HI _ _ Hr). by destruct (is_stale _ _ r0).
Qed.

(** ** Heartbeats *)

Lemma hosted_in_true wid ids sts id r :
  hosted_in wid ids sts id r = true ->
  row_worker r = Some wid /\ id ∈ ids /\ row_status r ∈ sts.
Proof. unfold hosted_in, status_in. rewrite !andb_true_iff, !bool_decide_eq_true. tauto. Qed.

Lemma reconcile_lost_claimed wid ids env db l db' :
  reconcile_lost wid ids env db = (Ok l, db') -> claimed l db db'.
Proof.
  apply claimed_claim. intros id r. destruct (workers db !! wid); [|done].
  rewrite !andb_true_iff, status_in_true. intros [[[_ H] _] _]. by apply active_unfinished.
Qed.

Lemma reconcile_seen_claimed wid ids env db l db' :
  reconcile_seen wid ids env db = (Ok l, db') -> claimed [] db db'.
Proof. apply claimed_update; [eauto with life|done]. Qed.

Lemma reconcile_running_claimed wid ids env db l db' :
  reconcile_running wid ids env db = (Ok l, db') -> claimed [] db db'.
Proof.
  apply claimed_update; [|done]. intros id r _ (_ & _ & H)%hosted_in_true. single_status.
Qed.

Lemma reconcile_dead_claimed wid ids env db l db' :
  reconcile_dead wid ids env db = (Ok l, db') -> claimed l db db'.
Proof.
  apply claimed_claim. intros id r (_ & _ & H)%hosted_in_true. by apply active_unfinished.
Qed.

(** A statement that is skipped claims nothing. *)
Lemma when_some_claimed (l : list string) (m : tx (list string)) env db ids db' :
  (m env db = (Ok ids, db') -> claimed ids db db') ->
  when_some l m env db = (Ok ids, db') -> claimed ids db db'.
Proof. destruct l; [intros _ [= <- <-]; apply claimed_refl|done]. Qed.

Lemma when_some_moved (l : list string) (m : tx (list string)) env db ids db' :
  (m env db = (Ok ids, db') -> claimed [] db db') ->
  when_some l m env db = (Ok ids, db') -> claimed [] db db'.
Proof. destruct l; [intros _ [= <- <-]; apply claimed_refl|done]. Qed.

Lemma ReconcileInventory_claimed wid first inv env db res db' :
  ReconcileInventory wid first inv env db = (Ok res, db') ->
  claimed (rr_Lost res ++ rr_Dead res) db db'.
Proof.
  unfold ReconcileInventory. intros (lost & d1 & E1 & H)%tx_bind_Ok.
  assert (claimed lost db d1) as C1.
  { destruct first; [by apply reconcile_lost_claimed in E1|]. injection E1 as <- <-. apply claimed_refl. }
  destruct (IDs inv); [injection H as <- <-; by rewrite app_nil_r|].
  apply tx_bind_Ok in H as (l2 & d2 & E2 & H).
  apply when_some_moved in E2; [|apply reconcile_seen_claimed].
  apply tx_bind_Ok in H as (l3 & d3 & E3 & H).
  apply when_some_moved in E3; [|apply reconcile_running_claimed].
  apply tx_bind_Ok in H as (dead & d4 & E4 & H).
  apply when_some_claimed in E4; [|apply reconcile_dead_claimed].
  apply tx_bind_Ok in H as (orphans & d5 & [= <- <-] & [= <- <-]).
  exact (claimed_trans _ _ _ _ _ C1
           (claimed_trans _ _ _ _ _ E2 (claimed_trans _ _ _ _ _ E3 E4))).
Qed.

Lemma reconcile_params_ok wid res db db1 :
  Inv db -> claimed (rr_Lost res ++ rr_Dead res) db db1 ->
  calm db (add_jobs (reconcile_params wid res) db1) /\ Inv (add_jobs (reconcile_params wid res) db1).
Proof.
  intros HI C. apply (claimed_ok (rr_Lost res ++ rr_Dead res)); [done|done| | |]; unfold reconcile_params.
  - intros id H. eexists. apply elem_of_app. left. by apply cleanupParams_in.
  - intros ji a [H|(i & -> & _)%list_elem_of_fmap]%elem_of_app Ha; [|done].
    apply (cleanupParams_inv StatusFailed _ _ _ (or_introl eq_refl) H Ha).
  - intros ji [H|(i & -> & _)%list_elem_of_fmap]%elem_of_app; [|done].
    by eapply cleanupParams_not_create.
Qed.

Lemma reconcile_ok w inv : tx_ok always (reconcile_tx w inv).
Proof.
  intros env db [] db' HI _ H.
  apply tx_bind_Ok in H as (w' & d1 & E1 & H). apply Update_calm in E1 as [C1 I1]; [|done].
  apply tx_bind_Ok in H as (first & d2 & E2 & H). apply ClaimInventory_calm in E2 as [C2 I2]; [|done].
  apply tx_bind_Ok in H as (res & d3 & E3 & H). apply ReconcileInventory_claimed in E3.
  destruct (reconcile_params_ok (wk_ID w) res d2 d3 I2 E3) as [C3 I3].
  assert (db' = add_jobs (reconcile_params (wk_ID w) res) d3) as ->.
  { destruct (reconcile_params (wk_ID w) res); injection H as <-; [|done].
    destruct d3; unfold add_jobs; simpl; by rewrite app_nil_r. }
  split; [|done]. apply calm_guarantee. etrans; [done|]. by etrans.
Qed.

(** ** The remaining writers *)

Lemma calm_ok {X} P (f : tx X) :
  (forall env db x db', Inv db -> f env db = (Ok x, db') -> calm db db' /\ Inv db') -> tx_ok P f.
Proof.
  intros H env db x db' HI _ E. destruct (H _ _ _ _ HI E). split; [by apply calm_guarantee|done].
Qed.

Lemma reads_ok {X} P (f : tx X) : tx_reads f -> tx_ok P f.
Proof.
  intros H. apply calm_ok. intros env db x db' HI E. specialize (H env db). rewrite E in H.
  simpl in H. subst. split; [reflexivity|done].
Qed.

(** The tables of events, users and sessions are not in the invariant. *)
Lemma other_tables_ok {X} P (f : tx X) :
  (forall env db x db', f env db = (Ok x, db') ->
     sandboxes db' = sandboxes db /\ workers db' = workers db /\ jobs db' = jobs db) ->
  tx_ok P f.
Proof.
  intros H. apply calm_ok. intros env db x db' HI E. destruct (H _ _ _ _ E) as (Hs & Hw & Hj).
  apply claimed_nil_ok; [done|]. split; rewrite ?Hs; [done|done|apply rows_moved_refl|congruence|no_member].
Qed.

Lemma CreateSandboxEvent_ok e : tx_ok always (CreateSandboxEvent e).
Proof.
  apply other_tables_ok. unfold CreateSandboxEvent. intros env db x db' H.
  destruct (workers db !! se_WorkerID e); [|done]. destruct (_ =? _); [|done].
  destruct (sandbox_events db !! se_ID e); [done|]. by injection H as <- <-.
Qed.

Lemma CreateUser_ok u : tx_ok always (CreateUser u).
Proof.
  apply other_tables_ok. unfold CreateUser. intros env db x db' H.
  destruct (users db !! u_ID u); [done|]. destruct (email_taken _ _); [done|]. by injection H as <- <-.
Qed.

Lemma CreateSession_ok s : tx_ok always (CreateSession s).
Proof.
  apply other_tables_ok. unfold CreateSession. intros env db x db' H.
  destruct (sessions db !! se_Token s); [done|]. case_bool_decide; [|done]. by injection H as <- <-.
Qed.

Lemma DeleteSession_ok token : tx_ok always (DeleteSession token).
Proof. apply other_tables_ok. by intros env db x db' [= <- <-]. Qed.

(** A new row, pending, owned and unassigned, with its create job. *)
Lemma create_ok s :
  sb_Status s = StatusPending -> sb_WorkerID s = None -> is_Some (sb_UserID s) ->
  tx_ok always (create_tx s).
Proof.
  intros Hst Hw Hu env db x db' HI _ (y & d1 & E & H)%tx_bind_Ok. injection H as <- <-.
  unfold SandboxRepo.Create in E. destruct (sandboxes db !! sb_ID s) eqn:Hnone; [done|].
  destruct (_ && _); [|done]. injection E as <- <-.
  assert (forall i r, <[sb_ID s := mkRow s None]> (sandboxes db) !! i = Some r ->
          (i = sb_ID s /\ r = mkRow s None) \/ (i <> sb_ID s /\ sandboxes db !! i = Some r)) as Hlk.
  { intros i r [[<- <-]|[? ?]]%lookup_insert_Some; auto. }
  assert (forall i r, sandboxes db !! i = Some r ->
          <[sb_ID s := mkRow s None]> (sandboxes db) !! i = Some r) as Hkeep.
  { intros i r Hr. rewrite lookup_insert_ne; [done|congruence]. }
  split; [split; [split|]|split]; simpl.
  - intros i r Hr. exists r. split; [by apply Hkeep|reflexivity].
  - intros i w Hi. exists w. split; [done|reflexivity].
  - by eexists.
  - intros wid w _. apply Z.max_le_iff. left. apply occupancy_mono. simpl.
    intros i r [[-> ->]|[? ?]]%Hlk Hh; [|eauto].
    apply holds_slot_true in Hh as [Hh _]. unfold row_worker in Hh. simpl in Hh. congruence.
  - intros i r [[-> ->]|[? ?]]%Hlk; [|by apply (inv_rows _ HI)].
    split; unfold row_status, row_worker; simpl; rewrite ?Hst; try done.
    + intros H; status_cases; discriminate.
    + by left; left.
    + congruence.
  - apply (inv_workers _ HI).
  - intros i r [[-> ->]|[? Hr]]%Hlk Hc; [unfold row_status in Hc; simpl in Hc; congruence|].
    destruct (inv_claimed _ HI _ _ Hr Hc) as [t Ht]. exists t. simpl. apply elem_of_app; auto.
  - intros ji a [Hj| ->%list_elem_of_singleton]%elem_of_app Ha; [|done].
    destruct (inv_cleanup _ HI _ _ Hj Ha) as (? & r & Hr & ?). eauto.
  - intros i. unfold create_job. simpl. setoid_rewrite elem_of_app. split.
    + intros [r [[-> ->]|[? Hr]]%Hlk].
      * eexists. split; [right; by apply list_elem_of_singleton|done].
      * destruct (proj1 (inv_created _ HI i)) as (ji & ? & ?); eauto.
    + intros (ji & [Hj| ->%list_elem_of_singleton] & Ha).
      * destruct (proj2 (inv_created _ HI i)) as [r Hr]; [by exists ji|]. eauto.
      * injection Ha as <-. rewrite lookup_insert_eq. eauto.
  - intros ji [Hj| ->%list_elem_of_singleton]%elem_of_app; [by apply (inv_queues _ HI)|done].
Qed.

(** ** Readers *)

Lemma GetByID_reads id : tx_reads (GetByID id).
Proof. intros env db. unfold GetByID. by destruct (sandboxes db !! id). Qed.

Lemma Get_reads id : tx_reads (WorkerRepo.Get id).
Proof. intros env db. unfold Get. by destruct (workers db !! id). Qed.

Lemma GetUserByEmail_reads email : tx_reads (GetUserByEmail email).
Proof. intros env db. unfold GetUserByEmail. by destruct (map_to_list _) as [|[]]. Qed.

Lemma GetUserByID_reads id : tx_reads (GetUserByID id).
Proof. intros env db. unfold GetUserByID. by destruct (users db !! id). Qed.

Lemma GetSession_reads token : tx_reads (GetSession token).
Proof. intros env db. unfold GetSession. by destruct (sessions db !! token). Qed.

Lemma list_where_reads P : tx_reads (list_where P).
Proof. done. Qed.

(** ** As the caller sees a transaction *)
Lemma exec_ok {X} P (f : tx X) env fl db r db' :
  tx_ok P f -> Inv db -> P db -> exec_tx env fl f db = (r, db') ->
  guarantee db db' /\ Inv db'.
Proof.
  intros Hf HI HP H. apply exec_tx_cases in H as [(e & -> & ->)|(x & H & _)].
  - split; [apply calm_guarantee; reflexivity|done].
  - by eapply Hf.
Qed.

Create HintDb steps.
#[export] Hint Resolve UpdateStatus_scheduling_ok UpdateStatus_starting_ok
  UpdateStatus_running_ok UpdateStatus_terminal_ok maybeCleanup_ok delete_ok ClearWorker_ok
  UpdateStatusFenced_ok AssignWorker_ok reap_sandbox_ok reconcile_ok CreateSandboxEvent_ok
  create_ok CreateUser_ok CreateSession_ok DeleteSession_ok : steps.
#[export] Hint Resolve GetByID_reads Get_reads list_where_reads GetUserByEmail_reads GetUserByID_reads
  GetSession_reads : steps.
