(* ===== verification/Threads.v ===== *)
(** * Every job and handler, against any interference

    [WP p Q db]: whatever the other components do between two operations of [p], within
    [evolves], and whatever faults allowed by [Flt] its transactions meet, [p] stays
    within its guarantee, keeps [Inv], and ends in [Q].  The postconditions are what
    the components promise: [create_post] for the create job, [cleanup_post] for the
    cleanup job, and so on. *)

From Stdlib Require Import ZArith Lia.
From stdpp Require Import base tactics option list gmap strings numbers relations.
From S2P Require Import Prelude GoStd Database SandboxRepo WorkerRepo Program Scheduler Jobs.
From S2P Require Import EventGRPC Capacity HTTP Lifecycle Steps.

Open Scope Z_scope.

Section Threads.

Context (Flt : fault -> Prop).

Definition WP {A} (p : prog A) (Q : A -> DB -> Prop) (db : DB) : Prop :=
  wp Flt Inv evolves guarantee p Q db.

Arguments WP : simpl never.

(** A fault other than none may happen. *)
Definition faulty : Prop := exists fl, Flt fl /\ fl <> NoFault.

(** ** Rules *)

Lemma WP_ret {A} (a : A) (Q : A -> DB -> Prop) db : Q a db -> WP (Ret a) Q db.
Proof. done. Qed.

Lemma WP_bind {A B} (p : prog A) (g : A -> prog B) Q db :
  WP p (fun a db' => WP (g a) Q db') db -> WP (bind p g) Q db.
Proof. apply wp_bind. Qed.

Lemma WP_mono {A} (p : prog A) (Q Q' : A -> DB -> Prop) db :
  (forall a db', Q a db' -> Q' a db') -> WP p Q db -> WP p Q' db.
Proof. apply wp_mono. Qed.

(** A transaction that keeps the invariant, given [P]: its caller sees either a success
    and the new database, or an error, with the database as it was unless a commit went
    unacknowledged. *)
Lemma WP_tx {A X} P (f : tx X) (k : result error X -> prog A) Q db :
  tx_ok P f ->
  (forall db1, evolves db db1 -> Inv db1 -> P db1) ->
  (forall db1 env x db2, evolves db db1 -> evolves db db2 -> Inv db1 -> Inv db2 ->
     f env db1 = (Ok x, db2) -> WP (k (Ok x)) Q db2) ->
  (forall db1 env e db2, evolves db db1 -> evolves db db2 -> Inv db1 -> Inv db2 ->
     (f env db1).1 = Err e \/ (faulty /\ exists m, e = DriverError m) -> WP (k (Err e)) Q db2) ->
  WP (Tx f k) Q db.
Proof.
  intros Hf HP HO HE db1 env fl r db2 HR HI HF Hx.
  destruct (exec_ok P f env fl db1 r db2 Hf HI (HP _ HR HI) Hx) as [HG HI2].
  assert (evolves db db2) by (etrans; [exact HR|apply HG]).
  split; [done|]. split; [done|].
  destruct fl as [|m|m]; unfold exec_tx in Hx; [|simplify_eq|].
  - destruct (f env db1) as [[x|e] d] eqn:Ef; simplify_eq; [by eapply (HO db1 env)|].
    eapply (HE db2 env); eauto. left. by rewrite Ef.
  - eapply (HE db2 env); eauto. right. split; [|by eexists]. by exists (FailBefore m).
  - destruct (f env db1) as [[x|e] d] eqn:Ef; simplify_eq.
    + eapply (HE db1 env); eauto. right. split; [|by eexists]. by exists (FailAfter m).
    + eapply (HE db2 env); eauto. left. by rewrite Ef.
Qed.

(** A transaction that only reads. *)
Lemma WP_read {A X} (f : tx X) (k : result error X -> prog A) Q db :
  tx_reads f ->
  (forall db1 env x, evolves db db1 -> Inv db1 -> (f env db1).1 = Ok x -> WP (k (Ok x)) Q db1) ->
  (forall db1 env e, evolves db db1 -> Inv db1 ->
     (f env db1).1 = Err e \/ (faulty /\ exists m, e = DriverError m) -> WP (k (Err e)) Q db1) ->
  WP (Tx f k) Q db.
Proof.
  intros Hf HO HE db1 env fl r db2 HR HI HF Hx. pose proof (Hf env db1) as Hr.
  assert (db2 = db1) as ->.
  { apply exec_tx_cases in Hx as [(e & -> & ->)|(x & Hx & _)]; [done|]. by rewrite Hx in Hr. }
  split; [apply calm_guarantee; reflexivity|]. split; [done|].
  destruct fl as [|m|m]; unfold exec_tx in Hx; [|simplify_eq|].
  - destruct (f env db1) as [[x|e] d] eqn:Ef; simplify_eq; [eapply (HO _ env)|eapply (HE _ env)];
      eauto; [|left]; by rewrite Ef.
  - eapply (HE _ env); eauto. right. split; [|by eexists]. by exists (FailBefore m).
  - destruct (f env db1) as [[x|e] d] eqn:Ef; simplify_eq; eapply (HE _ env); eauto.
    + right. split; [|by eexists]. by exists (FailAfter m).
    + left. by rewrite Ef.
Qed.

(** Reading a sandbox that exists. *)
Definition exists_row (id : string) (db : DB) : Prop := is_Some (sandboxes db !! id).

Definition plain (e : error) : Prop := match e with JobCancel _ => False | _ => True end.

Lemma WP_GetByID {A} id (k : result error Sandbox -> prog A) Q db :
  exists_row id db ->
  (forall db1 r, evolves db db1 -> Inv db1 -> sandboxes db1 !! id = Some r ->
     WP (k (Ok (row_sandbox r))) Q db1) ->
  (forall db1 e, evolves db db1 -> Inv db1 -> exists_row id db1 -> faulty -> plain e ->
     errors_Is e Sandbox_ErrNotFound = false -> WP (k (Err e)) Q db1) ->
  WP (Tx (GetByID id) k) Q db.
Proof.
  intros Hex HO HE. apply WP_read; [apply GetByID_reads| |].
  - intros db1 env x HR HI. unfold GetByID. destruct (sandboxes db1 !! id) as [r|] eqn:E; [|done].
    intros [= <-]. by apply HO.
  - intros db1 env e HR HI H. pose proof (evolves_has _ _ _ HR Hex) as Hex1.
    destruct H as [H|[HF [m ->]]]; [|by apply HE].
    unfold GetByID in H. unfold exists_row in Hex1.
    destruct (sandboxes db1 !! id); [done|by destruct Hex1].
Qed.

(** ** The create job *)

Definition ended (id : string) (db : DB) : Prop :=
  exists r, sandboxes db !! id = Some r /\ given_up (row_status r).
Definition running (id : string) (db : DB) : Prop :=
  exists r, sandboxes db !! id = Some r /\ row_status r = StatusRunning.

(** A job that completes leaves its sandbox running; a cancelled one leaves it given up
    (being cleaned up, or over); any other error is left to a retry, and the last
    attempt returns one only when a transaction failed. *)
Definition create_post (id : string) (isFinal : bool) (e : option error) (db : DB) : Prop :=
  match e with
  | None => running id db
  | Some (JobCancel _) => ended id db
  | Some _ => isFinal = false \/ faulty
  end.

Lemma maybeCleanup_tx_Ok id env db : exists db', maybeCleanup_tx id env db = (Ok tt, db').
Proof.
  unfold maybeCleanup_tx, tx_bind, UpdateStatus.
  destruct (sandboxes db !! id); [destruct (status_in _ _)|]; by eexists.
Qed.

(** A sandbox with a cleanup job is given up. *)
Lemma cleanup_job_ended id t db : Inv db -> cleanupInsert id t ∈ jobs db -> ended id db.
Proof. intros HI H. by destruct (inv_cleanup _ HI _ _ H eq_refl) as [_ ?]. Qed.

Lemma WP_maybeCleanup id fin isFinal err db :
  exists_row id db -> plain err -> (fin = false -> isFinal = false) ->
  WP (maybeCleanup id fin err) (create_post id isFinal) db.
Proof.
  intros Hex Hp Hfin. unfold maybeCleanup. destruct fin; simpl.
  - eapply WP_tx; [apply maybeCleanup_ok|intros; by eapply evolves_has| |].
    + intros db1 env x db2 _ _ _ HI2 (y & d & _ & H)%tx_bind_Ok. apply WP_ret. simpl.
      apply (cleanup_job_ended id EmptyString); [done|]. injection H as <- <-. simpl.
      apply elem_of_app. right. by apply list_elem_of_singleton.
    + intros db1 env e db2 _ _ _ _ H. apply WP_ret.
      assert faulty as HF.
      { destruct H as [H|[H _]]; [|done]. destruct (maybeCleanup_tx_Ok id env db1) as [d Hd].
        by rewrite Hd in H. }
      destruct err; simpl; auto. done.
  - apply WP_ret. destruct err; simpl; auto. done.
Qed.

Lemma settled_post id isFinal db r err :
  Inv db -> sandboxes db !! id = Some r -> settled (row_sandbox r) = (true, err) ->
  create_post id isFinal err db.
Proof.
  intros HI Hr. pose proof (ro_known _ _ _ (inv_rows _ HI _ _ Hr)) as Hk.
  unfold settled. change (sb_Status (row_sandbox r)) with (row_status r).
  destruct (row_status r) eqn:Es; intros [= <-]; simpl; exists r; split; try done; rewrite Es;
    unfold given_up, terminal; auto.
  clear -Hk. status_cases; discriminate.
Qed.

Lemma WP_movedUnder id step isFinal db :
  exists_row id db -> WP (movedUnder id step isFinal) (create_post id isFinal) db.
Proof.
  intros Hex. apply WP_GetByID; [done| |].
  - intros db1 r HR HI Hr. destruct (settled (row_sandbox r)) as [[] err] eqn:E.
    + by eapply settled_post.
    + apply WP_maybeCleanup; [by exists r|done|done].
  - intros db1 e HR HI Hex1 HF Hp _. by apply WP_maybeCleanup.
Qed.

Lemma WP_stepAcknowledge id isFinal db :
  exists_row id db -> WP (stepAcknowledge id isFinal) (create_post id isFinal) db.
Proof.
  intros Hex. apply WP_GetByID; [done| |].
  - intros db1 r HR HI Hr. destruct (settled (row_sandbox r)) as [[] err] eqn:E;
      [by eapply settled_post|].
    eapply WP_tx; [apply UpdateStatus_running_ok|done| |].
    + intros db2 env [sbx n] db3 _ HR3 _ _ [(r3 & _ & _ & [= _ ->] & ->)|([= _ ->] & -> & _)]%UpdateStatus_cases.
      * apply WP_ret. exists (row_set_status StatusRunning r3). simpl. by rewrite lookup_insert_eq.
      * apply WP_movedUnder. by eapply evolves_has; [|exists r].
    + intros db2 env e db3 _ HR3 _ _ _. apply WP_maybeCleanup; [|done|done].
      by eapply evolves_has; [|exists r].
  - intros db1 e HR HI Hex1 HF Hp _. by apply WP_maybeCleanup.
Qed.

Lemma WP_stepStartSandbox sbx isFinal db :
  exists_row (sb_ID sbx) db ->
  WP (stepStartSandbox sbx isFinal) (create_post (sb_ID sbx) isFinal) db.
Proof.
  intros Hex. unfold stepStartSandbox. destruct (sb_WorkerID sbx) as [wid|]; cycle 1.
  { by apply WP_maybeCleanup. }
  apply WP_read; [apply Get_reads| |].
  - intros db1 env w HR HI _. pose proof (evolves_has _ _ _ HR Hex) as Hex1.
    intros [u|e]; [|by apply WP_maybeCleanup]. intros [u'|e]; [|by apply WP_maybeCleanup].
    eapply WP_tx; [apply UpdateStatus_starting_ok|done| |]; intros db2 env2 ? db3 _ HR3 _ _ _.
    + apply WP_stepAcknowledge. by eapply evolves_has.
    + apply WP_maybeCleanup; [by eapply evolves_has|done|done].
  - intros db1 env e HR HI _. apply WP_maybeCleanup; [by eapply evolves_has|done|done].
Qed.

Lemma WP_buildCandidates ws (Q : list WorkerCandidate -> DB -> Prop) db :
  (forall cs, Q cs db) -> WP (buildCandidates ws) Q db.
Proof.
  revert Q. induction ws as [|w ws IH]; intros Q HQ; [by apply WP_ret|].
  intros now. simpl. destruct (HeartbeatExpired _ _ _); [by apply IH|].
  intros [u|e]; [|by apply IH]. intros [i|e]; [|by apply IH].
  apply WP_bind, IH. intros cs. by apply WP_ret.
Qed.

Lemma dropWorker_shrinks c cs :
  c ∈ cs -> (length (dropWorker (wk_ID (wc_Worker c)) cs) < length cs)%nat.
Proof.
  intros Hc. unfold dropWorker. apply length_filter_lt with c; [done|]. auto.
Qed.

Definition loop_post (id : string) (isFinal : bool) (out : loop_exit) (db : DB) : Prop :=
  match out with
  | LoopReturn e => create_post id isFinal e db
  | LoopBreak s => exists_row id db /\ (is_Some (sb_WorkerID s) -> sb_ID s = id)
  | LoopOutOfFuel => False
  end.

Lemma WP_give_up id fin isFinal err db :
  exists_row id db -> plain err -> (fin = false -> isFinal = false) ->
  WP (e <-- maybeCleanup id fin err ;; Ret (LoopReturn e))%prog (loop_post id isFinal) db.
Proof. intros Hex Hp Hf. by apply WP_bind, WP_maybeCleanup. Qed.

(** The loop never runs out of fuel: every turn drops at least one candidate. *)
Lemma WP_assign_loop fuel id isFinal dropped cs db :
  exists_row id db -> (length cs < fuel)%nat ->
  WP (assign_loop fuel id isFinal dropped cs) (loop_post id isFinal) db.
Proof.
  revert dropped cs db. induction fuel as [|n IH]; intros dropped cs db Hex Hlen; [lia|].
  apply WP_bind, wp_Choose_in; cycle 1.
  { intros e. destruct (errors_Is e Orchestrator_ErrClusterFull); [by apply WP_give_up|].
    destruct (dropped && _); by apply WP_give_up. }
  intros c Hc. eapply WP_tx; [apply AssignWorker_ok|done| |].
  - intros db1 env x db2 HR1 HR2 HI1 HI2 Hx. apply WP_ret. split; [by eapply evolves_has|].
    apply AssignWorker_cases in Hx as [(r & w & Hr & _ & _ & _ & -> & _)|[-> _]]; [|by intros []].
    intros _. apply (ro_id _ _ _ (inv_rows _ HI1 _ _ Hr)).
  - intros db1 env e db2 HR1 HR2 HI1 HI2 _. pose proof (evolves_has _ _ _ HR2 Hex) as Hex2.
    destruct (errors_Is e Sandbox_ErrWorkerFull); [|by apply WP_give_up].
    apply IH; [done|]. pose proof (dropWorker_shrinks c cs Hc). lia.
Qed.

Lemma WP_stepAssign sbx isFinal db :
  exists_row (sb_ID sbx) db -> WP (stepAssign sbx isFinal) (create_post (sb_ID sbx) isFinal) db.
Proof.
  intros Hex. unfold stepAssign. destruct (sb_WorkerID sbx) as [wid|]; [by apply WP_stepStartSandbox|].
  apply WP_read; [apply list_where_reads| |].
  - intros db1 env ws HR HI _. pose proof (evolves_has _ _ _ HR Hex) as Hex1.
    apply WP_bind, WP_buildCandidates. intros cs. apply WP_bind.
    eapply WP_mono; [|apply (WP_assign_loop _ (sb_ID sbx) isFinal); [done|lia]].
    intros [e|s|] db2 H; [by apply WP_ret| |done]. destruct H as [Hex2 Hid].
    destruct (sb_WorkerID s) as [w|] eqn:Ew; [|by apply WP_movedUnder].
    rewrite <- (Hid (mk_is_Some _ _ eq_refl)) in *. by apply WP_stepStartSandbox.
  - intros db1 env e HR HI _. apply WP_maybeCleanup; [by eapply evolves_has|done|done].
Qed.

Lemma WP_stepScheduling id isFinal db :
  exists_row id db -> WP (stepScheduling id isFinal) (create_post id isFinal) db.
Proof.
  intros Hex. eapply WP_tx; [apply UpdateStatus_scheduling_ok|done| |].
  - intros db1 env [s n] db2 _ HR2 _ HI2 _. pose proof (evolves_has _ _ _ HR2 Hex) as Hex2.
    destruct (n =? 0); [by apply WP_movedUnder|]. apply WP_GetByID; [done| |].
    + intros db3 r HR HI Hr. pose proof (ro_id _ _ _ (inv_rows _ HI _ _ Hr)) as Hid.
      rewrite <- Hid. apply WP_stepAssign. rewrite Hid. by exists r.
    + intros db3 e HR HI Hex3 HF Hp _. by apply WP_maybeCleanup.
  - intros db1 env e db2 _ HR2 _ _ _. apply WP_maybeCleanup; [by eapply evolves_has|done|done].
Qed.

Lemma WP_CreateSandboxWorker_Work job db :
  exists_row (cr_SandboxID (job_Args job)) db ->
  WP (CreateSandboxWorker_Work job)
     (create_post (cr_SandboxID (job_Args job)) (isFinalAttempt job)) db.
Proof.
  intros Hex. apply WP_GetByID; [done| |].
  - intros db1 r HR HI Hr. assert (exists_row (cr_SandboxID (job_Args job)) db1) as Hex1 by (by exists r).
    pose proof (inv_rows _ HI _ _ Hr) as Hok. pose proof (ro_id _ _ _ Hok) as Hid.
    pose proof (settled_post _ (isFinalAttempt job) _ _ (settled (row_sandbox r)).2 HI Hr) as Hset.
    unfold settled in *. change (sb_Status (row_sandbox r)) with (row_status r) in *.
    destruct (row_status r) eqn:Es; simpl in *.
    + by apply WP_stepScheduling.
    + rewrite <- Hid in *. by apply WP_stepAssign.
    + rewrite <- Hid in *. by apply WP_stepStartSandbox.
    + by apply WP_stepAcknowledge.
    + by apply WP_ret, Hset.
    + by apply WP_ret, Hset.
    + by apply WP_ret, Hset.
    + by apply WP_ret, Hset.
    + by apply WP_ret, Hset.
    + exfalso. pose proof (ro_known _ _ _ Hok) as Hk. rewrite Es in Hk. clear -Hk.
      status_cases; discriminate.
  - intros db1 e HR HI Hex1 HF Hp _. apply WP_ret. by right.
Qed.

(** ** The cleanup job *)

Lemma evolves_ended id db db' : evolves db db' -> ended id db -> ended id db'.
Proof.
  intros E (r & H & Hg). destruct (ev_rows _ _ E _ _ H) as (r' & H' & Hr').
  exists r'. split; [done|]. eapply rtc_given_up; [apply Hr'|done].
Qed.

Definition over (id : string) (db : DB) : Prop :=
  exists r, sandboxes db !! id = Some r /\ terminal (row_status r).

(** A cleanup that completes leaves its sandbox over; one that fails leaves it given up,
    and fails its last attempt only when a transaction did. *)
Definition cleanup_post (id : string) (isFinal : bool) (e : option error) (db : DB) : Prop :=
  match e with
  | None => over id db
  | Some _ => ended id db /\ (isFinal = false \/ faulty)
  end.

Lemma WP_cleanup_finish id target isFinal db :
  terminal target -> unlinked id db ->
  WP (cleanup_finish id target) (cleanup_post id isFinal) db.
Proof.
  intros Ht Hu. eapply WP_tx; [by apply UpdateStatus_terminal_ok|intros; by eapply evolves_unlinked| |].
  - intros db1 env x db2 HR1 HR2 HI1 HI2 H. apply WP_ret.
    apply UpdateStatus_cases in H as [(r & _ & _ & _ & ->)|(_ & -> & Hn)].
    + exists (row_set_status target r). simpl. by rewrite lookup_insert_eq.
    + destruct (evolves_unlinked _ _ _ HR2 Hu) as (r & Hr & [Hg|Hg] & _); exists r; [|done].
      exfalso. apply (Hn r Hr). rewrite Hg. by repeat constructor.
  - intros db1 env e db2 HR1 HR2 HI1 HI2 H. apply WP_ret. split.
    + destruct (evolves_unlinked _ _ _ HR2 Hu) as (r & Hr & Hg & _). by exists r.
    + right. destruct H as [H|[? _]]; [|done]. unfold UpdateStatus in H.
      by destruct (sandboxes db1 !! id); [destruct (status_in _ _)|].
Qed.

Lemma WP_cleanup_clear id target isFinal db :
  terminal target -> ended id db -> WP (cleanup_clear id target) (cleanup_post id isFinal) db.
Proof.
  intros Ht Hend. eapply WP_tx; [apply ClearWorker_ok|done| |].
  - intros db1 env x db2 HR1 HR2 HI1 HI2 H. apply WP_cleanup_finish; [done|].
    destruct (evolves_ended _ _ _ HR1 Hend) as (r & Hr & Hg). unfold ClearWorker in H. rewrite Hr in H.
    case_bool_decide as Hs; simplify_eq.
    + exists (row_set_worker None r). simpl. by rewrite lookup_insert_eq.
    + exists r. split; [done|]. split; [done|]. destruct Hg as [Hg|Hg]; [done|].
      by apply (ro_terminal _ _ _ (inv_rows _ HI2 _ _ Hr)).
  - intros db1 env e db2 HR1 HR2 HI1 HI2 H. apply WP_ret. split; [by eapply evolves_ended|].
    right. destruct H as [H|[? _]]; [|done]. unfold ClearWorker in H.
    by destruct (sandboxes db1 !! id); [case_bool_decide|].
Qed.

Lemma WP_removeSandboxOnWorker wid id (Q : option error -> DB -> Prop) db :
  (forall e db', evolves db db' -> Inv db' -> Q e db') -> WP (removeSandboxOnWorker wid id) Q db.
Proof.
  intros HQ. apply WP_read; [apply Get_reads| |].
  - intros db1 env w HR HI _ [u|e]; [|apply WP_ret; by apply HQ].
    intros [u'|e]; [apply WP_ret; by apply HQ|]. case_bool_decide; apply WP_ret; by apply HQ.
  - intros. apply WP_ret. by apply HQ.
Qed.

Lemma cleanup_target_terminal a : valid_target (cl_TargetStatus a) -> terminal (cleanup_target a).
Proof.
  unfold cleanup_target. intros [->|[->| ->]]; [by left|by left|by right].
Qed.

Lemma WP_CleanupSandboxWorker_Work job db :
  valid_target (cl_TargetStatus (job_Args job)) -> ended (cl_SandboxID (job_Args job)) db ->
  WP (CleanupSandboxWorker_Work job)
     (cleanup_post (cl_SandboxID (job_Args job)) (isFinalAttempt job)) db.
Proof.
  intros Hv Hend. apply cleanup_target_terminal in Hv. unfold CleanupSandboxWorker_Work.
  set (id := cl_SandboxID (job_Args job)) in *.
  assert (exists_row id db) as Hex by (destruct Hend as (r & Hr & _); by exists r).
  apply WP_GetByID; [done| |].
  - intros db1 r HR HI Hr. pose proof (inv_rows _ HI _ _ Hr) as Hok.
    pose proof (evolves_ended _ _ _ HR Hend) as (r1 & Hr1 & Hg).
    rewrite Hr in Hr1. injection Hr1 as <-. rename r into r1.
    change (sb_Status (row_sandbox r1)) with (row_status r1).
    change (sb_WorkerID (row_sandbox r1)) with (row_worker r1).
    assert (terminal (row_status r1) -> cleanup_post id (isFinalAttempt job) None db1) as Hover
      by (intros; by exists r1).
    destruct Hg as [Hs|Hg]; [|by destruct Hg as [Hg|Hg]; rewrite Hg in *; apply WP_ret, Hover; eauto with life].
    assert (ended id db1) as Hend1 by (exists r1; split; [done|by left]).
    rewrite Hs. destruct (row_worker r1) as [wid|] eqn:Ew; cycle 1.
    { apply WP_cleanup_finish; [done|]. exists r1. split; [done|]. split; [by left|done]. }
    apply WP_bind, WP_removeSandboxOnWorker. intros e db2 HR2 HI2.
    pose proof (evolves_ended _ _ _ HR2 Hend1) as Hend2.
    destruct e as [e|]; [|by apply WP_cleanup_clear].
    destruct (isFinalAttempt job); simpl; [apply WP_cleanup_clear; [by left|done]|].
    apply WP_ret. split; [done|by left].
  - intros db1 e HR HI Hex1 HF Hp _. apply WP_ret. split; [by eapply evolves_ended|by right].
Qed.

(** ** The other jobs *)

Lemma WP_RemoveOrphanWorker_Work job db : WP (RemoveOrphanWorker_Work job) (fun _ _ => True) db.
Proof. by apply WP_removeSandboxOnWorker. Qed.

Lemma WP_ReapSandboxWorker_Work w db : WP (ReapSandboxWorker_Work w) (fun _ _ => True) db.
Proof. eapply WP_tx; [apply reap_sandbox_ok|done|done|done]. Qed.

Lemma WP_ReapWorkersWorker_Work t db : WP (ReapWorkersWorker_Work t) (fun _ _ => True) db.
Proof.
  eapply (WP_tx always); [apply calm_ok; intros; by eapply MarkStaleInactive_calm|done|done|done].
Qed.

(** ** The workers' reports *)

(** A worker row with this token. *)
Definition has_token (wid : string) (token : Z) (db : DB) : Prop :=
  exists w, workers db !! wid = Some w /\ wr_fencing_token w = token.

Definition register_post (req : option WorkerHeartbeat) (r : result error Z) (db : DB) : Prop :=
  match req, r with
  | Some req, Ok token => has_token (TrimSpace (hb_WorkerId req)) token db /\ hb_FencingToken req < token
  | None, Ok _ => False
  | _, Err _ => True
  end.

Lemma WP_RegisterWorker req db : WP (RegisterWorker req) (register_post req) db.
Proof.
  destruct req as [req|]; [|done]. unfold RegisterWorker. destruct (missing_worker_id req); [done|].
  intros now. eapply (WP_tx always); [apply calm_ok; intros; by eapply Register_calm|done| |done].
  intros db1 env x db2 _ _ _ _ H. apply WP_ret. unfold Register, next_token in H.
  destruct (_ <=? max_int64); [|done]. injection H as <- <-. simpl. split; [|lia].
  eexists. split; [apply lookup_insert_eq|done].
Qed.

Lemma WP_ReportWorkerHeartbeat configured req db :
  WP (ReportWorkerHeartbeat configured req) (fun _ _ => True) db.
Proof.
  destruct req as [req|]; [|done]. unfold ReportWorkerHeartbeat.
  destruct (missing_worker_id req); [done|]. destruct (_ <=? 0); [done|]. intros now.
  destruct (hb_InventoryComplete req); simpl.
  - apply WP_bind. unfold reconcileHeartbeat. destruct configured; simpl; [|by apply WP_ret].
    eapply WP_tx; [apply reconcile_ok|done|done|done].
  - eapply (WP_tx always); [apply calm_ok; intros; by eapply Update_calm|done|done|done].
Qed.

Lemma WP_IngestSandboxEvent uuid req db : WP (IngestSandboxEvent uuid req) (fun _ _ => True) db.
Proof.
  destruct req as [req|]; [|done]. unfold IngestSandboxEvent. cbv zeta. intros now.
  repeat (case_match; [done|]).
  eapply WP_tx; [apply CreateSandboxEvent_ok|done| |].
  - intros db1 env x db2 _ _ _ _ _. apply WP_bind. unfold applyStatusFromState.
    destruct (em_State req); try done.
    eapply WP_tx; [apply UpdateStatusFenced_ok|done|done|done].
  - intros db1 env e db2 _ _ _ _ _. by case_match.
Qed.

End Threads.

Arguments WP : simpl never.
