(* ===== verification/Handlers.v ===== *)
(** * The HTTP handlers, against any interference

    Postconditions of the handlers of [HTTP]: a user reads, lists and deletes only the
    sandboxes it owns; a created sandbox is the caller's, within the size of a slot;
    an accepted deletion leaves the sandbox given up. *)

From Stdlib Require Import ZArith Lia.
From stdpp Require Import base tactics option list gmap strings numbers relations.
From S2P Require Import Prelude GoStd Database SandboxRepo WorkerRepo Program Scheduler Jobs.
From S2P Require Import EventGRPC Capacity HTTP Auth Lifecycle Steps Threads.

Open Scope Z_scope.

Section Handlers.

Context (Flt : fault -> Prop).

(** The sandbox is, or was at its last read, this user's. *)
Definition owned_row (user : User) (id : string) (db : DB) : Prop :=
  exists r, sandboxes db !! id = Some r /\ sb_UserID (row_sandbox r) = Some (u_ID user).

Lemma evolves_owned user id db db' : evolves db db' -> owned_row user id db -> owned_row user id db'.
Proof.
  intros E (r & H & Hu). destruct (ev_rows _ _ E _ _ H) as (r' & H' & [_ Hid _]).
  exists r'. split; [done|]. unfold row_identity in Hid. congruence.
Qed.

Lemma owns_true user s : owns user s = true <-> sb_UserID s = Some (u_ID user).
Proof. apply bool_decide_eq_true. Qed.

(** Past the checks of [fetch_owned], the sandbox exists and is the caller's. *)
Lemma WP_fetch_owned user id k (Q : response -> DB -> Prop) db :
  (forall r db', rs_code r = StatusUnauthorized \/ rs_code r = StatusBadRequest
                 \/ rs_code r = StatusNotFound \/ rs_code r = StatusInternalServerError -> Q r db') ->
  (forall u db1 r, user = Some u -> evolves db db1 -> Inv db1 -> sandboxes db1 !! id = Some r ->
     sb_UserID (row_sandbox r) = Some (u_ID u) -> WP Flt (k (row_sandbox r)) Q db1) ->
  WP Flt (fetch_owned user id k) Q db.
Proof.
  intros HE HK. unfold fetch_owned. destruct user as [u|]; [|apply WP_ret, HE; auto].
  case_bool_decide; [apply WP_ret, HE; auto|]. apply WP_read; [apply GetByID_reads| |].
  - intros db1 env x HR HI. unfold GetByID. destruct (sandboxes db1 !! id) as [r|] eqn:E; [|done].
    intros [= <-]. destruct (owns u (row_sandbox r)) eqn:Eo; simpl; [|apply WP_ret, HE; auto].
    apply owns_true in Eo. by eapply HK.
  - intros db1 env e HR HI _. case_match; apply WP_ret, HE; auto.
Qed.

(** 200 with the sandbox asked for, when the caller owns it. *)
Definition get_post (user : option User) (id : string) (r : response) (db : DB) : Prop :=
  rs_code r = StatusOK ->
  exists u s, user = Some u /\ rs_body r = BodySandbox s /\ sb_ID s = id
              /\ sb_UserID s = Some (u_ID u).

Ltac other_code := intros ?; cbn; intros; exfalso;
  repeat match goal with H : _ \/ _ |- _ => destruct H as [H|H] end;
  repeat match goal with H : rs_code _ = _ |- _ => rewrite H in * end; discriminate.

Lemma WP_getSandboxByID user id db : WP Flt (getSandboxByID user id) (get_post user id) db.
Proof.
  apply WP_fetch_owned; [unfold get_post; other_code|].
  intros u db1 r -> HR HI Hr Hu. apply WP_ret. intros _. exists u, (row_sandbox r).
  split; [done|]. split; [done|]. split; [|done]. apply (ro_id _ _ _ (inv_rows _ HI _ _ Hr)).
Qed.

(** 202 or 204 only for the owner, and then the sandbox is given up. *)
Definition delete_post (user : option User) (id : string) (r : response) (db : DB) : Prop :=
  rs_code r = StatusAccepted \/ rs_code r = StatusNoContent ->
  exists u, user = Some u /\ owned_row u id db /\ ended id db.

Lemma delete_tx_cases id env db n db' :
  delete_tx id env db = (Ok n, db') ->
  (n = 1 /\ cleanupInsert id (Status_string StatusStopped) ∈ jobs db')
  \/ (n = 0 /\ db' = db /\ forall r, sandboxes db !! id = Some r -> row_status r ∉ unfinished_statuses).
Proof.
  intros ([s m] & d & [(r & _ & _ & [= -> ->] & ->)|([= -> ->] & -> & Hn)]%UpdateStatus_cases & H)%tx_bind_Ok;
    injection H as <- <-; [left|by right].
  split; [done|]. simpl. apply elem_of_app. right. by apply list_elem_of_singleton.
Qed.

Lemma WP_deleteSandbox conf user id db : WP Flt (deleteSandbox conf user id) (delete_post user id) db.
Proof.
  apply WP_fetch_owned; [unfold delete_post; other_code|].
  intros u db1 r -> HR HI Hr Hu.
  assert (owned_row u id db1) as Hown by (by exists r).
  pose proof (inv_rows _ HI _ _ Hr) as Hok.
  assert (given_up (row_status r) -> delete_post (Some u) id (http_Empty StatusNoContent) db1) as Hgone.
  { intros Hg _. exists u. split; [done|]. split; [done|]. by exists r. }
  assert (WP Flt (if negb conf
        then Ret (http_Error "delete sandbox failed" StatusInternalServerError)
        else (r <-db delete_tx id ;;
              match r with
              | Err _ => Ret (http_Error "delete sandbox failed" StatusInternalServerError)
              | Ok n => if n =? 0 then Ret (http_Empty StatusNoContent)
                        else Ret (http_Empty StatusAccepted)
              end)%prog) (delete_post (Some u) id) db1) as Hdel.
  { destruct conf; simpl; [|apply WP_ret; unfold delete_post; cbn; intros [?|?]; done].
    eapply WP_tx; [apply delete_ok|intros; by eapply evolves_has; [|exists r]| |
                   intros; apply WP_ret; unfold delete_post; cbn; intros [?|?]; done].
    intros db2 env n db3 HR2 HR3 HI2 HI3 H. pose proof (evolves_owned _ _ _ _ HR3 Hown).
    apply delete_tx_cases in H as [[-> Hj]|(-> & -> & Hn)]; apply WP_ret; intros _; exists u;
      (split; [done|]; split; [done|]).
    - by eapply cleanup_job_ended.
    - destruct (evolves_has id _ _ HR2) as [r2 Hr2]; [by exists r|]. exists r2. split; [done|].
      eapply known_not_unfinished; [by apply (inv_rows _ HI2)|by apply Hn]. }
  change (sb_Status (row_sandbox r)) with (row_status r).
  pose proof (ro_known _ _ _ Hok) as Hk.
  destruct (row_status r) eqn:Es; try exact Hdel; apply WP_ret, Hgone;
    unfold given_up, terminal; auto; clear -Hk; status_cases; discriminate.
Qed.

(** Every listed sandbox is the caller's. *)
Definition list_post (user : option User) (r : response) (db : DB) : Prop :=
  forall l, rs_body r = BodyList l ->
  exists u, user = Some u /\ Forall (fun s => sb_UserID s = Some (u_ID u)) l.

Definition all_owned (u : User) (l : list Sandbox) (db : DB) : Prop :=
  Forall (fun s => sb_UserID s = Some (u_ID u)) l.

Lemma WP_owned_details u ids db : WP Flt (owned_details u ids) (all_owned u) db.
Proof.
  revert db. induction ids as [|id ids IH]; intros db; [by apply WP_ret, Forall_nil|].
  apply WP_read; [apply GetByID_reads| |]; intros; [|by apply IH].
  destruct (owns u x) eqn:E; simpl; [|by apply IH]. apply owns_true in E.
  apply WP_bind. eapply WP_mono; [|apply IH]. intros l db' Hl. apply WP_ret. by constructor.
Qed.

Lemma WP_list_workers u ws db : WP Flt (list_workers u ws) (all_owned u) db.
Proof.
  revert db. induction ws as [|w ws IH]; intros db; [by apply WP_ret, Forall_nil|].
  apply WP_bind. eapply (WP_mono _ _ (all_owned u)).
  - intros l db' Hl. apply WP_bind. eapply WP_mono; [|apply IH].
    intros ls db2 Hls. apply WP_ret. by apply Forall_app.
  - intros [x|e]; [|by apply Forall_nil]. intros [ids|e]; [|by apply Forall_nil].
    apply WP_owned_details.
Qed.

Lemma WP_listSandboxes user db : WP Flt (listSandboxes user) (list_post user) db.
Proof.
  destruct user as [u|]; [|done].
  apply WP_read; [apply list_where_reads| |]; intros; [|done].
  apply WP_bind. eapply WP_mono; [|apply WP_list_workers]. intros l db' Hl. apply WP_ret.
  intros ? [= <-]. by exists u.
Qed.

(** ** Creation *)

(** 201 answers with the caller's new sandbox, within the size of a slot. *)
Definition fits_slot (s : Sandbox) : Prop :=
  0 < sb_VcpuCount s <= SandboxVcpu /\ 0 < sb_MemSizeMib s <= SandboxMemMiB /\ 0 < sb_TTL s.

Definition created_row (u : User) (id : string) (db : DB) : Prop :=
  exists r, sandboxes db !! id = Some r /\ sb_UserID (row_sandbox r) = Some (u_ID u)
            /\ fits_slot (row_sandbox r).

Definition create_response (user : option User) (id : string) (o : outcome) (db : DB) : Prop :=
  forall r, o = Responded r -> rs_code r = StatusCreated ->
  exists u s, user = Some u /\ rs_body r = BodySandbox s /\ sb_ID s = id
              /\ sb_UserID s = Some (u_ID u) /\ fits_slot s.

Lemma evolves_created u id db db' : evolves db db' -> created_row u id db -> created_row u id db'.
Proof.
  intros E (r & H & Hu & Hf). destruct (ev_rows _ _ E _ _ H) as (r' & H' & [_ Hid _]).
  exists r'. split; [done|]. unfold row_identity in Hid. injection Hid. unfold fits_slot in *.
  intros -> -> -> ? ? ? ? -> ? ?. done.
Qed.

Lemma WP_wait_loop u id jobID evs db :
  created_row u id db -> WP Flt (wait_loop id jobID evs) (create_response (Some u) id) db.
Proof.
  intros Hc. assert (exists_row id db) as Hex by (destruct Hc as (r & Hr & _); by exists r).
  induction evs as [|[| |[ev|]] evs IH]; simpl.
  - by apply WP_ret.
  - by apply WP_ret.
  - apply WP_ret. by intros ? [= <-].
  - destruct (je_JobID ev =? jobID); simpl; [|apply IH].
    destruct (je_Kind ev).
    + apply WP_GetByID; [done| |intros; apply WP_ret; by intros ? [= <-]].
      intros db1 r HR HI Hr. apply WP_ret. intros ? [= <-] _.
      destruct (evolves_created _ _ _ _ HR Hc) as (r' & Hr' & Hu & Hf). simplify_eq.
      exists u, (row_sandbox r). pose proof (ro_id _ _ _ (inv_rows _ HI _ _ Hr)). done.
    + case_bool_decide; [|apply IH]. apply WP_ret. by intros ? [= <-].
    + destruct (jobFailedClusterFull _); apply WP_ret; by intros ? [= <-].
  - apply IH.
Qed.

Lemma new_sandbox_fits uuid now port u body :
  CheckSandboxSize (cb_VcpuCount body) (cb_MemSizeMib body) = None ->
  fits_slot (new_sandbox uuid now port u body).
Proof.
  unfold CheckSandboxSize, fits_slot, new_sandbox, defaultVcpuCount, defaultMemSizeMib,
    SandboxVcpu, SandboxMemMiB. simpl.
  destruct (Z.ltb_spec 1 (cb_VcpuCount body)); [done|].
  destruct (Z.ltb_spec 256 (cb_MemSizeMib body)); [done|]. intros _.
  repeat split; repeat case_match; lia.
Qed.

Lemma create_tx_row s env db db' :
  create_tx s env db = (Ok tt, db') -> sandboxes db' !! sb_ID s = Some (mkRow s None).
Proof.
  intros (y & d & H & [= <-])%tx_bind_Ok. unfold SandboxRepo.Create in H.
  destruct (sandboxes db !! sb_ID s); [done|]. destruct (_ && _); [|done].
  injection H as <- <-. apply lookup_insert_eq.
Qed.

Lemma WP_createSandbox third conf uuid jobID evs user body db :
  WP Flt (createSandbox third conf uuid jobID evs user body) (create_response user uuid) db.
Proof.
  unfold createSandbox. destruct user as [u|]; [|by intros ? [= <-]].
  destruct body as [body|]; [|by intros ? [= <-]].
  case_bool_decide; [by intros ? [= <-]|].
  destruct (CheckSandboxSize _ _) eqn:Esz; [by intros ? [= <-]|].
  destruct conf; simpl; [|by intros ? [= <-]].
  apply WP_read; [apply list_where_reads| |]; intros db1 env x HR HI _; [|by intros ? [= <-]].
  destruct x as [|w ws]; [by intros ? [= <-]|]. intros clock now.
  eapply WP_tx; [apply create_ok; [done|done|by eexists]|done| |intros; by intros ? [= <-]].
  intros db2 env2 [] db3 _ _ _ _ Hrow%create_tx_row. apply WP_wait_loop.
  eexists. split; [exact Hrow|]. split; [done|]. by apply new_sandbox_fits.
Qed.

(** ** Accounts *)

Lemma WP_createSessionWithTTL token userID ttl (Q : result error Session -> DB -> Prop) db :
  (forall r db', Q r db') -> WP Flt (createSessionWithTTL token userID ttl) Q db.
Proof.
  intros HQ. destruct token as [t|e]; [|apply WP_ret, HQ]. intros now.
  eapply WP_tx; [apply CreateSession_ok|done| |]; intros; apply WP_ret, HQ.
Qed.

Lemma WP_with_session token u (Q : result error (User * Session) -> DB -> Prop) db :
  (forall r db', Q r db') -> WP Flt (with_session token u) Q db.
Proof.
  intros HQ. apply WP_bind, WP_createSessionWithTTL. intros [s|e] db'; apply WP_ret, HQ.
Qed.

Lemma WP_signUp hash lower uuid token body db :
  WP Flt (signUp hash lower uuid token body) (fun _ _ => True) db.
Proof.
  unfold signUp. destruct (decodeAuthRequest _ _); [|done]. repeat (case_match; [done|]).
  apply WP_bind. unfold SignUp. destruct (hash _); [|apply WP_ret; by case_match]. intros now.
  eapply WP_tx; [apply CreateUser_ok|done| |]; intros.
  - apply WP_with_session. intros [us|e] db'; [done|]. by case_match.
  - apply WP_ret. by case_match.
Qed.

Lemma WP_login matches lower token body db :
  WP Flt (login matches lower token body) (fun _ _ => True) db.
Proof.
  unfold login. destruct (decodeAuthRequest _ _); [|done]. apply WP_bind.
  apply WP_read; [apply GetUserByEmail_reads| |]; intros.
  - destruct (matches _ _); simpl; [|done]. apply WP_with_session.
    intros [us|e] db'; [done|]. by case_match.
  - destruct (errors_Is e Auth_ErrNotFound); [done|]. apply WP_ret. by case_match.
Qed.

Lemma WP_logout header db : WP Flt (logout header) (fun _ _ => True) db.
Proof.
  unfold logout. case_bool_decide; [done|]. apply WP_bind.
  eapply WP_tx; [apply DeleteSession_ok|done|done|done].
Qed.

(** The middleware only reads; [next] runs with a user of the database. *)
Lemma WP_Authenticate token (Q : result error User -> DB -> Prop) db :
  (forall r db', evolves db db' -> Inv db' -> Q r db') -> WP Flt (Authenticate token) Q db.
Proof.
  intros HQ. apply WP_read; [apply GetSession_reads| |]; intros; [|apply WP_ret; by apply HQ].
  assert (WP Flt (u <-db GetUserByID (se_UserID x) ;; Ret u)%prog Q db1) as Hu.
  { apply WP_read; [apply GetUserByID_reads| |]; intros; apply WP_ret, HQ; [|done|..|done]; by etrans. }
  destruct (se_ExpiresAt x); [|done]. intros now. case_match; [apply WP_ret; by apply HQ|done].
Qed.

Lemma WP_RequireAuth {A} refuse header (next : User -> prog A) (Q : A -> DB -> Prop) db :
  (forall r db', rs_code r = StatusUnauthorized -> Q (refuse r) db') ->
  (forall u db', evolves db db' -> Inv db' -> WP Flt (next u) Q db') ->
  WP Flt (RequireAuth refuse header next) Q db.
Proof.
  intros HE HN. unfold RequireAuth. case_bool_decide; [by apply WP_ret, HE|].
  apply WP_bind, WP_Authenticate. intros [u|e] db' HR HI; [by apply HN|by apply WP_ret, HE].
Qed.

End Handlers.
