(* ===== verification/System.v ===== *)
(** * The orchestrator as a system

    Any number of jobs, reports and requests run at once, interleaved at every
    transaction and call, each transaction possibly failing before or after its commit,
    each call answered with anything.  A job runs, possibly several times and on several
    attempts, once it has been enqueued; everything else comes from outside.

    The theorems are about every reachable configuration. *)

From Stdlib Require Import ZArith Lia.
From stdpp Require Import base tactics option list gmap strings numbers relations.
From S2P Require Import Prelude GoStd Database SandboxRepo WorkerRepo Program Scheduler Jobs.
From S2P Require Import EventGRPC Capacity HTTP Auth Lifecycle Steps Threads Handlers.

Open Scope Z_scope.

(** A program whose result nobody in the system reads. *)
Definition forget {A} (p : prog A) : prog unit := bind p (fun _ => Ret tt).

(** What may start in a given database: the jobs enqueued in it, the periodic jobs, and
    any message or request (app.go, orchestrator.go). *)
Inductive spawnable (db : DB) : prog unit -> Prop :=
| sp_create (job : Job CreateSandboxArgs) ji :
    ji ∈ jobs db -> ji_args ji = JobCreate (job_Args job) ->
    spawnable db (forget (CreateSandboxWorker_Work job))
| sp_cleanup (job : Job CleanupSandboxArgs) ji :
    ji ∈ jobs db -> ji_args ji = JobCleanup (job_Args job) ->
    spawnable db (forget (CleanupSandboxWorker_Work job))
| sp_orphan (job : Job RemoveOrphanArgs) ji :
    ji ∈ jobs db -> ji_args ji = JobRemoveOrphan (job_Args job) ->
    spawnable db (forget (RemoveOrphanWorker_Work job))
| sp_reap_sandbox w : spawnable db (forget (ReapSandboxWorker_Work w))
| sp_reap_workers t : spawnable db (forget (ReapWorkersWorker_Work t))
| sp_register req : spawnable db (forget (RegisterWorker req))
| sp_heartbeat configured req : spawnable db (forget (ReportWorkerHeartbeat configured req))
| sp_event uuid req : spawnable db (forget (IngestSandboxEvent uuid req))
| sp_signup hash lower uuid token body : spawnable db (forget (signUp hash lower uuid token body))
| sp_login matches lower token body : spawnable db (forget (login matches lower token body))
| sp_logout header : spawnable db (forget (logout header))
| sp_http_create header third conf uuid jobID evs body :
    spawnable db (forget (RequireAuth Responded header
      (fun u => createSandbox third conf uuid jobID evs (Some u) body)))
| sp_http_get header id :
    spawnable db (forget (RequireAuth (fun r => r) header (fun u => getSandboxByID (Some u) id)))
| sp_http_list header :
    spawnable db (forget (RequireAuth (fun r => r) header (fun u => listSandboxes (Some u))))
| sp_http_delete header conf id :
    spawnable db (forget (RequireAuth (fun r => r) header (fun u => deleteSandbox conf (Some u) id))).

(** Every fault is allowed. *)
Definition any_fault (fl : fault) : Prop := True.

Definition sys_step : config -> config -> Prop := pool_step any_fault spawnable.

(** A fresh deployment: no sandbox, no worker, no job. *)
Definition initial (c : config) : Prop :=
  sandboxes c.1 = ∅ /\ workers c.1 = ∅ /\ jobs c.1 = [] /\ c.2 = [].

Definition reachable (c : config) : Prop := exists c0, initial c0 /\ rtc sys_step c0 c.

(** Two databases of one execution: [db] is reachable, and [db'] from it. *)
Definition later (db db' : DB) : Prop :=
  exists pool pool', reachable (db, pool) /\ rtc sys_step (db, pool) (db', pool').

(** One step of an execution. *)
Definition next (db db' : DB) : Prop :=
  exists pool pool', reachable (db, pool) /\ sys_step (db, pool) (db', pool').

Definition reachable_db (db : DB) : Prop := exists pool, reachable (db, pool).

(** ** Lemmas *)

Lemma WP_forget {A} (p : prog A) (Q : A -> DB -> Prop) db :
  WP any_fault p Q db -> wp any_fault Inv evolves guarantee (forget p) (fun _ _ => True) db.
Proof. intros H. apply wp_bind. eapply wp_mono; [|exact H]. done. Qed.

Lemma spawn_ok db p :
  Inv db -> spawnable db p -> wp any_fault Inv evolves guarantee p (fun _ _ => True) db.
Proof.
  intros HI Hs.
  destruct Hs as [job ji Hin Ha|job ji Hin Ha| | | | | | | | | | | | |]; eapply WP_forget.
  - apply WP_CreateSandboxWorker_Work. apply (inv_created _ HI). exists ji.
    split; [done|]. rewrite Ha. by destruct (job_Args job).
  - destruct (inv_cleanup _ HI _ _ Hin Ha). by apply WP_CleanupSandboxWorker_Work.
  - apply WP_RemoveOrphanWorker_Work.
  - apply WP_ReapSandboxWorker_Work.
  - apply WP_ReapWorkersWorker_Work.
  - apply WP_RegisterWorker.
  - apply WP_ReportWorkerHeartbeat.
  - apply WP_IngestSandboxEvent.
  - apply WP_signUp.
  - apply WP_login.
  - apply WP_logout.
  - apply (WP_RequireAuth _ _ _ _ (fun _ _ => True)); [done|]. intros u db' _ _.
    eapply WP_mono; [|apply WP_createSandbox]. done.
  - apply (WP_RequireAuth _ _ _ _ (fun _ _ => True)); [done|]. intros u db' _ _.
    eapply WP_mono; [|apply WP_getSandboxByID]. done.
  - apply (WP_RequireAuth _ _ _ _ (fun _ _ => True)); [done|]. intros u db' _ _.
    eapply WP_mono; [|apply WP_listSandboxes]. done.
  - apply (WP_RequireAuth _ _ _ _ (fun _ _ => True)); [done|]. intros u db' _ _.
    eapply WP_mono; [|apply WP_deleteSandbox]. done.
Qed.

Lemma initial_ok c : initial c -> pool_ok any_fault Inv evolves guarantee c.
Proof.
  destruct c as [db pool]. intros (Hs & Hw & Hj & Hp). simpl in *. subst pool. split; [|apply Forall_nil; done].
  simpl. split.
  - intros id r. by rewrite Hs.
  - intros id w. by rewrite Hw.
  - intros id r. by rewrite Hs.
  - intros ji a. rewrite Hj. no_member.
  - intros id. unfold create_job. rewrite Hs, Hj. split; [by intros []|].
    intros (ji & H & _). by apply not_elem_of_nil in H.
  - intros ji. rewrite Hj. no_member.
Qed.

Lemma guarantee_evolves db db' : guarantee db db' -> evolves db db'.
Proof. by intros []. Qed.

Lemma reachable_ok c : reachable c -> pool_ok any_fault Inv evolves guarantee c.
Proof.
  intros (c0 & Hi & Hr). eapply pool_sound; [..|by apply initial_ok].
  all: eauto using guarantee_evolves, spawn_ok, evolves_preorder.
Qed.

Lemma reachable_step c c' :
  reachable c -> sys_step c c' -> c.1 = c'.1 \/ guarantee c.1 c'.1.
Proof.
  intros Hr Hs. eapply pool_step_ok; [..|by apply reachable_ok];
    eauto using guarantee_evolves, spawn_ok, evolves_preorder.
Qed.

Lemma reachable_evolves c c' : reachable c -> rtc sys_step c c' -> evolves c.1 c'.1.
Proof.
  intros Hr Hs. eapply pool_sound; [..|by apply reachable_ok];
    eauto using guarantee_evolves, spawn_ok, evolves_preorder.
Qed.

Lemma reachable_Inv db : reachable_db db -> Inv db.
Proof. intros [pool H]. by apply reachable_ok in H as [? _]. Qed.

Lemma later_evolves db db' : later db db' -> evolves db db'.
Proof. intros (pool & pool' & Hr & Hs). exact (reachable_evolves _ _ Hr Hs). Qed.

Lemma next_guarantee db db' : next db db' -> guarantee db db'.
Proof.
  intros (pool & pool' & Hr & Hs). destruct (reachable_step _ _ Hr Hs) as [E|H]; [|done].
  simpl in E. subst. apply calm_guarantee. reflexivity.
Qed.

(** The last program of a pool. *)
Lemma pool_last (pool : list (prog unit)) q : (pool ++ [q]) !! length pool = Some q.
Proof. rewrite lookup_app_r, Nat.sub_diag by done. done. Qed.

Lemma pool_put (pool : list (prog unit)) q q' : <[length pool := q']> (pool ++ [q]) = pool ++ [q'].
Proof. by rewrite insert_app_r_alt, Nat.sub_diag. Qed.

(** A scripted run of a program is an execution of the system. *)
Lemma run_steps s (p : prog unit) faults draws db pool :
  exists pool', rtc sys_step (db, pool ++ [p]) ((run s p faults draws db).2, pool ++ pool').
Proof.
  pose proof (pool_last pool) as Hat. pose proof (pool_put pool) as Hput.
  revert faults draws db. induction p as [a|X f k IH|X a c k IH|k IH|k IH]; intros faults draws db.
  - by exists [Ret a].
  - assert (forall fl rest, let '(r, db') := exec_tx (sc_env s) fl f db in
      exists pool', rtc sys_step (db, pool ++ [Tx f k])
                      ((run s (k r) rest draws db').2, pool ++ pool')) as Hrun.
    { intros fl rest. destruct (exec_tx (sc_env s) fl f db) as [r db'] eqn:He.
      destruct (IH r rest draws db') as [pool' Hp]. exists pool'. eapply rtc_l; [|exact Hp].
      rewrite <- (Hput (Tx f k) (k r)). eapply step_tx; [apply Hat|done|exact He]. }
    destruct faults as [|fl rest]; cbn [run].
    + specialize (Hrun NoFault []). by destruct (exec_tx _ NoFault f db).
    + specialize (Hrun fl rest). by destruct (exec_tx _ fl f db).
  - destruct (IH (sc_rpc s _ a c) faults draws db) as [pool' Hp]. exists pool'.
    eapply rtc_l; [|exact Hp]. rewrite <- (Hput (Rpc a c k) (k (sc_rpc s X a c))). by eapply step_rpc.
  - assert (forall u rest, exists pool', rtc sys_step (db, pool ++ [Draw k])
              ((run s (k u) faults rest db).2, pool ++ pool')) as Hrun.
    { intros u rest. destruct (IH u faults rest db) as [pool' Hp]. exists pool'.
      eapply rtc_l; [|exact Hp]. rewrite <- (Hput (Draw k) (k u)). by eapply step_draw. }
    destruct draws; apply Hrun.
  - destruct (IH (sc_clock s) faults draws db) as [pool' Hp]. exists pool'.
    eapply rtc_l; [|exact Hp]. rewrite <- (Hput (Now k) (k (sc_clock s))). by eapply step_now.
Qed.

Lemma later_run s p faults draws db :
  reachable_db db -> spawnable db p -> later db (run s p faults draws db).2.
Proof.
  intros [pool Hr] Hs. destruct (run_steps s p faults draws db pool) as [pool' Hp].
  exists pool, (pool ++ pool'). split; [done|]. eapply rtc_l; [|exact Hp]. by apply step_spawn.
Qed.

Lemma later_reachable db db' : later db db' -> reachable_db db'.
Proof.
  intros (pool & pool' & (c0 & Hi & Hr) & Hs). exists pool', c0. split; [done|]. by etrans.
Qed.

Lemma later_trans db1 db2 db3 p s faults draws :
  later db1 db2 -> spawnable db2 p -> db3 = (run s p faults draws db2).2 -> later db1 db3.
Proof.
  intros (pool & pool' & Hr & Hs) Hsp ->. destruct (run_steps s p faults draws db2 pool') as [pool2 Hp].
  exists pool, (pool' ++ pool2). split; [done|]. etrans; [exact Hs|].
  eapply rtc_l; [|exact Hp]. by apply step_spawn.
Qed.
