(* ===== verification/Scenario.v ===== *)
(** * A concrete execution

    One worker and one user, from an empty database to a stopped sandbox, computed with
    [run]: the reachable databases on which the theorems are instantiated. *)

From Stdlib Require Import ZArith Lia.
From stdpp Require Import base tactics option list gmap strings numbers relations.
From S2P Require Import Prelude GoStd Database SandboxRepo WorkerRepo Program Scheduler Jobs.
From S2P Require Import EventGRPC Capacity HTTP Auth Lifecycle Steps Threads Handlers.
From S2P Require Import System.

Open Scope Z_scope.

(** A worker with room that does all it is asked. *)
Definition demo_info : GetWorkerInfoResponse :=
  mkInfo "w1" "10.0.0.1" "active" 4 4096 2 10 100 0.

Definition demo_rpc (X : Type) (addr : string) (c : rpc X) : result error X :=
  match c in rpc X return result error X with
  | Dial => Ok tt
  | CallGetWorkerInfo => Ok demo_info
  | CallCreateSandbox _ => Ok tt
  | CallStopSandbox _ => Ok tt
  | CallRemoveSandbox _ => Ok tt
  | CallListRunningSandboxes => Ok ["s1"%string]
  end.

(** The same time on every clock. *)
Definition at_time (t : Z) : script := mkScript (mkEnv t ∅) t demo_rpc.

(** A worker that cannot be reached. *)
Definition unreachable_rpc (X : Type) (addr : string) (c : rpc X) : result error X :=
  Err (StatusError Unavailable "connection refused").

Definition t0 : Z := 1000000 * Second.

Definition demo_hash (p : string) : result error string := Ok ("bcrypt:" +:+ p)%string.
Definition demo_lower (s : string) : string := ToLower s.

Definition demo_signup : prog unit :=
  forget (signUp demo_hash demo_lower "u1" (Ok "tok"%string)
            (Some (mkAuthRequest "Ada@fire.local" "correct horse"))).

Definition demo_heartbeat (token : Z) (inv : list SandboxInventoryEntry) : WorkerHeartbeat :=
  mkHeartbeat "w1" "active" "10.0.0.1" 50051 2 4 4096 10 100 token true inv.

Definition demo_register : prog unit := forget (RegisterWorker (Some (demo_heartbeat 0 []))).

Definition demo_body : createSandboxRequest := mkCreateBody "node" EmptyString 0 600 EmptyString 0 0.

Definition demo_create : prog unit :=
  forget (RequireAuth Responded "Bearer tok"
    (fun u => createSandbox (fun _ m => m) true "s1" 7 [] (Some u) (Some demo_body))).

Definition demo_job : Job CreateSandboxArgs := mkJob {| cr_SandboxID := "s1" |} 1 5.
Definition demo_create_job : prog unit := forget (CreateSandboxWorker_Work demo_job).

Definition demo_delete : prog unit :=
  forget (RequireAuth (fun r => r) "Bearer tok" (fun u => deleteSandbox true (Some u) "s1")).

Definition demo_cleanup : Job CleanupSandboxArgs :=
  mkJob {| cl_SandboxID := "s1"; cl_TargetStatus := "stopped" |} 1 5.
Definition demo_cleanup_job : prog unit := forget (CleanupSandboxWorker_Work demo_cleanup).

Definition demo (p : prog unit) (db : DB) : DB := (run (at_time t0) p [] [] db).2.

Definition db_user : DB := demo demo_signup empty_DB.
Definition db_worker : DB := demo demo_register db_user.
Definition db_pending : DB := demo demo_create db_worker.
Definition db_running : DB := demo demo_create_job db_pending.
Definition db_deleting : DB := demo demo_delete db_running.
Definition db_stopped : DB := demo demo_cleanup_job db_deleting.

(** The row of the sandbox in a database. *)
Definition status_of (id : string) (db : DB) : option Status := row_status <$> sandboxes db !! id.
Definition worker_of (id : string) (db : DB) : option (option string) :=
  row_worker <$> sandboxes db !! id.

Lemma demo_statuses :
  status_of "s1" <$> [db_worker; db_pending; db_running; db_deleting; db_stopped]
  = [None; Some StatusPending; Some StatusRunning; Some StatusCleanupPending; Some StatusStopped].
Proof. vm_compute. reflexivity. Qed.

Lemma demo_workers :
  worker_of "s1" <$> [db_pending; db_running; db_deleting; db_stopped]
  = [Some None; Some (Some "w1"%string); Some (Some "w1"%string); Some None].
Proof. vm_compute. reflexivity. Qed.

Lemma reachable_user : reachable_db db_user.
Proof.
  assert (reachable_db empty_DB) as H0.
  { exists [], (empty_DB, []). split; [by repeat split|]. apply rtc_refl. }
  eapply later_reachable, later_run; [exact H0|]. apply sp_signup.
Qed.

Lemma later_worker : later db_user db_worker.
Proof. apply later_run; [apply reachable_user|apply sp_register]. Qed.

Lemma later_pending : later db_user db_pending.
Proof. eapply later_trans; [apply later_worker|apply sp_http_create|reflexivity]. Qed.

(** The jobs of the scenario, in the order they were enqueued. *)
Definition create_insert : JobInsert :=
  mkJobInsert (JobCreate {| cr_SandboxID := "s1" |}) QueueDefault None.

Lemma jobs_pending : jobs db_pending = [create_insert].
Proof. vm_compute. reflexivity. Qed.

Lemma jobs_deleting : jobs db_deleting = [create_insert; cleanupInsert "s1" "stopped"].
Proof. vm_compute. reflexivity. Qed.

Lemma later_running : later db_pending db_running.
Proof.
  apply later_run; [eapply later_reachable, later_pending|].
  apply (sp_create _ demo_job create_insert); [|done]. rewrite jobs_pending. left.
Qed.

Lemma later_deleting : later db_pending db_deleting.
Proof. eapply later_trans; [apply later_running|apply sp_http_delete|reflexivity]. Qed.

Lemma later_stopped : later db_pending db_stopped.
Proof.
  eapply later_trans; [apply later_deleting| |reflexivity].
  apply (sp_cleanup _ demo_cleanup (cleanupInsert "s1" "stopped")); [|done].
  rewrite jobs_deleting. right. left.
Qed.

(** ** One operation at a time *)

Definition advance (s : script) (c : prog unit * DB) : prog unit * DB :=
  match c.1 with
  | Ret a => (Ret a, c.2)
  | Tx f k => let '(r, db') := exec_tx (sc_env s) NoFault f c.2 in (k r, db')
  | Rpc a q k => (k (sc_rpc s _ a q), c.2)
  | Draw k => (k (SpecFloat.S754_zero false), c.2)
  | Now k => (k (sc_clock s), c.2)
  end.

Definition finished (p : prog unit) : bool := match p with Ret _ => true | _ => false end.

Lemma advance_step s p db pool :
  finished p = false ->
  sys_step (db, pool ++ [p]) ((advance s (p, db)).2, pool ++ [(advance s (p, db)).1]).
Proof.
  pose proof (pool_last pool) as Hat. pose proof (pool_put pool) as Hput.
  destruct p as [a|X f k|X a c k|k|k]; [done| | | |]; intros _; cbn [advance fst snd].
  - destruct (exec_tx (sc_env s) NoFault f db) as [r db'] eqn:E. cbn [fst snd].
    rewrite <- (Hput (Tx f k) (k r)). by eapply step_tx.
  - rewrite <- (Hput (Rpc a c k) (k (sc_rpc s X a c))). by eapply step_rpc.
  - rewrite <- (Hput (Draw k) (k _)). by eapply step_draw.
  - rewrite <- (Hput (Now k) (k (sc_clock s))). by eapply step_now.
Qed.

Fixpoint advances (n : nat) (s : script) (c : prog unit * DB) : prog unit * DB :=
  match n with O => c | S n => advance s (advances n s c) end.

Lemma advances_steps n s c pool :
  rtc sys_step (c.2, pool ++ [c.1]) ((advances n s c).2, pool ++ [(advances n s c).1]).
Proof.
  induction n as [|n IH]; [done|]. etrans; [exact IH|]. cbn [advances].
  destruct (advances n s c) as [p db]. destruct (finished p) eqn:E.
  - by destruct p.
  - apply rtc_once. by apply advance_step.
Qed.

Lemma next_advances n s p db :
  reachable_db db -> spawnable db p -> finished (advances n s (p, db)).1 = false ->
  next (advances n s (p, db)).2 (advances (S n) s (p, db)).2.
Proof.
  intros [pool (c0 & Hi & Hr)] Hs Hf.
  exists (pool ++ [(advances n s (p, db)).1]), (pool ++ [(advances (S n) s (p, db)).1]). split.
  - exists c0. split; [done|]. etrans; [exact Hr|]. eapply rtc_l; [by apply (step_spawn _ _ _ _ p)|].
    apply (advances_steps n s (p, db) pool).
  - cbn [advances]. destruct (advances n s (p, db)) as [q db']. by apply advance_step.
Qed.

(** The assignment of the create job, its ninth operation. *)
Definition db_assigning : DB := (advances 8 (at_time t0) (demo_create_job, db_pending)).2.
Definition db_assigned : DB := (advances 9 (at_time t0) (demo_create_job, db_pending)).2.

Lemma demo_occupancy : (occupancy db_assigning "w1", occupancy db_assigned "w1") = (0, 1).
Proof. vm_compute. reflexivity. Qed.

Lemma next_assigned : next db_assigning db_assigned.
Proof.
  apply next_advances; [eapply later_reachable, later_pending| |vm_compute; reflexivity].
  apply (sp_create _ demo_job create_insert); [|done]. rewrite jobs_pending. left.
Qed.
