(* ===== verification/Safety.v ===== *)
(** * Safety of the orchestrator

    What holds of every reachable database, and of every pair of databases of one
    execution, however jobs, reports and requests interleave and fail. *)

From Stdlib Require Import ZArith Lia.
From stdpp Require Import base tactics option list gmap strings numbers relations.
From S2P Require Import Prelude GoStd Database SandboxRepo WorkerRepo Program Jobs EventGRPC.
From S2P Require Import HTTP Auth Lifecycle Steps Threads Handlers System Scenario.

Open Scope Z_scope.

(** C1: the system refines the state machine of a sandbox.  Between any two moments of
    any execution, a sandbox goes from its earlier to its later status by steps of
    [status_step] (pending, scheduling, assigned, starting, running, cleanup_pending,
    failed or stopped, in this order, cleanup_pending from any of the first five), is
    never removed, and keeps its identity: id, owner, image, size, TTL, port, creation
    time. *)
Theorem lifecycle_refined db db' id r :
  later db db' -> sandboxes db !! id = Some r ->
  exists r', sandboxes db' !! id = Some r'
             /\ rtc status_step (row_status r) (row_status r')
             /\ row_identity r' = row_identity r.
Proof.
  intros HL Hr. destruct (ev_rows _ _ (later_evolves _ _ HL) _ _ Hr) as (r' & Hr' & [? ? _]).
  by exists r'.
Qed.

Lemma lifecycle_refined_witness :
  exists r r', sandboxes db_pending !! "s1"%string = Some r
    /\ sandboxes db_running !! "s1"%string = Some r'
    /\ row_status r = StatusPending /\ row_status r' = StatusRunning
    /\ rtc status_step (row_status r) (row_status r').
Proof.
  destruct (sandboxes db_pending !! "s1"%string) as [r|] eqn:E; [|vm_compute in E; discriminate E].
  destruct (lifecycle_refined db_pending db_running "s1" r later_running E) as (r' & E' & Hs & _).
  exists r, r'. split; [reflexivity|]. split; [exact E'|].
  vm_compute in E, E'. injection E as <-. injection E' as <-.
  split; [reflexivity|]. split; [reflexivity|]. exact Hs.
Defined.

(** C3: a stopped or failed sandbox stays so for ever, without a worker: no retried,
    duplicated or late job, report or request brings it back. *)
Theorem terminal_is_final db db' id r :
  later db db' -> sandboxes db !! id = Some r -> terminal (row_status r) ->
  exists r', sandboxes db' !! id = Some r'
             /\ row_status r' = row_status r /\ row_worker r' = None.
Proof.
  intros HL Hr Ht. destruct (ev_rows _ _ (later_evolves _ _ HL) _ _ Hr) as (r' & Hr' & [Hs _ _]).
  pose proof (rtc_terminal _ _ Hs Ht) as E. exists r'. split; [done|]. split; [done|].
  pose proof (reachable_Inv _ (later_reachable _ _ HL)) as HI.
  apply (ro_terminal _ _ _ (inv_rows _ HI _ _ Hr')). by rewrite E.
Qed.

Lemma terminal_is_final_witness :
  exists r r', sandboxes db_stopped !! "s1"%string = Some r
    /\ sandboxes (demo demo_create_job db_stopped) !! "s1"%string = Some r'
    /\ row_status r = StatusStopped /\ row_status r' = row_status r.
Proof.
  destruct (sandboxes db_stopped !! "s1"%string) as [r|] eqn:E; [|vm_compute in E; discriminate E].
  assert (row_status r = StatusStopped) as Hs.
  { vm_compute in E. injection E as <-. reflexivity. }
  assert (later db_stopped (demo demo_create_job db_stopped)) as HL.
  { apply later_run; [exact (later_reachable _ _ later_stopped)|].
    apply (sp_create _ demo_job create_insert); [|reflexivity].
    replace (jobs db_stopped) with [create_insert; cleanupInsert "s1" "stopped"] by (vm_compute; reflexivity).
    left. }
  destruct (terminal_is_final db_stopped (demo demo_create_job db_stopped) "s1" r HL E)
    as (r' & E' & Hst & _); [right; exact Hs|].
  exists r, r'. split; [reflexivity|]. split; [exact E'|]. split; [exact Hs|exact Hst].
Defined.

(** C4: a sandbox never migrates.  Once it has a worker, it has that worker until it is
    given up (cleanup_pending or over) and unlinked; a new worker is never written over
    an old one. *)
Theorem no_migration db db' id r r' w :
  later db db' -> sandboxes db !! id = Some r -> sandboxes db' !! id = Some r' ->
  row_worker r = Some w ->
  row_worker r' = Some w \/ (row_worker r' = None /\ given_up (row_status r')).
Proof.
  intros HL Hr Hr' Hw. destruct (ev_rows _ _ (later_evolves _ _ HL) _ _ Hr) as (r1 & Hr1 & [_ _ L]).
  simplify_eq. destruct L as [L|[L|[L _]]]; [left; congruence|by right|congruence].
Qed.

Lemma no_migration_witness :
  exists r', sandboxes db_stopped !! "s1"%string = Some r'
    /\ (row_worker r' = Some "w1"%string \/ (row_worker r' = None /\ given_up (row_status r'))).
Proof.
  assert (later db_running db_stopped) as HL.
  { eapply later_trans; [eapply later_run|apply (sp_cleanup _ demo_cleanup (cleanupInsert "s1" "stopped"))|reflexivity].
    - exact (later_reachable _ _ later_running).
    - apply (sp_http_delete _ "Bearer tok" true "s1").
    - change (cleanupInsert "s1" "stopped" ∈ jobs db_deleting). rewrite jobs_deleting. right. left.
    - reflexivity. }
  destruct (sandboxes db_running !! "s1"%string) as [r|] eqn:E; [|vm_compute in E; discriminate E].
  destruct (sandboxes db_stopped !! "s1"%string) as [r'|] eqn:E'; [|vm_compute in E'; discriminate E'].
  exists r'. split; [reflexivity|].
  apply (no_migration db_running db_stopped "s1" r r' "w1" HL E E').
  vm_compute in E. injection E as <-. reflexivity.
Defined.

(** C5: capacity is never exceeded.  A step of the system that raises the number of
    sandboxes holding a slot of a worker leaves it within the capacity the worker had
    declared, however many create jobs race for the last slot. *)
Theorem capacity_respected db db' wid w :
  next db db' -> workers db !! wid = Some w -> occupancy db wid < occupancy db' wid ->
  occupancy db' wid <= wr_capacity w.
Proof.
  intros HN Hw Hlt. destruct (next_guarantee _ _ HN) as [_ HS]. specialize (HS wid w Hw). lia.
Qed.

Lemma capacity_respected_witness :
  exists w, workers db_assigning !! "w1"%string = Some w /\ wr_capacity w = 2
    /\ occupancy db_assigned "w1" <= wr_capacity w.
Proof.
  destruct (workers db_assigning !! "w1"%string) as [w|] eqn:E; [|vm_compute in E; discriminate E].
  exists w. split; [reflexivity|]. split.
  - vm_compute in E. injection E as <-. reflexivity.
  - apply (capacity_respected db_assigning db_assigned "w1" w next_assigned E).
    vm_compute. reflexivity.
Defined.

(** C6: no claim leaks.  In every reachable database a sandbox in cleanup_pending has a
    cleanup job enqueued for it, and every cleanup job is for a sandbox that exists and
    was given up, with a target the job can write (the default, failed or stopped). *)
Theorem claims_never_leak db :
  reachable_db db ->
  (forall id r, sandboxes db !! id = Some r -> row_status r = StatusCleanupPending ->
     cleanup_job id db)
  /\ (forall ji a, ji ∈ jobs db -> ji_args ji = JobCleanup a ->
        terminal (cleanup_target a) /\ ended (cl_SandboxID a) db).
Proof.
  intros HR%reachable_Inv. split; [apply (inv_claimed _ HR)|].
  intros ji a Hj Ha. destruct (inv_cleanup _ HR _ _ Hj Ha) as [Hv He].
  split; [by apply cleanup_target_terminal|exact He].
Qed.

Lemma claims_never_leak_witness :
  status_of "s1" db_deleting = Some StatusCleanupPending /\ cleanup_job "s1" db_deleting
  /\ ended "s1" db_deleting.
Proof.
  destruct (claims_never_leak db_deleting (later_reachable _ _ later_deleting)) as [H1 H2].
  split; [vm_compute; reflexivity|]. split.
  - destruct (sandboxes db_deleting !! "s1"%string) as [r|] eqn:E; [|vm_compute in E; discriminate E].
    apply (H1 "s1"%string r E). vm_compute in E. injection E as <-. reflexivity.
  - apply (H2 (cleanupInsert "s1" "stopped") {| cl_SandboxID := "s1"; cl_TargetStatus := "stopped" |});
      [|reflexivity]. rewrite jobs_deleting. right. left.
Defined.

(** C18: the database is well formed.  In every reachable database a sandbox is stored with
    its create job or not at all, and the columns of its row agree: one that waits for a
    worker has none, one that is assigned, starting or running has a worker that exists, a
    stopped or failed one has none, its status is one the program names, and it has an
    owner. *)
Theorem rows_consistent db id :
  reachable_db db ->
  (is_Some (sandboxes db !! id) <-> create_job id db)
  /\ forall r, sandboxes db !! id = Some r ->
  sb_ID (row_sandbox r) = id
  /\ (early (row_status r) -> row_worker r = None)
  /\ (active (row_status r) -> exists w, row_worker r = Some w /\ is_Some (workers db !! w))
  /\ (terminal (row_status r) -> row_worker r = None)
  /\ row_status r ∈ named_statuses
  /\ is_Some (sb_UserID (row_sandbox r)).
Proof.
  intros HR%reachable_Inv. split; [apply (inv_created _ HR)|]. intros r Hr.
  pose proof (inv_rows _ HR _ _ Hr) as [Hid Hea Hac Hte Hkn Hwk Hus].
  split; [done|]. split; [done|]. split; [|split; [done|split; [|done]]].
  - intros Ha. destruct (Hac Ha) as [w Hw]. exists w. auto.
  - clear -Hkn. status_cases; rewrite Hkn; by repeat constructor.
Qed.

Lemma rows_consistent_witness :
  create_job "s1" db_running
  /\ exists r w, sandboxes db_running !! "s1"%string = Some r /\ row_worker r = Some w
    /\ is_Some (workers db_running !! w).
Proof.
  destruct (sandboxes db_running !! "s1"%string) as [r|] eqn:E; [|vm_compute in E; discriminate E].
  destruct (rows_consistent db_running "s1" (later_reachable _ _ later_running)) as [Hj Hr].
  split; [apply Hj; exists r; exact E|]. destruct (Hr r E) as (_ & _ & Ha & _).
  destruct Ha as (w & Hw & Hwk).
  - vm_compute in E. injection E as <-. right. right. left.
  - exists r, w. split; [reflexivity|]. split; assumption.
Defined.

(** C19: a worker's fencing token and inventory token only grow, the inventory token never
    passes the fencing token, and a worker keeps its registration time as long as it
    keeps its token: an incarnation is registered once. *)
Theorem tokens_monotone db db' wid w :
  later db db' -> workers db !! wid = Some w ->
  exists w', workers db' !! wid = Some w'
    /\ wr_fencing_token w <= wr_fencing_token w'
    /\ wr_inventory_token w <= wr_inventory_token w' <= wr_fencing_token w'
    /\ (wr_fencing_token w' = wr_fencing_token w -> wr_registered_at w' = wr_registered_at w).
Proof.
  intros HL Hw. destruct (ev_workers _ _ (later_evolves _ _ HL) _ _ Hw) as (w' & Hw' & [Ht Hi Hr]).
  pose proof (inv_workers _ (reachable_Inv _ (later_reachable _ _ HL)) _ _ Hw') as [? ?].
  exists w'. auto.
Qed.

Lemma tokens_monotone_witness :
  exists w w', workers db_worker !! "w1"%string = Some w
    /\ workers (demo demo_register db_worker) !! "w1"%string = Some w'
    /\ wr_fencing_token w = 1 /\ wr_fencing_token w' = 2
    /\ wr_fencing_token w <= wr_fencing_token w'.
Proof.
  assert (later db_worker (demo demo_register db_worker)) as HL.
  { apply later_run; [exact (later_reachable _ _ later_worker)|apply sp_register]. }
  destruct (workers db_worker !! "w1"%string) as [w|] eqn:E; [|vm_compute in E; discriminate E].
  destruct (tokens_monotone db_worker (demo demo_register db_worker) "w1" w HL E)
    as (w' & E' & Ht & _).
  exists w, w'. split; [reflexivity|]. split; [exact E'|].
  vm_compute in E, E'. injection E as <-. injection E' as <-.
  split; [reflexivity|]. split; [reflexivity|exact Ht].
Defined.
