(* ===== verification/Contracts.v ===== *)
(** * What each job and handler promises

    The contracts of the create and cleanup jobs and of the HTTP handlers, each against
    any interference of the rest of the system, and the outcome of a cleanup on every
    branch. *)

From Stdlib Require Import ZArith Lia.
From stdpp Require Import base tactics option list gmap strings numbers relations.
From S2P Require Import Prelude GoStd Database SandboxRepo WorkerRepo Program Scheduler Jobs.
From S2P Require Import EventGRPC Capacity HTTP Auth Lifecycle Steps Threads Handlers.
From S2P Require Import System Scenario.

Open Scope Z_scope.

(** Only faultless transactions. *)
Definition no_fault (fl : fault) : Prop := fl = NoFault.

Lemma no_fault_not_faulty : ~ faulty no_fault.
Proof. by intros (fl & -> & ?). Qed.

(** C11: the contract of the create job.  For a sandbox that exists, whatever the rest of
    the system does between its operations: a job that completes ended on a running
    sandbox, so that a client is never told 201 for one that never ran; a cancelled job
    ended on a sandbox given up; any other error means a retry, and the last attempt
    returns one only when a transaction failed. *)
Theorem create_job_contract Flt (job : Job CreateSandboxArgs) db :
  exists_row (cr_SandboxID (job_Args job)) db ->
  WP Flt (CreateSandboxWorker_Work job)
    (fun e db' => match e with
                  | None => running (cr_SandboxID (job_Args job)) db'
                  | Some (JobCancel _) => ended (cr_SandboxID (job_Args job)) db'
                  | Some _ => isFinalAttempt job = false \/ faulty Flt
                  end) db.
Proof. apply WP_CreateSandboxWorker_Work. Qed.

Lemma create_job_contract_witness :
  WP any_fault (CreateSandboxWorker_Work demo_job)
    (fun e db' => match e with
                  | None => running "s1" db'
                  | Some (JobCancel _) => ended "s1" db'
                  | Some _ => isFinalAttempt demo_job = false \/ faulty any_fault
                  end) db_pending
  /\ (run (at_time t0) (CreateSandboxWorker_Work demo_job) [] [] db_pending).1 = None.
Proof.
  split; [|vm_compute; reflexivity].
  apply (create_job_contract any_fault demo_job db_pending).
  exists (default (mkRow zero_Sandbox None) (sandboxes db_pending !! "s1"%string)).
  vm_compute. reflexivity.
Defined.

(** The last attempt settles.  When no transaction fails, the last attempt of a
    create job ends with the sandbox running, or cancelled with the sandbox given up: no
    sandbox is left behind half-created. *)
Lemma last_attempt_settles (job : Job CreateSandboxArgs) db :
  exists_row (cr_SandboxID (job_Args job)) db -> isFinalAttempt job = true ->
  WP no_fault (CreateSandboxWorker_Work job)
    (fun e db' => (e = None /\ running (cr_SandboxID (job_Args job)) db')
                  \/ (exists c, e = Some (JobCancel c)) /\ ended (cr_SandboxID (job_Args job)) db') db.
Proof.
  intros Hex Hf. eapply WP_mono; [|by apply WP_CreateSandboxWorker_Work].
  intros [e|] db' H; [|by left]. right.
  assert (~ (isFinalAttempt job = false \/ faulty no_fault)) as Hno.
  { rewrite Hf. intros [?|?]; [done|by apply no_fault_not_faulty]. }
  destruct e; try (by destruct (Hno H)). split; [by eexists|done].
Qed.

Lemma last_attempt_settles_witness :
  WP no_fault (CreateSandboxWorker_Work (mkJob {| cr_SandboxID := "s1" |} 5 5))
    (fun e db' => (e = None /\ running "s1" db')
                  \/ (exists c, e = Some (JobCancel c)) /\ ended "s1" db') db_pending.
Proof.
  apply (last_attempt_settles (mkJob {| cr_SandboxID := "s1" |} 5 5) db_pending).
  - exists (default (mkRow zero_Sandbox None) (sandboxes db_pending !! "s1"%string)).
    vm_compute. reflexivity.
  - reflexivity.
Defined.

(** C22: the loop that assigns a worker terminates.  It is given one turn more than it
    has candidates, and whatever the workers answer and the database refuses it ends
    with a return or an assignment, never out of turns. *)
Theorem assign_loop_terminates Flt id isFinal dropped cs db :
  exists_row id db ->
  WP Flt (assign_loop (S (length cs)) id isFinal dropped cs)
    (fun out _ => out <> LoopOutOfFuel) db.
Proof.
  intros Hex. eapply WP_mono; [|apply WP_assign_loop; [exact Hex|lia]].
  intros [e|s|] db' H; [done|done|by destruct H].
Qed.

Lemma assign_loop_terminates_witness :
  WP any_fault (assign_loop 2 "s1" false false
                  [mkCandidate (scanWorker "w1" (heartbeat_row (workerFromHeartbeat t0 (demo_heartbeat 1 []))
                                                   t0 1 0 t0 None)) (Some demo_info)])
    (fun out _ => out <> LoopOutOfFuel) db_pending.
Proof.
  apply (assign_loop_terminates any_fault "s1" false false [_]).
  exists (default (mkRow zero_Sandbox None) (sandboxes db_pending !! "s1"%string)).
  vm_compute. reflexivity.
Defined.

(** C12: the contract of the cleanup job.  For a sandbox given up, whatever happens
    meanwhile: a job that completes left the sandbox stopped or failed; one that returns
    an error left it given up, and the last attempt returns one only when a transaction
    failed: a worker that cannot be reached does not keep the sandbox for ever. *)
Theorem cleanup_job_contract Flt (job : Job CleanupSandboxArgs) db :
  valid_target (cl_TargetStatus (job_Args job)) -> ended (cl_SandboxID (job_Args job)) db ->
  WP Flt (CleanupSandboxWorker_Work job)
    (fun e db' => match e with
                  | None => over (cl_SandboxID (job_Args job)) db'
                  | Some _ => ended (cl_SandboxID (job_Args job)) db'
                              /\ (isFinalAttempt job = false \/ faulty Flt)
                  end) db.
Proof. apply WP_CleanupSandboxWorker_Work. Qed.

Lemma ended_deleting : ended "s1" db_deleting.
Proof.
  exists (default (mkRow zero_Sandbox None) (sandboxes db_deleting !! "s1"%string)).
  split; [vm_compute; reflexivity|]. left. vm_compute. reflexivity.
Qed.

Lemma cleanup_job_contract_witness :
  WP no_fault (CleanupSandboxWorker_Work demo_cleanup)
    (fun e db' => match e with
                  | None => over "s1" db'
                  | Some _ => ended "s1" db' /\ (isFinalAttempt demo_cleanup = false \/ faulty no_fault)
                  end) db_deleting.
Proof.
  apply (cleanup_job_contract no_fault demo_cleanup db_deleting).
  - right. right. reflexivity.
  - exact ended_deleting.
Defined.

(** ** The outcome of a cleanup *)

(** The worker confirmed the removal (or does not know the sandbox). *)
Definition removal_confirmed (s : script) (db : DB) (wid id : string) : bool :=
  match (run s (removeSandboxOnWorker wid id) [] [] db).1 with None => true | Some _ => false end.

Definition put_row (id : string) (r : sandbox_row) (db : DB) : DB :=
  set_sandboxes (<[id := r]> (sandboxes db)) db.

Lemma run_removeSandboxOnWorker s wid id db :
  (run s (removeSandboxOnWorker wid id) [] [] db).2 = db.
Proof.
  unfold removeSandboxOnWorker. cbn [run]. unfold exec_tx, Get.
  destruct (workers db !! wid); [|done]. cbn [run].
  destruct (sc_rpc s _ _ Dial); [|done]. cbn [run].
  destruct (sc_rpc s _ _ (CallRemoveSandbox id)); [done|]. by case_bool_decide.
Qed.

Lemma run_cleanup_finish s id target db r :
  sandboxes db !! id = Some r -> row_status r = StatusCleanupPending ->
  run s (cleanup_finish id target) [] [] db = (None, put_row id (row_set_status target r) db).
Proof. intros Hr Hs. unfold cleanup_finish. cbn. unfold UpdateStatus. rewrite Hr, Hs. done. Qed.

Lemma run_cleanup_clear s id target db r :
  sandboxes db !! id = Some r -> row_status r = StatusCleanupPending ->
  run s (cleanup_clear id target) [] [] db
  = (None, put_row id (row_set_status target (row_set_worker None r)) db).
Proof.
  intros Hr Hs. unfold cleanup_clear. cbn [run]. unfold exec_tx, ClearWorker. rewrite Hr.
  rewrite bool_decide_true by done.
  rewrite (run_cleanup_finish _ _ _ _ (row_set_worker None r)); [|apply lookup_insert_eq|done].
  unfold put_row, set_sandboxes. simpl. by rewrite insert_insert_eq.
Qed.

(** The outcome of a cleanup on every branch.  With no worker, the sandbox takes its
    target status; when the worker confirmed the removal, it is unlinked and takes its
    target; when it did not, a non-final attempt changes nothing and returns an error,
    and the final attempt unlinks the sandbox and marks it failed, whatever the target:
    stopped is never written for a sandbox whose removal was not confirmed. *)
Lemma cleanup_outcome s (job : Job CleanupSandboxArgs) db r :
  let id := cl_SandboxID (job_Args job) in
  let target := cleanup_target (job_Args job) in
  let out := run s (CleanupSandboxWorker_Work job) [] [] db in
  sandboxes db !! id = Some r -> row_status r = StatusCleanupPending ->
  match row_worker r with
  | None => out = (None, put_row id (row_set_status target r) db)
  | Some w =>
      if removal_confirmed s db w id
      then out = (None, put_row id (row_set_status target (row_set_worker None r)) db)
      else if isFinalAttempt job
      then out = (None, put_row id (row_set_status StatusFailed (row_set_worker None r)) db)
      else (exists e, out.1 = Some e) /\ out.2 = db
  end.
Proof.
  intros id target out Hr Hs. unfold out, CleanupSandboxWorker_Work. fold id.
  cbn [run]. unfold exec_tx, GetByID. rewrite Hr.
  change (sb_Status (row_sandbox r)) with (row_status r).
  change (sb_WorkerID (row_sandbox r)) with (row_worker r). rewrite Hs.
  destruct (row_worker r) as [w|]; [|by apply run_cleanup_finish].
  rewrite run_bind. unfold removal_confirmed.
  pose proof (run_removeSandboxOnWorker s w id db) as Hdb.
  destruct (run s (removeSandboxOnWorker w id) [] [] db) as [[e|] db'];
    cbn [fst snd] in *; subst db'; [|by apply run_cleanup_clear].
  destruct (isFinalAttempt job); cbn [negb]; [by apply run_cleanup_clear|].
  split; [by eexists|done].
Qed.

Lemma cleanup_outcome_witness :
  let dead := mkScript (mkEnv t0 ∅) t0 unreachable_rpc in
  let last := mkJob (job_Args demo_cleanup) 5 5 in
  (exists e, (run dead (CleanupSandboxWorker_Work demo_cleanup) [] [] db_deleting).1 = Some e)
  /\ status_of "s1" (run dead (CleanupSandboxWorker_Work last) [] [] db_deleting).2 = Some StatusFailed.
Proof.
  intros dead last.
  destruct (sandboxes db_deleting !! "s1"%string) as [r|] eqn:E; [|vm_compute in E; discriminate E].
  assert (row_status r = StatusCleanupPending /\ row_worker r = Some "w1"%string) as [Hs Hw].
  { vm_compute in E. injection E as <-. split; reflexivity. }
  pose proof (cleanup_outcome dead demo_cleanup db_deleting r E Hs) as H1.
  pose proof (cleanup_outcome dead last db_deleting r E Hs) as H2.
  cbv zeta in H1, H2. rewrite Hw in H1, H2.
  replace (removal_confirmed dead db_deleting "w1" _) with false in H1 by (vm_compute; reflexivity).
  replace (removal_confirmed dead db_deleting "w1" _) with false in H2 by (vm_compute; reflexivity).
  split; [exact (proj1 H1)|]. change (isFinalAttempt last) with true in H2. cbv iota in H2.
  rewrite H2. unfold status_of, put_row. cbn [snd sandboxes set_sandboxes].
  rewrite lookup_insert_eq. reflexivity.
Defined.

(** ** The HTTP handlers *)

(** C23: the API answers its owner only, whatever happens while a handler runs.  A
    response 200 of [getSandboxByID] carries the sandbox that was asked for, owned by the
    authenticated caller; a listing holds only sandboxes of the caller, whatever ids the
    workers report; a deletion answers 202 or 204 only to the owner, with the sandbox given
    up, in cleanup_pending with its cleanup job, or over.  The sandbox of another user does
    not exist for the caller: reading or deleting it answers 404, as for an unknown id, and
    writes nothing.  A response 201 of [createSandbox] carries the new sandbox, owned by the
    caller, of at least one and at most [SandboxVcpu] CPUs, at most [SandboxMemMiB] of memory
    and a positive TTL, whatever the events of the job. *)
Theorem api_owner_only Flt third conf uuid jobID evs body user id db :
  WP Flt (getSandboxByID user id)
    (fun r _ => rs_code r = StatusOK ->
       exists u s, user = Some u /\ rs_body r = BodySandbox s /\ sb_ID s = id
                   /\ sb_UserID s = Some (u_ID u)) db
  /\ WP Flt (listSandboxes user)
       (fun r _ => forall l, rs_body r = BodyList l ->
          exists u, user = Some u /\ Forall (fun s => sb_UserID s = Some (u_ID u)) l) db
  /\ WP Flt (deleteSandbox conf user id)
       (fun r db' => rs_code r = StatusAccepted \/ rs_code r = StatusNoContent ->
          exists u, user = Some u /\ owned_row u id db' /\ ended id db') db
  /\ (forall s u r, user = Some u -> id <> EmptyString -> sandboxes db !! id = Some r ->
        sb_UserID (row_sandbox r) <> Some (u_ID u) ->
        run s (getSandboxByID user id) [] [] db = (not_found, db)
        /\ run s (deleteSandbox conf user id) [] [] db = (not_found, db))
  /\ WP Flt (createSandbox third conf uuid jobID evs user body)
       (fun o _ => forall r, o = Responded r -> rs_code r = StatusCreated ->
          exists u s, user = Some u /\ rs_body r = BodySandbox s /\ sb_ID s = uuid
                      /\ sb_UserID s = Some (u_ID u)
                      /\ 0 < sb_VcpuCount s <= SandboxVcpu
                      /\ 0 < sb_MemSizeMib s <= SandboxMemMiB /\ 0 < sb_TTL s) db.
Proof.
  split; [apply WP_getSandboxByID|]. split; [apply WP_listSandboxes|]. split; [apply WP_deleteSandbox|].
  split; [|apply WP_createSandbox].
  intros s u r -> Hid Hr Hu. unfold getSandboxByID, deleteSandbox, fetch_owned.
  rewrite !bool_decide_false by done. cbn [run]. unfold exec_tx, GetByID. rewrite Hr.
  unfold owns. rewrite !bool_decide_false by done. done.
Qed.

(** Another user cannot delete the sandbox. *)
Lemma api_owner_only_witness :
  run (at_time t0) (deleteSandbox true (Some (mkUser "u2" "eve@fire.local" EmptyString t0)) "s1")
    [] [] db_running = (not_found, db_running).
Proof.
  destruct (sandboxes db_running !! "s1"%string) as [r|] eqn:E; [|vm_compute in E; discriminate E].
  destruct (api_owner_only (fun _ => True) (fun _ m => m) true "s2" 7 [] None
              (Some (mkUser "u2" "eve@fire.local" EmptyString t0)) "s1" db_running) as (_ & _ & _ & H & _).
  apply (H (at_time t0) (mkUser "u2" "eve@fire.local" EmptyString t0) r).
  - reflexivity.
  - discriminate.
  - exact E.
  - vm_compute in E. injection E as <-. discriminate.
Defined.

(** ** A full cluster *)

(** What the loop returns when the fleet is full: the cancellation the handler looks for. *)
Definition cluster_full_error (id : string) : error :=
  JobCancel (Wrap ("max attempts exhausted for sandbox=" +:+ id +:+ ": ")
    (Wrap "choose worker: " (Sentinel Orchestrator_ErrClusterFull))).

Lemma choose_full cs :
  has_active cs -> ~ has_eligible cs ->
  ChooseLeastUsedWorker cs = Ret (Err (Sentinel Orchestrator_ErrClusterFull)).
Proof.
  intros Ha He. unfold ChooseLeastUsedWorker. destruct cs as [|c cs'] eqn:Ecs.
  { destruct Ha as (c & Hc & _). by apply not_elem_of_nil in Hc. }
  rewrite <- Ecs in *. cbv zeta. rewrite (proj2 (existsb_elem (considered true) cs)) by done.
  rewrite bool_decide_true; [done|].
  destruct (filter _ cs) as [|c0 l] eqn:E; [done|]. exfalso. apply He. exists c0.
  apply with_capacity_in. rewrite E. left.
Qed.

(** C24: a full cluster is a 503.  When workers are active and none has room, the job is
    cancelled at once, on any attempt, and from the text of that error the handler that
    waits for the job answers 503 with a Retry-After, given that the text of a River
    cancellation contains the text of the error it carries ([river_text]). *)
Theorem cluster_full_is_503 (third : error -> string -> string)
    (river_text : forall e m, Contains (third (JobCancel e) m) m = true)
    s n id jobID isFinal dropped cs db st prev :
  has_active cs -> ~ has_eligible cs ->
  (run s (assign_loop (S n) id isFinal dropped cs) [] [] db).1
  = LoopReturn (Some (cluster_full_error id))
  /\ wait_loop id jobID
       [SubEvent (Some (mkJobEvent EventKindJobCancelled jobID st
                          (prev ++ [Error third (cluster_full_error id)])))]
     = Ret (Responded (mkResponse StatusServiceUnavailable
                         (BodyError "no worker capacity available") (Some "30"%string))).
Proof.
  intros Ha He. split.
  - cbn [assign_loop]. rewrite (choose_full cs Ha He). cbn [bind errors_Is].
    rewrite bool_decide_true by done. unfold maybeCleanup. cbn [negb bind run]. unfold exec_tx.
    by destruct (maybeCleanup_tx_Ok id (sc_env s) db) as [db' ->].
  - cbn [wait_loop je_JobID je_Kind je_Errors]. rewrite Z.eqb_refl. cbn [negb].
    unfold jobFailedClusterFull. rewrite last_snoc.
    assert (Contains (Error third (cluster_full_error id))
              (sentinel_text Orchestrator_ErrClusterFull) = true) as ->; [|done].
    cbn [cluster_full_error Error]. eapply Contains_trans; [apply river_text|].
    eapply Contains_trans; [apply Contains_app_r|apply Contains_app_r].
Qed.

(** A worker whose memory is used up. *)
Definition full_candidate : WorkerCandidate :=
  mkCandidate (scanWorker "w1" (heartbeat_row (workerFromHeartbeat t0 (demo_heartbeat 1 [])) t0 1 0 t0 None))
    (Some (mkInfo "w1" "10.0.0.1" "active" 4 4096 2 10 4096 0)).

Lemma cluster_full_is_503_witness :
  (run (at_time t0) (assign_loop 1 "s1" false false [full_candidate]) [] [] db_pending).1
  = LoopReturn (Some (cluster_full_error "s1")).
Proof.
  apply (cluster_full_is_503 (fun e m => ("JobCancelError: " +:+ m)%string)
           (fun e m => Contains_app_r "JobCancelError: " m)
           (at_time t0) 0 "s1" 7 false false [full_candidate] db_pending JobStateCancelled []).
  - exists full_candidate. split; [left|vm_compute; reflexivity].
  - intros (c & Hc & He). apply list_elem_of_singleton in Hc. subst c.
    vm_compute in He. discriminate He.
Defined.
