(* ===== verification/Fencing.v ===== *)
(** * Fencing

    A worker machine that restarts registers again and gets a larger token; whatever its
    previous process still sends is refused without a trace.  Heartbeats carry the
    verdict back to the worker, and one inventory per incarnation is the first. *)

From Stdlib Require Import ZArith Lia.
From stdpp Require Import base tactics option list gmap strings numbers relations.
From S2P Require Import Prelude GoStd Database SandboxRepo WorkerRepo Program Jobs EventGRPC.
From S2P Require Import HTTP Auth Lifecycle Steps Threads System Scenario.

Open Scope Z_scope.

(** A newer incarnation of the worker has registered. *)
Definition superseded (wid : string) (token : Z) (db : DB) : Prop :=
  exists w, workers db !! wid = Some w /\ token < wr_fencing_token w.

Lemma evolves_superseded wid token db db' :
  evolves db db' -> superseded wid token db -> superseded wid token db'.
Proof.
  intros E (w & Hw & Ht). destruct (ev_workers _ _ E _ _ Hw) as (w' & Hw' & [H _ _]).
  exists w'. split; [done|lia].
Qed.

(** A transaction that returns an error leaves the database as it was, and so does one
    whose connection fails before it. *)
Lemma wp_refused {A X} Flt (f : tx X) (k : result error X -> prog A) Q P db :
  (forall db1, evolves db db1 -> P db1) ->
  (forall env db1, P db1 -> exists e, (f env db1).1 = Err e /\ wp Flt Inv evolves eq (k (Err e)) Q db1) ->
  (forall m db1, P db1 -> faulty Flt -> wp Flt Inv evolves eq (k (Err (DriverError m))) Q db1) ->
  wp Flt Inv evolves eq (Tx f k) Q db.
Proof.
  intros HP Hf Hm db1 env fl r db2 HR HI HF Hx. specialize (HP _ HR).
  destruct (Hf env db1 HP) as (e & He & Hk).
  destruct (f env db1) as [[x|e'] d] eqn:Ef; [done|]. injection He as ->.
  destruct fl as [|m|m]; unfold exec_tx in Hx; rewrite ?Ef in Hx; injection Hx as <- <-;
    split_and!; try done.
  apply Hm; [done|]. by exists (FailBefore m).
Qed.

Lemma Update_superseded w env db :
  superseded (wk_ID w) (wk_FencingToken w) db ->
  Update w env db = (Err (Sentinel Worker_ErrFenced), db).
Proof.
  intros (r & Hr & Ht). unfold Update, whyRefused. rewrite Hr.
  destruct (Z.eqb_spec (wr_fencing_token r) (wk_FencingToken w)); [lia|].
  by destruct (Z.ltb_spec (wr_fencing_token r) (wk_FencingToken w)); [lia|].
Qed.

Lemma reconcile_refused w inv env db e db' :
  Update w env db = (Err e, db') -> reconcile_tx w inv env db = (Err e, db').
Proof. intros H. unfold reconcile_tx, tx_bind. by rewrite H. Qed.

(** The answer a superseded worker gets. *)
Definition refused Flt (e : option error) : Prop :=
  exists err, e = Some err
    /\ (status_Code err = FailedPrecondition \/ (faulty Flt /\ status_Code err = Internal)).

(** A heartbeat of the old incarnation. *)
Lemma heartbeat_fenced Flt req db :
  0 < hb_FencingToken req -> missing_worker_id req = false ->
  superseded (TrimSpace (hb_WorkerId req)) (hb_FencingToken req) db ->
  wp Flt Inv evolves eq (ReportWorkerHeartbeat true (Some req)) (fun e _ => refused Flt e) db.
Proof.
  intros Ht Hid Hs. unfold ReportWorkerHeartbeat. rewrite Hid.
  destruct (Z.leb_spec (hb_FencingToken req) 0); [lia|]. intros now.
  destruct (hb_InventoryComplete req); cbn [negb].
  - apply wp_bind. unfold reconcileHeartbeat. cbn [negb].
    apply wp_refused with (P := superseded (TrimSpace (hb_WorkerId req)) (hb_FencingToken req)).
    + intros db1 HR. by eapply evolves_superseded.
    + intros env db1 HP. rewrite (reconcile_refused _ _ _ _ _ _
        (Update_superseded (workerFromHeartbeat now req) env db1 HP)).
      eexists. split; [done|]. eexists. split; [done|]. by left.
    + intros m db1 _ HF. eexists. split; [done|]. by right.
  - apply wp_refused with (P := superseded (TrimSpace (hb_WorkerId req)) (hb_FencingToken req)).
    + intros db1 HR. by eapply evolves_superseded.
    + intros env db1 HP. rewrite (Update_superseded (workerFromHeartbeat now req)) by done.
      eexists. split; [done|]. eexists. split; [done|]. by left.
    + intros m db1 _ HF. eexists. split; [done|]. by right.
Qed.

(** An event of the old incarnation. *)
Lemma event_fenced Flt uuid req db :
  0 < em_FencingToken req -> TrimSpace (em_SandboxId req) <> EmptyString ->
  TrimSpace (em_WorkerId req) <> EmptyString -> em_State req <> STATE_UNSPECIFIED ->
  superseded (TrimSpace (em_WorkerId req)) (em_FencingToken req) db ->
  wp Flt Inv evolves eq (IngestSandboxEvent uuid (Some req)) (fun e _ => refused Flt e) db.
Proof.
  intros Ht Hsb Hwk Hst Hs. unfold IngestSandboxEvent. cbv zeta. intros now.
  rewrite !bool_decide_false by done. cbn [orb].
  destruct (Z.leb_spec (em_FencingToken req) 0); [lia|].
  apply wp_refused with (P := superseded (TrimSpace (em_WorkerId req)) (em_FencingToken req)).
  - intros db1 HR. by eapply evolves_superseded.
  - intros env db1 (w & Hw & Hlt). exists (Sentinel Orchestrator_ErrEventFenced).
    unfold CreateSandboxEvent. cbn [se_WorkerID se_FencingToken]. rewrite Hw.
    destruct (Z.eqb_spec (wr_fencing_token w) (em_FencingToken req)); [lia|].
    split; [done|]. eexists. split; [done|]. by left.
  - intros m db1 _ HF. eexists. split; [done|]. by right.
Qed.

(** The row of a registration, and nothing else. *)
Definition takes_over (w : Worker) (env : txenv) (x : Worker) (db db' : DB) : Prop :=
  exists r, workers db' !! wk_ID w = Some r
    /\ wr_fencing_token r = wk_FencingToken x
    /\ wk_FencingToken w < wk_FencingToken x <= max_int64
    /\ (forall r0, workers db !! wk_ID w = Some r0 -> wr_fencing_token r0 < wk_FencingToken x)
    /\ wr_inventory_token r < wr_fencing_token r
    /\ wr_registered_at r = tx_now env /\ wr_inactive_since r = None
    /\ (forall id, id <> wk_ID w -> workers db' !! id = workers db !! id)
    /\ sandboxes db' = sandboxes db /\ jobs db' = jobs db.

Lemma register_takes_over w env db x db' :
  Inv db -> Register w env db = (Ok x, db') -> takes_over w env x db db'.
Proof.
  intros HI H. unfold Register, next_token in H.
  destruct (Z.leb_spec (Z.max (match workers db !! wk_ID w with
    | Some r => wr_fencing_token r | None => 0 end) (wk_FencingToken w) + 1) max_int64) as [Hm|]; [|done].
  injection H as <- <-. eexists. split; [apply lookup_insert_eq|]. cbn. split; [done|].
  split; [lia|]. split; [intros r0 ->; lia|].
  split; [destruct (workers db !! wk_ID w) as [r0|] eqn:Hr0;
            [pose proof (inv_workers _ HI _ _ Hr0) as [? ?]|]; lia|].
  repeat split. intros id Hid. by rewrite lookup_insert_ne.
Qed.

(** C29: a registration fences the previous incarnation.  Its token is above the one stored
    and above the one presented, is the one returned, and marks a new registration of an
    active row whose inventory is still to come; nothing else changes.  From then on,
    whatever the database becomes, every heartbeat that carries a smaller token, with an
    inventory or without, is refused with FailedPrecondition (or Internal if the database
    failed), and none of its transactions changes the database: it cannot revive its row,
    report its sandboxes or have any claimed.  Sandbox events with such a token are refused
    too, are not stored, and move no sandbox to running. *)
Theorem superseded_refused Flt w env db x db' :
  Inv db -> Register w env db = (Ok x, db') ->
  takes_over w env x db db'
  /\ forall later token, evolves db' later -> 0 < token < wk_FencingToken x ->
       (forall req, TrimSpace (hb_WorkerId req) = wk_ID w -> hb_FencingToken req = token ->
          missing_worker_id req = false ->
          wp Flt Inv evolves eq (ReportWorkerHeartbeat true (Some req)) (fun e _ => refused Flt e) later)
       /\ (forall uuid req, TrimSpace (em_WorkerId req) = wk_ID w -> em_FencingToken req = token ->
            TrimSpace (em_SandboxId req) <> EmptyString -> TrimSpace (em_WorkerId req) <> EmptyString ->
            em_State req <> STATE_UNSPECIFIED ->
            wp Flt Inv evolves eq (IngestSandboxEvent uuid (Some req)) (fun e _ => refused Flt e) later).
Proof.
  intros HI H. pose proof (register_takes_over _ _ _ _ _ HI H) as Ht. split; [exact Ht|].
  destruct Ht as (r & Hr & Hx & _). intros later token He Hlt.
  assert (superseded (wk_ID w) token later) as Hs.
  { eapply evolves_superseded; [exact He|]. exists r. split; [done|lia]. }
  split.
  - intros req Hw <- Hid. apply heartbeat_fenced; [lia|done|by rewrite Hw].
  - intros uuid req Hw <- Hsb Hwk Hst. apply event_fenced; [lia|done..|by rewrite Hw].
Qed.

Lemma superseded_refused_witness :
  exists x db', Register (workerFromHeartbeat t0 (demo_heartbeat 1 [])) (mkEnv t0 ∅) db_worker = (Ok x, db')
  /\ wk_FencingToken x = 2
  /\ wp any_fault Inv evolves eq
    (ReportWorkerHeartbeat true (Some (demo_heartbeat 1 [mkEntry "s1" STATE_DEAD])))
    (fun e _ => refused any_fault e) db'
  /\ wp any_fault Inv evolves eq
    (IngestSandboxEvent "e1" (Some (mkEventMsg EmptyString "s1" "w1" STATE_RUNNING None 1)))
    (fun e _ => refused any_fault e) db'.
Proof.
  destruct (Register (workerFromHeartbeat t0 (demo_heartbeat 1 [])) (mkEnv t0 ∅) db_worker)
    as [[x|e] db'] eqn:E; [|vm_compute in E; discriminate E].
  destruct (superseded_refused any_fault _ _ _ _ _ (reachable_Inv _ (later_reachable _ _ later_worker)) E) as [_ H].
  exists x, db'. split; [reflexivity|].
  assert (wk_FencingToken x = 2) as Hx by (vm_compute in E; injection E as <- _; reflexivity).
  split; [exact Hx|]. destruct (H db' 1 ltac:(reflexivity)) as [H1 H2]; [rewrite Hx; split; reflexivity|]. split.
  - apply H1; [reflexivity|reflexivity|vm_compute; reflexivity].
  - apply H2; [reflexivity|reflexivity|vm_compute; discriminate|vm_compute; discriminate|discriminate].
Defined.

(** ** The verdict of a heartbeat *)

(** What the stored row says of the token a heartbeat presents. *)
Definition verdict (db : DB) (wid : string) (token : Z) : option code :=
  match workers db !! wid with
  | None => Some NotFound
  | Some w => if wr_fencing_token w =? token then None
              else if wr_fencing_token w <? token then Some NotFound else Some FailedPrecondition
  end.

Lemma Update_verdict w env db :
  match verdict db (wk_ID w) (wk_FencingToken w) with
  | None => exists x db', Update w env db = (Ok x, db')
  | Some c => exists e, Update w env db = (Err e, db) /\ status_Code (heartbeatError e) = c
  end.
Proof.
  unfold verdict, Update, whyRefused. destruct (workers db !! wk_ID w) as [r|]; [|by eexists].
  destruct (wr_fencing_token r =? wk_FencingToken w); [by do 2 eexists|].
  destruct (wr_fencing_token r <? wk_FencingToken w); by eexists.
Qed.

(** After [Update] nothing in the transaction fails. *)
Lemma reconcile_tx_Ok w inv env db x db' :
  Update w env db = (Ok x, db') -> exists db2, reconcile_tx w inv env db = (Ok tt, db2).
Proof.
  intros H. unfold reconcile_tx, tx_bind. rewrite H.
  assert (exists b d, ClaimInventory (wk_ID w) (wk_FencingToken w) env db' = (Ok b, d)) as (b & d & ->).
  { unfold ClaimInventory. destruct (workers db' !! wk_ID w); [case_match|]; by do 2 eexists. }
  assert (exists res d2, ReconcileInventory (wk_ID w) b inv env d = (Ok res, d2)) as (res & d2 & ->).
  { unfold ReconcileInventory, tx_bind, when_some.
    destruct b; destruct (IDs inv), (inv_Live inv ++ inv_Running inv), (inv_Running inv), (inv_Dead inv);
      by do 2 eexists. }
  destruct (reconcile_params (wk_ID w) res); by eexists.
Qed.

(** The answer to a heartbeat follows the verdict. *)
Lemma report_verdict s req db :
  0 < hb_FencingToken req -> missing_worker_id req = false ->
  let out := run s (ReportWorkerHeartbeat true (Some req)) [] [] db in
  match verdict db (TrimSpace (hb_WorkerId req)) (hb_FencingToken req) with
  | None => out.1 = None
  | Some c => (exists err, out.1 = Some err /\ status_Code err = c) /\ out.2 = db
  end.
Proof.
  intros Ht Hid. unfold ReportWorkerHeartbeat. rewrite Hid.
  destruct (Z.leb_spec (hb_FencingToken req) 0); [lia|]. cbn [run].
  set (w := workerFromHeartbeat (sc_clock s) req).
  change (TrimSpace (hb_WorkerId req)) with (wk_ID w).
  change (hb_FencingToken req) with (wk_FencingToken w).
  pose proof (Update_verdict w (sc_env s) db) as Hv.
  destruct (hb_InventoryComplete req); cbn [negb].
  - unfold reconcileHeartbeat. cbn [negb bind run]. unfold exec_tx.
    destruct (verdict db (wk_ID w) (wk_FencingToken w)) as [c|].
    + destruct Hv as (e & Hu & Hc). rewrite (reconcile_refused _ _ _ _ _ _ Hu).
      split; [by eexists|done].
    + destruct Hv as (x & db' & Hu). by destruct (reconcile_tx_Ok w (inventoryFromEntries (hb_Sandboxes req)) _ _ _ _ Hu) as [db2 ->].
  - cbn [run]. unfold exec_tx. destruct (verdict db (wk_ID w) (wk_FencingToken w)) as [c|].
    + destruct Hv as (e & -> & Hc). split; [by eexists|done].
    + by destruct Hv as (x & db' & ->).
Qed.

(** C30: a heartbeat gets the verdict its token deserves.  With the current token it is
    accepted; with an older one the answer is FailedPrecondition (another process took
    the worker over: give up); for a worker the database does not know, or whose stored
    token is older than the one presented (a restored database), it is NotFound: register
    again.  Anything refused leaves the database unchanged. *)
Theorem heartbeat_verdict s req db :
  0 < hb_FencingToken req -> missing_worker_id req = false ->
  let out := run s (ReportWorkerHeartbeat true (Some req)) [] [] db in
  match verdict db (TrimSpace (hb_WorkerId req)) (hb_FencingToken req) with
  | None => out.1 = None
  | Some c => (exists err, out.1 = Some err /\ status_Code err = c) /\ out.2 = db
  end.
Proof. apply report_verdict. Qed.

Lemma heartbeat_verdict_witness :
  (exists err, (run (at_time t0) (ReportWorkerHeartbeat true (Some (demo_heartbeat 1 []))) [] [] db_user).1
               = Some err /\ status_Code err = NotFound)
  /\ (run (at_time t0) (ReportWorkerHeartbeat true (Some (demo_heartbeat 1 []))) [] [] db_worker).1 = None.
Proof.
  split.
  - exact (proj1 (heartbeat_verdict (at_time t0) (demo_heartbeat 1 []) db_user eq_refl eq_refl)).
  - exact (heartbeat_verdict (at_time t0) (demo_heartbeat 1 []) db_worker eq_refl eq_refl).
Defined.

(** One first inventory per incarnation.  [ClaimInventory] answers true exactly when
    the token is the current one and no inventory was claimed under it; claimed once, it
    answers false for ever after under that token. *)
Theorem first_inventory_once id token env env2 db b db' :
  Inv db -> ClaimInventory id token env db = (Ok b, db') ->
  (b = true <-> exists w, workers db !! id = Some w /\ wr_fencing_token w = token
                          /\ wr_inventory_token w < token)
  /\ ClaimInventory id token env2 db' = (Ok false, db').
Proof.
  intros HI H. unfold ClaimInventory in *. destruct (workers db !! id) as [w|] eqn:Hw.
  - pose proof (inv_workers _ HI _ _ Hw) as [Hi1 Hi2].
    destruct (Z.eqb_spec (wr_fencing_token w) token) as [Ht|Ht];
      destruct (Z.eqb_spec (wr_inventory_token w) token) as [Hi|Hi]; cbn [andb negb] in H;
      injection H as <- <-.
    + rewrite Hw, Ht, Hi, Z.eqb_refl. split; [|done]. split; [done|]. intros (w' & [= <-] & ? & ?). lia.
    + cbn [workers set_workers]. rewrite lookup_insert_eq. cbn. rewrite Z.eqb_refl, andb_false_r.
      split; [|done]. split; [|done]. intros _. exists w. split; [done|]. split; [done|lia].
    + rewrite Hw. rewrite (proj2 (Z.eqb_neq _ _) Ht). split; [|done]. split; [done|].
      intros (w' & [= <-] & ? & ?). lia.
    + rewrite Hw. rewrite (proj2 (Z.eqb_neq _ _) Ht). split; [|done]. split; [done|].
      intros (w' & [= <-] & ? & ?). lia.
  - injection H as <- <-. rewrite Hw. split; [|done]. split; [done|]. by intros (w' & ? & _).
Qed.

Lemma first_inventory_once_witness :
  exists db', ClaimInventory "w1" 1 (mkEnv t0 ∅) db_worker = (Ok true, db')
    /\ ClaimInventory "w1" 1 (mkEnv t0 ∅) db' = (Ok false, db').
Proof.
  destruct (ClaimInventory "w1" 1 (mkEnv t0 ∅) db_worker) as [[[]|e] db'] eqn:E;
    try (vm_compute in E; discriminate E).
  exists db'. split; [reflexivity|].
  exact (proj2 (first_inventory_once "w1" 1 _ (mkEnv t0 ∅) _ _ _
           (reachable_Inv _ (later_reachable _ _ later_worker)) E)).
Defined.
