(* ===== verification/Registration.v ===== *)
(** * The worker against the orchestrator

    [UpdateWorker] of the worker (monitoring.go) run against the registration and the
    heartbeat of the orchestrator (event_grpc.go): the two sides of the fencing protocol
    together. *)

From Stdlib Require Import ZArith Lia SpecFloat.
From stdpp Require Import base tactics option list gmap strings numbers.
From S2P Require Import Prelude GoStd Database SandboxRepo WorkerRepo Program EventGRPC.
From S2P Require Import Manager Heartbeat Lifecycle Steps System Scenario Fencing.

Open Scope Z_scope.

(** The orchestrator's side of the two calls. *)
Definition orch_register (s : script) (hb : WorkerHeartbeat) (db : DB) : result error Z * DB :=
  run s (RegisterWorker (Some hb)) [] [] db.
Definition orch_report (s : script) (hb : WorkerHeartbeat) (db : DB) : option error * DB :=
  run s (ReportWorkerHeartbeat true (Some hb)) [] [] db.

Definition token_of (db : DB) (id : string) : option Z := wr_fencing_token <$> workers db !! id.

Lemma ReconcileInventory_workers wid first inv env db res db' :
  ReconcileInventory wid first inv env db = (Ok res, db') -> workers db' = workers db.
Proof. intros H. apply (cd_workers _ _ _ (ReconcileInventory_claimed _ _ _ _ _ _ _ H)). Qed.

(** An accepted heartbeat leaves the token of the worker as it is. *)
Lemma Update_token w env db x db' id :
  Update w env db = (Ok x, db') -> token_of db' id = token_of db id.
Proof.
  unfold Update, token_of. destruct (workers db !! wk_ID w) as [r|] eqn:Hr; [|done].
  destruct (_ =? _); [|done]. intros [= <- <-]. cbn.
  destruct (decide (id = wk_ID w)) as [->|N]; [by rewrite lookup_insert_eq, Hr|by rewrite lookup_insert_ne].
Qed.

Lemma ClaimInventory_token wid token env db b db' id :
  ClaimInventory wid token env db = (Ok b, db') -> token_of db' id = token_of db id.
Proof.
  unfold ClaimInventory, token_of. destruct (workers db !! wid) as [r|] eqn:Hr; [|by intros [= <- <-]].
  destruct (_ && _); intros [= <- <-]; [|done]. cbn.
  destruct (decide (id = wid)) as [->|N]; [by rewrite lookup_insert_eq, Hr|by rewrite lookup_insert_ne].
Qed.

Lemma reconcile_tx_token w inv env db db' id :
  reconcile_tx w inv env db = (Ok tt, db') -> token_of db' id = token_of db id.
Proof.
  intros (x & d1 & E1 & (b & d2 & E2 & (res & d3 & E3 & H)%tx_bind_Ok)%tx_bind_Ok)%tx_bind_Ok.
  apply (Update_token _ _ _ _ _ id) in E1 as <-. apply (ClaimInventory_token _ _ _ _ _ _ id) in E2 as <-.
  apply ReconcileInventory_workers in E3. unfold token_of. rewrite <- E3.
  destruct (reconcile_params (wk_ID w) res); by injection H as <-.
Qed.

Lemma orch_report_token s hb db id :
  hb_InventoryComplete hb = true -> (orch_report s hb db).1 = None ->
  token_of (orch_report s hb db).2 id = token_of db id.
Proof.
  intros Hc. unfold orch_report, ReportWorkerHeartbeat. destruct (missing_worker_id hb); [done|].
  destruct (_ <=? 0); [done|]. rewrite Hc. cbn [negb run]. unfold reconcileHeartbeat. cbn [negb bind run].
  unfold exec_tx.
  destruct (reconcile_tx _ _ _ _) as [[[]|e] db'] eqn:E; cbn; [|done]. intros _. by eapply reconcile_tx_token.
Qed.

(** A registration below the largest token succeeds, above both tokens. *)
Lemma orch_register_ok s hb db :
  let id := TrimSpace (hb_WorkerId hb) in
  let cur := default 0 (token_of db id) in
  id <> EmptyString -> Z.max cur (hb_FencingToken hb) < max_int64 ->
  exists db', orch_register s hb db = (Ok (Z.max cur (hb_FencingToken hb) + 1), db')
    /\ token_of db' id = Some (Z.max cur (hb_FencingToken hb) + 1).
Proof.
  intros id cur Hid Hm. unfold orch_register, RegisterWorker, missing_worker_id.
  rewrite bool_decide_eq_false_2 by done. cbn [run]. unfold exec_tx, Register, next_token.
  cbn [wk_ID workerFromHeartbeat NewWorkerFromHeartbeat hp_ID wk_FencingToken hp_FencingToken].
  fold id. replace (match workers db !! id with Some r => wr_fencing_token r | None => 0 end) with cur
    by (unfold cur, token_of; by destruct (workers db !! id)).
  destruct (Z.leb_spec (Z.max cur (hb_FencingToken hb) + 1) max_int64); [|lia].
  eexists. split; [done|]. unfold token_of. cbn. by rewrite lookup_insert_eq.
Qed.

Section Protocol.

Context (ParseFloat : string -> option spec_float) (s : script) (others : Manager -> Manager).

Definition update (pb : probes) (ws : WorkerService) (m : Manager) (db : DB) :=
  UpdateWorker ParseFloat (orch_register s) (orch_report s) others pb ws m db.

(** The worker ID a heartbeat carries. *)
Definition hb_id (pb : probes) (h : string) (ws : WorkerService) : string :=
  wk_ID (probed ParseFloat pb h (ws_worker ws)).

(** The service holds the token of the database. *)
Definition in_step (ws : WorkerService) (db : DB) (id : string) : Prop :=
  ws_needsRegister ws = false /\ 0 < wk_FencingToken (ws_worker ws)
  /\ token_of db id = Some (wk_FencingToken (ws_worker ws)).

(** The heartbeat proper, once a token is known. *)
Lemma report_step w token inv db :
  let hb := heartbeat_of w token true inv in
  let id := TrimSpace (wk_ID w) in
  0 < token -> id <> EmptyString ->
  match verdict db id token with
  | None => (orch_report s hb db).1 = None /\ token_of (orch_report s hb db).2 id = Some token
  | Some c => exists e, orch_report s hb db = (Some e, db) /\ status_Code e = c
  end.
Proof.
  intros hb id Ht Hid. pose proof (report_verdict s hb db Ht) as Hv.
  unfold missing_worker_id in Hv. rewrite bool_decide_eq_false_2 in Hv by done.
  specialize (Hv eq_refl). cbn [hb hb_WorkerId hb_FencingToken heartbeat_of] in Hv. fold hb id in Hv.
  change (run s (ReportWorkerHeartbeat true (Some hb)) [] [] db) with (orch_report s hb db) in Hv.
  destruct (verdict db id token) as [c|] eqn:E.
  - destruct Hv as [(e & H1 & H2) H3]. exists e. split; [|done].
    rewrite (surjective_pairing (orch_report s hb db)). by rewrite H1, H3.
  - split; [done|]. rewrite (orch_report_token s hb db id eq_refl Hv).
    unfold verdict in E. unfold token_of. destruct (workers db !! id) as [r|]; [|done]. cbn.
    destruct (Z.eqb_spec (wr_fencing_token r) token) as [->|]; [done|]. by destruct (_ <? _).
Qed.

(** A heartbeat that registers first is accepted. *)
Lemma update_registers pb h ws m db :
  pb_hostname pb = Ok h -> ws_needsRegister ws = true ->
  let id := hb_id pb h ws in
  TrimSpace id <> EmptyString -> 0 <= wk_FencingToken (ws_worker ws) ->
  Z.max (default 0 (token_of db (TrimSpace id))) (wk_FencingToken (ws_worker ws)) < max_int64 ->
  exists ws' m' db', update pb ws m db = (Ok id, ws', m', db')
    /\ in_step ws' db' (TrimSpace id)
    /\ Z.max (default 0 (token_of db (TrimSpace id))) (wk_FencingToken (ws_worker ws))
       < wk_FencingToken (ws_worker ws').
Proof.
  intros Hh Hn id Hid H0 Hm. unfold update, UpdateWorker, register_step. rewrite Hh, Hn.
  set (w := probed ParseFloat pb h (ws_worker ws)) in *.
  destruct (orch_register_ok s (heartbeat_of w (wk_FencingToken w) false []) db Hid Hm) as (db1 & -> & Ht).
  cbn [hb_WorkerId hb_FencingToken heartbeat_of] in *. fold (hb_id pb h ws) id in Ht |- *.
  change (wk_ID w) with id in *. change (wk_FencingToken w) with (wk_FencingToken (ws_worker ws)) in *.
  set (token := Z.max (default 0 (token_of db (TrimSpace id))) (wk_FencingToken (ws_worker ws)) + 1) in *.
  assert (0 < token) as Hp by lia.
  destruct (Z.leb_spec token 0); [lia|].
  set (m' := others (SetCapacity (wk_Capacity w) m)).
  pose proof (report_step w token (Snapshot m') db1 Hp Hid) as Hr.
  assert (verdict db1 (TrimSpace (wk_ID w)) token = None) as Hv.
  { unfold verdict, token_of in *. change (wk_ID w) with id. destruct (workers db1 !! TrimSpace id); [|done].
    injection Ht as ->. by rewrite Z.eqb_refl. }
  rewrite Hv in Hr. destruct Hr as [Hr1 Hr2].
  destruct (orch_report s _ db1) as [o db2]. cbn in Hr1, Hr2. subst o.
  do 3 eexists. split; [done|]. split; [done|]. cbn [ws_worker wk_FencingToken with_token]. unfold token. lia.
Qed.

(** A heartbeat of a registered worker gets the verdict; NotFound alone makes it register
    again. *)
Lemma update_reports pb h ws m db :
  pb_hostname pb = Ok h -> ws_needsRegister ws = false ->
  let id := hb_id pb h ws in
  let token := wk_FencingToken (ws_worker ws) in
  TrimSpace id <> EmptyString -> 0 < token ->
  exists m' ws', wk_FencingToken (ws_worker ws') = token /\ wk_ID (ws_worker ws') = id
    /\ match verdict db (TrimSpace id) token with
       | None => exists db', update pb ws m db = (Ok id, ws', m', db') /\ in_step ws' db' (TrimSpace id)
       | Some c => exists e, update pb ws m db = (Err e, ws', m', db) /\ status_Code e = c
                             /\ ws_needsRegister ws' = bool_decide (c = NotFound)
       end.
Proof.
  intros Hh Hn id token Hid Hp. unfold update, UpdateWorker, register_step. rewrite Hh, Hn.
  set (w := probed ParseFloat pb h (ws_worker ws)) in *.
  set (m' := others (SetCapacity (wk_Capacity w) m)). exists m'.
  change (wk_FencingToken w) with token.
  pose proof (report_step w token (Snapshot m') db Hp Hid) as Hr.
  change (wk_ID w) with id in *. destruct (verdict db (TrimSpace id) token) as [c|].
  - destruct Hr as (e & -> & Hc). eexists. split; [|split; [|exists e; split; [done|split; [done|by rewrite Hc]]]]; done.
  - destruct Hr as [Hr1 Hr2]. destruct (orch_report s _ db) as [o db2]. cbn in Hr1, Hr2. subst o.
    eexists. split; [|split; [|exists db2; split; [done|]]]; done.
Qed.

(** C36: a worker recovers from a database that lost it.  Its heartbeat is accepted, and
    the database then holds the token of the process; or it is fenced, and then the
    process neither registers again nor has changed anything; or it is unknown, and then
    the very next heartbeat, whatever happened to the database in between, registers the
    worker with a larger token and is accepted. *)
Theorem worker_recovers pb1 pb2 h1 h2 ws m db db' r1 ws1 m1 db1 :
  pb_hostname pb1 = Ok h1 -> pb_hostname pb2 = Ok h2 ->
  let id := hb_id pb1 h1 ws in
  let token := wk_FencingToken (ws_worker ws) in
  TrimSpace id <> EmptyString ->
  (if ws_needsRegister ws then 0 <= token else 0 < token) ->
  token < max_int64 -> default 0 (token_of db (TrimSpace id)) < max_int64 ->
  default 0 (token_of db' (TrimSpace id)) < max_int64 ->
  update pb1 ws m db = (r1, ws1, m1, db1) ->
  (r1 = Ok id /\ in_step ws1 db1 (TrimSpace id))
  \/ (exists e, r1 = Err e /\ status_Code e = FailedPrecondition /\ db1 = db
        /\ ws_needsRegister ws1 = false /\ wk_FencingToken (ws_worker ws1) = token)
  \/ (exists e, r1 = Err e /\ status_Code e = NotFound /\ db1 = db
        /\ exists ws2 m2 db2, update pb2 ws1 m1 db' = (Ok id, ws2, m2, db2)
             /\ in_step ws2 db2 (TrimSpace id) /\ token < wk_FencingToken (ws_worker ws2)).
Proof.
  intros Hh1 Hh2 id token Hid Ht Hmax Hdb Hdb' Hu.
  destruct (ws_needsRegister ws) eqn:Hn.
  { destruct (update_registers pb1 h1 ws m db Hh1 Hn Hid Ht) as (? & ? & ? & E & Hs & _);
      [by apply Z.max_lub_lt|].
    rewrite E in Hu. injection Hu as <- <- <- <-. by left. }
  destruct (update_reports pb1 h1 ws m db Hh1 Hn Hid Ht) as (m' & ws' & Hk & Hi & H).
  fold id token in H, Hk, Hi. destruct (verdict db (TrimSpace id) token) as [c|] eqn:Hv.
  - destruct H as (e & E & Hc & Hreg). rewrite E in Hu. injection Hu as <- <- <- <-. right.
    assert (c = NotFound \/ c = FailedPrecondition) as [->| ->].
    { unfold verdict in Hv. repeat case_match; simplify_eq; auto. }
    + right. exists e. split; [done|]. split; [done|]. split; [done|].
      assert (hb_id pb2 h2 ws' = id) as Hid2.
      { unfold hb_id, probed. cbn. rewrite Hi, bool_decide_eq_false_2; [done|].
        intros Hn0. by rewrite Hn0 in Hid. }
      destruct (update_registers pb2 h2 ws' m' db' Hh2) as (ws2 & m2 & db2 & E2 & Hs2 & Hlt);
        rewrite ?Hid2, ?Hk; [done|done|lia|by apply Z.max_lub_lt|].
      rewrite Hid2, ?Hk in *. exists ws2, m2, db2. split; [done|]. split; [done|]. lia.
    + left. by exists e.
  - destruct H as (db2 & E & Hs). rewrite E in Hu. injection Hu as <- <- <- <-. by left.
Qed.

End Protocol.


(** A machine, and a process that registered as token 3 with a database since lost. *)
Definition demo_probes : probes :=
  mkProbes (Some "0.50 0.40 0.30 1/100 1234"%string)
    (Some ("MemTotal:        4194304 kB" +:+ String (byte 10) "MemAvailable:    2097152 kB"))
    (Some "MemTotal:        4194304 kB"%string) 4 (Ok [IPNet true (Some "127.0.0.1"%string); IPNet false (Some "10.0.0.7"%string)])
    (Ok "w1"%string) EmptyString t0.

Definition demo_service : WorkerService :=
  mkService (with_token 3 (probed (fun _ => None) demo_probes "w1" zero_Worker)) false.

Example demo_capacity : wk_Capacity (ws_worker demo_service) = 4
  /\ wk_mem_usage (ws_worker demo_service) = 2048 /\ wk_Address (ws_worker demo_service) = "10.0.0.7"%string.
Proof. vm_compute. auto. Qed.

Lemma worker_recovers_witness :
  exists ws2 m2 db2,
    update (fun _ => None) (at_time t0) id demo_probes
      (mkService (ws_worker demo_service) true) newManager db_worker = (Ok "w1"%string, ws2, m2, db2)
    /\ in_step ws2 db2 "w1" /\ 3 < wk_FencingToken (ws_worker ws2).
Proof.
  destruct (update (fun _ => None) (at_time t0) id demo_probes demo_service newManager db_user)
    as [[[r1 ws1] m1] db1] eqn:E.
  pose proof (worker_recovers (fun _ => None) (at_time t0) id demo_probes demo_probes "w1" "w1" demo_service
                newManager db_user db_worker r1 ws1 m1 db1 eq_refl eq_refl ltac:(vm_compute; discriminate)
                ltac:(vm_compute; reflexivity) ltac:(vm_compute; reflexivity) ltac:(vm_compute; reflexivity)
                ltac:(vm_compute; reflexivity) E) as Hw.
  vm_compute in E. injection E as <- <- <- <-.
  destruct Hw as [[H _]|[(e & H & Hc & _)|(e & H & _ & _ & Hr)]].
  - discriminate H.
  - injection H as <-. vm_compute in Hc. discriminate Hc.
  - exact Hr.
Defined.
