(* ===== verification/Reconciliation.v ===== *)
(** * Who is claimed, and why

    The statements that take sandboxes away from their normal life, characterised row by
    row: the reaper (TTL, liveness, stalled creations) and the reconciliation of a
    worker's inventory. *)

From Stdlib Require Import ZArith Lia.
From stdpp Require Import base tactics option list gmap strings numbers relations.
From S2P Require Import Prelude GoStd Database SandboxRepo WorkerRepo Program Jobs EventGRPC.
From S2P Require Import HTTP Auth Lifecycle Steps Threads System Scenario.

Open Scope Z_scope.

(** ** The reaper *)

(** The target of the claim the reaper makes on a row, if any: an expired TTL stops the
    sandbox, a silent or lost worker and a stalled creation fail it. *)
Definition reap_verdict (w : ReapSandboxWorker) (env : txenv) (db : DB) (id : string)
    (r : sandbox_row) : option Status :=
  if bool_decide (id ∈ tx_locked env) then None
  else if ttl_expired env r then Some StatusStopped
  else if liveness_expired (rs_livenessTimeout w) (rs_workerLostTimeout w) env db r
          || ((0 <? rs_createTimeout w) && creation_stalled (rs_createTimeout w) env r)
  then Some StatusFailed
  else None.

Definition claim_row (c : bool) (r : sandbox_row) : sandbox_row :=
  if c then row_set_status StatusCleanupPending r else r.

(** What one claiming statement does, given its condition [c] on the rows. *)
Record claims_exactly (c : string -> sandbox_row -> bool) (ids : list string) (db db' : DB) : Prop := {
  ce_rows : forall id, sandboxes db' !! id = (fun r => claim_row (c id r) r) <$> sandboxes db !! id;
  ce_ids : forall id, id ∈ ids <-> exists r, sandboxes db !! id = Some r /\ c id r = true;
  ce_nodup : NoDup ids;
  ce_workers : workers db' = workers db;
  ce_jobs : jobs db' = jobs db;
}.

Lemma claimToCleanup_exact P env db ids db' :
  claimToCleanup P env db = (Ok ids, db') ->
  claims_exactly (fun id r => bool_decide (id ∉ tx_locked env) && P env db r) ids db db'.
Proof.
  intros [= <- <-]. split; [|intros id; apply elem_of_matching_ids|apply NoDup_matching_ids|done|done].
  intros id. cbn [sandboxes set_sandboxes]. by rewrite lookup_update_rows.
Qed.

Lemma nothing_claimed db : claims_exactly (fun _ _ => false) [] db db.
Proof.
  split; [|intros id; split; [no_member|by intros (r & _ & ?)]|by constructor|done|done].
  intros id. by destruct (sandboxes db !! id).
Qed.

(** A claimed row satisfies none of the conditions again. *)
Lemma ttl_expired_claimed env r : ttl_expired env (row_set_status StatusCleanupPending r) = false.
Proof. done. Qed.

Lemma liveness_expired_claimed lt wt env db r :
  liveness_expired lt wt env db (row_set_status StatusCleanupPending r) = false.
Proof.
  unfold liveness_expired. destruct (row_worker _); [|done]. by destruct (workers db !! s).
Qed.

Lemma creation_stalled_claimed t env r :
  creation_stalled t env (row_set_status StatusCleanupPending r) = false.
Proof. done. Qed.

Lemma liveness_expired_workers lt wt env db db' r :
  workers db' = workers db -> liveness_expired lt wt env db' r = liveness_expired lt wt env db r.
Proof. intros E. unfold liveness_expired. by rewrite E. Qed.

Lemma claims_at c ids db db' id r :
  claims_exactly c ids db db' -> sandboxes db !! id = Some r ->
  sandboxes db' !! id = Some (claim_row (c id r) r) /\ (id ∈ ids <-> c id r = true).
Proof.
  intros [R I _ _ _] Hr. split; [by rewrite R, Hr|]. rewrite I, Hr. split; [by intros (? & [= <-] & ?)|eauto].
Qed.

Lemma claims_none c ids db db' id :
  claims_exactly c ids db db' -> sandboxes db !! id = None ->
  sandboxes db' !! id = None /\ id ∉ ids.
Proof. intros [R I _ _ _] Hr. split; [by rewrite R, Hr|]. rewrite I, Hr. by intros (? & ? & _). Qed.

(** The conditions of the three statements; the third is skipped without a timeout. *)
Definition cond_ttl (env : txenv) (id : string) (r : sandbox_row) : bool :=
  bool_decide (id ∉ tx_locked env) && ttl_expired env r.
Definition cond_liveness (w : ReapSandboxWorker) (env : txenv) (db : DB) (id : string)
    (r : sandbox_row) : bool :=
  bool_decide (id ∉ tx_locked env)
  && liveness_expired (rs_livenessTimeout w) (rs_workerLostTimeout w) env db r.
Definition cond_stalled (w : ReapSandboxWorker) (env : txenv) (id : string) (r : sandbox_row) : bool :=
  (0 <? rs_createTimeout w)
  && (bool_decide (id ∉ tx_locked env) && creation_stalled (rs_createTimeout w) env r).

(** The three statements of the reaper, one after the other, on one row. *)
Lemma reap_at w env db d1 d2 d3 l1 l2 l3 id r :
  claims_exactly (cond_ttl env) l1 db d1 -> claims_exactly (cond_liveness w env db) l2 d1 d2 ->
  claims_exactly (cond_stalled w env) l3 d2 d3 -> sandboxes db !! id = Some r ->
  let v := reap_verdict w env db id r in
  sandboxes d3 !! id = Some (claim_row (bool_decide (is_Some v)) r)
  /\ (id ∈ l1 <-> v = Some StatusStopped) /\ (id ∈ l2 \/ id ∈ l3 <-> v = Some StatusFailed)
  /\ ~ (id ∈ l2 /\ id ∈ l3).
Proof.
  intros C1 C2 C3 Hr v. destruct (claims_at _ _ _ _ _ _ C1 Hr) as [H1 I1].
  destruct (claims_at _ _ _ _ _ _ C2 H1) as [H2 I2]. destruct (claims_at _ _ _ _ _ _ C3 H2) as [H3 I3].
  rewrite H3, I1, I2, I3. clear. subst v.
  unfold reap_verdict, cond_ttl, cond_liveness, cond_stalled.
  rewrite bool_decide_not. destruct (bool_decide (id ∈ tx_locked env)); simpl.
  { rewrite andb_false_r. simpl. intuition congruence. }
  destruct (ttl_expired env r); simpl.
  { rewrite liveness_expired_claimed. simpl. rewrite creation_stalled_claimed, andb_false_r. simpl.
    intuition congruence. }
  destruct (liveness_expired _ _ env db r); simpl.
  { rewrite creation_stalled_claimed, andb_false_r. simpl. intuition congruence. }
  destruct (0 <? rs_createTimeout w), (creation_stalled (rs_createTimeout w) env r); simpl;
    intuition congruence.
Qed.

(** The jobs it enqueues. *)
Definition reap_jobs (expired dead stalled : list string) : list JobInsert :=
  ((fun id => cleanupParams id StatusStopped) <$> expired)
    ++ ((fun id => cleanupParams id StatusFailed) <$> dead)
    ++ ((fun id => cleanupParams id StatusFailed) <$> stalled).

(** The transaction as its three statements. *)
Lemma reap_statements w env db db' :
  reap_sandbox_tx w env db = (Ok tt, db') ->
  exists l1 l2 l3 d1 d2 d3,
    claims_exactly (cond_ttl env) l1 db d1 /\ claims_exactly (cond_liveness w env db) l2 d1 d2
    /\ claims_exactly (cond_stalled w env) l3 d2 d3
    /\ (db' = db /\ l1 ++ l2 ++ l3 = []
        \/ db' = add_jobs (reap_jobs l1 l2 l3) d3).
Proof.
  intros (l1 & d1 & E1 & H)%tx_bind_Ok. apply claimToCleanup_exact in E1.
  apply tx_bind_Ok in H as (l2 & d2 & E2 & H). unfold ClaimLivenessExpired in E2.
  destruct (rs_workerLostTimeout w <=? 0); [done|]. apply claimToCleanup_exact in E2.
  apply tx_bind_Ok in H as (l3 & d3 & E3 & H). exists l1, l2, l3, d1, d2, d3.
  split; [exact E1|]. split; [|split].
  - destruct E2 as [R I N W J]. split; [| |done|done|done]; intros id; rewrite ?R, ?I.
    + destruct (sandboxes d1 !! id) as [r|]; [|done]. simpl. unfold cond_liveness.
      by rewrite (liveness_expired_workers _ _ _ _ _ _ (ce_workers _ _ _ _ E1)).
    + unfold cond_liveness.
      split; intros (r & Hr & Hc); exists r; (split; [done|]);
        by rewrite (liveness_expired_workers _ _ _ _ _ _ (ce_workers _ _ _ _ E1)) in *.
  - unfold ClaimStalledCreation in E3. unfold cond_stalled.
    destruct (Z.ltb_spec 0 (rs_createTimeout w)) as [Hp|Hp].
    + destruct (Z.leb_spec (rs_createTimeout w) 0); [lia|]. by apply claimToCleanup_exact in E3.
    + injection E3 as <- <-. apply nothing_claimed.
  - destruct (l1 ++ l2 ++ l3) eqn:El; injection H as <-; [by left|by right].
Qed.

Lemma cleanupParams_inj st : Inj (=) (=) (fun id => cleanupParams id st).
Proof. by intros i j [= ->]. Qed.

Lemma elem_of_cleanupParams ji st (l : list string) :
  ji ∈ (fun id => cleanupParams id st) <$> l <-> exists id, ji = cleanupParams id st /\ id ∈ l.
Proof. apply list_elem_of_fmap. Qed.

Lemma reap_verdict_Some w env db id r st :
  reap_verdict w env db id r = Some st -> st = StatusStopped \/ st = StatusFailed.
Proof. unfold reap_verdict. intros H. repeat case_match; simplify_eq; auto. Qed.

Section Reaped.

Context (w : ReapSandboxWorker) (env : txenv) (db d1 d2 d3 : DB) (l1 l2 l3 : list string).
Context (C1 : claims_exactly (cond_ttl env) l1 db d1).
Context (C2 : claims_exactly (cond_liveness w env db) l2 d1 d2).
Context (C3 : claims_exactly (cond_stalled w env) l3 d2 d3).

Let Hat id r := reap_at w env db d1 d2 d3 l1 l2 l3 id r C1 C2 C3.

Lemma reaped_none id :
  sandboxes db !! id = None -> sandboxes d3 !! id = None /\ ~ (id ∈ l1 \/ id ∈ l2 \/ id ∈ l3).
Proof using C1 C2 C3.
  intros Hr. destruct (claims_none _ _ _ _ _ C1 Hr) as [H1 N1].
  destruct (claims_none _ _ _ _ _ C2 H1) as [H2 N2].
  destruct (claims_none _ _ _ _ _ C3 H2) as [H3 N3]. tauto.
Qed.

Lemma reaped_row id :
  id ∈ l1 \/ id ∈ l2 \/ id ∈ l3 -> exists r, sandboxes db !! id = Some r.
Proof using C1 C2 C3.
  intros Hin. destruct (sandboxes db !! id) as [r|] eqn:Hr; [eauto|].
  by destruct (reaped_none id Hr) as [_ []].
Qed.

Lemma reaped_rows id :
  sandboxes d3 !! id
  = (fun r => claim_row (bool_decide (is_Some (reap_verdict w env db id r))) r) <$> sandboxes db !! id.
Proof using C1 C2 C3.
  destruct (sandboxes db !! id) as [r|] eqn:Hr; [by destruct (Hat id r Hr)|by apply reaped_none].
Qed.

Lemma reaped_jobs ji :
  ji ∈ reap_jobs l1 l2 l3 <->
  exists id r st, sandboxes db !! id = Some r
    /\ reap_verdict w env db id r = Some st /\ ji = cleanupParams id st.
Proof using C1 C2 C3.
  unfold reap_jobs. rewrite !elem_of_app, !elem_of_cleanupParams. split.
  - intros [(id & -> & Hi)|[(id & -> & Hi)|(id & -> & Hi)]];
      (destruct (reaped_row id) as [r Hr]; [tauto|]); destruct (Hat id r Hr) as (_ & A1 & A2 & _);
      do 3 eexists; (split; [exact Hr|]); (split; [|done]); tauto.
  - intros (id & r & st & Hr & Hv & ->). destruct (Hat id r Hr) as (_ & A1 & A2 & _).
    destruct (reap_verdict_Some _ _ _ _ _ _ Hv) as [->| ->]; [left|right].
    + exists id. split; [done|]. by apply A1.
    + destruct (proj2 A2 Hv); eauto.
Qed.

Lemma reaped_nodup : NoDup (reap_jobs l1 l2 l3).
Proof using C1 C2 C3.
  unfold reap_jobs. apply NoDup_app. split; [apply NoDup_fmap_2; [apply cleanupParams_inj|apply C1]|].
  split.
  - intros ji. rewrite elem_of_app, !elem_of_cleanupParams.
    intros (i & -> & _) [(j & [=] & _)|(j & [=] & _)].
  - apply NoDup_app. split; [apply NoDup_fmap_2; [apply cleanupParams_inj|apply C2]|].
    split; [|apply NoDup_fmap_2; [apply cleanupParams_inj|apply C3]].
    intros ji. rewrite !elem_of_cleanupParams. intros (i & -> & Hi) (j & [= <-] & Hj).
    destruct (reaped_row i) as [r Hr]; [tauto|]. by destruct (Hat i r Hr) as (_ & _ & _ & []).
Qed.

End Reaped.

(** It cannot be refused. *)
Lemma reap_sandbox_Ok w env db :
  0 < rs_workerLostTimeout w -> exists db', reap_sandbox_tx w env db = (Ok tt, db').
Proof.
  intros Hw. unfold reap_sandbox_tx, tx_bind, ClaimTTLExpired, ClaimLivenessExpired, ClaimStalledCreation, claimToCleanup.
  destruct (Z.leb_spec (rs_workerLostTimeout w) 0); [lia|]. cbn.
  destruct (Z.ltb_spec 0 (rs_createTimeout w)); [destruct (Z.leb_spec (rs_createTimeout w) 0); [lia|]|]; cbn;
    case_match; by eexists.
Qed.

(** The reaper, row by row and job by job. *)
Lemma reaper_claims w env db db' :
  reap_sandbox_tx w env db = (Ok tt, db') ->
  (forall id, sandboxes db' !! id
     = (fun r => claim_row (bool_decide (is_Some (reap_verdict w env db id r))) r) <$> sandboxes db !! id)
  /\ workers db' = workers db
  /\ exists l, jobs db' = jobs db ++ l /\ NoDup l
     /\ forall ji, ji ∈ l <-> exists id r st, sandboxes db !! id = Some r
                    /\ reap_verdict w env db id r = Some st /\ ji = cleanupParams id st.
Proof.
  intros (l1 & l2 & l3 & d1 & d2 & d3 & C1 & C2 & C3 & H)%reap_statements.
  pose proof (reaped_rows w env db d1 d2 d3 l1 l2 l3 C1 C2 C3) as Hrows.
  pose proof (reaped_jobs w env db d1 d2 d3 l1 l2 l3 C1 C2 C3) as Hjobs.
  pose proof (reaped_nodup w env db d1 d2 d3 l1 l2 l3 C1 C2 C3) as Hnd.
  destruct C1 as [_ _ _ W1 J1], C2 as [_ _ _ W2 J2], C3 as [_ _ _ W3 J3].
  destruct H as [[-> Hnil]| ->].
  - apply app_nil in Hnil as [-> Hnil]. apply app_nil in Hnil as [-> ->].
    split; [|split; [done|]].
    + intros id. rewrite <- Hrows. destruct (sandboxes db !! id) as [r|] eqn:Hr; cycle 1.
      { by rewrite Hrows, Hr. }
      rewrite Hrows, Hr. simpl. destruct (reap_verdict w env db id r) as [st|] eqn:Hv; [|done].
      exfalso. apply (not_elem_of_nil (cleanupParams id st)). apply Hjobs. by exists id, r, st.
    + exists []. split; [by rewrite app_nil_r|]. split; [by constructor|]. apply Hjobs.
  - split; [exact Hrows|]. split; [cbn; congruence|]. exists (reap_jobs l1 l2 l3).
    split; [cbn; congruence|done].
Qed.

(** C31: the reaper claims exactly what it should.  In one transaction it turns to
    cleanup_pending the unlocked sandboxes whose TTL has run out, whose worker heartbeats
    without them or has been inactive for too long, or whose creation stalled, and no
    other row changes; each of them gets exactly one cleanup job, whose target is stopped
    for an expired TTL and failed otherwise.  In particular silence claims nothing by
    itself: while the orchestrator was down no heartbeat was recorded, so no sandbox is
    claimed for it. *)
Theorem reaper_exact w env db db' :
  reap_sandbox_tx w env db = (Ok tt, db') ->
  (forall id, sandboxes db' !! id
     = (fun r => claim_row (bool_decide (is_Some (reap_verdict w env db id r))) r) <$> sandboxes db !! id)
  /\ workers db' = workers db
  /\ exists l, jobs db' = jobs db ++ l /\ NoDup l
     /\ forall ji, ji ∈ l <-> exists id r st, sandboxes db !! id = Some r
                    /\ reap_verdict w env db id r = Some st /\ ji = cleanupParams id st.
Proof. apply reaper_claims. Qed.

(** The scenario's sandbox, an hour after its TTL of ten minutes. *)
Lemma reaper_exact_witness :
  let env := mkEnv (t0 + Hour) ∅ in
  let w := mkReapSandbox (60 * Second) (120 * Second) (300 * Second) in
  exists db', reap_sandbox_tx w env db_running = (Ok tt, db')
    /\ status_of "s1" db' = Some StatusCleanupPending
    /\ cleanupParams "s1" StatusStopped ∈ jobs db'.
Proof.
  intros env w. destruct (reap_sandbox_tx w env db_running) as [[[]|e] db'] eqn:E;
    [|vm_compute in E; discriminate E].
  exists db'. split; [reflexivity|].
  destruct (reaper_exact w env db_running db' E) as (Hrows & _ & l & Hl & _ & Hjobs).
  destruct (sandboxes db_running !! "s1"%string) as [r|] eqn:Er; [|vm_compute in Er; discriminate Er].
  assert (reap_verdict w env db_running "s1" r = Some StatusStopped) as Hv.
  { vm_compute in Er. injection Er as <-. vm_compute. reflexivity. }
  split.
  - unfold status_of. rewrite Hrows, Er. cbn [fmap option_fmap option_map]. rewrite Hv. reflexivity.
  - rewrite Hl. apply elem_of_app. right. apply Hjobs. exists "s1"%string, r, StatusStopped.
    split; [exact Er|]. split; [exact Hv|reflexivity].
Defined.

(** Silence claims nothing.  As long as no worker was marked inactive and no worker
    heartbeat came, after a sandbox was last seen, later than the liveness timeout, the
    liveness claim is empty and writes nothing at any time: an orchestrator that comes
    back after a long outage does not take it for the death of every sandbox. *)
Theorem silence_claims_nothing lt wt env db :
  0 < wt ->
  (forall id r wid w, sandboxes db !! id = Some r -> row_worker r = Some wid ->
     workers db !! wid = Some w ->
     wr_status w <> WorkerStatusInactive
     /\ wr_last_heartbeat w <= Z.max (row_seen r) (wr_registered_at w) + lt) ->
  (ClaimLivenessExpired lt wt env db).1 = Ok []
  /\ sandboxes (ClaimLivenessExpired lt wt env db).2 = sandboxes db.
Proof.
  intros Hwt Hq. unfold ClaimLivenessExpired. destruct (Z.leb_spec wt 0); [lia|].
  assert (forall id r, sandboxes db !! id = Some r ->
            bool_decide (id ∉ tx_locked env) && liveness_expired lt wt env db r = false) as Hn.
  { intros id r Hr. apply andb_false_iff. right. unfold liveness_expired.
    destruct (row_worker r) as [wid|] eqn:Ew; [|done]. destruct (workers db !! wid) as [w|] eqn:Hw; [|done].
    destruct (Hq id r wid w Hr Ew Hw) as [Hs Hb]. apply andb_false_iff. right.
    apply orb_false_iff. split; [by apply Z.ltb_ge|]. by rewrite bool_decide_false. }
  cbn. split.
  - f_equal. apply elem_of_nil_inv. intros id (r & Hr & H')%elem_of_matching_ids.
    by rewrite (Hn id r Hr) in H'.
  - apply map_eq. intros id. rewrite lookup_update_rows. destruct (sandboxes db !! id) as [r|] eqn:Hr; [|done].
    simpl. by rewrite (Hn id r Hr).
Qed.

Lemma silence_claims_nothing_witness :
  (ClaimLivenessExpired (60 * Second) (120 * Second) (mkEnv (t0 + 1000 * Hour) ∅) db_running).1 = Ok [].
Proof.
  apply (silence_claims_nothing (60 * Second) (120 * Second) (mkEnv (t0 + 1000 * Hour) ∅) db_running).
  - reflexivity.
  - intros id r wid w Hr Hrw Hw.
    assert (map_Forall (fun _ r => row_worker r = Some "w1"%string /\ row_seen r = t0) (sandboxes db_running)) as HF.
    { apply (bool_decide_unpack _). vm_compute. exact I. }
    destruct (HF id r Hr) as [Hw1 Hseen]. rewrite Hrw in Hw1. injection Hw1 as ->.
    vm_compute in Hw. injection Hw as <-. rewrite Hseen. split; [discriminate|].
    vm_compute. discriminate.
Defined.

(** ** The inventory of a worker *)

(** What one heartbeat of worker [wid] does to a row, [now] the time of the transaction
    and [registered] the worker's registration time. *)
Definition reconcile_row (wid : string) (first : bool) (inv : Inventory) (now registered : Z)
    (id : string) (r : sandbox_row) : sandbox_row :=
  if bool_decide (row_worker r = Some wid) && status_in (row_status r) active_statuses
  then if first && negb (bool_decide (id ∈ IDs inv)) && (row_seen r <? registered)
       then row_set_status StatusCleanupPending r
       else let r := if bool_decide (id ∈ inv_Live inv ++ inv_Running inv)
                     then row_set_seen (Some now) r else r in
            let r := if bool_decide (id ∈ inv_Running inv)
                        && bool_decide (row_status r = StatusStarting)
                     then row_set_status StatusRunning r else r in
            if bool_decide (id ∈ inv_Dead inv) then row_set_status StatusCleanupPending r else r
  else r.

(** One statement, on one row. *)
Lemma update_at P f env db ids db' id :
  update_returning P f env db = (Ok ids, db') ->
  workers db' = workers db
  /\ sandboxes db' !! id = (fun r => if P id r then f r else r) <$> sandboxes db !! id
  /\ (id ∈ ids <-> exists r, sandboxes db !! id = Some r /\ P id r = true).
Proof.
  intros [= <- <-]. split; [done|]. split; [apply lookup_update_rows|apply elem_of_matching_ids].
Qed.

(** A skipped statement is one that matches no row. *)
Lemma when_some_at wid (l : list string) sts f m env db ids db' id :
  m env db = update_returning (hosted_in wid l sts) f env db ->
  when_some l m env db = (Ok ids, db') ->
  workers db' = workers db
  /\ sandboxes db' !! id = (fun r => if hosted_in wid l sts id r then f r else r) <$> sandboxes db !! id
  /\ (id ∈ ids <-> exists r, sandboxes db !! id = Some r /\ hosted_in wid l sts id r = true).
Proof.
  intros Hm. destruct l as [|a l]; [|cbn [when_some]; rewrite Hm; apply update_at].
  intros [= <- <-]. split; [done|].
  assert (forall r, hosted_in wid [] sts id r = false) as Hf.
  { intros r. unfold hosted_in. rewrite (bool_decide_false (id ∈ [])) by apply not_elem_of_nil.
    by rewrite andb_false_r. }
  split.
  - destruct (sandboxes db !! id) as [r|]; [|done]. simpl. by rewrite Hf.
  - split; [no_member|]. intros (r & _ & H). by rewrite Hf in H.
Qed.

(** The first inventory of an incarnation, on one row. *)
Definition lost_row (wid : string) (first : bool) (ids : list string) (registered : Z)
    (id : string) (r : sandbox_row) : bool :=
  first && (bool_decide (row_worker r = Some wid) && status_in (row_status r) active_statuses
            && negb (bool_decide (id ∈ ids)) && (row_seen r <? registered)).

Lemma lost_at wid (first : bool) ids env db w lost db' id :
  workers db !! wid = Some w ->
  (if first then reconcile_lost wid ids else tx_ret (@nil string)) env db = (Ok lost, db') ->
  workers db' = workers db
  /\ sandboxes db' !! id
     = (fun r => claim_row (lost_row wid first ids (wr_registered_at w) id r) r) <$> sandboxes db !! id
  /\ (id ∈ lost <-> exists r, sandboxes db !! id = Some r
                     /\ lost_row wid first ids (wr_registered_at w) id r = true).
Proof.
  intros Hw. destruct first; cbn [lost_row andb].
  - unfold reconcile_lost. intros H. apply (update_at _ _ env _ _ _ id) in H. by rewrite Hw in H.
  - intros [= <- <-]. split; [done|]. split; [by destruct (sandboxes db !! id)|].
    split; [no_member|by intros (r & _ & ?)].
Qed.

Definition running_row (wid : string) (inv : Inventory) (now : Z) (id : string) (r : sandbox_row)
    : sandbox_row :=
  let r := if hosted_in wid (inv_Live inv ++ inv_Running inv) active_statuses id r
           then row_set_seen (Some now) r else r in
  if hosted_in wid (inv_Running inv) [StatusStarting] id r then row_set_status StatusRunning r else r.

Definition is_active (st : Status) : bool :=
  match st with StatusAssigned | StatusStarting | StatusRunning => true | _ => false end.
Definition is_starting (st : Status) : bool := match st with StatusStarting => true | _ => false end.

Lemma active_in st : status_in st active_statuses = is_active st.
Proof. by destruct st. Qed.
Lemma starting_in st : status_in st [StatusStarting] = is_starting st.
Proof. by destruct st. Qed.
Lemma starting_eq st : bool_decide (st = StatusStarting) = is_starting st.
Proof. by destruct st. Qed.

(** Computes with the decided worker test [Ew]. *)
Ltac decide_rows Ew := cbn; repeat (progress (rewrite ?Ew, ?andb_false_r; cbn)).

(** A case of [reconcile_row_steps] in which every condition is decided. *)
Ltac same_row :=
  split; [reflexivity|]; split;
  [intros [H|H]; first [discriminate H|split; [discriminate|reflexivity]]
  |intros [H1 H2]; first [discriminate H2|by destruct H1|by left|by right]].

(** The four statements, one after the other, are [reconcile_row]. *)
Lemma reconcile_row_steps wid first inv now reg id r :
  let r1 := claim_row (lost_row wid first (IDs inv) reg id r) r in
  let r3 := running_row wid inv now id r1 in
  claim_row (hosted_in wid (inv_Dead inv) active_statuses id r3) r3
  = reconcile_row wid first inv now reg id r
  /\ (lost_row wid first (IDs inv) reg id r = true
      \/ hosted_in wid (inv_Dead inv) active_statuses id r3 = true
      <-> row_status r <> StatusCleanupPending
          /\ row_status (reconcile_row wid first inv now reg id r) = StatusCleanupPending).
Proof.
  assert (bool_decide (id ∈ IDs inv) = false ->
    bool_decide (id ∈ inv_Live inv ++ inv_Running inv) = false
    /\ bool_decide (id ∈ inv_Running inv) = false /\ bool_decide (id ∈ inv_Dead inv) = false) as Hids.
  { rewrite !bool_decide_eq_false. unfold IDs. rewrite !elem_of_app. tauto. }
  unfold reconcile_row, lost_row, running_row, hosted_in, claim_row.
  rewrite !active_in, !starting_in, !starting_eq.
  generalize dependent (bool_decide (id ∈ inv_Live inv ++ inv_Running inv)). intros bf.
  generalize dependent (bool_decide (id ∈ inv_Running inv)). intros br.
  generalize dependent (bool_decide (id ∈ inv_Dead inv)). intros bd.
  generalize dependent (bool_decide (id ∈ IDs inv)). intros bi Hids.
  destruct r as [sb seen]. generalize (row_seen (mkRow sb seen) <? reg). intros bt.
  destruct sb as [sid rt st ttl ca po pu im wk vc mm us].
  unfold row_status, row_worker, row_set_status, row_set_seen, with_status. simpl.
  destruct (bool_decide (wk = Some wid)) eqn:Ew; [|decide_rows Ew; same_row].
  destruct st; decide_rows Ew; try same_row.
  all: destruct bi; [|destruct Hids as (-> & -> & ->); [done|]]; decide_rows Ew.
  all: try (destruct bf, br, bd; decide_rows Ew; same_row).
  all: destruct first, bt; decide_rows Ew; same_row.
Qed.

(** The statements of [ReconcileInventory], with the ones that are skipped. *)
Lemma reconcile_statements wid first inv env db res db' :
  ReconcileInventory wid first inv env db = (Ok res, db') ->
  exists d1 d2 d3 l2 l3,
    (if first : bool then reconcile_lost wid (IDs inv) else tx_ret (@nil string)) env db = (Ok (rr_Lost res), d1)
    /\ when_some (inv_Live inv ++ inv_Running inv)
         (reconcile_seen wid (inv_Live inv ++ inv_Running inv)) env d1 = (Ok l2, d2)
    /\ when_some (inv_Running inv) (reconcile_running wid (inv_Running inv)) env d2 = (Ok l3, d3)
    /\ when_some (inv_Dead inv) (reconcile_dead wid (inv_Dead inv)) env d3 = (Ok (rr_Dead res), db')
    /\ rr_Orphans res = filter (fun x => attributed db' wid x = false) (IDs inv).
Proof.
  intros (lost & d1 & E1 & H)%tx_bind_Ok. destruct (IDs inv) eqn:Eids.
  - injection H as <- <-. unfold IDs in Eids.
    apply app_nil in Eids as [-> Eids]. apply app_nil in Eids as [-> Eids].
    apply app_nil in Eids as [_ ->]. by exists d1, d1, d1, [], [].
  - rewrite <- Eids in *. apply tx_bind_Ok in H as (l2 & d2 & E2 & H).
    apply tx_bind_Ok in H as (l3 & d3 & E3 & H). apply tx_bind_Ok in H as (dead & d4 & E4 & H).
    apply tx_bind_Ok in H as (orphans & d5 & [= <- <-] & [= <- <-]).
    by exists d1, d2, d3, l2, l3.
Qed.

Lemma reconcile_at wid first inv env db w res db' id :
  workers db !! wid = Some w -> ReconcileInventory wid first inv env db = (Ok res, db') ->
  let rr := reconcile_row wid first inv (tx_now env) (wr_registered_at w) id in
  workers db' = workers db
  /\ sandboxes db' !! id = rr <$> sandboxes db !! id
  /\ (id ∈ rr_Lost res \/ id ∈ rr_Dead res <->
      exists r, sandboxes db !! id = Some r /\ row_status r <> StatusCleanupPending
                /\ row_status (rr r) = StatusCleanupPending).
Proof.
  intros Hw (d1 & d2 & d3 & l2 & l3 & E1 & E2 & E3 & E4 & _)%reconcile_statements rr.
  destruct (lost_at _ _ _ _ _ _ _ _ id Hw E1) as (W1 & R1 & I1).
  destruct (when_some_at wid _ active_statuses (row_set_seen (Some (tx_now env)))
              (reconcile_seen wid (inv_Live inv ++ inv_Running inv)) _ _ _ _ id eq_refl E2)
    as (W2 & R2 & _).
  destruct (when_some_at wid _ [StatusStarting] (row_set_status StatusRunning)
              (reconcile_running wid (inv_Running inv)) _ _ _ _ id eq_refl E3)
    as (W3 & R3 & _).
  destruct (when_some_at wid _ active_statuses (row_set_status StatusCleanupPending)
              (reconcile_dead wid (inv_Dead inv)) _ _ _ _ id eq_refl E4)
    as (W4 & R4 & I4).
  split; [congruence|]. rewrite I1, I4, R4, R3, R2, R1.
  destruct (sandboxes db !! id) as [r|]; cycle 1.
  { split; [done|]. split; [intros [(? & ? & _)|(? & ? & _)]|intros (? & ? & _)]; done. }
  simpl.
  destruct (reconcile_row_steps wid first inv (tx_now env) (wr_registered_at w) id r) as [Hrow Hiff].
  split; [f_equal; exact Hrow|]. split.
  - intros [(r' & [= <-] & H)|(r' & [= <-] & H)]; exists r; (split; [done|]); apply Hiff; auto.
  - intros (r' & [= <-] & H). apply Hiff in H as [H|H]; [left|right]; eexists; (split; [done|]); exact H.
Qed.

(** Reconciling changes neither the worker of a row nor whether it is over. *)
Lemma reconcile_row_attributed wid first inv now reg id r :
  row_worker (reconcile_row wid first inv now reg id r) = row_worker r
  /\ (row_status (reconcile_row wid first inv now reg id r) ∈ terminal_statuses
      <-> row_status r ∈ terminal_statuses).
Proof.
  unfold reconcile_row. destruct (bool_decide (row_worker r = Some wid)); cbn [andb]; [|done].
  destruct (status_in (row_status r) active_statuses) eqn:Ea; [|done].
  assert (row_status r ∉ terminal_statuses) as Hn.
  { apply status_in_true in Ea. intros Ht. status_cases; congruence. }
  split; [by repeat case_match|]. split; [|done]. intros Ht. exfalso.
  repeat case_match; unfold row_status in *; simpl in *; try done; status_cases; discriminate.
Qed.

(** The reconciliation, row by row, with what it returns. *)
Lemma reconcile_rows wid first inv env db w res db' :
  workers db !! wid = Some w -> ReconcileInventory wid first inv env db = (Ok res, db') ->
  (forall id, sandboxes db' !! id
     = reconcile_row wid first inv (tx_now env) (wr_registered_at w) id <$> sandboxes db !! id)
  /\ (forall id, id ∈ rr_Lost res ++ rr_Dead res <->
        exists r r', sandboxes db !! id = Some r /\ sandboxes db' !! id = Some r'
                     /\ row_status r <> StatusCleanupPending /\ row_status r' = StatusCleanupPending)
  /\ (forall id, id ∈ rr_Orphans res <->
        id ∈ IDs inv
        /\ ~ exists r, sandboxes db !! id = Some r /\ row_worker r = Some wid
                       /\ row_status r ∉ terminal_statuses).
Proof.
  intros Hw H. pose proof (fun id => reconcile_at wid first inv env db w res db' id Hw H) as Hat.
  split; [by intros id; destruct (Hat id) as (_ & ? & _)|]. split.
  - intros id. destruct (Hat id) as (_ & Hr & Hi). rewrite elem_of_app, Hi, Hr.
    split.
    + intros (r & -> & Hn & Hc). by do 2 eexists.
    + intros (r & r' & -> & [= <-] & Hn & Hc). by exists r.
  - intros id. destruct (Hat id) as (_ & Hr & _).
    destruct (reconcile_statements _ _ _ _ _ _ _ H) as (_ & _ & _ & _ & _ & _ & _ & _ & _ & ->).
    rewrite list_elem_of_filter, (and_comm (attributed _ _ _ = _)). apply and_iff_compat_l.
    unfold attributed. rewrite Hr. destruct (sandboxes db !! id) as [r|]; cbn [fmap option_fmap option_map].
    + destruct (reconcile_row_attributed wid first inv (tx_now env) (wr_registered_at w) id r) as [-> Ht].
      rewrite andb_false_iff, negb_false_iff, status_in_true, Ht, bool_decide_eq_false.
      split.
      * intros Hor (r' & [= <-] & H1 & H2). tauto.
      * intros Hno. destruct (decide (row_worker r = Some wid)); [|by left].
        destruct (decide (row_status r ∈ terminal_statuses)); [by right|]. destruct Hno. eauto.
    + split; [|done]. intros _ (r' & ? & _). done.
Qed.

(** C32: a heartbeat's inventory is reconciled row by row.  Only the rows of the worker
    that are assigned, starting or running change: on the first inventory of the
    incarnation, one the worker does not list and that was not seen since it registered
    is claimed; a listed one that is alive is marked seen now; one reported running goes
    from starting to running; one reported dead is claimed.  The sandboxes returned as
    lost or dead, which get a cleanup job, are exactly the newly claimed ones, and the
    orphans are exactly the listed ids that are no live row of this worker. *)
Theorem reconcile_exact wid first inv env db w res db' :
  workers db !! wid = Some w -> ReconcileInventory wid first inv env db = (Ok res, db') ->
  (forall id, sandboxes db' !! id
     = reconcile_row wid first inv (tx_now env) (wr_registered_at w) id <$> sandboxes db !! id)
  /\ (forall id, id ∈ rr_Lost res ++ rr_Dead res <->
        exists r r', sandboxes db !! id = Some r /\ sandboxes db' !! id = Some r'
                     /\ row_status r <> StatusCleanupPending /\ row_status r' = StatusCleanupPending)
  /\ (forall id, id ∈ rr_Orphans res <->
        id ∈ IDs inv
        /\ ~ exists r, sandboxes db !! id = Some r /\ row_worker r = Some wid
                       /\ row_status r ∉ terminal_statuses).
Proof. apply reconcile_rows. Qed.

(** The scenario's worker restarts and reports a sandbox nobody knows instead of its own. *)
Lemma reconcile_exact_witness :
  let inv := mkInventory [] ["ghost"%string] [] [] in
  let db1 := (run (at_time (t0 + Second)) demo_register [] [] db_running).2 in
  exists res db', ReconcileInventory "w1" true inv (mkEnv (t0 + Minute) ∅) db1 = (Ok res, db')
    /\ "s1"%string ∈ rr_Lost res ++ rr_Dead res /\ "ghost"%string ∈ rr_Orphans res.
Proof.
  intros inv db1.
  destruct (workers db1 !! "w1"%string) as [w|] eqn:Ew; [|vm_compute in Ew; discriminate Ew].
  destruct (ReconcileInventory "w1" true inv (mkEnv (t0 + Minute) ∅) db1) as [[res|e] db'] eqn:E;
    [|vm_compute in E; discriminate E].
  exists res, db'. split; [reflexivity|].
  destruct (reconcile_exact "w1" true inv _ db1 w res db' Ew E) as (Hrows & Hclaims & Horphans). split.
  - apply Hclaims. destruct (sandboxes db1 !! "s1"%string) as [r|] eqn:Er; [|vm_compute in Er; discriminate Er].
    exists r, (reconcile_row "w1" true inv (t0 + Minute) (wr_registered_at w) "s1" r).
    split; [reflexivity|]. split; [rewrite Hrows, Er; reflexivity|].
    vm_compute in Er. injection Er as <-. vm_compute in Ew. injection Ew as <-.
    split; [discriminate|vm_compute; reflexivity].
  - apply Horphans. split; [vm_compute; left|].
    intros (r & Hr & _). vm_compute in Hr. discriminate Hr.
Defined.

(** ** The entries of a heartbeat *)

Definition entry_id (e : SandboxInventoryEntry) : string := TrimSpace (ie_SandboxId e).

(** The state reported for an id: that of its first entry. *)
Definition reported (entries : list SandboxInventoryEntry) (id : string) : option SandboxState :=
  if bool_decide (id = EmptyString) then None
  else (fun p => ie_State p.2) <$> list_find (fun e => entry_id e = id) entries.

(** The list of an inventory a state goes to. *)
Definition bucket (st : SandboxState) (inv : Inventory) : list string :=
  match st with
  | STATE_RUNNING => inv_Running inv
  | STATE_STARTING | STATE_PAUSED => inv_Live inv
  | STATE_DEAD => inv_Dead inv
  | _ => inv_Unknown inv
  end.

Lemma inventory_add_IDs id st inv : IDs (inventory_add id st inv) ≡ₚ id :: IDs inv.
Proof. unfold IDs. destruct st; simpl; solve_Permutation. Qed.

Lemma inventory_add_bucket id st inv : id ∈ bucket st (inventory_add id st inv).
Proof. destruct st; simpl; apply elem_of_app; right; by apply list_elem_of_singleton. Qed.

Lemma inventory_add_mono id st inv st' x :
  x ∈ bucket st' inv -> x ∈ bucket st' (inventory_add id st inv).
Proof. destruct st, st'; simpl; rewrite ?elem_of_app; tauto. Qed.

Lemma reported_cons e entries id :
  reported (e :: entries) id
  = if bool_decide (id = EmptyString) then None
    else if bool_decide (entry_id e = id) then Some (ie_State e) else reported entries id.
Proof.
  unfold reported. case_bool_decide as He; [done|]. cbn [list_find].
  case_bool_decide as Hid.
  - by rewrite decide_True.
  - rewrite decide_False by done. by destruct (list_find _ entries) as [[]|].
Qed.

(** The loop, from any point: [seen] are the ids already placed. *)
Lemma inventory_loop_spec seen inv entries :
  NoDup (IDs inv) -> (forall x, x ∈ seen <-> x ∈ IDs inv) ->
  let inv' := inventory_loop seen inv entries in
  NoDup (IDs inv')
  /\ (forall st x, x ∈ bucket st inv -> x ∈ bucket st inv')
  /\ (forall x, x ∈ IDs inv' <-> x ∈ IDs inv \/ is_Some (reported entries x))
  /\ (forall x st, x ∉ seen -> reported entries x = Some st -> x ∈ bucket st inv').
Proof.
  revert seen inv. induction entries as [|e entries IH]; intros seen inv Hnd Hseen; cbn [inventory_loop].
  { split; [done|]. split; [done|]. split.
    - intros x. unfold reported. case_bool_decide; split; try tauto; intros [?|[? ?]]; done.
    - intros x st _. unfold reported. by case_bool_decide. }
  change (TrimSpace (ie_SandboxId e)) with (entry_id e). setoid_rewrite reported_cons.
  case_bool_decide as He.
  { destruct (IH seen inv Hnd Hseen) as (A & B & C & D). split; [done|]. split; [done|].
    assert (forall x, (if bool_decide (x = EmptyString) then None
              else if bool_decide (entry_id e = x) then Some (ie_State e) else reported entries x)
            = reported entries x) as Heq.
    { intros x. destruct (bool_decide_reflect (x = EmptyString)) as [->|Hx];
        [unfold reported; by rewrite bool_decide_true|].
      rewrite bool_decide_false; [done|congruence]. }
    split; [intros x|intros x st]; rewrite Heq; auto. }
  case_bool_decide as Hs.
  { destruct (IH seen inv Hnd Hseen) as (A & B & C & D). split; [done|]. split; [done|]. split.
    - intros x. rewrite C. case_bool_decide as Hx; [unfold reported; by rewrite bool_decide_true|].
      case_bool_decide as Hx'; [|done]. subst x. apply Hseen in Hs. split; [auto|]. intros _. by left.
    - intros x st Hn. case_bool_decide; [done|]. case_bool_decide; [congruence|]. by apply D. }
  destruct (IH ({[entry_id e]} ∪ seen) (inventory_add (entry_id e) (ie_State e) inv)) as (A & B & C & D).
  { rewrite inventory_add_IDs. apply NoDup_cons. split; [|done]. by rewrite <- Hseen. }
  { intros x. rewrite inventory_add_IDs, elem_of_union, elem_of_singleton, elem_of_cons, Hseen. done. }
  split; [done|]. split; [by intros st x Hx; apply B, inventory_add_mono|]. split.
  - intros x. rewrite C, inventory_add_IDs, elem_of_cons.
    case_bool_decide as Hx.
    { subst x. unfold reported. rewrite bool_decide_true by done. split; [|tauto].
      intros [[?|?]|[? ?]]; [done|by left|done]. }
    case_bool_decide as Hx'; [subst x; split; [|tauto]; intros; right; by eexists|].
    split; [|tauto]. intros [[?|?]|?]; [congruence|tauto|tauto].
  - intros x st Hn. case_bool_decide; [done|]. case_bool_decide as Hx'.
    + intros [= <-]. subst x. apply B, inventory_add_bucket.
    + intros Hr. apply D; [|done]. rewrite elem_of_union, elem_of_singleton. intros [?|?]; [congruence|done].
Qed.

(** A heartbeat's entries become an inventory.  Every id listed with a non-blank
    name is in exactly one list, once, chosen by the state of its first entry, later
    entries of the same id being ignored; nothing else is in any list.  So a sandbox
    reported both dead and running in one message is not both claimed and revived. *)
Theorem inventory_partition entries :
  let inv := inventoryFromEntries entries in
  NoDup (IDs inv)
  /\ (forall id, id ∈ IDs inv <-> is_Some (reported entries id))
  /\ (forall id st, reported entries id = Some st -> id ∈ bucket st inv).
Proof.
  destruct (inventory_loop_spec ∅ (mkInventory [] [] [] []) entries) as (A & B & C & D).
  - by constructor.
  - intros x. split; [by intros ?%elem_of_empty|]. intros H. by apply not_elem_of_nil in H.
  - split; [done|]. split.
    + intros id. unfold inventoryFromEntries. rewrite C. split; [|by right].
      intros [H|H]; [by apply not_elem_of_nil in H|done].
    + intros id st. apply D. apply not_elem_of_empty.
Qed.
