(* ===== verification/Cluster.v ===== *)
(** * A cluster: the database and the machines

    The composition the divergence tests are about (src/test/divergence): the orchestrator
    with its database, and worker machines that host VMs behind the interface of FakeVMs.v,
    each with a network the tests can cut.  [cexec] runs a job or a handler of the
    orchestrator with its calls answered by the machines; [divergences] is the test's
    comparison of the database with the machines. *)

From Stdlib Require Import ZArith Lia SpecFloat.
From stdpp Require Import base tactics option list gmap strings numbers sorting.
From S2P Require Import Prelude GoStd Database SandboxRepo WorkerRepo Program Scheduler Jobs.
From S2P Require Import EventGRPC Manager FakeVMs Capacity Heartbeat WorkerGRPC.

Open Scope Z_scope.

#[local] Set Warnings "-clear-no-such-hyp".

(** ** simworker.go *)

(** [sw_worker] is the worker record of the process, its fencing token included. *)
Record SimWorker (M : Type) : Type := mkSimWorker {
  sw_worker : Worker;
  sw_VMs : M;
  sw_running : bool;
  sw_partitioned : bool;
  sw_stripInventory : bool;
  sw_lostCreates : Z;
}.

Arguments mkSimWorker {M} _ _ _ _ _ _.
Arguments sw_worker {M} _.
Arguments sw_VMs {M} _.
Arguments sw_running {M} _.
Arguments sw_partitioned {M} _.
Arguments sw_stripInventory {M} _.
Arguments sw_lostCreates {M} _.

Definition set_VMs {M} (m : M) (s : SimWorker M) : SimWorker M :=
  mkSimWorker (sw_worker s) m (sw_running s) (sw_partitioned s) (sw_stripInventory s) (sw_lostCreates s).

(** The process stops, the VMs keep running; a machine that dies loses them. *)
Definition Crash {M} (s : SimWorker M) : SimWorker M :=
  mkSimWorker (sw_worker s) (sw_VMs s) false (sw_partitioned s) (sw_stripInventory s) (sw_lostCreates s).
Definition KillMachine (s : SimWorker FakeVMs) : SimWorker FakeVMs :=
  set_VMs (Wipe (sw_VMs s)) (Crash s).
Definition Partition {M} (on : bool) (s : SimWorker M) : SimWorker M :=
  mkSimWorker (sw_worker s) (sw_VMs s) (sw_running s) on (sw_stripInventory s) (sw_lostCreates s).
Definition StripInventory {M} (on : bool) (s : SimWorker M) : SimWorker M :=
  mkSimWorker (sw_worker s) (sw_VMs s) (sw_running s) (sw_partitioned s) on (sw_lostCreates s).
Definition LoseCreateResponses {M} (n : Z) (s : SimWorker M) : SimWorker M :=
  mkSimWorker (sw_worker s) (sw_VMs s) (sw_running s) (sw_partitioned s) (sw_stripInventory s) n.

Definition errPartitioned : error := StatusError Unavailable "network partition".

Definition takeLostCreate {M} (s : SimWorker M) : bool * SimWorker M :=
  if sw_lostCreates s <=? 0 then (false, s) else (true, LoseCreateResponses (sw_lostCreates s - 1) s).

(** The memory of a machine with room for [capacity] sandboxes. *)
Definition sandboxMemMiB : Z := 256 + 64.
Definition workerMemReserveMi : Z := 384.
Definition memBudgetFor (capacity : Z) : Z := workerMemReserveMi + capacity * sandboxMemMiB.

(** ** legacy.go *)

(** The heartbeat of a worker from before fencing tokens. *)
Definition legacy_heartbeat (id : string) (port : Z) : WorkerHeartbeat :=
  mkHeartbeat id "active" "127.0.0.1" (int32 port) 8 8 (int32 (memBudgetFor 8)) 0 0 0 false [].

(** What the loop of [AddLegacyWorker] counts: [status.Code] of a call, OK without error. *)
Definition outcome_code (err : option error) : code :=
  match err with None => OK | Some e => status_Code e end.

Definition count_outcome (err : option error) (outcomes : code -> Z) : code -> Z :=
  fun c => if decide (c = outcome_code err) then outcomes c + 1 else outcomes c.

Section Cluster.

Context {M : Type} `{!SandboxManager M}.

Section Network.

Context (uuid_Parse : string -> bool) (quote : string -> string) (third : error -> string -> string).

(** ** The worker's gRPC server over its manager (worker/grpc_client.go, sandbox.go) *)

Definition answer (f : M -> option error * M) (m : M) : result error unit * M :=
  let '(r, m') := f m in
  (match r with None => Ok tt | Some err => Err (sandboxError third err) end, m').

Definition guarded (id : string) (f : M -> result error unit * M) (m : M) : result error unit * M :=
  match checkSandboxID uuid_Parse quote third id with
  | Some err => (Err err, m)
  | None => f m
  end.

(** simServer: the load of the host is left out. *)
Definition sim_info (w : Worker) : GetWorkerInfoResponse :=
  let i := GetWorkerInfo (mkService w false) in
  mkInfo (wi_Id i) (wi_Address i) (wi_Status i) (wi_CpuBudget i) (wi_MemBudget i) (wi_Capacity i) 0 0
    (wi_LastHeartbeat i).

Definition serve_rpc (w : Worker) (X : Type) (c : rpc X) (m : M) : result error X * M :=
  match c in rpc X return result error X * M with
  | Dial => (Ok tt, m)
  | CallGetWorkerInfo => (Ok (sim_info w), m)
  | CallCreateSandbox req =>
      guarded (rq_Id req) (fun m =>
        match CheckSandboxSize (rq_VcpuCount req) (rq_MemSizeMib req) with
        | Some err => (Err (StatusError InvalidArgument (Error third err)), m)
        | None => answer (sm_Create (mkCreateInput (rq_Id req) (rq_VcpuCount req) (rq_MemSizeMib req))) m
        end) m
  | CallStopSandbox id => guarded id (answer (sm_Stop id)) m
  | CallRemoveSandbox id => guarded id (answer (sm_Remove id)) m
  | CallListRunningSandboxes => (Ok (ie_SandboxId <$> sm_Snapshot m), m)
  end.

(** The worker's side of the network.  Connecting is lazy: it needs no answer; creations are
    not slowed down. *)
Definition is_create {X} (c : rpc X) : bool := match c with CallCreateSandbox _ => true | _ => false end.
Definition is_dial {X} (c : rpc X) : bool := match c with Dial => true | _ => false end.

Definition intercept (X : Type) (c : rpc X) (s : SimWorker M) : result error X * SimWorker M :=
  if negb (is_dial c) && (negb (sw_running s) || sw_partitioned s) then (Err errPartitioned, s)
  else
    let '(r, m') := serve_rpc (sw_worker s) X c (sw_VMs s) in
    let s := set_VMs m' s in
    match r with
    | Ok _ => if is_create c
              then let '(lost, s') := takeLostCreate s in
                   if lost : bool then (Err (StatusError DeadlineExceeded "response lost"), s') else (r, s')
              else (r, s)
    | Err _ => (r, s)
    end.

(** ** cluster.go *)

Record Cluster : Type := mkCluster {
  cu_db : DB;
  cu_sims : gmap string (SimWorker M);
}.

Definition set_db (db : DB) (c : Cluster) : Cluster := mkCluster db (cu_sims c).
Definition set_sim (id : string) (s : SimWorker M) (c : Cluster) : Cluster :=
  mkCluster (cu_db c) (<[id := s]> (cu_sims c)).

(** The machine that answers at an address. *)
Context (route : string -> option string).

(** A job or a handler, run without a fault at time [now]. *)
Fixpoint cexec {A} (now : Z) (p : prog A) (c : Cluster) : A * Cluster :=
  match p with
  | Ret a => (a, c)
  | Tx f k => let '(r, db') := exec_tx (mkEnv now ∅) NoFault f (cu_db c) in cexec now (k r) (set_db db' c)
  | Rpc addr o k =>
      match route addr ≫= (fun id => (id,.) <$> cu_sims c !! id) with
      | Some (id, s) => let '(r, s') := intercept _ o s in cexec now (k r) (set_sim id s' c)
      | None => cexec now (k (Err errPartitioned)) c
      end
  | Draw k => cexec now (k (S754_zero false)) c
  | Now k => cexec now (k now) c
  end.

(** The worker's client to the orchestrator ([link]): one heartbeat of a registered
    worker, with the inventory of its manager. *)
Definition link_heartbeat (s : SimWorker M) : WorkerHeartbeat :=
  let w := sw_worker s in
  if sw_stripInventory s then heartbeat_of w (wk_FencingToken w) false []
  else heartbeat_of w (wk_FencingToken w) true (sm_Snapshot (sw_VMs s)).

Definition beat (now : Z) (s : SimWorker M) (c : Cluster) : option error * Cluster :=
  if negb (sw_running s) || sw_partitioned s then (Some errPartitioned, c)
  else cexec now (ReportWorkerHeartbeat true (Some (link_heartbeat s))) c.

End Network.

(** ** invariants.go *)

Definition short (id : string) : string :=
  if (8 <? String.length id)%nat then String.substring 0 8 id else id.

Definition isActive (st : Status) : bool :=
  match st with StatusAssigned | StatusStarting | StatusRunning => true | _ => false end.

Definition workerOf (s : Sandbox) : string :=
  match sb_WorkerID s with None => "no worker" | Some w => w end.

(** [hosted[id]]: a worker that was never added hosts nothing. *)
Definition hosted (c : Cluster) (id : string) : gmap string SandboxState :=
  default ∅ ((fun s => sm_states (sw_VMs s)) <$> cu_sims c !! id).

Definition row_divergence (c : Cluster) (s : Sandbox) : list string :=
  let name := short (sb_ID s) in
  let st := Status_string (sb_Status s) in
  match sb_Status s with
  | StatusAssigned | StatusStarting | StatusRunning =>
      match sb_WorkerID s with
      | None => ["sandbox " +:+ name +:+ " is " +:+ st +:+ " but has no worker"]
      | Some w =>
          match hosted c w !! sb_ID s with
          | None => ["database: sandbox " +:+ name +:+ " " +:+ st +:+ " on worker " +:+ w
                       +:+ ", but that worker does not host its VM"]
          | Some vm =>
              if decide (vm = StateDead)
              then ["database: sandbox " +:+ name +:+ " " +:+ st +:+ " on worker " +:+ w
                      +:+ ", but its VM is dead"]
              else []
          end
      end
  | StatusPending | StatusScheduling | StatusCleanupPending =>
      ["sandbox " +:+ name +:+ " is still " +:+ st +:+ ": not settled"]
  | _ => []
  end.

Definition vm_divergence (byID : gmap string Sandbox) (w id : string) : list string :=
  match byID !! id with
  | None => ["worker " +:+ w +:+ " hosts VM " +:+ short id +:+ ", unknown to the database"]
  | Some s =>
      if negb (isActive (sb_Status s)) || negb (bool_decide (sb_WorkerID s = Some w))
      then ["worker " +:+ w +:+ " hosts VM " +:+ short id +:+ ", but the database says "
              +:+ Status_string (sb_Status s) +:+ " on " +:+ workerOf s]
      else []
  end.

Definition worker_divergence (rowByID : gmap string Worker) (w : string) (s : SimWorker M) : list string :=
  match rowByID !! w with
  | None => ["worker " +:+ w +:+ " is up but has no row"]
  | Some row =>
      if sw_running s && negb (sw_partitioned s) && negb (bool_decide (wk_Status row = WorkerStatusActive))
      then ["worker " +:+ w +:+ " is up and reachable, but the database says " +:+ wk_Status row]
      else if negb (sw_running s) && bool_decide (wk_Status row = WorkerStatusActive)
      then ["worker " +:+ w +:+ " is down, but the database says active"]
      else []
  end.

(** The rows by id, as the loops of [divergences] collect them. *)
Definition index {V} (key : V -> string) : list V -> gmap string V :=
  foldl (fun m v => <[key v := v]> m) ∅.

(** [registered]: the workers of the cluster, by ID. *)
Definition by_worker (a b : string * SimWorker M) : Prop := String.leb a.1 b.1 = true.

#[export] Instance by_worker_dec : RelDecision by_worker.
Proof. intros a b. unfold by_worker. apply _. Defined.

Definition registered (c : Cluster) : list (string * SimWorker M) :=
  merge_sort by_worker (map_to_list (cu_sims c)).

(** The reads of the database do not fail here. *)
Definition read {X} (f : tx (list X)) (db : DB) : list X :=
  match (f (mkEnv 0 ∅) db).1 with Ok l => l | Err _ => [] end.

Definition divergences (c : Cluster) : list string :=
  let rows := read SandboxRepo.List_ (cu_db c) in
  let workers := read WorkerRepo.List_ (cu_db c) in
  let byID := index sb_ID rows in
  let rowByID := index wk_ID workers in
  merge_sort string_le
    ((rows ≫= row_divergence c)
       ++ (registered c ≫= (fun '(w, s) => (map_to_list (hosted c w)).*1 ≫= vm_divergence byID w))
       ++ (registered c ≫= (fun '(w, s) => worker_divergence rowByID w s))).

(** ** What an empty list says *)

(** The database and the machines agree: a sandbox is assigned, starting or running on a
    worker if and only if that worker hosts its VM, which is then alive; nothing is left
    moving; and the workers' rows show who is up. *)
Record converged (c : Cluster) : Prop := {
  cv_rows : forall id r, sandboxes (cu_db c) !! id = Some r ->
    row_status r <> StatusPending /\ row_status r <> StatusScheduling /\ row_status r <> StatusCleanupPending
    /\ (isActive (row_status r) = true ->
        exists w st, row_worker r = Some w /\ hosted c w !! id = Some st /\ st <> StateDead);
  cv_vms : forall w id, is_Some (hosted c w !! id) ->
    exists r, sandboxes (cu_db c) !! id = Some r /\ isActive (row_status r) = true /\ row_worker r = Some w;
  cv_workers : forall w s, cu_sims c !! w = Some s ->
    exists r, workers (cu_db c) !! w = Some r
      /\ (sw_running s = true -> sw_partitioned s = false -> wr_status r = WorkerStatusActive)
      /\ (sw_running s = false -> wr_status r <> WorkerStatusActive);
}.

(** *** Lists of the loops *)

Lemma bind_nil {X Y} (f : X -> list Y) (l : list X) : l ≫= f = [] <-> forall x, x ∈ l -> f x = [].
Proof.
  induction l as [|x l IH]; cbn; [split; [intros _ y Hy; by apply not_elem_of_nil in Hy|done]|].
  rewrite app_nil, IH. setoid_rewrite elem_of_cons. naive_solver.
Qed.

Lemma sort_nil {X} (R : relation X) `{!RelDecision R} (l : list X) : merge_sort R l = [] <-> l = [].
Proof.
  split; [|by intros ->]. intros H. pose proof (merge_sort_Permutation R l) as P. rewrite H in P.
  by apply Permutation_nil in P.
Qed.

Lemma index_spec {V} (key : V -> string) l k v :
  (forall v v', v ∈ l -> v' ∈ l -> key v = key v' -> v = v') ->
  index key l !! k = Some v <-> v ∈ l /\ key v = k.
Proof.
  unfold index. induction l as [|x l IH] using rev_ind; intros Hu.
  { cbn. rewrite lookup_empty. split; [done|]. intros [H _]. by apply not_elem_of_nil in H. }
  rewrite foldl_app. cbn. setoid_rewrite elem_of_app in Hu. setoid_rewrite list_elem_of_singleton in Hu.
  rewrite elem_of_app, list_elem_of_singleton. destruct (decide (key x = k)) as [<-|N].
  - rewrite lookup_insert_eq. split; [intros [= <-]; auto|]. intros [[H| ->] E]; [|done]. f_equal. symmetry. eauto.
  - rewrite lookup_insert_ne, IH by eauto. split; [tauto|]. intros [[H| ->] E]; [done|congruence].
Qed.

Lemma elem_of_rows db s :
  s ∈ read SandboxRepo.List_ db <-> exists id r, sandboxes db !! id = Some r /\ row_sandbox r = s.
Proof.
  unfold read, SandboxRepo.List_, queryList. cbn. rewrite merge_sort_Permutation, list_elem_of_fmap.
  setoid_rewrite list_elem_of_filter. setoid_rewrite list_elem_of_fmap. split.
  - intros (r & -> & _ & [id r'] & -> & H). exists id, r'. by apply elem_of_map_to_list in H.
  - intros (id & r & H & <-). exists r. split; [done|]. split; [done|]. exists (id, r). by rewrite elem_of_map_to_list.
Qed.

Lemma elem_of_workers db w :
  w ∈ read WorkerRepo.List_ db <-> exists id r, workers db !! id = Some r /\ w = scanWorker id r.
Proof.
  unfold read, WorkerRepo.List_, list_where. cbn. rewrite list_elem_of_fmap.
  setoid_rewrite merge_sort_Permutation. split.
  - intros ([id r] & -> & H). apply elem_of_map_to_list, map_lookup_filter_Some in H as [H _]. by exists id, r.
  - intros (id & r & H & ->). exists (id, r). split; [done|]. by apply elem_of_map_to_list, map_lookup_filter_Some.
Qed.

Lemma elem_of_registered c w s : (w, s) ∈ registered c <-> cu_sims c !! w = Some s.
Proof. unfold registered. by rewrite merge_sort_Permutation, elem_of_map_to_list. Qed.

(** The primary keys. *)
Definition keyed (db : DB) : Prop := forall id r, sandboxes db !! id = Some r -> sb_ID (row_sandbox r) = id.

Lemma byID_lookup db id :
  keyed db -> index sb_ID (read SandboxRepo.List_ db) !! id = row_sandbox <$> sandboxes db !! id.
Proof.
  intros K. apply option_eq. intros s. rewrite index_spec, elem_of_rows.
  - rewrite fmap_Some. split.
    + intros [(i & r & H & <-) <-]. rewrite (K _ _ H). eauto.
    + intros (r & H & ->). split; [eauto|]. by apply K.
  - intros v v'. rewrite !elem_of_rows. intros (i & r & H & <-) (i' & r' & H' & <-).
    rewrite (K _ _ H), (K _ _ H'). intros <-. congruence.
Qed.

Lemma rowByID_lookup db id :
  index wk_ID (read WorkerRepo.List_ db) !! id = scanWorker id <$> workers db !! id.
Proof.
  apply option_eq. intros w. rewrite index_spec, elem_of_workers.
  - rewrite fmap_Some. split.
    + intros [(i & r & H & ->) <-]. cbn. eauto.
    + intros (r & H & ->). split; [eauto|done].
  - intros v v'. rewrite !elem_of_workers. intros (i & r & H & ->) (i' & r' & H' & ->). cbn. intros <-. congruence.
Qed.

Lemma hosted_sim c w id :
  is_Some (hosted c w !! id) <-> exists s, cu_sims c !! w = Some s /\ is_Some (sm_states (sw_VMs s) !! id).
Proof.
  unfold hosted. destruct (cu_sims c !! w) as [s|]; cbn; [naive_solver|]. rewrite lookup_empty.
  split; [by intros []|by intros (? & ? & _)].
Qed.

(** *** Each loop *)

Lemma row_divergence_nil c s :
  row_divergence c s = [] <->
  sb_Status s <> StatusPending /\ sb_Status s <> StatusScheduling /\ sb_Status s <> StatusCleanupPending
  /\ (isActive (sb_Status s) = true ->
      exists w st, sb_WorkerID s = Some w /\ hosted c w !! sb_ID s = Some st /\ st <> StateDead).
Proof.
  unfold row_divergence. destruct (sb_Status s); cbn; try (split; [done|]; intros (? & ? & ? & _); done); try (split; [|done]; by split_and!).
  all: destruct (sb_WorkerID s) as [w|]; [|naive_solver]; destruct (hosted c w !! sb_ID s) as [st|] eqn:E; [|naive_solver].
  all: destruct (decide (st = StateDead)); [naive_solver|]; split; [|done]; intros _; split_and!; try done; eauto 10.
Qed.

Lemma vm_divergence_nil db w id :
  keyed db ->
  vm_divergence (index sb_ID (read SandboxRepo.List_ db)) w id = [] <->
  exists r, sandboxes db !! id = Some r /\ isActive (row_status r) = true /\ row_worker r = Some w.
Proof.
  intros K. unfold vm_divergence. rewrite byID_lookup by done.
  destruct (sandboxes db !! id) as [r|]; cbn; [|naive_solver].
  change (sb_Status (row_sandbox r)) with (row_status r). change (sb_WorkerID (row_sandbox r)) with (row_worker r).
  destruct (isActive (row_status r)) eqn:Ea; cbn; cycle 1.
  { split; [done|]. intros (? & [= <-] & ? & _). congruence. }
  destruct (decide (row_worker r = Some w)); [rewrite bool_decide_true by done|rewrite bool_decide_false by done]; cbn.
  - split; [|done]. eauto.
  - split; [done|]. by intros (? & [= <-] & _ & ?).
Qed.

Lemma worker_divergence_nil db w s :
  worker_divergence (index wk_ID (read WorkerRepo.List_ db)) w s = [] <->
  exists r, workers db !! w = Some r
    /\ (sw_running s = true -> sw_partitioned s = false -> wr_status r = WorkerStatusActive)
    /\ (sw_running s = false -> wr_status r <> WorkerStatusActive).
Proof.
  unfold worker_divergence. rewrite rowByID_lookup. destruct (workers db !! w) as [r|]; cbn; cycle 1.
  { split; [done|]. by intros (? & ? & _). }
  assert (forall P : worker_row -> Prop, (exists r0, Some r = Some r0 /\ P r0) <-> P r) as -> by naive_solver.
  destruct (decide (wr_status r = WorkerStatusActive)); [rewrite bool_decide_true by done|rewrite bool_decide_false by done];
    destruct (sw_running s), (sw_partitioned s); cbn; intuition done.
Qed.

(** The check is exact. *)
Lemma divergences_nil c : keyed (cu_db c) -> divergences c = [] <-> converged c.
Proof.
  intros K. unfold divergences. rewrite sort_nil, !app_nil, !bind_nil. split.
  - intros (H1 & H2 & H3). split.
    + intros id r Hr. pose proof (proj1 (row_divergence_nil c _) (H1 (row_sandbox r) ltac:(apply elem_of_rows; eauto))) as H.
      rewrite (K _ _ Hr) in H. exact H.
    + intros w id Hh. pose proof Hh as (s & Hs & _)%hosted_sim.
      apply elem_of_registered in Hs. specialize (H2 _ Hs). cbn in H2. rewrite bind_nil in H2.
      apply (vm_divergence_nil (cu_db c)); [done|]. apply H2. destruct Hh as [st Hst].
      apply list_elem_of_fmap. exists (id, st). split; [done|]. by apply elem_of_map_to_list.
    + intros w s Hs. apply elem_of_registered in Hs. apply (worker_divergence_nil (cu_db c)). exact (H3 _ Hs).
  - intros [C1 C2 C3]. split; [|split].
    + intros s (id & r & Hr & <-)%elem_of_rows. apply row_divergence_nil. rewrite (K _ _ Hr). by apply C1.
    + intros [w s] _. cbn. apply bind_nil. intros id ([i st] & -> & Hi)%list_elem_of_fmap.
      apply elem_of_map_to_list in Hi. apply vm_divergence_nil; [done|]. apply C2. by eexists.
    + intros [w s] Hs. apply elem_of_registered in Hs. apply (worker_divergence_nil (cu_db c)). by apply C3.
Qed.

End Cluster.

(** ** The machines of the tests *)

(** A machine sized by [memBudgetFor] advertises the capacity it was sized for. *)
Lemma memBudgetFor_capacity capacity :
  0 <= capacity -> computeCapacity EmptyString capacity (memBudgetFor capacity) = capacity.
Proof.
  intros H. unfold computeCapacity, memBudgetFor, workerMemReserveMi, sandboxMemMiB, SandboxVcpu,
    SandboxMemMiB, sandboxOverheadMiB, memReserveMiB.
  change (Atoi EmptyString) with (@None Z). rewrite Z.quot_1_r.
  replace (384 + capacity * (256 + 64) - 384) with (capacity * (256 + 64)) by lia.
  rewrite Z.quot_mul by lia. destruct (Z.ltb_spec (capacity `min` capacity) 0); lia.
Qed.

(** A worker without a fencing token is refused, before the database is read. *)
Lemma legacy_refused configured id port :
  TrimSpace id <> EmptyString ->
  exists msg, ReportWorkerHeartbeat configured (Some (legacy_heartbeat id port))
              = Ret (Some (StatusError InvalidArgument msg)).
Proof.
  intros H. unfold ReportWorkerHeartbeat, missing_worker_id. cbn [hb_WorkerId legacy_heartbeat hb_FencingToken].
  rewrite bool_decide_eq_false_2 by done. eauto.
Qed.
