(* ===== verification/Convergence.v ===== *)
(** * The database converges to the machines

    What the divergence tests (src/test/divergence) wait for: once every worker is up and
    reachable, and however the database and the machines diverged, what one round of the
    mechanisms (a heartbeat of every worker, the two reapers, the jobs) settles, what later
    ones do, and what none does.  The machines are any implementation of the interface of
    FakeVMs.v. *)

From Stdlib Require Import ZArith Lia SpecFloat.
From stdpp Require Import base tactics option list gmap strings numbers relations sorting.
From S2P Require Import Prelude GoStd Database SandboxRepo WorkerRepo Program Scheduler Jobs.
From S2P Require Import EventGRPC Manager FakeVMs Solo Capacity Heartbeat WorkerGRPC Lifecycle.
From S2P Require Import HTTP Auth Steps Threads System Scenario Fencing Registration Reconciliation Cluster.

Open Scope Z_scope.

#[local] Set Warnings "-clear-no-such-hyp".

(** ** The round *)

(** A job River runs: its first attempt of five. *)
Definition job_program (ji : JobInsert) : prog unit :=
  match ji_args ji with
  | JobCreate a => forget (CreateSandboxWorker_Work (mkJob a 1 5))
  | JobCleanup a => forget (CleanupSandboxWorker_Work (mkJob a 1 5))
  | JobRemoveOrphan a => forget (RemoveOrphanWorker_Work (mkJob a 1 5))
  end.

(** The states a heartbeat reports as alive, and those it settles. *)
Definition alive (st : SandboxState) : Prop := st = STATE_STARTING \/ st = STATE_RUNNING \/ st = STATE_PAUSED.

(** ** One heartbeat *)

(** What an accepted heartbeat leaves in the worker's row. *)
Record beaten (w : Worker) (now : Z) (r r' : worker_row) : Prop := {
  be_status : wr_status r' = wk_Status w;
  be_address : wr_address r' = wk_Address w;
  be_port : wr_port r' = nullablePort (wk_Port w);
  be_heartbeat : wr_last_heartbeat r' = now;
  be_token : wr_fencing_token r' = wr_fencing_token r;
  be_registered : wr_registered_at r' = wr_registered_at r;
}.

(** The row of [id] is live on worker [wid]. *)
Definition attributed_to (db : DB) (wid id : string) : Prop :=
  exists r, sandboxes db !! id = Some r /\ row_worker r = Some wid /\ row_status r ∉ terminal_statuses.

Lemma attributed_dec db wid id : attributed_to db wid id \/ ~ attributed_to db wid id.
Proof.
  unfold attributed_to. destruct (sandboxes db !! id) as [r|]; [|right; by intros (? & ? & _)].
  destruct (decide (row_worker r = Some wid)); [|right; by intros (? & [= <-] & ? & _)].
  destruct (decide (row_status r ∈ terminal_statuses)); [right; by intros (? & [= <-] & _ & ?)|by left; exists r].
Qed.

Lemma reconcile_effect w inv env db r db' :
  reconcile_tx w inv env db = (Ok tt, db') -> workers db !! wk_ID w = Some r ->
  exists r' first l,
    workers db' = <[wk_ID w := r']> (workers db) /\ beaten w (tx_now env) r r'
    /\ (forall id, sandboxes db' !! id
          = reconcile_row (wk_ID w) first inv (tx_now env) (wr_registered_at r) id <$> sandboxes db !! id)
    /\ jobs db' = jobs db ++ l
    /\ (forall ji, ji ∈ l -> (exists id, ji = cleanupParams id StatusFailed
                               /\ exists q, sandboxes db !! id = Some q /\ row_status q <> StatusCleanupPending)
                             \/ exists id, ji = orphanInsert (wk_ID w) id /\ ~ attributed_to db (wk_ID w) id)
    /\ (forall id, id ∈ IDs inv -> ~ attributed_to db (wk_ID w) id -> orphanInsert (wk_ID w) id ∈ l).
Proof.
  intros (x & d1 & E1 & (first & d2 & E2 & (res & d3 & E3 & H)%tx_bind_Ok)%tx_bind_Ok)%tx_bind_Ok Hr.
  unfold Update in E1. rewrite Hr in E1. destruct (_ =? _); [|done]. injection E1 as _ <-.
  assert (exists r', workers d2 = <[wk_ID w := r']> (workers db) /\ beaten w (tx_now env) r r'
            /\ sandboxes d2 = sandboxes db /\ jobs d2 = jobs db) as (r' & Hw2 & Hb & Hs2 & Hj2).
  { unfold ClaimInventory in E2. cbn [workers set_workers] in E2. rewrite lookup_insert_eq in E2.
    destruct (_ && _); injection E2 as _ <-; cbn [workers set_workers sandboxes jobs].
    - eexists. rewrite insert_insert_eq. split; [done|]. by split.
    - eexists. split; [done|]. by split. }
  assert (workers d2 !! wk_ID w = Some r') as Hr' by (rewrite Hw2; apply lookup_insert_eq).
  destruct (reconcile_rows _ _ _ _ _ _ _ _ Hr' E3) as (Hrows & Hclaim & Horph).
  pose proof (ReconcileInventory_claimed _ _ _ _ _ _ _ E3) as [Hw3 Hj3 _ _ _].
  rewrite Hs2 in *. exists r', first, (reconcile_params (wk_ID w) res).
  assert (sandboxes db' = sandboxes d3 /\ workers db' = workers d3
          /\ jobs db' = jobs d3 ++ reconcile_params (wk_ID w) res) as (Es & Ew & Ej).
  { destruct (reconcile_params (wk_ID w) res); injection H as <-; [by rewrite app_nil_r|done]. }
  rewrite Es, Ew, Ej, Hw3, Hj3, Hj2. split; [done|]. split; [done|].
  split; [by rewrite <- (be_registered _ _ _ _ Hb)|]. split; [done|]. unfold reconcile_params, attributed_to.
  split.
  - intros ji. rewrite elem_of_app, !list_elem_of_fmap.
    intros [(id & -> & Hid)|(id & -> & Hid)]; [left|right]; exists id; (split; [done|]); [|by apply Horph].
    apply Hclaim in Hid as (q & _ & Hq & _ & Hn & _). by exists q.
  - intros id Hid Hn. apply elem_of_app. right. apply list_elem_of_fmap. exists id. split; [done|]. by apply Horph.
Qed.

(** *** What a heartbeat lists *)

Lemma reported_hosted (vms : gmap string SandboxState) entries id :
  entries ≡ₚ entries_of vms -> (forall sb, is_Some (vms !! sb) -> TrimSpace sb = sb /\ sb <> EmptyString) ->
  reported entries id = vms !! id.
Proof.
  intros Hp Ht. unfold reported.
  assert (forall e, e ∈ entries <-> exists sb st, e = mkEntry sb st /\ vms !! sb = Some st) as He.
  { intros e. rewrite Hp. unfold entries_of. rewrite list_elem_of_fmap. split.
    - intros ([sb st] & -> & H%elem_of_map_to_list). by exists sb, st.
    - intros (sb & st & -> & H). exists (sb, st). by rewrite elem_of_map_to_list. }
  case_bool_decide as Hid.
  { subst id. destruct (vms !! EmptyString) as [st|] eqn:E; [|done]. by destruct (Ht EmptyString) as [_ []]; [eexists|]. }
  destruct (list_find _ entries) as [[i e]|] eqn:Hf; cbn.
  - apply list_find_Some in Hf as (Hi & Heq & _). apply list_elem_of_lookup_2, He in Hi as (sb & st & -> & Hs).
    unfold entry_id in Heq. cbn [ie_SandboxId] in Heq. rewrite (proj1 (Ht sb ltac:(by eexists))) in Heq. by subst sb.
  - apply list_find_None in Hf. destruct (vms !! id) as [st|] eqn:E; [|done]. exfalso.
    rewrite Forall_forall in Hf. apply (Hf (mkEntry id st)); [apply He; eauto|].
    unfold entry_id. cbn [ie_SandboxId]. apply Ht. by eexists.
Qed.

(** An id is in one list only. *)
Lemma bucket_inj inv id st st' :
  NoDup (IDs inv) -> id ∈ bucket st inv -> id ∈ bucket st' inv ->
  forall inv', bucket st inv' = bucket st' inv'.
Proof.
  unfold IDs. rewrite !NoDup_app. intros (_ & H1 & _ & H2 & _ & H3 & _).
  specialize (H1 id). specialize (H2 id). specialize (H3 id). rewrite ?elem_of_app in H1, H2. rewrite elem_of_app in H1.
  destruct st, st'; cbn; intros ? ? inv'; try done; exfalso; tauto.
Qed.

Section Listed.

Context (vms : gmap string SandboxState) (entries : list SandboxInventoryEntry) (id : string).
Context (Hrep : forall id, reported entries id = vms !! id).

Let inv := inventoryFromEntries entries.

Lemma listed_iff : id ∈ IDs inv <-> is_Some (vms !! id).
Proof using Hrep. destruct (inventory_partition entries) as (_ & H & _). by rewrite <- Hrep. Qed.

Lemma bucket_iff st : id ∈ bucket st inv -> exists st', vms !! id = Some st' /\ forall i, bucket st i = bucket st' i.
Proof using Hrep.
  destruct (inventory_partition entries) as (Hnd & Hin & Hb). intros H.
  assert (id ∈ IDs inv) as Hi by (unfold IDs; rewrite !elem_of_app; destruct st; cbn in H; tauto).
  destruct (proj1 (Hin id) Hi) as [st' Hst']. exists st'. rewrite <- Hrep. split; [done|].
  by apply (bucket_inj inv id); [| |apply Hb].
Qed.

Lemma alive_iff : id ∈ inv_Live inv ++ inv_Running inv <-> exists st, vms !! id = Some st /\ alive st.
Proof using Hrep.
  destruct (inventory_partition entries) as (_ & _ & Hb). rewrite elem_of_app. split.
  - assert (forall st, (forall i, bucket STATE_STARTING i = bucket st i) -> alive st) as HL.
    { intros st E. specialize (E (mkInventory [""%string] [] [] [])). unfold alive. destruct st; try done; tauto. }
    assert (forall st, (forall i, bucket STATE_RUNNING i = bucket st i) -> alive st) as HR.
    { intros st E. specialize (E (mkInventory [] [""%string] [] [])). unfold alive. destruct st; try done; tauto. }
    intros [H|H]; [destruct (bucket_iff STATE_STARTING H) as (st & ? & ?)|destruct (bucket_iff STATE_RUNNING H) as (st & ? & ?)];
      eauto.
  - intros (st & Hst & Ha). rewrite <- Hrep in Hst. apply Hb in Hst. destruct Ha as [->|[->| ->]]; cbn in Hst; auto.
Qed.

Lemma dead_iff : id ∈ inv_Dead inv <-> vms !! id = Some STATE_DEAD.
Proof using Hrep.
  destruct (inventory_partition entries) as (_ & _ & Hb). split.
  - intros H. destruct (bucket_iff STATE_DEAD H) as (st & Hst & E). rewrite Hst. f_equal.
    specialize (E (mkInventory [] [] [] [""%string])). by destruct st.
  - intros Hst. rewrite <- Hrep in Hst. by apply Hb in Hst.
Qed.

End Listed.

(** *** What it does to a row *)

Lemma isActive_active st : isActive st = true <-> active st.
Proof.
  unfold active, active_statuses. rewrite !elem_of_cons, elem_of_nil. destruct st; cbn; split; try done; try tauto.
  all: intros H; repeat destruct H as [H|H]; done.
Qed.

(** A row of another worker is left alone. *)
Lemma reconcile_other wid first inv now reg id r :
  row_worker r <> Some wid -> reconcile_row wid first inv now reg id r = r.
Proof. intros N. unfold reconcile_row. by rewrite bool_decide_false. Qed.

(** A row that is still active was, and was seen now if the worker reports it alive; it is
    not reported dead. *)
Lemma reconcile_own wid first entries (vms : gmap string SandboxState) now reg id r :
  (forall id, reported entries id = vms !! id) ->
  let r' := reconcile_row wid first (inventoryFromEntries entries) now reg id r in
  row_worker r = Some wid -> active (row_status r') ->
  active (row_status r)
  /\ ((exists st, vms !! id = Some st /\ alive st /\ row_seen r' = now)
      \/ ((forall st, vms !! id = Some st -> ~ alive st /\ st <> STATE_DEAD) /\ row_seen r' = row_seen r)).
Proof.
  intros Hrep r'. unfold r', reconcile_row. clear r'. intros Hw Ha. rewrite bool_decide_true in Ha |- * by done.
  destruct (status_in (row_status r) active_statuses) eqn:Es; cbn [andb] in Ha |- *; cycle 1.
  { apply status_in_true in Ha. congruence. }
  apply status_in_true in Es. split; [done|].
  destruct (_ && _ && _); [exfalso; clear -Ha; cbn in Ha; status_cases; done|].
  destruct (decide (id ∈ inv_Dead (inventoryFromEntries entries))) as [Hd|Hd].
  { exfalso. rewrite (bool_decide_true (id ∈ inv_Dead _)) in Ha by done. clear -Ha. cbn in Ha. status_cases; done. }
  rewrite (bool_decide_false (id ∈ inv_Dead _)) by done.
  destruct (decide (id ∈ inv_Live (inventoryFromEntries entries) ++ inv_Running (inventoryFromEntries entries))) as [Hl|Hl].
  - left. destruct (proj1 (alive_iff vms entries id Hrep) Hl) as (st & ? & ?). exists st. split; [done|]. split; [done|].
    clear Ha. rewrite !(bool_decide_true (id ∈ _ ++ _)) by done. by case_match.
  - right. split.
    + intros st Hst. split; [|intros ->; apply Hd; by apply (dead_iff vms)]. intros Hal. apply Hl. apply (alive_iff vms); eauto.
    + clear Ha. rewrite !(bool_decide_false (id ∈ _ ++ _)) by done. by case_match.
Qed.

(** One the worker reports alive stays. *)
Lemma reconcile_healthy wid first entries (vms : gmap string SandboxState) now reg id r st :
  (forall id, reported entries id = vms !! id) ->
  let r' := reconcile_row wid first (inventoryFromEntries entries) now reg id r in
  row_worker r = Some wid -> active (row_status r) -> vms !! id = Some st -> alive st ->
  active (row_status r') /\ row_seen r' = now.
Proof.
  intros Hrep r' Hw Ha Hst Hal. unfold r', reconcile_row. rewrite bool_decide_true by done.
  rewrite (proj2 (status_in_true _ _) Ha). cbn [andb].
  rewrite (bool_decide_true (id ∈ IDs _)) by (apply (listed_iff vms); [done|by eexists]).
  rewrite andb_false_r. cbn [andb].
  rewrite (bool_decide_true (id ∈ inv_Live _ ++ _)) by (apply (alive_iff vms); eauto).
  rewrite (bool_decide_false (id ∈ inv_Dead _)); cycle 1.
  { rewrite (dead_iff vms) by done. rewrite Hst. intros [= ->]. destruct Hal as [?|[?|?]]; done. }
  case_match; split; try done. cbn. unfold active, active_statuses. rewrite !elem_of_cons. tauto.
Qed.

(** Where the orchestrator dials a worker, given its heartbeat. *)
Definition dial_target (w : Worker) : string :=
  normalizeWorkerAddress (wk_Address w) (int32 (default 0 (nullablePort (int32 (wk_Port w))))).

Section Convergence.

Context {M : Type} `{!SandboxManager M} `{!SandboxManagerLaws M}.
Context (uuid_Parse : string -> bool) (quote : string -> string) (third : error -> string -> string).
Context (route : string -> option string).

Abbreviation exec := (cexec uuid_Parse quote third route).
Abbreviation beat_of := (beat uuid_Parse quote third route).

Definition beats (now : Z) (c : Cluster) : Cluster :=
  foldl (fun c kv => (beat_of now kv.2 c).2) c (registered c).

Definition drain (now : Z) (q : list JobInsert) (c : Cluster) : Cluster :=
  foldl (fun c ji => (exec now (job_program ji) c).2) c q.

(** One round at time [now]; [pending] are the jobs River still had to run. *)
Definition round (w : ReapSandboxWorker) (hbTimeout now : Z) (pending : list JobInsert) (c : Cluster) : Cluster :=
  let c1 := beats now c in
  let c2 := (exec now (ReapWorkersWorker_Work hbTimeout) c1).2 in
  let c3 := (exec now (ReapSandboxWorker_Work w) c2).2 in
  drain now (pending ++ drop (length (jobs (cu_db c))) (jobs (cu_db c3))) c3.

(** A worker that is up, reachable and registered, over a manager at rest. *)
Record ready (id : string) (s : SimWorker M) : Prop := {
  rd_id : wk_ID (sw_worker s) = id;
  rd_name : TrimSpace id = id /\ id <> EmptyString;
  rd_up : sw_running s = true /\ sw_partitioned s = false /\ sw_stripInventory s = false;
  rd_status : wk_Status (sw_worker s) = WorkerStatusActive;
  rd_token : 0 < wk_FencingToken (sw_worker s);
  rd_route : route (dial_target (sw_worker s)) = Some id;
  rd_ok : sm_ok (sw_VMs s);
  rd_hosted : forall sb, is_Some (sm_states (sw_VMs s) !! sb) -> IsSandboxID uuid_Parse sb = true;
}.

(** The cluster once the faults are over: every worker is up, reachable and registered, with
    the token of its row; the jobs still to run are among those enqueued, none of them a
    creation.  Nothing is said of the sandboxes and their VMs. *)
Record live (w : ReapSandboxWorker) (pending : list JobInsert) (c : Cluster) : Prop := {
  lv_inv : Inv (cu_db c);
  lv_timeouts : 0 <= rs_livenessTimeout w /\ 0 < rs_workerLostTimeout w;
  lv_sims : forall id s, cu_sims c !! id = Some s ->
    ready id s /\ exists r, workers (cu_db c) !! id = Some r
      /\ wr_fencing_token r = wk_FencingToken (sw_worker s);
  lv_workers : forall id, is_Some (workers (cu_db c) !! id) -> is_Some (cu_sims c !! id);
  lv_ids : forall id, is_Some (sandboxes (cu_db c) !! id) -> IsSandboxID uuid_Parse id = true;
  lv_pending : forall ji, ji ∈ pending -> ji ∈ jobs (cu_db c) /\ forall a, ji_args ji <> JobCreate a;
}.

(** A cleanup of the sandbox, a removal of the VM as an orphan, is to be run. *)
Definition cleanup_in (q : list JobInsert) (id : string) : Prop :=
  exists t, JobCleanup {| cl_SandboxID := id; cl_TargetStatus := t |} ∈ ji_args <$> q.
Definition removal_in (q : list JobInsert) (wid id : string) : Prop :=
  JobRemoveOrphan {| ro_WorkerID := wid; ro_SandboxID := id |} ∈ ji_args <$> q.

#[global] Instance removal_in_dec q wid id : Decision (removal_in q wid id).
Proof. unfold removal_in. apply _. Defined.

(** Claimed for cleanup, but River has no cleanup job of it: it was discarded. *)
Definition stranded (pending : list JobInsert) (c : Cluster (M:=M)) (id : string) : Prop :=
  exists r, sandboxes (cu_db c) !! id = Some r /\ row_status r = StatusCleanupPending
    /\ ~ cleanup_in pending id.

(** What the divergence check reports of one sandbox is nothing: its row is not moving, and
    it is assigned, starting or running on a worker if and only if that worker hosts its VM,
    which is not dead. *)
Definition agrees (c : Cluster (M:=M)) (id : string) : Prop :=
  (forall r, sandboxes (cu_db c) !! id = Some r ->
     row_status r <> StatusPending /\ row_status r <> StatusScheduling /\ row_status r <> StatusCleanupPending
     /\ (isActive (row_status r) = true ->
         exists w st, row_worker r = Some w /\ hosted c w !! id = Some st /\ st <> StateDead))
  /\ (forall w, is_Some (hosted c w !! id) ->
        exists r, sandboxes (cu_db c) !! id = Some r /\ isActive (row_status r) = true /\ row_worker r = Some w).

(** Its time is not up yet at [now]: a creation nobody runs that is not stalled, or a
    sandbox its worker reports neither alive nor dead whose liveness has not expired. *)
Definition waiting (w : ReapSandboxWorker) (now : Z) (c : Cluster (M:=M)) (id : string) : Prop :=
  exists r, sandboxes (cu_db c) !! id = Some r
    /\ ((early (row_status r)
         /\ ~ (0 < rs_createTimeout w /\ sb_CreatedAt (row_sandbox r) < now - rs_createTimeout w))
        \/ (active (row_status r) /\ exists wid wr, row_worker r = Some wid /\ workers (cu_db c) !! wid = Some wr
             /\ (forall st, hosted c wid !! id = Some st -> ~ alive st /\ st <> STATE_DEAD)
             /\ now <= Z.max (row_seen r) (wr_registered_at wr) + rs_livenessTimeout w)).

(** Or a removal was enqueued when it was an orphan of its worker, which it is no longer:
    the job does not look again. *)
Definition unsettled (w : ReapSandboxWorker) (now : Z) (pending : list JobInsert) (c : Cluster (M:=M))
    (id : string) : Prop :=
  waiting w now c id \/ exists wid, removal_in pending wid id /\ attributed_to (cu_db c) wid id.

(** [uuid.Parse] accepts no blanks around the 36 characters of an id, and the managers
    accept every sandbox ID. *)
Context (uuid_trim : forall id, IsSandboxID uuid_Parse id = true -> TrimSpace id = id).
Context (uuid_managed : forall id, IsSandboxID uuid_Parse id = true -> sm_id id).

Lemma sandboxID_nonempty id : IsSandboxID uuid_Parse id = true -> id <> EmptyString.
Proof. unfold IsSandboxID. intros [_ H]%andb_prop ->. done. Qed.

(** ** Programs keep the invariant *)

Lemma wp_cexec {A} now (p : prog A) (Q : A -> DB -> Prop) c :
  Inv (cu_db c) -> wp any_fault Inv evolves guarantee p Q (cu_db c) ->
  let out := exec now p c in
  Q out.1 (cu_db out.2) /\ Inv (cu_db out.2) /\ evolves (cu_db c) (cu_db out.2).
Proof.
  revert c. induction p as [a|X f k IH|X a o k IH|k IH|k IH]; intros c HI H; cbn [cexec]; cbn [wp] in H.
  - by split_and!.
  - destruct (exec_tx (mkEnv now ∅) NoFault f (cu_db c)) as [r db'] eqn:E.
    destruct (H (cu_db c) _ _ _ _ (reflexivity _) HI Logic.I E) as (HG & HI' & Hk).
    destruct (IH r (set_db db' c) HI' Hk) as (? & ? & ?). split_and!; try done.
    etrans; [by apply guarantee_evolves|done].
  - destruct (route a ≫= _) as [[id s]|]; [|by apply IH].
    destruct (intercept uuid_Parse quote third X o s) as [r s']. by apply (IH r (set_sim id s' c)).
  - by apply IH.
  - by apply IH.
Qed.

Lemma spawn_cexec now p c :
  Inv (cu_db c) -> spawnable (cu_db c) p ->
  Inv (cu_db (exec now p c).2) /\ evolves (cu_db c) (cu_db (exec now p c).2).
Proof. intros HI Hs. by apply (wp_cexec now p (fun _ _ => True)); [|apply spawn_ok]. Qed.

(** ** The heartbeats *)

Lemma ready_reported id s :
  ready id s -> forall sb, reported (sm_Snapshot (sw_VMs s)) sb = sm_states (sw_VMs s) !! sb.
Proof using uuid_trim.
  intros R sb. apply reported_hosted; [by apply sm_snapshot, R|].
  intros sb' H%(rd_hosted _ _ R). split; [by apply uuid_trim|by apply sandboxID_nonempty].
Qed.

(** One heartbeat of a ready worker. *)
Lemma beat_effect now id s c r :
  ready id s -> workers (cu_db c) !! id = Some r -> wr_fencing_token r = wk_FencingToken (sw_worker s) ->
  exists db', beat_of now s c = (None, set_db db' c)
    /\ reconcile_tx (workerFromHeartbeat now (link_heartbeat s))
         (inventoryFromEntries (sm_Snapshot (sw_VMs s))) (mkEnv now ∅) (cu_db c) = (Ok tt, db')
    /\ wk_ID (workerFromHeartbeat now (link_heartbeat s)) = id.
Proof.
  intros [Hid [Htrim Hne] (Hrun & Hpart & Hstrip) Hst Htok _ _ _] Hr Ht.
  unfold beat. rewrite Hrun, Hpart. cbn [negb orb]. unfold link_heartbeat. rewrite Hstrip.
  set (hb := heartbeat_of _ _ _ _). unfold ReportWorkerHeartbeat, missing_worker_id.
  assert (TrimSpace (hb_WorkerId hb) = id) as Hwid by (cbn [hb hb_WorkerId heartbeat_of]; by rewrite Hid).
  rewrite Hwid, bool_decide_false by done. cbn [hb hb_FencingToken heartbeat_of]. fold hb.
  destruct (Z.leb_spec (wk_FencingToken (sw_worker s)) 0); [lia|]. cbn [cexec hb hb_InventoryComplete heartbeat_of negb].
  fold hb. unfold reconcileHeartbeat. cbn [negb bind cexec].
  assert (wk_ID (workerFromHeartbeat now hb) = id) as Hk by done.
  pose proof (Update_verdict (workerFromHeartbeat now hb) (mkEnv now ∅) (cu_db c)) as Hv.
  unfold verdict in Hv. rewrite Hk, Hr, Ht in Hv. change (wk_FencingToken (workerFromHeartbeat now hb))
    with (wk_FencingToken (sw_worker s)) in Hv. rewrite Z.eqb_refl in Hv. destruct Hv as (x & db1 & Hu).
  destruct (reconcile_tx_Ok _ (inventoryFromEntries (sm_Snapshot (sw_VMs s))) _ _ _ _ Hu) as [db' Hdb'].
  exists db'. change (hb_Sandboxes hb) with (sm_Snapshot (sw_VMs s)). unfold exec_tx. rewrite Hdb'. done.
Qed.

(** The rows keep their worker, and whether they are over. *)
Lemma attributed_moved (db db' : DB) wid0 first inv now reg wid id :
  (forall id, sandboxes db' !! id = reconcile_row wid0 first inv now reg id <$> sandboxes db !! id) ->
  attributed_to db' wid id <-> attributed_to db wid id.
Proof.
  intros H. unfold attributed_to. rewrite H. destruct (sandboxes db !! id) as [r|]; cbn [fmap option_fmap option_map]; [|done].
  destruct (reconcile_row_attributed wid0 first inv now reg id r) as [Hw Ht].
  split; intros (? & [= <-] & H1 & H2); eexists; (split; [done|]); rewrite ?Hw, ?Ht in *; done.
Qed.

(** Its worker reports it neither alive nor dead: the row says what it said in [c0]. *)
Definition unreported (c0 : Cluster (M:=M)) (wid id : string) (r : sandbox_row) : Prop :=
  (exists r0, sandboxes (cu_db c0) !! id = Some r0 /\ active (row_status r0) /\ row_worker r0 = Some wid
     /\ row_seen r = row_seen r0)
  /\ forall st, hosted c0 wid !! id = Some st -> ~ alive st /\ st <> STATE_DEAD.

(** The heartbeats of the workers in [todo] are to come; [c0] is the cluster at first, [new]
    the jobs enqueued since. *)
Record beating (now : Z) (c0 c : Cluster) (todo : list string) (new : list JobInsert) : Prop := {
  bt_sims : cu_sims c = cu_sims c0;
  bt_inv : Inv (cu_db c);
  bt_evolves : evolves (cu_db c0) (cu_db c);
  bt_jobs : jobs (cu_db c) = jobs (cu_db c0) ++ new;
  bt_workers : forall id r', workers (cu_db c) !! id = Some r' ->
    exists r, workers (cu_db c0) !! id = Some r /\ wr_fencing_token r' = wr_fencing_token r
      /\ wr_registered_at r' = wr_registered_at r
      /\ (id ∈ todo \/ exists s, cu_sims c0 !! id = Some s /\ wr_status r' = WorkerStatusActive
             /\ wr_last_heartbeat r' = now
             /\ normalizeWorkerAddress (wr_address r') (int32 (default 0 (wr_port r'))) = dial_target (sw_worker s));
  bt_rows : forall id r wid, sandboxes (cu_db c) !! id = Some r -> active (row_status r) -> row_worker r = Some wid ->
    (exists st, hosted c0 wid !! id = Some st
       /\ ((wid ∈ todo /\ (alive st \/ st = STATE_DEAD)) \/ (alive st /\ row_seen r = now)))
    \/ unreported c0 wid id r;
  bt_hosted : forall wid id, wid ∉ todo -> is_Some (hosted c0 wid !! id) ->
    attributed_to (cu_db c) wid id \/ orphanInsert wid id ∈ new;
  bt_new : forall ji, ji ∈ new ->
    (exists id, ji = cleanupParams id StatusFailed
       /\ forall r0, sandboxes (cu_db c0) !! id = Some r0 -> row_status r0 <> StatusCleanupPending)
    \/ exists wid id, ji = orphanInsert wid id /\ ~ attributed_to (cu_db c0) wid id;
  bt_attributed : forall wid id, attributed_to (cu_db c) wid id <-> attributed_to (cu_db c0) wid id;
  bt_claimed : forall id r0, sandboxes (cu_db c0) !! id = Some r0 -> row_status r0 = StatusCleanupPending ->
    sandboxes (cu_db c) !! id = Some r0;
  bt_healthy : forall id r0 wid st, sandboxes (cu_db c0) !! id = Some r0 -> active (row_status r0) ->
    row_worker r0 = Some wid -> hosted c0 wid !! id = Some st -> alive st ->
    exists r, sandboxes (cu_db c) !! id = Some r /\ active (row_status r) /\ row_worker r = Some wid
      /\ (wid ∈ todo \/ row_seen r = now);
}.

Lemma set_db_hosted db c wid : hosted (set_db db c) wid = hosted c wid.
Proof. done. Qed.

(** One heartbeat, of the worker [id], and what it leaves of the record. *)
Section Beat.

Context (now : Z) (c0 c : Cluster (M:=M)) (id : string) (s : SimWorker M) (todo : list string) (new : list JobInsert).
Context (B : beating now c0 c (id :: todo) new) (Hs : cu_sims c0 !! id = Some s) (R : ready id s).
Context (db' : DB) (r r' : worker_row) (first : bool) (l : list JobInsert).

Abbreviation inv := (inventoryFromEntries (sm_Snapshot (sw_VMs s))).

Context (Hrows : forall sb, sandboxes db' !! sb
           = reconcile_row id first inv now (wr_registered_at r) sb <$> sandboxes (cu_db c) !! sb).

Lemma beat_workers i ri :
  workers (cu_db c) !! id = Some r -> workers db' = <[id := r']> (workers (cu_db c)) ->
  beaten (workerFromHeartbeat now (link_heartbeat s)) now r r' -> workers db' !! i = Some ri ->
  exists q, workers (cu_db c0) !! i = Some q /\ wr_fencing_token ri = wr_fencing_token q
    /\ wr_registered_at ri = wr_registered_at q
    /\ (i ∈ todo \/ exists s, cu_sims c0 !! i = Some s /\ wr_status ri = WorkerStatusActive
           /\ wr_last_heartbeat ri = now
           /\ normalizeWorkerAddress (wr_address ri) (int32 (default 0 (wr_port ri))) = dial_target (sw_worker s)).
Proof using B Hs R.
  intros Hr -> [b1 b2 b3 b4 b5 b6]. rewrite lookup_insert_Some. intros [[<- <-]|[N Hi]].
  - destruct (bt_workers _ _ _ _ _ B id r Hr) as (q & Hq & Ht & Hg & _). exists q.
    split; [done|]. split; [congruence|]. split; [congruence|]. right. exists s.
    rewrite b1, b2, b3. unfold dial_target, link_heartbeat, workerFromHeartbeat.
    destruct (sw_stripInventory s); cbn; by rewrite (rd_status _ _ R).
  - destruct (bt_workers _ _ _ _ _ B i ri Hi) as (q & H1 & H2 & H3 & H4).
    exists q. do 3 (split; [done|]). rewrite elem_of_cons in H4. destruct H4 as [[?|?]|?]; auto; done.
Qed.

Lemma beat_rows sb q wid :
  sandboxes db' !! sb = Some q -> active (row_status q) -> row_worker q = Some wid ->
  (exists st, hosted c0 wid !! sb = Some st
     /\ ((wid ∈ todo /\ (alive st \/ st = STATE_DEAD)) \/ (alive st /\ row_seen q = now)))
  \/ unreported c0 wid sb q.
Proof using quote B Hs R Hrows uuid_trim SandboxManagerLaws0.
  rewrite Hrows. destruct (sandboxes (cu_db c) !! sb) as [q0|] eqn:Hq; [|done]. intros [= <-] Ha Hw.
  pose proof (bt_rows _ _ _ _ _ B sb q0 wid Hq) as Hold.
  destruct (reconcile_row_attributed id first inv now (wr_registered_at r) sb q0) as [Ew _]. rewrite Ew in Hw.
  destruct (decide (wid = id)) as [->|N].
  - assert (hosted c0 id = sm_states (sw_VMs s)) as Hh by (unfold hosted; by rewrite Hs).
    destruct (reconcile_own id first _ _ now (wr_registered_at r) sb q0 (ready_reported id s R) Hw Ha)
      as [Ha0 [(st & H1 & H2 & H3)|[H1 H2]]].
    + left. exists st. rewrite Hh. auto.
    + right. destruct (Hold Ha0 Hw) as [(st & H3 & H4)|[(r0 & ? & ? & ? & E) ?]].
      * rewrite Hh in H3. destruct (H1 st H3). tauto.
      * split; [|done]. exists r0. by rewrite H2.
  - rewrite reconcile_other in * by congruence. destruct (Hold Ha Hw) as [(st & H3 & H4)|H3]; [|by right].
    left. exists st. split; [done|]. rewrite elem_of_cons in H4. destruct H4 as [[[?|?] ?]|?]; [done|auto|auto].
Qed.

Lemma beat_hosted wid sb :
  (forall i, i ∈ IDs inv -> ~ attributed_to (cu_db c) id i -> orphanInsert id i ∈ l) ->
  wid ∉ todo -> is_Some (hosted c0 wid !! sb) -> attributed_to db' wid sb \/ orphanInsert wid sb ∈ new ++ l.
Proof using quote B Hs R Hrows uuid_trim SandboxManagerLaws0.
  intros Horph Hwid Hsb. rewrite (attributed_moved _ _ _ _ _ _ _ wid sb Hrows), elem_of_app.
  destruct (decide (wid = id)) as [->|N].
  - unfold hosted in Hsb. rewrite Hs in Hsb. cbn in Hsb.
    pose proof (proj2 (listed_iff (sm_states (sw_VMs s)) _ sb (ready_reported id s R)) Hsb) as Hin.
    destruct (attributed_dec (cu_db c) id sb) as [?|Hno]; [by left|]. right. right. by apply Horph.
  - destruct (bt_hosted _ _ _ _ _ B wid sb) as [?|?]; [|done|auto|auto]. rewrite elem_of_cons. tauto.
Qed.

Lemma beat_healthy sb q0 wid st :
  sandboxes (cu_db c) !! sb = Some q0 -> active (row_status q0) -> row_worker q0 = Some wid ->
  hosted c0 wid !! sb = Some st -> alive st -> wid ∈ id :: todo \/ row_seen q0 = now ->
  exists q, sandboxes db' !! sb = Some q /\ active (row_status q) /\ row_worker q = Some wid
    /\ (wid ∈ todo \/ row_seen q = now).
Proof using quote Hs R Hrows uuid_trim SandboxManagerLaws0.
  intros Hq Ha Hw Hh Hal Hor. rewrite Hrows, Hq. eexists. split; [done|].
  destruct (reconcile_row_attributed id first inv now (wr_registered_at r) sb q0) as [-> _].
  destruct (decide (wid = id)) as [->|N].
  - unfold hosted in Hh. rewrite Hs in Hh.
    destruct (reconcile_healthy id first _ _ now (wr_registered_at r) sb q0 st (ready_reported id s R) Hw Ha Hh Hal). auto.
  - rewrite reconcile_other by congruence. rewrite elem_of_cons in Hor. split; [done|]. split; [done|].
    destruct Hor as [[?|?]|?]; auto; done.
Qed.

End Beat.

Lemma beating_step now c0 c id s todo new :
  beating now c0 c (id :: todo) new -> cu_sims c0 !! id = Some s -> ready id s ->
  (exists r, workers (cu_db c0) !! id = Some r /\ wr_fencing_token r = wk_FencingToken (sw_worker s)) ->
  exists new', beating now c0 (beat_of now s c).2 todo new'.
Proof using uuid_trim SandboxManagerLaws0.
  intros B Hs R (r0 & Hr0 & Ht0). pose proof B as [B1 B2 B3 B4 B5 _ _ B8 B9 B11 B10].
  destruct (ev_workers _ _ B3 _ _ Hr0) as (r & Hr & _).
  destruct (B5 id r Hr) as (r1 & Hr1 & Ht1 & _ & _). rewrite Hr0 in Hr1. injection Hr1 as <-.
  destruct (beat_effect now id s c r R Hr) as (db' & Hbeat & Htx & Hid); [congruence|].
  destruct (reconcile_effect _ _ _ _ r _ Htx) as (r' & first & l & Hw' & Hb & Hrows & Hj & Hnew & Horph); [by rewrite Hid|].
  rewrite Hid in *. cbn [tx_now] in *. exists (new ++ l).
  assert (Inv db' /\ evolves (cu_db c) db') as [HI' HE'].
  { change db' with (cu_db (set_db db' c)). replace (set_db db' c) with ((beat_of now s c).2) by (by rewrite Hbeat).
    destruct (rd_up _ _ R) as (Hrun & Hpart & _). unfold beat. rewrite Hrun, Hpart. cbn [negb orb].
    apply (wp_cexec now _ (fun _ _ => True)); [done|]. apply WP_ReportWorkerHeartbeat. }
  rewrite Hbeat. cbn [snd]. split; cbn [set_db cu_sims cu_db]; try done.
  - by etrans.
  - by rewrite Hj, B4, app_assoc.
  - intros i ri. by apply (beat_workers now c0 c id s todo new B Hs R db' r r').
  - intros sb q wid. by apply (beat_rows now c0 c id s todo new B Hs R db' r first).
  - intros wid sb. by apply (beat_hosted now c0 c id s todo new B Hs R db' r first l).
  - intros ji [Hji|Hji]%elem_of_app; [by apply B8|].
    destruct (Hnew ji Hji) as [(sb & -> & q & Hq & Hn)|(sb & -> & Hn)].
    + left. exists sb. split; [done|]. intros r2 Hr2 E. rewrite (B11 sb r2 Hr2 E) in Hq. by injection Hq as <-.
    + right. exists id, sb. by rewrite <- B9.
  - intros wid sb. by rewrite (attributed_moved _ _ _ _ _ _ _ wid sb Hrows).
  - intros sb q0 Hq0 Hst. rewrite Hrows, (B11 sb q0 Hq0 Hst). cbn. unfold reconcile_row. rewrite Hst. cbn. by rewrite andb_false_r.
  - intros sb q0 wid st H1 H2 H3 H4 H5. destruct (B10 sb q0 wid st H1 H2 H3 H4 H5) as (q & ? & ? & ? & ?).
    by apply (beat_healthy now c0 c id s todo Hs R db' r first Hrows sb q wid st).
Qed.

Lemma beating_all now c0 l c new :
  beating now c0 c l.*1 new ->
  (forall id s, (id, s) ∈ l -> cu_sims c0 !! id = Some s /\ ready id s
     /\ exists r, workers (cu_db c0) !! id = Some r /\ wr_fencing_token r = wk_FencingToken (sw_worker s)) ->
  exists new', beating now c0 (foldl (fun c kv => (beat_of now kv.2 c).2) c l) [] new'.
Proof using uuid_trim SandboxManagerLaws0.
  revert c new. induction l as [|[id s] l IH]; intros c new B Hl; [by exists new|]. cbn [fmap list_fmap fst] in *.
  destruct (Hl id s) as (Hs & R & Hr); [left|].
  destruct (beating_step now c0 c id s _ new B Hs R Hr) as [new' B'].
  cbn [foldl snd]. apply (IH _ new' B'). intros i q Hq. apply Hl. by right.
Qed.

Lemma registered_names (c : Cluster (M:=M)) : (registered c).*1 ≡ₚ (map_to_list (cu_sims c)).*1.
Proof. unfold registered. by rewrite merge_sort_Permutation. Qed.

Lemma alive_dec st : {alive st} + {~ alive st}.
Proof. unfold alive. destruct (decide (st = STATE_STARTING)), (decide (st = STATE_RUNNING)), (decide (st = STATE_PAUSED)); tauto. Qed.

Lemma beats_done w now pending c :
  live w pending c -> exists new, beating now c (beats now c) [] new.
Proof using uuid_trim SandboxManagerLaws0.
  intros Q. assert (forall id, id ∈ (registered c).*1 <-> is_Some (cu_sims c !! id)) as Hreg.
  { intros id. rewrite registered_names, list_elem_of_fmap. split.
    - intros ([i s] & -> & H%elem_of_map_to_list). by eexists.
    - intros [s H]. exists (id, s). by rewrite elem_of_map_to_list. }
  unfold beats. apply (beating_all now c (registered c) c []).
  - split; [done|apply Q|done|by rewrite app_nil_r|..].
    + intros id r' Hr'. exists r'. split; [done|]. split; [done|]. split; [done|]. left.
      apply Hreg, (lv_workers _ _ _ Q). by eexists.
    + intros id r wid Hr Ha Hw.
      assert (forall st, hosted c wid !! id = Some st -> alive st \/ st = STATE_DEAD ->
        exists st, hosted c wid !! id = Some st
          /\ ((wid ∈ (registered c).*1 /\ (alive st \/ st = STATE_DEAD)) \/ (alive st /\ row_seen r = now))) as Hst.
      { intros st H1 H2. exists st. split; [done|]. left. split; [|done].
        apply Hreg. destruct (proj1 (hosted_sim c wid id)) as (s & Hs & _); by eexists. }
      destruct (hosted c wid !! id) as [st|] eqn:Eh; [|right; split; [by exists r|by rewrite Eh]].
      destruct (alive_dec st); [left; eauto|]. destruct (decide (st = STATE_DEAD)); [left; eauto|].
      right. split; [by exists r|]. rewrite Eh. by intros ? [= <-].
    + intros wid id Hn (s & Hs & _)%hosted_sim. destruct Hn. apply Hreg. by eexists.
    + intros ji H. by apply not_elem_of_nil in H.
    + done.
    + done.
    + intros id r wid st Hr Ha Hw Hh _. exists r. do 3 (split; [done|]). left. apply Hreg.
      destruct (proj1 (hosted_sim c wid id)) as (s & Hs & _); by eexists.
  - intros id s Hs%elem_of_registered. destruct (lv_sims _ _ _ Q id s Hs) as (R & r & ? & ?). eauto.
Qed.

(** ** The reapers *)

(** Every worker has just been heard: none is stale. *)
Lemma reap_workers_idle timeout now c :
  (forall id r, workers (cu_db c) !! id = Some r -> wr_last_heartbeat r = now) ->
  (exec now (ReapWorkersWorker_Work timeout) c).2 = c.
Proof.
  intros H. unfold ReapWorkersWorker_Work. cbn. unfold set_db. destruct c as [db sims]. f_equal. cbn in *.
  destruct db as [sb wk ev us se jb]. unfold set_workers. cbn in *. f_equal. apply map_eq. intros id.
  rewrite lookup_fmap. destruct (wk !! id) as [r|] eqn:Hr; [|done]. cbn. f_equal. unfold is_stale. rewrite (H id r Hr).
  set (t := if timeout <=? 0 then defaultHeartbeatTimeout else timeout).
  assert (0 < t) by (unfold t; destruct (Z.leb_spec timeout 0); [done|lia]).
  destruct (Z.ltb_spec now (now - t)); [lia|]. by rewrite andb_false_r.
Qed.

(** What is left after the reapers: the jobs to run are [q]; [S] are the sandboxes claimed
    without a job, [Y] those that may be left alone, or lose their VM to a stale job. *)
Record reaped (S Y : string -> Prop) (c : Cluster (M:=M)) (q : list JobInsert) : Prop := {
  rp_inv : Inv (cu_db c);
  rp_queue : forall ji, ji ∈ q -> ji ∈ jobs (cu_db c) /\ forall a, ji_args ji <> JobCreate a;
  rp_sims : forall id s, cu_sims c !! id = Some s -> ready id s
    /\ exists r, workers (cu_db c) !! id = Some r /\ wr_status r = WorkerStatusActive
         /\ normalizeWorkerAddress (wr_address r) (int32 (default 0 (wr_port r))) = dial_target (sw_worker s)
         /\ wr_fencing_token r = wk_FencingToken (sw_worker s);
  rp_workers : forall id, is_Some (workers (cu_db c) !! id) -> is_Some (cu_sims c !! id);
  rp_ids : forall id, is_Some (sandboxes (cu_db c) !! id) -> IsSandboxID uuid_Parse id = true;
  rp_rows : forall id r, sandboxes (cu_db c) !! id = Some r ->
    (active (row_status r) /\ exists wid st, row_worker r = Some wid /\ hosted c wid !! id = Some st /\ alive st)
    \/ (row_status r = StatusCleanupPending /\ (cleanup_in q id \/ S id))
    \/ terminal (row_status r)
    \/ ((early (row_status r) \/ active (row_status r)) /\ Y id);
  rp_hosted : forall wid id, is_Some (hosted c wid !! id) ->
    (exists r, sandboxes (cu_db c) !! id = Some r /\ row_worker r = Some wid
       /\ (active (row_status r) \/ row_status r = StatusCleanupPending))
    \/ removal_in q wid id;
  rp_orphans : forall wid id, removal_in q wid id ->
    forall r, sandboxes (cu_db c) !! id = Some r -> row_worker r = Some wid -> active (row_status r) -> Y id;
}.

Lemma early_before st st' : rtc status_step st st' -> early st' -> early st.
Proof.
  intros H. unfold early. induction H as [|st st1 st' Hs _ IH]; [done|]. intros [E|E]%IH; subst st1; inversion Hs; auto.
Qed.

(** The reaper leaves a claimed row alone. *)
Lemma claimed_verdict w env db id r :
  row_status r = StatusCleanupPending -> reap_verdict w env db id r = None.
Proof.
  intros Hst. unfold reap_verdict, ttl_expired, liveness_expired, creation_stalled. rewrite Hst.
  case_bool_decide; [done|]. destruct (row_worker r) as [wid|]; [destruct (workers db !! wid)|]; cbn; by rewrite ?andb_false_r.
Qed.

Lemma cleanup_dec q id : cleanup_in q id \/ ~ cleanup_in q id.
Proof.
  unfold cleanup_in. induction (ji_args <$> q) as [|a l IH].
  - right. intros [t H]. by apply not_elem_of_nil in H.
  - setoid_rewrite elem_of_cons. destruct IH as [(t & ?)|Hn]; [left; eauto|].
    destruct a as [b|[i t]|b]; [|destruct (decide (i = id)) as [->|]; [left; eauto|]|];
      right; intros (t' & [E|H]); try (by apply Hn; exists t'); congruence.
Qed.

Lemma stranded_dec pending c id : stranded pending c id \/ ~ stranded pending c id.
Proof.
  unfold stranded. destruct (sandboxes (cu_db c) !! id) as [r|]; [|right; by intros (? & ? & _)].
  destruct (decide (row_status r = StatusCleanupPending)); [|right; by intros (? & [= <-] & ? & _)].
  destruct (cleanup_dec pending id) as [?|?]; [right; by intros (? & _ & _ & ?)|left; by exists r].
Qed.

Section Reaped.

Context (w : ReapSandboxWorker) (now : Z) (pending new : list JobInsert) (c0 c1 : Cluster (M:=M)) (db3 : DB).
Context (Q : live w pending c0) (B : beating now c0 c1 [] new).
Context (E3 : reap_sandbox_tx w (mkEnv now ∅) (cu_db c1) = (Ok tt, db3)).

(** No row is created. *)
Lemma reaped_before id : is_Some (sandboxes (cu_db c1) !! id) -> is_Some (sandboxes (cu_db c0) !! id).
Proof using Q B.
  intros (ji & Hji & Ha)%(inv_created _ (bt_inv _ _ _ _ _ B)). apply (inv_created _ (lv_inv _ _ _ Q)). exists ji.
  split; [|done]. rewrite (bt_jobs _ _ _ _ _ B), elem_of_app in Hji. destruct Hji as [?|Hji]; [done|].
  by destruct (bt_new _ _ _ _ _ B ji Hji) as [(? & -> & _)|(? & ? & -> & _)].
Qed.

(** What the reaper leaves is seen, over, or waits for its time. *)
Lemma unclaimed_row id r :
  sandboxes (cu_db c1) !! id = Some r -> reap_verdict w (mkEnv now ∅) (cu_db c1) id r = None ->
  (active (row_status r) /\ exists wid st, row_worker r = Some wid /\ hosted c0 wid !! id = Some st /\ alive st)
  \/ given_up (row_status r)
  \/ ((early (row_status r) \/ active (row_status r)) /\ waiting w now c0 id).
Proof using Q B.
  intros Hr Hv. pose proof (inv_rows _ (bt_inv _ _ _ _ _ B) id r Hr) as Hok. unfold reap_verdict in Hv.
  rewrite bool_decide_false in Hv by apply not_elem_of_empty. destruct (ttl_expired _ _); [done|].
  destruct (_ || _) eqn:Hor in Hv; [done|]. apply orb_false_elim in Hor as [Hl Hc].
  destruct (ro_known _ _ _ Hok) as [He|[Ha|?]]; [right; right|..|by right; left].
  - split; [by left|]. destruct (reaped_before id ltac:(by eexists)) as [r0 Hr0]. exists r0. split; [done|]. left.
    destruct (ev_rows _ _ (bt_evolves _ _ _ _ _ B) _ _ Hr0) as (r' & Hr' & [Hst Hid _]).
    rewrite Hr in Hr'. injection Hr' as <-. split; [by eapply early_before|]. intros [Hct Hlate].
    unfold row_identity in Hid. injection Hid as _ _ _ Hca _ _ _ _ _ _.
    rewrite (proj2 (Z.ltb_lt 0 _)) in Hc by done. unfold creation_stalled in Hc. rewrite Hca in Hc. cbn [tx_now andb] in Hc.
    rewrite (proj2 (Z.ltb_lt _ _)) in Hc by done. clear -He Hc. by destruct He as [E|E]; rewrite E in Hc.
  - destruct (ro_active _ _ _ Hok Ha) as [wid Hw].
    destruct (bt_rows _ _ _ _ _ B id r wid Hr Ha Hw) as [(st & Hst & [[Hn _]|[Hal _]])|[(r0 & Hr0 & Ha0 & Hw0 & Eseen) Hnot]].
    + by apply not_elem_of_nil in Hn.
    + left. split; [done|]. by exists wid, st.
    + right. right. split; [by right|]. exists r0. split; [done|]. right. split; [done|].
      destruct (ro_worker _ _ _ Hok wid Hw) as [wr Hwr]. unfold liveness_expired in Hl. rewrite Hw, Hwr in Hl.
      destruct (bt_workers _ _ _ _ _ B wid wr Hwr) as (wr0 & Hwr0 & _ & Hreg & [Hn|(s & Hs & _ & Hhb & _)]).
      { by apply not_elem_of_nil in Hn. }
      apply status_in_true in Ha. rewrite Ha, Hhb, Hreg, Eseen in Hl. cbn [andb] in Hl. apply orb_false_elim in Hl as [Hl _].
      apply Z.ltb_ge in Hl. exists wid, wr0. by split_and!.
Qed.

(** The rows after it: as they were, or claimed. *)
Lemma claimed_row id r :
  sandboxes db3 !! id = Some r ->
  exists r1, sandboxes (cu_db c1) !! id = Some r1 /\ row_worker r = row_worker r1
    /\ (row_status r = StatusCleanupPending
        \/ (r = r1 /\ reap_verdict w (mkEnv now ∅) (cu_db c1) id r = None)).
Proof using E3.
  destruct (reaper_claims _ _ _ _ E3) as (Hrows & _). rewrite Hrows.
  destruct (sandboxes (cu_db c1) !! id) as [r1|]; [|done]. intros [= <-]. exists r1. split; [done|].
  destruct (reap_verdict w (mkEnv now ∅) (cu_db c1) id r1) eqn:Hv; cbn; auto.
Qed.

Lemma reaped_jobs_new :
  exists l, jobs db3 = jobs (cu_db c0) ++ new ++ l
    /\ forall ji, ji ∈ l -> exists id st, ji = cleanupParams id st
         /\ forall r0, sandboxes (cu_db c0) !! id = Some r0 -> row_status r0 <> StatusCleanupPending.
Proof using B E3.
  destruct (reaper_claims _ _ _ _ E3) as (_ & _ & l & Hl & _ & Hin). exists l.
  rewrite Hl, (bt_jobs _ _ _ _ _ B), <- app_assoc. split; [done|].
  intros ji (id & r & st & Hr & Hv & ->)%Hin. exists id, st. split; [done|]. intros r0 Hr0 E.
  rewrite (bt_claimed _ _ _ _ _ B id r0 Hr0 E) in Hr. injection Hr as <-. by rewrite claimed_verdict in Hv.
Qed.

Abbreviation queue := (pending ++ drop (length (jobs (cu_db c0))) (jobs db3)).

Lemma elem_of_queue ji :
  ji ∈ queue <-> ji ∈ pending \/ exists l, jobs db3 = jobs (cu_db c0) ++ l /\ ji ∈ l.
Proof using B E3.
  destruct reaped_jobs_new as (l & Hl & _). rewrite Hl, drop_app_length, elem_of_app. split.
  - intros [?|?]; eauto.
  - intros [?|(l' & E & ?)]; [by left|right]. by apply app_inv_head in E as ->.
Qed.

Lemma queue_new ji :
  ji ∈ queue -> ji ∈ pending
    \/ (exists id st, ji = cleanupParams id st
          /\ forall r0, sandboxes (cu_db c0) !! id = Some r0 -> row_status r0 <> StatusCleanupPending)
    \/ exists wid id, ji = orphanInsert wid id /\ ~ attributed_to (cu_db c0) wid id.
Proof using B E3.
  destruct reaped_jobs_new as (l & Hl & Hin). rewrite Hl, drop_app_length, !elem_of_app.
  intros [?|[Hji|?]]; [by left| |right; left; by apply Hin].
  destruct (bt_new _ _ _ _ _ B ji Hji) as [(id & -> & ?)|?]; eauto 7.
Qed.

Lemma cleanup_queued id : cleanup_in queue id ->
  cleanup_in pending id \/ forall r0, sandboxes (cu_db c0) !! id = Some r0 -> row_status r0 <> StatusCleanupPending.
Proof using B E3.
  intros (t & (ji & Ha & Hji)%list_elem_of_fmap). apply queue_new in Hji as [Hp|[(i & st & -> & Hn)|(? & ? & -> & _)]]; [|..|done].
  - left. exists t. rewrite Ha. by apply list_elem_of_fmap_2.
  - right. cbn in Ha. by injection Ha as -> _.
Qed.

Lemma removal_queued wid id : removal_in queue wid id -> removal_in pending wid id \/ ~ attributed_to (cu_db c0) wid id.
Proof using B E3.
  intros (ji & Ha & Hji)%list_elem_of_fmap. apply queue_new in Hji as [Hp|[(? & ? & -> & _)|(? & ? & -> & Hn)]]; [|done|].
  - left. unfold removal_in. rewrite Ha. by apply list_elem_of_fmap_2.
  - right. cbn in Ha. by injection Ha as -> ->.
Qed.

(** The jobs to run cover the claimed rows, but for those whose job is gone. *)
Lemma queue_covers id r :
  Inv db3 -> evolves (cu_db c1) db3 -> sandboxes db3 !! id = Some r -> row_status r = StatusCleanupPending ->
  cleanup_in queue id \/ stranded pending c0 id.
Proof using Q B E3.
  intros HI HE Hr Hst. destruct (inv_claimed _ HI id r Hr Hst) as [t Ht].
  destruct reaped_jobs_new as (l & Hl & _). rewrite Hl in Ht. apply elem_of_app in Ht as [Ht|Ht].
  - destruct (inv_cleanup _ (lv_inv _ _ _ Q) _ _ Ht eq_refl) as (_ & r0 & Hr0 & [Hc|Hterm]); cbn in Hr0.
    + assert (cleanup_in pending id \/ ~ cleanup_in pending id) as [Hp|Hn] by apply cleanup_dec.
      * left. destruct Hp as [t' Ht']. exists t'. rewrite fmap_app, elem_of_app. by left.
      * right. by exists r0.
    + exfalso. destruct (ev_rows _ _ (transitivity (bt_evolves _ _ _ _ _ B) HE) _ _ Hr0) as (r' & Hr' & [Hs _ _]).
      rewrite Hr in Hr'. injection Hr' as <-. rewrite (rtc_terminal _ _ Hs Hterm) in Hst. destruct Hterm as [E|E]; congruence.
  - left. exists t. apply (list_elem_of_fmap_2 ji_args queue (cleanupInsert id t)). apply elem_of_queue. eauto.
Qed.

(** A claimed row without a job is left as it is. *)
Lemma reap_stranded id : stranded pending c0 id ->
  (exists r, sandboxes db3 !! id = Some r /\ row_status r = StatusCleanupPending) /\ ~ cleanup_in queue id.
Proof using B E3.
  intros (r & Hr & Hst & Hn). split.
  - exists r. split; [|done]. destruct (reaper_claims _ _ _ _ E3) as (-> & _).
    rewrite (bt_claimed _ _ _ _ _ B id r Hr Hst). cbn. unfold claim_row. case_bool_decide; [|done]. f_equal.
    exfalso. destruct H as [st H]. by rewrite claimed_verdict in H.
  - intros [Hp|H]%cleanup_queued; [done|]. by apply (H r).
Qed.

(** The reaper spares a sandbox that was reported alive and has time left. *)
Lemma reap_healthy id r0 wid st :
  sandboxes (cu_db c0) !! id = Some r0 -> active (row_status r0) -> row_worker r0 = Some wid ->
  hosted c0 wid !! id = Some st -> alive st ->
  now < sb_CreatedAt (row_sandbox r0) + ttl_interval (sb_TTL (row_sandbox r0)) ->
  exists r, sandboxes db3 !! id = Some r /\ active (row_status r) /\ row_worker r = Some wid.
Proof using Q B E3.
  intros Hr0 Ha0 Hw0 Hh Hal Httl.
  destruct (bt_healthy _ _ _ _ _ B id r0 wid st Hr0 Ha0 Hw0 Hh Hal) as (r & Hr & Ha & Hw & [Hn|Hseen]);
    [by apply not_elem_of_nil in Hn|].
  exists r. split; [|done]. destruct (reaper_claims _ _ _ _ E3) as (-> & _). rewrite Hr. cbn [fmap option_fmap option_map].
  destruct (ev_rows _ _ (bt_evolves _ _ _ _ _ B) _ _ Hr0) as (r' & Hr' & [_ Hid _]). rewrite Hr in Hr'. injection Hr' as <-.
  unfold row_identity in Hid. injection Hid as _ _ Ettl Eca _ _ _ _ _ _.
  enough (reap_verdict w (mkEnv now ∅) (cu_db c1) id r = None) as -> by done. unfold reap_verdict.
  rewrite bool_decide_false by apply not_elem_of_empty. unfold ttl_expired. rewrite Ettl, Eca. cbn [tx_now].
  destruct (Z.leb_spec (sb_CreatedAt (row_sandbox r0) + ttl_interval (sb_TTL (row_sandbox r0))) now); [exfalso; clear -H Httl; lia|].
  rewrite andb_false_r. unfold liveness_expired, creation_stalled. rewrite Hw.
  destruct (ro_worker _ _ _ (inv_rows _ (bt_inv _ _ _ _ _ B) id r Hr) wid Hw) as [x Hx]. rewrite Hx.
  destruct (bt_workers _ _ _ _ _ B wid x Hx) as (_ & _ & _ & _ & [Hn|(_ & _ & Hst & Hhb & _)]); [by apply not_elem_of_nil in Hn|].
  rewrite Hst, Hhb, Hseen, (bool_decide_false (WorkerStatusActive = _)) by done. cbn [andb].
  destruct (lv_timeouts _ _ _ Q) as (Hlt & _). destruct (Z.ltb_spec (Z.max now (wr_registered_at x) + rs_livenessTimeout w) now) as [Hbad|_].
  { exfalso. clear -Hbad Hlt. lia. }
  rewrite orb_false_r, andb_false_r. cbn [orb].
  assert (status_in (row_status r) [StatusPending; StatusScheduling] = false) as ->; [|by rewrite andb_false_r].
  clear -Ha. unfold active, active_statuses in Ha. status_cases; by rewrite Ha.
Qed.

(** What the reapers leave. *)
Lemma reap_done : Inv db3 -> evolves (cu_db c1) db3 ->
  reaped (stranded pending c0) (unsettled w now pending c0) (set_db db3 c1) queue.
Proof using Q B E3.
  intros HI HE. destruct (reaper_claims _ _ _ _ E3) as (_ & Hwk & _).
  assert (cu_sims (set_db db3 c1) = cu_sims c0) as Hsims by apply (bt_sims _ _ _ _ _ B).
  split; cbn [cu_db set_db]; [done|..].
  - intros ji Hji. split.
    + apply elem_of_queue in Hji as [[H _]%(lv_pending _ _ _ Q)|(l & -> & ?)]; [|apply elem_of_app; by right].
      destruct reaped_jobs_new as (l & -> & _). apply elem_of_app; by left.
    + apply queue_new in Hji as [[_ H]%(lv_pending _ _ _ Q)|[(? & ? & -> & _)|(? & ? & -> & _)]]; [exact H|done..].
  - rewrite Hsims, Hwk. intros id s Hs. destruct (lv_sims _ _ _ Q id s Hs) as (R & r0 & Hr0 & Ht0). split; [done|].
    destruct (ev_workers _ _ (bt_evolves _ _ _ _ _ B) _ _ Hr0) as (r & Hr & _). exists r. split; [done|].
    destruct (bt_workers _ _ _ _ _ B id r Hr) as (x & Hx & Et & _ & [Hn|(s' & Hs' & H1 & _ & H2)]); [by apply not_elem_of_nil in Hn|].
    rewrite Hs in Hs'. injection Hs' as <-. rewrite Hr0 in Hx. injection Hx as <-. by rewrite Et.
  - rewrite Hsims, Hwk. intros id [r Hr].
    destruct (bt_workers _ _ _ _ _ B id r Hr) as (_ & _ & _ & _ & [Hn|(s' & Hs' & _)]); [by apply not_elem_of_nil in Hn|by eexists].
  - intros id [r (r1 & Hr1 & _)%claimed_row]. apply (lv_ids _ _ _ Q), reaped_before. by eexists.
  - intros id r Hr. destruct (claimed_row id r Hr) as (r1 & Hr1 & _ & [Hc|[-> Hv]]).
    { right. left. split; [done|]. by apply (queue_covers id r). }
    unfold hosted. rewrite Hsims. destruct (unclaimed_row id r1 Hr1 Hv) as [?|[[Hc|?]|[? ?]]]; [by left| |by right; right; left|].
    + right. left. split; [done|]. by apply (queue_covers id r1).
    + right. right. right. split; [done|]. by left.
  - intros wid id. unfold hosted. rewrite Hsims. intros Hh.
    destruct (bt_hosted _ _ _ _ _ B wid id (not_elem_of_nil _) Hh) as [(r1 & Hr1 & Hw & Ht)|Ho].
    + left. destruct (ev_rows _ _ HE _ _ Hr1) as (r & Hr & _). exists r. split; [done|].
      destruct (claimed_row id r Hr) as (r1' & Hr1' & Hw' & Hc). rewrite Hr1 in Hr1'. injection Hr1' as <-.
      split; [congruence|]. destruct Hc as [?|[-> _]]; [by right|].
      pose proof (inv_rows _ (bt_inv _ _ _ _ _ B) id r1 Hr1) as Hok.
      destruct (ro_known _ _ _ Hok) as [He|[?|[?|Hterm]]]; [|by left|by right|].
      * rewrite (ro_early _ _ _ Hok He) in Hw. done.
      * rewrite (ro_terminal _ _ _ Hok Hterm) in Hw. done.
    + right. apply (list_elem_of_fmap_2 ji_args queue (orphanInsert wid id)). apply elem_of_queue. right.
      destruct reaped_jobs_new as (l & -> & _). eexists. split; [done|]. apply elem_of_app; by left.
  - intros wid id Hji r Hr Hw Hact.
    assert (attributed_to (cu_db c0) wid id) as Hatt.
    { apply (bt_attributed _ _ _ _ _ B). destruct (claimed_row id r Hr) as (r1 & Hr1 & Hw1 & [Hc|[-> _]]).
      - rewrite Hc in Hact. clear -Hact. status_cases; done.
      - exists r1. split; [done|]. split; [done|]. clear -Hact. unfold active in Hact. status_cases; destruct (row_status r1); set_solver. }
    apply removal_queued in Hji as [Hp|?]; [|done]. right. by exists wid.
Qed.

End Reaped.

(** ** The jobs *)

Section Jobs.

Context (S Y : string -> Prop).

Abbreviation leftover := (reaped S Y).

Lemma ready_VMs wid s m :
  ready wid s -> sm_ok m -> (forall sb, is_Some (sm_states m !! sb) -> is_Some (sm_states (sw_VMs s) !! sb)) ->
  ready wid (set_VMs m s).
Proof. intros [H1 H2 H3 H4 H5 H6 H7 H8] Hm Hsub. split; cbn; auto. Qed.

(** A removal: what the worker answers and hosts after it. *)
Lemma intercept_remove wid id s :
  ready wid s ->
  exists r m, intercept uuid_Parse quote third _ (CallRemoveSandbox id) s = (r, set_VMs m s) /\ ready wid (set_VMs m s)
    /\ (forall i, sm_states m !! i = if decide (i = id) then None else sm_states (sw_VMs s) !! i)
    /\ (IsSandboxID uuid_Parse id = true -> match r with Ok _ => True | Err e => status_Code e = NotFound end).
Proof using SandboxManagerLaws0 uuid_managed.
  intros R. destruct (rd_up _ _ R) as (Hrun & Hpart & _).
  assert (sm_states (sw_VMs s) !! id = None ->
          forall i, sm_states (sw_VMs s) !! i = if decide (i = id) then None else sm_states (sw_VMs s) !! i) as Hsame.
  { intros Hn i. by destruct (decide (i = id)) as [->|]. }
  unfold intercept. rewrite Hrun, Hpart. cbn [is_dial is_create negb andb orb serve_rpc].
  unfold guarded, checkSandboxID, CheckSandboxID, answer.
  destruct (IsSandboxID uuid_Parse id) eqn:Hid; cbn [fmap option_fmap option_map negb].
  - destruct (sm_states (sw_VMs s) !! id) as [st|] eqn:Hst.
    + destruct (sm_remove_drops id (sw_VMs s)) as (m & -> & Hok & Hm); [apply R|by apply uuid_managed|by eexists|].
      exists (Ok tt), m. assert (forall i, sm_states m !! i = if decide (i = id) then None else sm_states (sw_VMs s) !! i) as Hi.
      { intros i. rewrite Hm. destruct (decide (i = id)) as [->|]; [apply lookup_delete_eq|by apply lookup_delete_ne]. }
      split; [done|]. split; [|done]. apply ready_VMs; [done..|]. intros sb. rewrite Hi. by case_decide as E; [intros []|].
    + destruct (sm_remove_unknown id (sw_VMs s)) as (m & -> & Hok & Hm); [apply R|by apply uuid_managed|done|].
      eexists _, m. split; [done|]. rewrite Hm. split; [|by split; [apply Hsame|]].
      apply ready_VMs; [done..|]. by rewrite Hm.
  - eexists _, (sw_VMs s). split; [done|]. split; [apply ready_VMs; [done|apply R|done]|]. split; [|done].
    apply Hsame. destruct (sm_states (sw_VMs s) !! id) eqn:E; [|done]. rewrite (rd_hosted _ _ R id) in Hid; [done|by eexists].
Qed.

(** The cluster after it. *)
Record removed (wid id : string) (c c' : Cluster (M:=M)) : Prop := {
  rm_db : cu_db c' = cu_db c;
  rm_sims : forall w s', cu_sims c' !! w = Some s' -> exists s, cu_sims c !! w = Some s
    /\ sw_worker s' = sw_worker s /\ (ready w s -> ready w s');
  rm_dom : forall w, is_Some (cu_sims c !! w) -> is_Some (cu_sims c' !! w);
  rm_hosted : forall w i, hosted c' w !! i = if decide (w = wid /\ i = id) then None else hosted c w !! i;
}.

Lemma intercept_dial s : intercept uuid_Parse quote third _ Dial s = (Ok tt, s).
Proof. by destruct s. Qed.

Lemma cexec_rpc {A X} now addr (o : rpc X) (k : result error X -> prog A) c id s :
  route addr = Some id -> cu_sims c !! id = Some s ->
  exec now (Rpc addr o k) c
  = (let '(r, s') := intercept uuid_Parse quote third X o s in exec now (k r) (set_sim id s' c)).
Proof. intros Hr Hs. cbn [cexec]. rewrite Hr. cbn. by rewrite Hs. Qed.

Lemma remove_effect now wid id c q :
  leftover c q ->
  let out := exec now (removeSandboxOnWorker wid id) c in
  removed wid id c out.2
  /\ (is_Some (workers (cu_db c) !! wid) -> IsSandboxID uuid_Parse id = true -> out.1 = None).
Proof using SandboxManagerLaws0 uuid_managed.
  intros P. unfold removeSandboxOnWorker. cbn [bind cexec exec_tx]. unfold WorkerRepo.Get.
  destruct (workers (cu_db c) !! wid) as [r|] eqn:Hr.
  - destruct (rp_workers _ _ _ _ P wid ltac:(by eexists)) as [s Hs].
    destruct (rp_sims _ _ _ _ P wid s Hs) as (R & r' & Hr' & _ & Haddr & _). rewrite Hr in Hr'. injection Hr' as <-.
    change (wk_Address (scanWorker wid r)) with (wr_address r). change (wk_Port (scanWorker wid r)) with (default 0 (wr_port r)).
    rewrite Haddr, (cexec_rpc _ _ _ _ _ wid s) by (done || apply R). rewrite intercept_dial.
    rewrite (cexec_rpc _ _ _ _ _ wid s) by (apply R || apply lookup_insert_eq).
    destruct (intercept_remove wid id s R) as (g & m & -> & R' & Hm & Hg). split.
    + assert (removed wid id c (set_sim wid (set_VMs m s) (set_sim wid s (set_db (cu_db c) c)))) as Hrm.
      { split; cbn [set_sim set_db cu_sims cu_db].
        - done.
        - intros w s'. rewrite insert_insert_eq. destruct (decide (w = wid)) as [->|N].
          + rewrite lookup_insert_eq. intros [= <-]. by exists s.
          + rewrite lookup_insert_ne by done. intros H. by exists s'.
        - intros w Hw. rewrite insert_insert_eq. destruct (decide (w = wid)) as [->|N].
          + rewrite lookup_insert_eq. by eexists.
          + by rewrite lookup_insert_ne.
        - intros w i. unfold hosted. cbn [set_sim set_db cu_sims]. rewrite insert_insert_eq. destruct (decide (w = wid)) as [->|N].
          + rewrite lookup_insert_eq, Hs. cbn. rewrite Hm. repeat case_decide; naive_solver.
          + rewrite lookup_insert_ne by done. rewrite decide_False by naive_solver. done. }
      destruct g as [[]|e]; [exact Hrm|]. case_bool_decide; exact Hrm.
    + intros _ Hid. specialize (Hg Hid). destruct g as [[]|e]; [done|]. by rewrite bool_decide_true.
  - split; [|by intros []]. split; cbn [set_db cu_sims cu_db]; [done|eauto|done|].
    intros w i. change (hosted (set_db (cu_db c) c) w) with (hosted c w). case_decide as E; [|done]. destruct E as [-> ->].
    destruct (hosted c wid !! id) as [st|] eqn:Eh; [|done]. destruct (proj1 (hosted_sim c wid id)) as (s & Hs & _); [by eexists|].
    destruct (rp_sims _ _ _ _ P wid s Hs) as (_ & r' & Hr' & _). congruence.
Qed.

(** What running the jobs [q] leaves: the active rows, and the VMs they point to but for
    those a job of [q] removes; the rows no job of [q] cleans up. *)
Record kept (q : list JobInsert) (c c' : Cluster (M:=M)) : Prop := {
  kp_active : forall id r wid, sandboxes (cu_db c) !! id = Some r -> active (row_status r) -> row_worker r = Some wid ->
    sandboxes (cu_db c') !! id = Some r
    /\ hosted c' wid !! id = if decide (removal_in q wid id) then None else hosted c wid !! id;
  kp_rows : forall id, ~ cleanup_in q id -> sandboxes (cu_db c') !! id = sandboxes (cu_db c) !! id;
}.

Lemma removal_cons ji q wid id : removal_in (ji :: q) wid id <-> removal_in [ji] wid id \/ removal_in q wid id.
Proof. unfold removal_in. cbn. rewrite !elem_of_cons, elem_of_nil. tauto. Qed.

Lemma cleanup_cons ji q id : cleanup_in (ji :: q) id <-> cleanup_in [ji] id \/ cleanup_in q id.
Proof. unfold cleanup_in. cbn. setoid_rewrite elem_of_cons. setoid_rewrite elem_of_nil. naive_solver. Qed.

Lemma kept_nil c : kept [] c c.
Proof. split; [|done]. intros id r wid Hr _ _. split; [done|]. rewrite decide_False; [done|]. apply not_elem_of_nil. Qed.

Lemma kept_cons ji q c c1 c2 : kept [ji] c c1 -> kept q c1 c2 -> kept (ji :: q) c c2.
Proof.
  intros [A1 R1] [A2 R2]. split.
  - intros id r wid Hr Ha Hw. destruct (A1 id r wid Hr Ha Hw) as [Hr1 E1]. destruct (A2 id r wid Hr1 Ha Hw) as [Hr2 E2].
    split; [done|]. rewrite E2, E1. pose proof (removal_cons ji q wid id). repeat case_decide; tauto.
  - intros id Hn. rewrite cleanup_cons in Hn. rewrite R2, R1 by tauto. done.
Qed.

(** The VM [ji] names is removed. *)
Lemma kept_removed ji wid id c c' :
  removed wid id c c' -> ji_args ji = JobRemoveOrphan {| ro_WorkerID := wid; ro_SandboxID := id |} -> kept [ji] c c'.
Proof.
  intros Hrm Ha. split.
  - intros i r w Hr _ _. rewrite (rm_db _ _ _ _ Hrm), (rm_hosted _ _ _ _ Hrm). split; [done|].
    assert ((w = wid /\ i = id) <-> removal_in [ji] w i) as E.
    { unfold removal_in. cbn. rewrite Ha, list_elem_of_singleton. split; [by intros [-> ->]|]. by intros [= -> ->]. }
    repeat case_decide; tauto.
  - intros i _. by rewrite (rm_db _ _ _ _ Hrm).
Qed.

(** [ji] cleans up the row of [id], which is not active. *)
Lemma kept_cleanup ji a id c c' :
  ji_args ji = JobCleanup a -> cl_SandboxID a = id ->
  (forall r, sandboxes (cu_db c) !! id = Some r -> ~ active (row_status r)) ->
  (forall i, i <> id -> sandboxes (cu_db c') !! i = sandboxes (cu_db c) !! i) ->
  (forall w i, i <> id -> hosted c' w !! i = hosted c w !! i) -> kept [ji] c c'.
Proof.
  intros Ha Hid Hna Hrows Hh. destruct a as [i0 t]. cbn in Hid. subst i0. split.
  - intros i r w Hr Hact Hw. assert (i <> id) as N by (intros ->; by apply (Hna r)).
    split; [by rewrite Hrows|]. rewrite decide_False; [by apply Hh|]. unfold removal_in. cbn. rewrite Ha. by intros ?%list_elem_of_singleton.
  - intros i Hn. apply Hrows. intros ->. apply Hn. exists t. cbn. rewrite Ha. left.
Qed.

Lemma claimed_not_active : ~ active StatusCleanupPending.
Proof. intros ?. status_cases; done. Qed.

(** A VM that no active row points to, or that is to be left, may go. *)
Lemma reaped_removed wid id c c' q :
  leftover c q -> removed wid id c c' ->
  (forall r, sandboxes (cu_db c) !! id = Some r -> row_worker r = Some wid -> active (row_status r) -> Y id) ->
  leftover c' q.
Proof.
  intros [P1 P2 P3 P4 P5 P6 P7 P8] [R1 R2 R3 R4] Hna. split; rewrite ?R1; try done.
  - intros w s' Hs'. destruct (R2 w s' Hs') as (s & Hs & Ew & Hr). destruct (P3 w s Hs) as [Rd H]. rewrite Ew. auto.
  - auto.
  - intros i r Hr. destruct (P6 i r Hr) as [[Ha (w & st & Hw & Hst & Hal)]|?]; [|by right].
    destruct (decide (w = wid /\ i = id)) as [[-> ->]|N].
    + right. right. right. split; [by right|]. by apply (Hna r).
    + left. split; [done|]. exists w, st. split; [done|]. split; [|done]. by rewrite R4, decide_False.
  - intros w i [st Hst]. apply P7. rewrite R4 in Hst. case_decide; [done|by eexists].
Qed.

(** A job that has nothing left to do may go. *)
Lemma reaped_pop c ji q :
  leftover c (ji :: q) ->
  (forall i r, cleanup_in [ji] i -> sandboxes (cu_db c) !! i = Some r -> row_status r <> StatusCleanupPending) ->
  (forall w i, removal_in [ji] w i -> hosted c w !! i = None) ->
  leftover c q.
Proof.
  intros [P1 P2 P3 P4 P5 P6 P7 P8] Hc Ho. split; try done.
  - intros ji' H. apply P2. by right.
  - intros i r Hr. destruct (P6 i r Hr) as [?|[[Hst [Ht|?]]|?]]; [by left| |by right; left; auto|by right; right].
    right. left. split; [done|]. left. apply cleanup_cons in Ht as [E|?]; [|done]. by destruct (Hc i r E Hr).
  - intros w i Hi. destruct (P7 w i Hi) as [?|Hq]; [by left|right]. apply removal_cons in Hq as [E|?]; [|done].
    rewrite (Ho w i E) in Hi. by destruct Hi.
  - intros w i H. apply P8. apply removal_cons. by right.
Qed.

(** A claimed row whose VM is gone may end. *)
Lemma reaped_finish id r r' c q :
  leftover c q -> sandboxes (cu_db c) !! id = Some r -> row_status r = StatusCleanupPending ->
  (forall wid, row_worker r = Some wid -> hosted c wid !! id = None) -> terminal (row_status r') ->
  let db' := set_sandboxes (<[id := r']> (sandboxes (cu_db c))) (cu_db c) in
  Inv db' -> leftover (set_db db' c) q.
Proof.
  intros [P1 P2 P3 P4 P5 P6 P7 P8] Hr Hst Hgone Hterm db' HI.
  assert (forall i q, sandboxes db' !! i = Some q -> (i = id /\ q = r') \/ (i <> id /\ sandboxes (cu_db c) !! i = Some q)) as Hrows.
  { intros i x. cbn. rewrite lookup_insert_Some. naive_solver. }
  split; cbn [set_db cu_db cu_sims]; try done.
  - intros i [x Hx]. apply P5. destruct (Hrows i x Hx) as [[-> _]|[_ ?]]; by eexists.
  - intros i x Hx. destruct (Hrows i x Hx) as [[-> ->]|[_ ?]]; [by right; right; left|by apply P6].
  - intros w i Hi. destruct (P7 w i Hi) as [(x & Hx & Hw & H)|?]; [left|by right]. exists x. split; [|done].
    cbn. rewrite lookup_insert_ne; [done|]. intros <-. rewrite Hr in Hx. injection Hx as <-.
    change (hosted (set_db db' c) w) with (hosted c w) in Hi. rewrite (Hgone w Hw) in Hi. by destruct Hi.
  - intros w i Hji x Hx Hw. destruct (Hrows i x Hx) as [[-> ->]|[_ ?]]; [|by apply (P8 w i Hji)].
    clear -Hterm. intros ?. exfalso. status_cases; congruence.
Qed.

Lemma cexec_bind {A B} now (p : prog A) (k : A -> prog B) c :
  exec now (bind p k) c = (let '(a, c') := exec now p c in exec now (k a) c').
Proof.
  revert c. induction p as [a|X f k' IH|X a o k' IH|k' IH|k' IH]; intros c; cbn [bind cexec]; auto.
  - by destruct (exec_tx (mkEnv now ∅) NoFault f (cu_db c)).
  - destruct (route a ≫= _) as [[id s]|]; [|auto]. by destruct (intercept uuid_Parse quote third X o s).
Qed.

Lemma set_db_same (c : Cluster (M:=M)) : set_db (cu_db c) c = c.
Proof. by destruct c. Qed.

(** Ending a claimed row. *)
Lemma cleanup_clear_effect now id target c r :
  sandboxes (cu_db c) !! id = Some r -> row_status r = StatusCleanupPending ->
  (exec now (cleanup_clear id target) c).2
  = set_db (set_sandboxes (<[id := row_set_status target (row_set_worker None r)]> (sandboxes (cu_db c))) (cu_db c)) c.
Proof.
  intros Hr Hst. unfold cleanup_clear, cleanup_finish. cbn [bind cexec]. unfold exec_tx, ClearWorker.
  rewrite Hr, bool_decide_true by done. cbn. rewrite lookup_insert_eq.
  change (row_status (row_set_worker None r)) with (row_status r). rewrite Hst. cbn. by rewrite insert_insert_eq.
Qed.

Lemma cleanup_finish_effect now id target c r :
  sandboxes (cu_db c) !! id = Some r -> row_status r = StatusCleanupPending ->
  (exec now (cleanup_finish id target) c).2
  = set_db (set_sandboxes (<[id := row_set_status target r]> (sandboxes (cu_db c))) (cu_db c)) c.
Proof.
  intros Hr Hst. unfold cleanup_finish. cbn [bind cexec]. unfold exec_tx, UpdateStatus. by rewrite Hr, Hst.
Qed.

(** Each kind of job, run on what is left. *)
Lemma cleanup_ended a c ji q :
  leftover c (ji :: q) -> ji_args ji = JobCleanup a ->
  (forall r, sandboxes (cu_db c) !! cl_SandboxID a = Some r -> terminal (row_status r)) -> leftover c q.
Proof.
  intros P Ha Hterm. apply (reaped_pop c ji q P).
  - intros i r [t Ht] Hr Hst. cbn in Ht. rewrite Ha in Ht. apply list_elem_of_singleton in Ht as [= <-].
    specialize (Hterm r Hr). rewrite Hst in Hterm. destruct Hterm; done.
  - intros w i H. unfold removal_in in H. cbn in H. rewrite Ha in H. by apply list_elem_of_singleton in H.
Qed.

Lemma job_forget {A} now (p : prog A) c : (exec now (forget p) c).2 = (exec now p c).2.
Proof. unfold forget. rewrite cexec_bind. by destruct (exec now p c). Qed.

Lemma cleanup_step now a ji c q :
  leftover c (ji :: q) -> ji_args ji = JobCleanup a ->
  let c' := (exec now (job_program ji) c).2 in leftover c' q /\ kept [ji] c c'.
Proof using SandboxManagerLaws0 uuid_managed.
  intros P Ha. destruct (rp_queue _ _ _ _ P ji ltac:(left)) as [Hin _]. pose proof (rp_inv _ _ _ _ P) as HI.
  destruct (inv_cleanup _ HI ji a Hin Ha) as (Hv%cleanup_target_terminal & r & Hr & Hgu).
  assert (job_program ji = forget (CleanupSandboxWorker_Work (mkJob a 1 5))) as Ep by (unfold job_program; by rewrite Ha).
  destruct (spawn_cexec now (job_program ji) c HI) as [HI' _]; [rewrite Ep; by eapply sp_cleanup|].
  pose proof (fun c' P' => cleanup_ended a c' ji q P' Ha) as Hend.
  rewrite Ep, job_forget in *. unfold CleanupSandboxWorker_Work in *. cbn [bind cexec job_Args] in *.
  unfold exec_tx, GetByID in *. rewrite Hr in *. rewrite set_db_same in *.
  change (sb_Status (row_sandbox r)) with (row_status r) in *. change (sb_WorkerID (row_sandbox r)) with (row_worker r) in *.
  assert (forall x, sandboxes (cu_db c) !! cl_SandboxID a = Some x -> ~ active (row_status x)) as Hna.
  { intros x Hx. rewrite Hr in Hx. injection Hx as <-. clear -Hgu. intros ?. destruct Hgu as [E|[E|E]]; status_cases; congruence. }
  destruct Hgu as [Hst|Ht]; cycle 1.
  { assert (forall p : prog (option error), match row_status r with
      | StatusFailed | StatusStopped | StatusCleanedUp => Ret None | _ => p end = Ret None) as -> by (by destruct Ht as [-> | ->]).
    split; [|by apply (kept_cleanup ji a (cl_SandboxID a))]. apply Hend; [done|]. cbn. intros x Hx. rewrite Hr in Hx. by injection Hx as <-. }
  rewrite Hst in *. set (id := cl_SandboxID a) in *.
  assert (forall c1 r', cu_db c1 = cu_db c -> leftover c1 (ji :: q) ->
            (forall w i, i <> id -> hosted c1 w !! i = hosted c w !! i) ->
            (forall wid, row_worker r = Some wid -> hosted c1 wid !! id = None) -> terminal (row_status r') ->
            let c2 := set_db (set_sandboxes (<[id := r']> (sandboxes (cu_db c1))) (cu_db c1)) c1 in
            Inv (cu_db c2) -> leftover c2 q /\ kept [ji] c c2) as Hfin.
  { intros c1 r' Edb P1 K Hgone Ht c2 HI2. split; [apply Hend|].
    - by apply (reaped_finish id r r'); [|rewrite Edb| | | |].
    - intros x. cbn. rewrite lookup_insert_eq. by intros [= <-].
    - apply (kept_cleanup ji a id); try done. intros i N. cbn. rewrite lookup_insert_ne by done. by rewrite Edb. }
  destruct (row_worker r) as [wid|] eqn:Hw.
  - rewrite cexec_bind in *. destruct (remove_effect now wid id c _ P) as [Hrm Hnone].
    destruct (exec now (removeSandboxOnWorker wid id) c) as [e c1]. cbn [fst snd] in *.
    rewrite Hnone in * by (apply (ro_worker _ _ _ (inv_rows _ HI _ _ Hr) wid Hw) || (apply (rp_ids _ _ _ _ P); by eexists)).
    rewrite (cleanup_clear_effect now id _ c1 r) in * by (try rewrite (rm_db _ _ _ _ Hrm); done).
    apply Hfin; [apply Hrm| | | |done|done].
    + apply (reaped_removed wid id c); [done..|]. intros x Hx _ Hact. by destruct (Hna x Hx).
    + intros w i N. rewrite (rm_hosted _ _ _ _ Hrm), decide_False; [done|]. by intros [_ ?].
    + intros w [= <-]. rewrite (rm_hosted _ _ _ _ Hrm). by rewrite decide_True.
  - rewrite (cleanup_finish_effect now id _ c r) in * by done. by apply Hfin.
Qed.

Lemma orphan_step now a ji c q :
  leftover c (ji :: q) -> ji_args ji = JobRemoveOrphan a ->
  let c' := (exec now (job_program ji) c).2 in leftover c' q /\ kept [ji] c c'.
Proof using SandboxManagerLaws0 uuid_managed.
  intros P Ha. destruct a as [wid id]. unfold job_program. rewrite Ha, job_forget. unfold RemoveOrphanWorker_Work.
  cbn [job_Args ro_WorkerID ro_SandboxID]. destruct (remove_effect now wid id c _ P) as [Hrm _].
  split; [|by apply (kept_removed ji wid id)].
  apply (reaped_pop _ ji).
  - apply (reaped_removed wid id c); [done..|]. apply (rp_orphans _ _ _ _ P). unfold removal_in. cbn. rewrite Ha. left.
  - intros i r [t Ht]. cbn in Ht. rewrite Ha in Ht. by apply list_elem_of_singleton in Ht.
  - intros w i H. unfold removal_in in H. cbn in H. rewrite Ha in H. apply list_elem_of_singleton in H as [= -> ->].
    rewrite (rm_hosted _ _ _ _ Hrm). by rewrite decide_True.
Qed.

Lemma drain_done now q c : leftover c q -> leftover (drain now q c) [] /\ kept q c (drain now q c).
Proof using SandboxManagerLaws0 uuid_managed.
  unfold drain. revert c. induction q as [|ji q IH]; intros c P; [split; [done|apply kept_nil]|]. cbn [foldl].
  assert (let c' := (exec now (job_program ji) c).2 in leftover c' q /\ kept [ji] c c') as [P' K'].
  { destruct (ji_args ji) as [a|a|a] eqn:Ha; [|by apply (cleanup_step now a)|by apply (orphan_step now a)].
    destruct (rp_queue _ _ _ _ P ji ltac:(left)) as [_ H]. by destruct (H a). }
  destruct (IH _ P') as [P'' K'']. split; [done|]. by eapply kept_cons.
Qed.

(** Nothing is left of a sandbox that is neither. *)
Lemma reaped_agrees c id : leftover c [] -> ~ S id -> ~ Y id -> agrees c id.
Proof.
  intros P HS HY. assert (forall r, sandboxes (cu_db c) !! id = Some r ->
    (active (row_status r) /\ exists w st, row_worker r = Some w /\ hosted c w !! id = Some st /\ alive st)
    \/ terminal (row_status r)) as Hrow.
  { intros r Hr. destruct (rp_rows _ _ _ _ P id r Hr) as [?|[[_ [(t & Ht)|?]]|[?|[_ ?]]]]; try done; [by left| |by right].
    by apply not_elem_of_nil in Ht. }
  split.
  - intros r Hr. destruct (Hrow r Hr) as [[Ha (w & st & Hw & Hh & Hal)]|Ht].
    + assert (row_status r <> StatusPending /\ row_status r <> StatusScheduling /\ row_status r <> StatusCleanupPending) as H.
      { clear -Ha. status_cases; rewrite Ha; done. }
      destruct H as (? & ? & ?). split_and!; [done..|]. intros _. exists w, st. split_and!; [done..|]. by destruct Hal as [->|[->| ->]].
    + destruct Ht as [E|E]; rewrite E; done.
  - intros w Hh. destruct (rp_hosted _ _ _ _ P w id Hh) as [(r & Hr & Hw & Hor)|Ho]; [|by apply not_elem_of_nil in Ho].
    exists r. split; [done|]. split; [|done]. destruct Hor as [?|Hc]; [by apply isActive_active|].
    destruct (Hrow r Hr) as [[Ha _]|Ht]; rewrite Hc in *; [|by destruct Ht]. exfalso. clear -Ha. status_cases; done.
Qed.

Lemma reaped_converged c : leftover c [] -> (forall id, agrees c id) -> divergences c = [].
Proof.
  intros P A. apply divergences_nil; [intros id r Hr; by apply (inv_rows _ (rp_inv _ _ _ _ P))|]. split.
  - intros id. apply (A id).
  - intros w id. apply (A id).
  - intros w s Hs. destruct (rp_sims _ _ _ _ P w s Hs) as (R & r & Hr & Hst & _). exists r. split; [done|]. split; [done|].
    destruct (rd_up _ _ R) as (Hrun & _). congruence.
Qed.

(** The next round starts from a live cluster. *)
Lemma leftover_live w c :
  leftover c [] -> 0 <= rs_livenessTimeout w /\ 0 < rs_workerLostTimeout w -> live w [] c.
Proof.
  intros P Ht. split; [apply P|done| |apply P|apply P|].
  - intros id s Hs. destruct (rp_sims _ _ _ _ P id s Hs) as (R & r & Hr & _ & _ & ?). eauto.
  - intros ji H. by apply not_elem_of_nil in H.
Qed.

(** It leaves nothing to wait for, if nothing was left; and only what was left, once its
    time is up. *)
Lemma leftover_settled w t c id : leftover c [] -> ~ Y id -> ~ unsettled w t [] c id.
Proof.
  intros P HY [(r & Hr & H)|(wid & Hn & _)]; [|by apply not_elem_of_nil in Hn].
  destruct (rp_rows _ _ _ _ P id r Hr) as [[Ha (w' & st & Hw & Hh & Hal)]|[[E _]|[E|[_ ?]]]]; [| | |done].
  - destruct H as [[He _]|(_ & wid & wr & Hw' & _ & Hno & _)]; [clear -Ha He; status_cases; congruence|].
    rewrite Hw in Hw'. injection Hw' as <-. by destruct (Hno st Hh).
  - destruct H as [[[?|?] _]|[Ha _]]; [congruence..|]. rewrite E in Ha. clear -Ha. status_cases; done.
  - destruct H as [[[?|?] _]|[Ha _]]; destruct E as [E|E]; try congruence; rewrite E in Ha; clear -Ha; status_cases; done.
Qed.

Lemma leftover_stranded c id : leftover c [] -> stranded [] c id -> S id.
Proof.
  intros P (r & Hr & Hst & _). destruct (rp_rows _ _ _ _ P id r Hr) as [[Ha _]|[[_ [(t & Ht)|?]]|[E|[[E|Ha] _]]]]; try done.
  - rewrite Hst in Ha. by apply claimed_not_active in Ha.
  - by apply not_elem_of_nil in Ht.
  - rewrite Hst in E. by destruct E.
  - rewrite Hst in E. by destruct E.
  - rewrite Hst in Ha. by apply claimed_not_active in Ha.
Qed.

End Jobs.

Lemma reaped_weaken (S S' Y Y' : string -> Prop) c :
  (forall id, S id -> S' id) -> (forall id, Y id -> Y' id) -> reaped S Y c [] -> reaped S' Y' c [].
Proof.
  intros HS HY [P1 P2 P3 P4 P5 P6 P7 P8]. split; try done.
  - intros id r Hr. destruct (P6 id r Hr) as [?|[[? [?|?]]|[?|[? ?]]]]; auto 6.
  - intros wid id Hji. by apply not_elem_of_nil in Hji.
Qed.

(** A whole round. *)
Lemma round_done w hbTimeout now pending c :
  live w pending c ->
  let c' := round w hbTimeout now pending c in
  reaped (stranded pending c) (unsettled w now pending c) c' []
  /\ (forall id, stranded pending c id -> exists r, sandboxes (cu_db c') !! id = Some r /\ row_status r = StatusCleanupPending)
  /\ forall id r wid st, sandboxes (cu_db c) !! id = Some r -> active (row_status r) -> row_worker r = Some wid ->
       hosted c wid !! id = Some st -> alive st ->
       now < sb_CreatedAt (row_sandbox r) + ttl_interval (sb_TTL (row_sandbox r)) ->
       exists r', sandboxes (cu_db c') !! id = Some r' /\ active (row_status r') /\ row_worker r' = Some wid
         /\ hosted c' wid !! id = if decide (removal_in pending wid id) then None else Some st.
Proof using SandboxManagerLaws0 uuid_managed uuid_trim.
  intros Q. destruct (beats_done w now pending c Q) as [new B]. unfold round.
  rewrite reap_workers_idle; cycle 1.
  { intros id r Hr. destruct (bt_workers _ _ _ _ _ B id r Hr) as (_ & _ & _ & _ & [Hn|(s & _ & _ & ? & _)]); [|done].
    by apply not_elem_of_nil in Hn. }
  destruct (reap_sandbox_Ok w (mkEnv now ∅) (cu_db (beats now c))) as [db3 E3]; [apply Q|].
  assert ((exec now (ReapSandboxWorker_Work w) (beats now c)).2 = set_db db3 (beats now c)) as Ec.
  { unfold ReapSandboxWorker_Work. cbn [bind cexec]. unfold exec_tx. by rewrite E3. }
  destruct (spawn_cexec now (forget (ReapSandboxWorker_Work w)) (beats now c)) as [HI HE];
    [apply B|constructor|]. rewrite job_forget, Ec in *.
  destruct (drain_done _ _ now _ _ (reap_done w now pending new c (beats now c) db3 Q B E3 HI HE)) as [P [K1 K2]].
  split; [exact P|]. split.
  - intros id Hs. destruct (reap_stranded w now pending new c (beats now c) db3 B E3 id Hs) as [(r & Hr & Hst) Hn].
    exists r. split; [|done]. rewrite K2 by exact Hn. exact Hr.
  - intros id r wid st Hr Ha Hw Hh Hal Httl.
    destruct (reap_healthy w now pending new c (beats now c) db3 Q B E3 id r wid st Hr Ha Hw Hh Hal Httl) as (r' & Hr' & Ha' & Hw').
    destruct (K1 id r' wid Hr' Ha' Hw') as [Hk Eh]. exists r'. do 3 (split; [done|]). cbn [set_db cu_db] in Eh |- *.
    rewrite Eh. unfold hosted at 1, set_db. cbn [cu_sims]. rewrite (bt_sims _ _ _ _ _ B).
    assert (attributed_to (cu_db c) wid id) as Hatt.
    { exists r. split; [done|]. split; [done|]. clear -Ha. unfold active in Ha. status_cases; destruct (row_status r); set_solver. }
    pose proof (removal_queued w now pending new c (beats now c) db3 B E3 wid id) as Hq. rewrite <- Hh.
    destruct (decide (removal_in pending wid id)) as [Hp|Hp].
    + rewrite decide_True; [done|]. unfold removal_in in *. rewrite fmap_app, elem_of_app. by left.
    + rewrite decide_False; [done|]. intros H. by destruct (Hq H).
Qed.

(** Rounds with nothing else to run than what they enqueue, one at each time of [ts]. *)
Definition rounds (w : ReapSandboxWorker) (hbTimeout : Z) (ts : list Z) (c : Cluster) : Cluster :=
  foldl (fun c t => round w hbTimeout t [] c) c ts.

(** Once only claimed rows without a job are left, it stays so. *)
Lemma rounds_settled w hbTimeout S ts c :
  0 <= rs_livenessTimeout w /\ 0 < rs_workerLostTimeout w ->
  reaped S (fun _ => False) c [] -> reaped S (fun _ => False) (rounds w hbTimeout ts c) [].
Proof using SandboxManagerLaws0 uuid_managed uuid_trim.
  intros Hw. unfold rounds. revert c. induction ts as [|t ts IH]; intros c P; [done|]. cbn [foldl]. apply IH.
  destruct (round_done w hbTimeout t [] c) as [P' _]; [by eapply leftover_live|].
  eapply reaped_weaken; [| |exact P']; [intros id; by apply (leftover_stranded _ _ _ _ P)|].
  intros id HU. exact (leftover_settled _ _ w t c id P (fun H => H) HU).
Qed.

(** And those stay. *)
Lemma rounds_stranded w hbTimeout ts S Y c id :
  0 <= rs_livenessTimeout w /\ 0 < rs_workerLostTimeout w -> reaped S Y c [] -> stranded [] c id ->
  stranded [] (rounds w hbTimeout ts c) id.
Proof using SandboxManagerLaws0 uuid_managed uuid_trim.
  intros Hw. unfold rounds. revert S Y c. induction ts as [|t ts IH]; intros S Y c P Hs; [done|]. cbn [foldl].
  destruct (round_done w hbTimeout t [] c) as (P' & H & _); [by eapply leftover_live|].
  eapply IH; [exact P'|]. destruct (H id Hs) as (r & Hr & Hst). exists r. split; [done|]. split; [done|].
  intros [t' Ht]. by apply not_elem_of_nil in Ht.
Qed.

(** After some time nothing is waited for. *)
Lemma all_times_up w c :
  0 < rs_createTimeout w -> exists T, forall t id, T < t -> ~ waiting w t c id.
Proof.
  intros Hct. set (f := fun r : sandbox_row =>
    Z.max (sb_CreatedAt (row_sandbox r) + rs_createTimeout w)
      (Z.max (row_seen r) (default 0 (wr_registered_at <$> (row_worker r ≫= fun wid => workers (cu_db c) !! wid)))
         + rs_livenessTimeout w)).
  assert (exists T, forall (id : string) r, sandboxes (cu_db c) !! id = Some r -> f r <= T) as [T HT].
  { induction (sandboxes (cu_db c)) as [|i r m Hi [T IH]] using map_ind; [exists 0; intros id r H; by rewrite lookup_empty in H|].
    exists (Z.max T (f r)). intros id x [[<- <-]|[_ Hx]]%lookup_insert_Some; [lia|]. specialize (IH id x Hx). lia. }
  exists T. intros t id Ht (r & Hr & H). specialize (HT id r Hr). unfold f in HT.
  destruct H as [[_ Hn]|(_ & wid & wr & Hw & Hwr & _ & Hle)].
  - apply Hn. lia.
  - rewrite Hw in HT. cbn in HT. rewrite Hwr in HT. cbn in HT. lia.
Qed.

(** C2: the database and the machines converge, but for one kind of sandbox.  Take any state
    of the sandboxes, their VMs and their jobs that the invariant of the database allows, in
    a cluster where every worker is up, reachable and registered with its token, and no
    creation job is queued.  One round of
    the mechanisms (a heartbeat of every worker, the two reapers, the pending and the new
    jobs) makes the database agree with the machines on every sandbox that is not
    - waiting for its time: a creation that is not stalled yet, a sandbox its worker reports
      neither alive nor dead whose liveness has not expired,
    - named by a removal enqueued when it was an orphan, which it is no longer,
    - stranded: claimed for cleanup with its cleanup job gone from the queue.
    If there are none of these, the divergence check reports nothing after that round and
    after any later one.  With a creation timeout, some time later a round leaves only the
    stranded ones, for good: the check reports nothing if and only if there were none.  And
    a stranded sandbox is still claimed after any number of rounds: nothing ends it.  The
    managers are any that keep the interface's laws, the real one included. *)
Theorem converges w hbTimeout now pending c :
  live w pending c ->
  let c1 := round w hbTimeout now pending c in
  (forall id, ~ unsettled w now pending c id -> ~ stranded pending c id -> agrees c1 id)
  /\ ((forall id, ~ unsettled w now pending c id /\ ~ stranded pending c id) ->
       forall ts, divergences (rounds w hbTimeout ts c1) = [])
  /\ (0 < rs_createTimeout w -> exists T, forall t ts, T < t ->
       let c' := rounds w hbTimeout (t :: ts) c1 in
       (forall id, agrees c' id \/ stranded pending c id)
       /\ (divergences c' = [] <-> forall id, ~ stranded pending c id))
  /\ (forall id ts, stranded pending c id -> stranded [] (rounds w hbTimeout ts c1) id).
Proof using SandboxManagerLaws0 uuid_managed uuid_trim.
  intros Q c1. destruct (round_done w hbTimeout now pending c Q) as (P & Hstuck & _). fold c1 in P, Hstuck.
  pose proof (lv_timeouts _ _ _ Q) as Hw.
  assert (forall id ts, stranded pending c id -> stranded [] (rounds w hbTimeout ts c1) id) as Hstay.
  { intros id ts Hs. eapply rounds_stranded; [done|exact P|]. destruct (Hstuck id Hs) as (r & Hr & Hst). exists r.
    split; [done|]. split; [done|]. intros [t' Ht]. by apply not_elem_of_nil in Ht. }
  split; [|split; [|split; [|exact Hstay]]].
  - intros id HU HS. by apply (reaped_agrees _ _ c1 id P).
  - intros Hno ts. assert (reaped (fun _ => False) (fun _ => False) c1 []) as P0.
    { eapply reaped_weaken; [| |exact P]; intros id; apply Hno. }
    pose proof (rounds_settled w hbTimeout _ ts c1 Hw P0) as Pn.
    apply (reaped_converged _ _ _ Pn). intros id. apply (reaped_agrees _ _ _ id Pn); exact (fun H => H).
  - intros Hct. destruct (all_times_up w c1 Hct) as [T HT]. exists T. intros t ts Ht c'.
    assert (reaped (stranded pending c) (fun _ => False) c' []) as Pn.
    { unfold c', rounds. cbn [foldl]. apply (rounds_settled w hbTimeout _ ts); [done|].
      destruct (round_done w hbTimeout t [] c1) as [P' _]; [by eapply leftover_live|].
      eapply reaped_weaken; [| |exact P']; [intros id; by apply (leftover_stranded _ _ _ _ P)|].
      intros id [Hwait|(wid & Hn & _)]; [by apply (HT t id)|by apply not_elem_of_nil in Hn]. }
    assert (forall id, ~ stranded pending c id -> agrees c' id) as Hag.
    { intros id HS. apply (reaped_agrees _ _ _ id Pn HS). exact (fun H => H). }
    split.
    + intros id. destruct (stranded_dec pending c id); auto.
    + split; [|intros HS; apply (reaped_converged _ _ _ Pn); auto]. intros Hd id Hs.
      apply divergences_nil in Hd; [|intros i r Hr; by apply (inv_rows _ (rp_inv _ _ _ _ Pn))].
      destruct (Hstay id (t :: ts) Hs) as (r & Hr & Hst & _). by destruct (cv_rows _ Hd id r Hr) as (_ & _ & ? & _).
Qed.

(** C10: a round spares the sandboxes that are well, in a cluster where every worker is up,
    reachable and registered with its token, and no creation job is queued.  If a sandbox is
    assigned, starting or running on a worker that does host its VM, alive, and its TTL has
    not run out, then after the round it is still assigned, starting or running on that
    worker, whatever its other timestamps: neither the heartbeats nor the reapers claim it.
    The worker still hosts its VM in the same state, unless a removal of that VM as an
    orphan is still in the queue, and then the VM is gone: the job does not look again. *)
Theorem healthy_survives w hbTimeout now pending c id r wid st :
  live w pending c ->
  sandboxes (cu_db c) !! id = Some r -> active (row_status r) -> row_worker r = Some wid ->
  hosted c wid !! id = Some st -> alive st ->
  now < sb_CreatedAt (row_sandbox r) + ttl_interval (sb_TTL (row_sandbox r)) ->
  let c' := round w hbTimeout now pending c in
  exists r', sandboxes (cu_db c') !! id = Some r' /\ active (row_status r') /\ row_worker r' = Some wid
    /\ hosted c' wid !! id = if decide (removal_in pending wid id) then None else Some st.
Proof using SandboxManagerLaws0 uuid_managed uuid_trim.
  intros Q Hr Ha Hw Hh Hal Ht. destruct (round_done w hbTimeout now pending c Q) as (_ & _ & H). eauto.
Qed.

End Convergence.


(** ** A cluster that diverged *)

Definition demo_ids : list string :=
  ["00000000-0000-0000-0000-00000000000a"%string; "00000000-0000-0000-0000-00000000000b"%string;
   "00000000-0000-0000-0000-00000000000c"%string].

Definition demo_Parse (id : string) : bool := bool_decide (id ∈ demo_ids).

Definition demo_create_of (id : string) : prog unit :=
  forget (RequireAuth Responded "Bearer tok"
    (fun u => createSandbox (fun _ m => m) true id 7 [] (Some u) (Some demo_body))).
Definition demo_job_of (id : string) : Job CreateSandboxArgs := mkJob {| cr_SandboxID := id |} 1 5.
Definition insert_of (id : string) : JobInsert := mkJobInsert (JobCreate {| cr_SandboxID := id |}) QueueDefault None.

(** The sandboxes a and b run on w1, says the database. *)
Definition db_two : DB :=
  foldl (fun db id => demo (forget (CreateSandboxWorker_Work (demo_job_of id))) (demo (demo_create_of id) db))
    db_worker (take 2 demo_ids).

(** Its manager hosts b, and c instead of a. *)
Definition demo_VMs : solo :=
  (@sm_run solo (solo_manager demo_Parse id t0)
     ((fun sb => SMCreate (mkCreateInput sb 1 256)) <$> drop 1 demo_ids) (mkSolo (mkWorld newManager 0 ∅) 0)).2.

Definition demo_sim : SimWorker solo :=
  mkSimWorker (mkWorker "w1" "10.0.0.1" 50051 WorkerStatusActive 4 4096 2 1 t0 0 10 100) demo_VMs true false false 0.

Definition demo_cluster : Cluster (M:=solo) := mkCluster db_two {[ "w1"%string := demo_sim ]}.

Definition demo_route (addr : string) : option string :=
  if bool_decide (addr = dial_target (sw_worker demo_sim)) then Some "w1"%string else None.

Definition demo_reaper : ReapSandboxWorker := mkReapSandbox (60 * Second) (120 * Second) (300 * Second).

Lemma reachable_two : reachable_db db_two.
Proof.
  assert (forall id db, reachable_db db -> insert_of id ∈ jobs (demo (demo_create_of id) db) ->
            reachable_db (demo (forget (CreateSandboxWorker_Work (demo_job_of id))) (demo (demo_create_of id) db))) as H.
  { intros id db Hdb Hin. assert (reachable_db (demo (demo_create_of id) db)) as H1.
    { eapply later_reachable, later_run; [done|]. apply sp_http_create. }
    eapply later_reachable, later_run; [exact H1|]. by apply (sp_create _ (demo_job_of id) (insert_of id)). }
  unfold db_two. cbn [foldl take demo_ids]. apply H; [apply H|].
  - eapply later_reachable, later_worker.
  - apply (list_elem_of_lookup_2 _ 0). vm_compute. reflexivity.
  - apply (list_elem_of_lookup_2 _ 1). vm_compute. reflexivity.
Qed.

Lemma demo_at_rest : at_rest demo_Parse (so_world demo_VMs).
Proof.
  unfold demo_VMs. match goal with |- context [sm_run ?cs ?w] =>
    destruct (agrees_run demo_Parse id t0 cs w NewFakeVMs) as [_ [R _]] end; [| |exact R].
  - split; [split; [reflexivity|reflexivity|discriminate]|reflexivity].
  - cbn [demo_ids drop fmap list_fmap]. repeat constructor; vm_compute; reflexivity.
Qed.

#[local] Instance demo_manager : SandboxManager solo := solo_manager demo_Parse id t0.
#[local] Instance demo_laws : SandboxManagerLaws solo := solo_laws demo_Parse id t0.

Definition demo_now : Z := t0 + 300 * Second.

Lemma demo_ready : ready demo_Parse demo_route "w1" demo_sim.
Proof.
  split; try (vm_compute; done); [apply demo_at_rest|]. intros sb [st Hst].
  change (sm_states (sw_VMs demo_sim)) with (en_state <$> mg_services (w_mgr (so_world demo_VMs))) in Hst.
  rewrite lookup_fmap in Hst. destruct (mg_services _ !! sb) as [e|] eqn:He; [|done].
  by apply (ar_entry _ _ demo_at_rest sb e).
Qed.

(** w1 alone is registered, with its first token, and the sandboxes are among the demo's. *)
Definition demo_db_ok (db : DB) : bool :=
  bool_decide ((fun kv => (kv.1, wr_fencing_token kv.2)) <$> map_to_list (workers db) = [("w1"%string, 1)])
  && forallb (fun kv => IsSandboxID demo_Parse kv.1) (map_to_list (sandboxes db)).

Lemma demo_live db pending :
  reachable_db db -> demo_db_ok db = true ->
  (forall ji, ji ∈ pending -> ji ∈ jobs db /\ forall a, ji_args ji <> JobCreate a) ->
  live demo_Parse demo_route demo_reaper pending (mkCluster db {[ "w1"%string := demo_sim ]}).
Proof.
  intros Hdb [Hw Hids]%andb_prop Hp. apply bool_decide_eq_true in Hw.
  assert (forall i r, workers db !! i = Some r -> i = "w1"%string /\ wr_fencing_token r = 1) as Hrow.
  { intros i r Hr%elem_of_map_to_list. apply (list_elem_of_fmap_2 (fun kv => (kv.1, wr_fencing_token kv.2))) in Hr.
    rewrite Hw in Hr. apply list_elem_of_singleton in Hr. by injection Hr as -> ->. }
  split; cbn [cu_db cu_sims].
  - by apply reachable_Inv.
  - by vm_compute.
  - intros i s Hs. apply lookup_singleton_Some in Hs as [<- <-]. split; [apply demo_ready|].
    assert ("w1"%string ∈ (map_to_list (workers db)).*1) as Hin.
    { replace ((map_to_list (workers db)).*1) with (((fun kv => (kv.1, wr_fencing_token kv.2)) <$> map_to_list (workers db)).*1)
        by (rewrite <- list_fmap_compose; done). rewrite Hw. left. }
    apply list_elem_of_fmap in Hin as ([i r] & E & Hr%elem_of_map_to_list). cbn in E. subst i. exists r. split; [done|].
    by destruct (Hrow _ _ Hr) as [_ ->].
  - intros i [r Hr]. destruct (Hrow i r Hr) as [-> _]. eexists. apply lookup_singleton_eq.
  - intros i [r Hr%elem_of_map_to_list]. rewrite forallb_forall in Hids. by apply (Hids (i, r)), list_elem_of_In.
  - done.
Qed.

Lemma demo_trim i : IsSandboxID demo_Parse i = true -> TrimSpace i = i.
Proof.
  intros [Hi _]%andb_prop. apply bool_decide_eq_true in Hi. unfold demo_ids in Hi.
  repeat (apply elem_of_cons in Hi as [->|Hi]; [vm_compute; reflexivity|]). by apply not_elem_of_nil in Hi.
Qed.

Lemma demo_managed i : IsSandboxID demo_Parse i = true -> sm_id (M:=solo) i.
Proof. intros Hi. exact Hi. Qed.

(** Nothing pending. *)
Lemma demo_none (P : JobInsert -> Prop) ji : ji ∈ @nil JobInsert -> P ji.
Proof. intros H. by apply not_elem_of_nil in H. Qed.

Abbreviation demo_round := (round demo_Parse id (fun _ m => m) demo_route demo_reaper (15 * Second)).
Abbreviation demo_rounds := (rounds demo_Parse id (fun _ m => m) demo_route demo_reaper (15 * Second)).

(** The rows of [db_two] are all settled five minutes later: they are hosted alive, or their
    time is up. *)
Definition demo_row_settled (kv : string * sandbox_row) : bool :=
  bool_decide (row_status kv.2 = StatusRunning) && bool_decide (row_worker kv.2 = Some "w1"%string)
  && (bool_decide (hosted demo_cluster "w1" !! kv.1 = Some StateRunning)
      || (Z.max (row_seen kv.2) (default 0 (wr_registered_at <$> workers db_two !! "w1"%string))
            + rs_livenessTimeout demo_reaper <? demo_now)).

Lemma demo_settled i : ~ unsettled demo_reaper demo_now [] demo_cluster i /\ ~ stranded [] demo_cluster i.
Proof.
  assert (forallb demo_row_settled (map_to_list (sandboxes db_two)) = true) as Hall by (vm_compute; reflexivity).
  rewrite forallb_forall in Hall.
  assert (forall r, sandboxes db_two !! i = Some r -> demo_row_settled (i, r) = true) as Hrow.
  { intros r Hr. apply elem_of_map_to_list in Hr. exact (Hall (i, r) (proj1 (list_elem_of_In _ _) Hr)). }
  unfold unsettled, waiting, stranded. cbn [cu_db demo_cluster]. clear Hall.
  split.
  - intros [(r & Hr & H)|(wid & Hn & _)]; [|by apply not_elem_of_nil in Hn]. specialize (Hrow r Hr).
    apply andb_prop in Hrow as [[Hst Hw]%andb_prop Hl]. apply bool_decide_eq_true in Hst, Hw. cbn [fst snd] in *.
    destruct H as [[[E|E] _]|(_ & wid & wr & Hw' & Hwr & Hno & Hle)]; [congruence..|].
    rewrite Hw in Hw'. injection Hw' as <-. apply orb_prop in Hl as [Hl|Hl].
    + apply bool_decide_eq_true in Hl. destruct (Hno _ Hl) as [[] _]. right. by left.
    + rewrite Hwr in Hl. apply Z.ltb_lt in Hl. cbn [fmap option_fmap option_map default] in Hl. clear -Hl Hle. unfold default, id in Hl. lia.
  - intros (r & Hr & Hc & _). specialize (Hrow r Hr). apply andb_prop in Hrow as [[Hst _]%andb_prop _].
    apply bool_decide_eq_true in Hst. cbn in Hst. congruence.
Qed.

(** The sandbox a is deleted by its user, and River has discarded its cleanup job. *)
Definition demo_delete_a : prog unit :=
  forget (RequireAuth (fun r => r) "Bearer tok"
    (fun u => deleteSandbox true (Some u) "00000000-0000-0000-0000-00000000000a")).
Definition db_discarded : DB := demo demo_delete_a db_two.
Definition discarded_cluster : Cluster (M:=solo) := mkCluster db_discarded {[ "w1"%string := demo_sim ]}.

Lemma reachable_discarded : reachable_db db_discarded.
Proof. eapply later_reachable, later_run; [apply reachable_two|]. apply sp_http_delete. Qed.

(** Five minutes later: the database says that a runs, but nobody hosts it, and w1 hosts c,
    which has no row.  One round settles both, and a round a minute later changes nothing.
    If a was claimed and its job discarded, no later round ends it. *)
Lemma converges_witness :
  length (divergences demo_cluster) = 2%nat
  /\ divergences (demo_rounds [demo_now + Minute] (demo_round demo_now [] demo_cluster)) = []
  /\ (stranded [] discarded_cluster "00000000-0000-0000-0000-00000000000a"
      /\ exists T, forall t, T < t -> divergences (demo_rounds [t] (demo_round demo_now [] discarded_cluster)) <> []).
Proof.
  split; [vm_compute; reflexivity|]. split.
  - apply (converges (M:=solo) demo_Parse id (fun _ m => m) demo_route demo_trim demo_managed demo_reaper (15 * Second) demo_now []
             demo_cluster (demo_live db_two [] reachable_two eq_refl (demo_none _))). apply demo_settled.
  - assert (stranded [] discarded_cluster "00000000-0000-0000-0000-00000000000a") as Hs.
    { destruct (sandboxes db_discarded !! "00000000-0000-0000-0000-00000000000a"%string) as [r|] eqn:Hr;
        [|exfalso; vm_compute in Hr; discriminate Hr].
      exists r. split; [exact Hr|]. split; [vm_compute in Hr; injection Hr as <-; reflexivity|].
      intros [t Ht]. by apply not_elem_of_nil in Ht. }
    split; [exact Hs|].
    destruct (converges (M:=solo) demo_Parse id (fun _ m => m) demo_route demo_trim demo_managed demo_reaper (15 * Second) demo_now []
                discarded_cluster (demo_live db_discarded [] reachable_discarded eq_refl (demo_none _))) as (_ & _ & H & _).
    destruct (H eq_refl) as [T HT]. exists T. intros t Ht Hd. destruct (HT t [] Ht) as [_ Hiff].
    exact (proj1 Hiff Hd _ Hs).
Defined.

(** The removal of b was enqueued when w1 reported it before its row said so. *)
Definition demo_b : string := "00000000-0000-0000-0000-00000000000b".

Definition db_stale : DB :=
  demo (forget (CreateSandboxWorker_Work (demo_job_of demo_b)))
    (demo (forget (ReportWorkerHeartbeat true (Some (demo_heartbeat 1 [mkEntry demo_b STATE_RUNNING]))))
       (demo (demo_create_of demo_b) db_worker)).
Definition stale_cluster : Cluster (M:=solo) := mkCluster db_stale {[ "w1"%string := demo_sim ]}.

Lemma demo_jobs_stale : jobs db_stale = [insert_of demo_b; orphanInsert "w1" demo_b].
Proof. vm_compute. reflexivity. Qed.

Lemma reachable_stale : reachable_db db_stale.
Proof.
  eapply later_reachable, later_run; [eapply later_reachable, later_run; [eapply later_reachable, later_run|]|].
  - eapply later_reachable, later_worker.
  - apply sp_http_create.
  - apply sp_heartbeat.
  - apply (sp_create _ (demo_job_of demo_b) (insert_of demo_b)); [|done]. apply (list_elem_of_lookup_2 _ 0). vm_compute. reflexivity.
Qed.

(** The sandbox b runs where the database says: its VM stays, unless the old removal is still
    to be run. *)
Lemma healthy_survives_witness :
  (let c' := demo_round demo_now [] demo_cluster in
   exists r', sandboxes (cu_db c') !! demo_b = Some r' /\ active (row_status r') /\ row_worker r' = Some "w1"%string
     /\ hosted c' "w1" !! demo_b = Some StateRunning)
  /\ (let c' := demo_round demo_now [orphanInsert "w1" demo_b] stale_cluster in
      exists r', sandboxes (cu_db c') !! demo_b = Some r' /\ active (row_status r') /\ row_worker r' = Some "w1"%string
        /\ hosted c' "w1" !! demo_b = None).
Proof.
  assert (forall db r, db = db_two \/ db = db_stale -> sandboxes db !! demo_b = Some r ->
    active (row_status r) /\ row_worker r = Some "w1"%string
    /\ demo_now < sb_CreatedAt (row_sandbox r) + ttl_interval (sb_TTL (row_sandbox r))) as Hb.
  { intros db r [-> | ->] Hr; vm_compute in Hr; injection Hr as <-;
      (split; [by right; right; left|]); (split; [reflexivity|]); vm_compute; reflexivity. }
  split; intros c'.
  - destruct (sandboxes db_two !! demo_b) as [r|] eqn:Hr; [|exfalso; vm_compute in Hr; discriminate Hr].
    destruct (Hb db_two r ltac:(by left) Hr) as (Ha & Hw & Ht).
    exact (healthy_survives (M:=solo) demo_Parse id (fun _ m => m) demo_route demo_trim demo_managed demo_reaper (15 * Second)
            demo_now [] demo_cluster demo_b r "w1" StateRunning
            (demo_live db_two [] reachable_two eq_refl (demo_none _)) Hr Ha Hw eq_refl ltac:(right; left; reflexivity) Ht).
  - destruct (sandboxes db_stale !! demo_b) as [r|] eqn:Hr; [|exfalso; vm_compute in Hr; discriminate Hr].
    destruct (Hb db_stale r ltac:(by right) Hr) as (Ha & Hw & Ht).
    assert (forall ji, ji ∈ [orphanInsert "w1" demo_b] -> ji ∈ jobs db_stale /\ forall a, ji_args ji <> JobCreate a) as Hp.
    { intros ji ->%list_elem_of_singleton. rewrite demo_jobs_stale. split; [right; left|done]. }
    exact (healthy_survives (M:=solo) demo_Parse id (fun _ m => m) demo_route demo_trim demo_managed demo_reaper (15 * Second)
            demo_now [orphanInsert "w1" demo_b] stale_cluster demo_b r "w1" StateRunning
            (demo_live db_stale _ reachable_stale eq_refl Hp) Hr Ha Hw eq_refl ltac:(right; left; reflexivity) Ht).
Defined.
