(* ===== verification/Wiring.v ===== *)
(** * How the orchestrator is put together

    internal/app/orchestrator.go: the River client with its queues, workers and periodic
    jobs, and the reapers with their settings; and the calls of orchestrator/grpc_client.go
    that talk to a worker outside of a job. *)

From Stdlib Require Import ZArith Lia.
From stdpp Require Import base tactics option list gmap strings numbers.
From S2P Require Import Prelude GoStd Database SandboxRepo WorkerRepo Program Scheduler Jobs.
From S2P Require Import AppConfig Lifecycle Steps System Scenario Reconciliation.

Open Scope Z_scope.

(** ** orchestrator.go *)

Definition ReapSandboxQueue : string := "reap_sandbox".

(** [Kind()] of the arguments of each job. *)
Definition Kind (a : JobArgs) : string :=
  match a with
  | JobCreate _ => "create_sandbox"
  | JobCleanup _ => "cleanup_sandbox"
  | JobRemoveOrphan _ => "remove_orphan_sandbox"
  end.

Definition ReapWorkersKind : string := "reap_workers".
Definition ReapSandboxKind : string := "reap_sandbox".

(** A periodic job: its interval, the kind and the queue it is inserted with, and whether
    it runs at the start. *)
Record PeriodicJob : Type := mkPeriodic {
  pj_interval : Z;
  pj_kind : string;
  pj_queue : string;
  pj_RunOnStart : bool;
}.

(** [river.Config]: the queues with their MaxWorkers, the kinds that have a worker. *)
Record RiverConfig : Type := mkRiverConfig {
  rc_Queues : gmap string Z;
  rc_Workers : list string;
  rc_MaxAttempts : Z;
  rc_JobTimeout : Z;
  rc_PeriodicJobs : list PeriodicJob;
}.

Definition NewRiverClient (cfg : Config) : RiverConfig :=
  mkRiverConfig
    (<[QueueDefault := 10]> (<["cleanup"%string := 5]> (<[ReapSandboxQueue := 1]> ∅)))
    ["create_sandbox"; "cleanup_sandbox"; ReapWorkersKind; ReapSandboxKind; "remove_orphan_sandbox"]%string
    5 JobTimeout
    [mkPeriodic (ac_ReaperInterval cfg) ReapWorkersKind QueueDefault true;
     mkPeriodic (ac_SandboxReaperInterval cfg) ReapSandboxKind ReapSandboxQueue true].

(** The sandbox reaper it registers. *)
Definition NewReapSandboxWorker (cfg : Config) : ReapSandboxWorker :=
  mkReapSandbox (ac_SandboxLivenessTimeout cfg) (ac_SandboxWorkerLostTimeout cfg) (ac_SandboxCreateTimeout cfg).

(** A job River can run: somebody works its queue, and its kind. *)
Definition workable (rc : RiverConfig) (kind queue : string) : Prop :=
  kind ∈ rc_Workers rc /\ exists n, rc_Queues rc !! queue = Some n /\ 0 < n.

Lemma args_workable cfg a : workable (NewRiverClient cfg) (Kind a) (job_queue a).
Proof.
  destruct a; (split; [unfold NewRiverClient; cbn; rewrite !elem_of_cons; tauto|]); eexists; by (split; [vm_compute; reflexivity|]).
Qed.

(** C26: every job gets run.  Whatever the environment configures: every job a reachable
    database holds was enqueued in a queue the River client works, with a worker registered
    for its kind, and so are the periodic reapers, of which the sandbox reaper alone has its
    queue, with a single worker; its transaction cannot be refused, as no setting makes its
    timeout for lost workers zero; and a job's time covers the calls of a create attempt
    with thirty seconds for the database, and a removal. *)
Theorem jobs_get_run Getenv ParseDuration tailscale db :
  reachable_db db ->
  let cfg := ConfigFromEnv Getenv ParseDuration tailscale in
  let rc := NewRiverClient cfg in
  (forall ji, ji ∈ jobs db -> workable rc (Kind (ji_args ji)) (ji_queue ji) /\ ji_queue ji <> ReapSandboxQueue)
  /\ (forall pj, pj ∈ rc_PeriodicJobs rc -> workable rc (pj_kind pj) (pj_queue pj))
  /\ rc_Queues rc !! ReapSandboxQueue = Some 1
  /\ (forall env, exists db', reap_sandbox_tx (NewReapSandboxWorker cfg) env db = (Ok tt, db'))
  /\ candidatesTimeout + defaultCreateSandboxCallTimeout + 30 * Second <= rc_JobTimeout rc
  /\ defaultRemoveSandboxCallTimeout <= rc_JobTimeout rc.
Proof.
  intros HR cfg rc. split_and!; [| |done| |done|done].
  - intros ji Hji. rewrite (inv_queues _ (reachable_Inv _ HR) ji Hji). split; [apply args_workable|].
    by destruct (ji_args ji).
  - intros pj [->|[->|[]%elem_of_nil]%elem_of_cons]%elem_of_cons;
      (split; [cbn; rewrite !elem_of_cons; tauto|]); eexists; by (split; [vm_compute; reflexivity|]).
  - intros env. apply reap_sandbox_Ok. apply worker_lost_positive.
Qed.

(** The scenario's database, with an empty environment. *)
Lemma jobs_get_run_witness :
  let cfg := ConfigFromEnv (fun _ => EmptyString) (fun _ => None) (Err (NewError "no tailscale")) in
  workable (NewRiverClient cfg) "cleanup_sandbox" "cleanup".
Proof.
  intros cfg.
  destruct (jobs_get_run (fun _ => EmptyString) (fun _ => None) (Err (NewError "no tailscale")) db_deleting
              (later_reachable _ _ later_deleting)) as [H _].
  apply (H (cleanupInsert "s1" "stopped")). rewrite jobs_deleting. right. left.
Defined.

(** ** cmd/api/main.go *)

(** Why the process stops serving. *)
Inductive stop_reason : Type :=
| Signalled
| HTTPServerError (e : error)
| GRPCServerError (e : error).

(** What each step of main answers; [None]: no error. *)
Record api_answers : Type := mkApiAnswers {
  aa_pool : option error;
  aa_migrator : option error;
  aa_migrate : option error;
  aa_river : option error;
  aa_start : option error;
  aa_stop : stop_reason;
}.

Inductive api_step : Type :=
| OpenPool | NewMigrator | MigrateUp | NewRiver | StartRiver
| ServeHTTP | ServeGRPC | ShutdownHTTP | StopRiver | ClosePool.

(** The steps taken, in order, and the exit status.  [os.Exit] skips the deferred calls. *)
Definition api_main (a : api_answers) : list api_step * Z :=
  match aa_pool a with
  | Some _ => ([OpenPool], 1)
  | None =>
  match aa_migrator a with
  | Some _ => ([OpenPool; NewMigrator], 1)
  | None =>
  match aa_migrate a with
  | Some _ => ([OpenPool; NewMigrator; MigrateUp], 1)
  | None =>
  match aa_river a with
  | Some _ => ([OpenPool; NewMigrator; MigrateUp; NewRiver], 1)
  | None =>
  match aa_start a with
  | Some _ => ([OpenPool; NewMigrator; MigrateUp; NewRiver; StartRiver], 1)
  | None =>
      match aa_stop a with
      | Signalled | HTTPServerError _ | GRPCServerError _ =>
          ([OpenPool; NewMigrator; MigrateUp; NewRiver; StartRiver; ServeHTTP; ServeGRPC;
            ShutdownHTTP; StopRiver; ClosePool], 0)
      end
  end end end end end.

(** A server that fails, for instance because its port is taken, ends the process with
    status 0, as a signal does: a unit restarted on failure is not restarted. *)
Lemma api_server_error_exits_0 a e :
  aa_stop a = HTTPServerError e \/ aa_stop a = GRPCServerError e ->
  (api_main a).2 = 0 <->
  aa_pool a = None /\ aa_migrator a = None /\ aa_migrate a = None /\ aa_river a = None /\ aa_start a = None.
Proof.
  unfold api_main. intros H.
  destruct (aa_pool a), (aa_migrator a), (aa_migrate a), (aa_river a), (aa_start a); cbn; try (intuition congruence).
  by destruct H as [-> | ->].
Qed.

(** ** grpc_client.go *)

(** The candidates of a direct creation: every worker with an address that answers. *)
Fixpoint direct_candidates (ws : list Worker) : prog (list WorkerCandidate) :=
  match ws with
  | [] => Ret []
  | w :: rest =>
      let address := normalizeWorkerAddress (wk_Address w) (int32 (wk_Port w)) in
      if bool_decide (address = EmptyString) then direct_candidates rest
      else Rpc address Dial (fun c =>
           match c with
           | Err _ => direct_candidates rest
           | Ok _ => Rpc address CallGetWorkerInfo (fun i =>
                     match i with
                     | Err _ => direct_candidates rest
                     | Ok info => (cs <-- direct_candidates rest ;; Ret (mkCandidate w (Some info) :: cs))%prog
                     end)
           end)
  end.

(** A nil scheduler is a new one: it has no state.  [quote] is the verb %q. *)
Definition CreateSandboxOnLeastUsedWorker (quote : string -> string) (ws : list Worker) (req : CreateSandboxRequest)
    : prog (result error unit) :=
  (candidates <-- direct_candidates ws ;;
   selected <-- ChooseLeastUsedWorker candidates ;;
   match selected with
   | Err e => Ret (Err e)
   | Ok c =>
       let w := wc_Worker c in
       let address := normalizeWorkerAddress (wk_Address w) (int32 (wk_Port w)) in
       Rpc address Dial (fun d =>
       match d with
       | Err e => Ret (Err (Wrap ("connect selected worker " +:+ quote (wk_ID w) +:+ ": ") e))
       | Ok _ => Rpc address (CallCreateSandbox req) Ret
       end)
   end)%prog.

(** Best effort: the errors are logged only. *)
Definition DestroySandboxOnWorker (workerAddress sandboxID : string) : prog unit :=
  Rpc workerAddress Dial (fun c =>
  match c with
  | Err _ => Ret tt
  | Ok _ => Rpc workerAddress (CallStopSandbox sandboxID) (fun _ =>
            Rpc workerAddress (CallRemoveSandbox sandboxID) (fun _ => Ret tt))
  end).
