(* ===== verification/Startup.v ===== *)
(** * The worker process

    cmd/worker/main.go with ServeGRPC (internal/packages/worker/grpc_client.go), the
    address discovery (internal/packages/tailscale) and the goroutines main starts: the
    audit of the sandbox manager, the event reporter and the heartbeat loop.  [main] is a
    program over the operations of [wop]; the goroutines run between any two of them, on the
    shared worker service, the error channel and the gRPC server. *)

From Stdlib Require Import ZArith Lia SpecFloat.
From stdpp Require Import base tactics option list gmap strings numbers relations.
From S2P Require Import Prelude GoStd Database EventGRPC Manager Heartbeat WorkerGRPC Runtime.

Open Scope Z_scope.

#[local] Set Warnings "-clear-no-such-hyp".

(** ** tailscale.go *)

(** The output of [tailscale ip -4], or the error of running it. *)
Definition IPv4 (output : result error string) : result error string :=
  match output with
  | Err e => Err e
  | Ok out =>
      let ip := TrimSpace out in
      if bool_decide (ip = EmptyString) then Err (NewError "tailscale ip -4: empty output") else Ok ip
  end.

(** ** logging.go *)

Inductive slog_Level : Type := LevelDebug | LevelInfo | LevelWarn | LevelError.

(** [(level, ok)]. *)
Definition parseLogLevel (s : string) : slog_Level * bool :=
  let s := ToLower (TrimSpace s) in
  if bool_decide (s = EmptyString) || bool_decide (s = "info"%string) then (LevelInfo, true)
  else if bool_decide (s = "debug"%string) then (LevelDebug, true)
  else if bool_decide (s = "warn"%string) then (LevelWarn, true)
  else if bool_decide (s = "error"%string) then (LevelError, true)
  else (LevelInfo, false).

(** ** main.go *)

Definition ExitHeartbeatRefused : Z := 78.

(** The value of [strconv.Atoi] when its error is dropped: 0 on a syntax error, the bound
    on a value out of range. *)
Definition Atoi_value (s : string) : Z :=
  match Atoi s with
  | Some n => n
  | None =>
      let clamp (neg : bool) (b : bytes) :=
        match b with
        | [] => 0
        | _ => match parse_digits b 0 with
               | Some _ => if neg : bool then min_int64 else max_int64
               | None => 0
               end
        end in
      match to_bytes s with
      | c :: b => if Ascii.eqb c (byte 45) then clamp true b
                  else if Ascii.eqb c (byte 43) then clamp false b
                  else clamp false (c :: b)
      | [] => 0
      end
  end.

(** The operations of main and ServeGRPC.  A [Go] operation starts a goroutine. *)
Inductive wop : Type -> Type :=
| WHostname : wop string
| WTailscale : wop (result error string)
| WLockBaseDir (baseDir : string) : wop (option error)
| WReapOrphans (baseDir : string) : wop (option error)
| WRecover : wop (Z * option error)
| WNewEventClient (address : string) : wop (option error)
| WService (f : WorkerService -> WorkerService) : wop unit
| WGoAudit : wop unit
| WGoReporter (workerID : string) : wop unit
| WListen (address : string) : wop (result error Z)
| WGoHeartbeat (interval : Z) : wop unit
| WServe : wop (option error)
| WTryHeartbeatErr : wop (option error).

Inductive wprog (A : Type) : Type :=
| WRet (a : A)
| WOp {X : Type} (o : wop X) (k : X -> wprog A).

Arguments WRet {A} _.
Arguments WOp {A X} _ _.

Fixpoint wbind {A B} (p : wprog A) (g : A -> wprog B) : wprog B :=
  match p with
  | WRet a => g a
  | WOp o k => WOp o (fun x => wbind (k x) g)
  end.

Declare Scope wprog_scope.
Delimit Scope wprog_scope with wprog.
Notation "x <-w m ;; k" := (wbind m (fun x => k))
  (at level 100, m at next level, right associativity) : wprog_scope.
Notation "x <-o o ;; k" := (WOp o (fun x => k))
  (at level 100, o at next level, right associativity) : wprog_scope.

Section Main.

Context (Getenv : string -> string) (ParseDuration : string -> option Z).

Definition env_or (name def : string) : string :=
  let v := Getenv name in if bool_decide (v = EmptyString) then def else v.

(** grpc_client.go: [select] on the error channel has a default case. *)
Definition ServeGRPC (address : string) : wprog (option error) :=
  (lis <-o WListen address ;;
   match lis with
   | Err e => WRet (Some e)
   | Ok boundPort =>
       _ <-o WService (SetListenPort boundPort) ;;
       _ <-o WGoHeartbeat (heartbeatIntervalFromEnv ParseDuration (Getenv "WORKER_HEARTBEAT_INTERVAL")) ;;
       serveErr <-o WServe ;;
       heartbeatErr <-o WTryHeartbeatErr ;;
       WRet (serve_result heartbeatErr serveErr)
   end)%wprog.

(** From the lock on; the result is the exit status. *)
Definition run_worker (workerID advertisedHost grpcBindHost workerPort orchestratorAddr : string)
    (cpuBudget memBudget : Z) : wprog Z :=
  (_ <-o WRecover ;;
   err <-o WNewEventClient orchestratorAddr ;;
   match err with
   | Some _ => WRet 1
   | None =>
       _ <-o WGoAudit ;;
       _ <-o WService (fun _ => SetWorkerBudget cpuBudget memBudget
                                  (SetWorkerIdentity workerID advertisedHost NewWorkerService)) ;;
       _ <-o WGoReporter workerID ;;
       err <-w ServeGRPC (grpcBindHost +:+ ":" +:+ workerPort) ;;
       match err with
       | Some e => if errors_Is e Worker_ErrHeartbeatRefused then WRet ExitHeartbeatRefused else WRet 1
       | None => WRet 0
       end
   end)%wprog.

Definition locked_main (reapAll : bool) (workerID advertisedHost : string) : wprog Z :=
  let baseDir := SandboxBaseDir Getenv in
  (err <-o WLockBaseDir baseDir ;;
   match err with
   | Some _ => WRet 1
   | None =>
       if reapAll : bool
       then err <-o WReapOrphans baseDir ;;
            match err with Some _ => WRet 1 | None => WRet 0 end
       else run_worker workerID advertisedHost (env_or "WORKER_GRPC_BIND_HOST" advertisedHost)
              (env_or "WORKER_PORT" "0") (env_or "ORCHESTRATOR_GRPC_ADDR" "127.0.0.1:7001")
              (Atoi_value (Getenv "WORKER_CPU_BUDGET")) (Atoi_value (Getenv "WORKER_MEM_BUDGET"))
   end)%wprog.

Definition worker_main (reapAll : bool) : wprog Z :=
  (workerID <-w (let v := Getenv "WORKER_ID" in
                 if bool_decide (v = EmptyString) then WOp WHostname WRet else WRet v) ;;
   advertisedHost <-w (let v := Getenv "WORKER_ADVERTISED_HOST" in
                       if bool_decide (v = EmptyString)
                       then ip <-o WTailscale ;;
                            WRet (match IPv4 ip with Ok ip => ip | Err _ => EmptyString end)
                       else WRet v) ;;
   locked_main reapAll workerID advertisedHost)%wprog.

End Main.

(** ** The process *)

(** What the process does to the host and the orchestrator; [AFail]: an operation of main
    failed. *)
Inductive paction : Type :=
| ALock
| AReap
| ARecover
| AIdentity (workerID : string)
| AListen (port : Z)
| AAudit
| ABeat (hb : WorkerHeartbeat)
| AEvent (ev : SandboxEventMsg)
| AFail.

(** The goroutine of ServeGRPC: the loop, then the send on the channel, then Stop. *)
Inductive hb_thread : Type :=
| HbNone
| HbRun (streak : refusals)
| HbSend (e : error)
| HbStop
| HbDone.

(** [ps_errs] is the channel heartbeatErr, of capacity 1; [ps_turns] the heartbeats so far,
    [ps_log] the actions, the latest first. *)
Record pstate : Type := mkProcess {
  ps_service : WorkerService;
  ps_audit : bool;
  ps_reporter : option string;
  ps_heartbeat : hb_thread;
  ps_errs : option error;
  ps_stopped : bool;
  ps_turns : list (option error * Z);
  ps_log : list paction;
}.

Definition logged (l : list paction) (s : pstate) : pstate :=
  mkProcess (ps_service s) (ps_audit s) (ps_reporter s) (ps_heartbeat s) (ps_errs s) (ps_stopped s)
    (ps_turns s) (l ++ ps_log s).
Definition set_service (ws : WorkerService) (s : pstate) : pstate :=
  mkProcess ws (ps_audit s) (ps_reporter s) (ps_heartbeat s) (ps_errs s) (ps_stopped s) (ps_turns s) (ps_log s).
Definition set_heartbeat (h : hb_thread) (s : pstate) : pstate :=
  mkProcess (ps_service s) (ps_audit s) (ps_reporter s) h (ps_errs s) (ps_stopped s) (ps_turns s) (ps_log s).
Definition set_errs (e : option error) (s : pstate) : pstate :=
  mkProcess (ps_service s) (ps_audit s) (ps_reporter s) (ps_heartbeat s) e (ps_stopped s) (ps_turns s) (ps_log s).
Definition set_stopped (s : pstate) : pstate :=
  mkProcess (ps_service s) (ps_audit s) (ps_reporter s) (ps_heartbeat s) (ps_errs s) true (ps_turns s) (ps_log s).
Definition start_audit (s : pstate) : pstate :=
  mkProcess (ps_service s) true (ps_reporter s) (ps_heartbeat s) (ps_errs s) (ps_stopped s) (ps_turns s) (ps_log s).
Definition start_reporter (workerID : string) (s : pstate) : pstate :=
  mkProcess (ps_service s) (ps_audit s) (Some workerID) (ps_heartbeat s) (ps_errs s) (ps_stopped s)
    (ps_turns s) (ps_log s).
Definition add_turn (t : option error * Z) (s : pstate) : pstate :=
  mkProcess (ps_service s) (ps_audit s) (ps_reporter s) (ps_heartbeat s) (ps_errs s) (ps_stopped s)
    (ps_turns s ++ [t]) (ps_log s).

Definition start : pstate := mkProcess NewWorkerService false None HbNone None false [] [].

(** An operation that may fail, and what it does otherwise. *)
Definition or_fail (act : list paction) (err : option error) (s : pstate) : pstate :=
  match err with None => logged act s | Some _ => logged [AFail] s end.

(** An error of the network or of gRPC, which is never the worker's own. *)
Definition foreign (e : error) : Prop := errors_Is e Worker_ErrHeartbeatRefused = false.

(** One operation of main: the host answers as it likes, but Serve returns nil only once the
    server was stopped. *)
Definition op_step {X} (o : wop X) (s : pstate) : X -> pstate -> Prop :=
  match o in wop X return X -> pstate -> Prop with
  | WHostname => fun _ s' => s' = s
  | WTailscale => fun _ s' => s' = s
  | WLockBaseDir _ => fun err s' => s' = or_fail [ALock] err s
  | WReapOrphans _ => fun err s' => s' = logged (match err with None => [AReap] | Some _ => [AFail; AReap] end) s
  | WRecover => fun _ s' => s' = logged [ARecover] s
  | WNewEventClient _ => fun err s' => s' = or_fail [] err s
  | WService f => fun _ s' => s' = set_service (f (ps_service s)) s
  | WGoAudit => fun _ s' => s' = start_audit s
  | WGoReporter workerID => fun _ s' => s' = logged [AIdentity workerID] (start_reporter workerID s)
  | WListen _ => fun lis s' =>
      match lis with
      | Ok port => s' = logged [AListen port] s
      | Err e => foreign e /\ s' = logged [AFail] s
      end
  | WGoHeartbeat _ => fun _ s' => s' = set_heartbeat (HbRun zero_refusals) s
  | WServe => fun err s' =>
      match err with
      | None => ps_stopped s = true /\ s' = s
      | Some e => foreign e /\ s' = logged [AFail] s
      end
  | WTryHeartbeatErr => fun err s' => err = ps_errs s /\ s' = set_errs None s
  end.

Section Process.

Context (ParseFloat : string -> option spec_float) (third : error -> string -> string).

(** The error of sendHeartbeat. *)
Definition turn_err (r : result error string) : option error :=
  match r with Ok _ => None | Err e => Some e end.

(** One step of a goroutine. *)
Inductive gstep : pstate -> pstate -> Prop :=
| G_audit s : ps_audit s = true -> gstep s (logged [AAudit] s)
| G_event s workerID uuid sandboxID st at_ ev :
    ps_reporter s = Some workerID -> report_event (ps_service s) workerID uuid sandboxID st at_ = Some ev ->
    gstep s (logged [AEvent ev] s)
| G_beat s streak pb m others register report r ws m' sent now :
    ps_heartbeat s = HbRun streak ->
    UpdateWorker ParseFloat (fun hb o => (register hb, hb :: o)) (fun hb o => (report hb, hb :: o)) others
      pb (ps_service s) m [] = (r, ws, m', sent) ->
    in_order (ps_turns s ++ [(turn_err r, now)]) ->
    gstep s (set_heartbeat (match heartbeat_turn third streak (turn_err r) now with
                            | inl streak => HbRun streak
                            | inr e => HbSend e
                            end)
               (add_turn (turn_err r, now) (logged (ABeat <$> sent) (set_service ws s))))
| G_send s e : ps_heartbeat s = HbSend e -> gstep s (set_heartbeat HbStop (set_errs (Some e) s))
| G_stop s : ps_heartbeat s = HbStop -> gstep s (set_heartbeat HbDone (set_stopped s)).

(** The process: main and its goroutines, until main returns. *)
Inductive pstep : wprog Z * pstate -> wprog Z * pstate -> Prop :=
| P_main X (o : wop X) k s x s' : op_step o s x s' -> pstep (WOp o k, s) (k x, s')
| P_go X (o : wop X) k s s' : gstep s s' -> pstep (WOp o k, s) (WOp o k, s').

(** ** The invariant *)

Definition allowed (a : paction) (l : list paction) : Prop :=
  match a with
  | ALock => l = []
  | AReap | ARecover => ALock ∈ l
  | AIdentity _ => ARecover ∈ l /\ forall id, AIdentity id ∉ l
  | AListen _ => ARecover ∈ l /\ forall port, AListen port ∉ l
  | AAudit => ARecover ∈ l
  | ABeat hb => ARecover ∈ l /\ exists id port, AIdentity id ∈ l /\ AListen port ∈ l
                  /\ hb_Port hb = int32 port /\ (id <> EmptyString -> hb_WorkerId hb = id)
  | AEvent ev => AIdentity (em_WorkerId ev) ∈ l /\ 0 < em_FencingToken ev /\ exists hb, ABeat hb ∈ l
  | AFail => True
  end.

Fixpoint log_ok (l : list paction) : Prop :=
  match l with
  | [] => True
  | a :: l => allowed a l /\ log_ok l
  end.

Record pinv (s : pstate) : Prop := {
  pi_log : log_ok (ps_log s);
  pi_audit : ps_audit s = true -> ARecover ∈ ps_log s;
  pi_reporter : forall id, ps_reporter s = Some id -> AIdentity id ∈ ps_log s;
  pi_heartbeat : ps_heartbeat s <> HbNone ->
    ARecover ∈ ps_log s /\ exists id port, AIdentity id ∈ ps_log s /\ AListen port ∈ ps_log s
      /\ wk_Port (ws_worker (ps_service s)) = port
      /\ (id <> EmptyString -> wk_ID (ws_worker (ps_service s)) = id);
  pi_token : 0 < wk_FencingToken (ws_worker (ps_service s)) -> exists hb, ABeat hb ∈ ps_log s;
  pi_order : in_order (ps_turns s);
  pi_turns : forall interval,
    match ps_heartbeat s with
    | HbNone => ps_turns s = []
    | HbRun streak => (heartbeat_turns third interval zero_refusals (ps_turns s)).1 = inl streak
    | HbSend e => (heartbeat_turns third interval zero_refusals (ps_turns s)).1 = inr e
    | HbStop | HbDone => exists e, (heartbeat_turns third interval zero_refusals (ps_turns s)).1 = inr e
    end;
  pi_errs : forall e, ps_errs s = Some e ->
    forall interval, (heartbeat_turns third interval zero_refusals (ps_turns s)).1 = inr e;
  pi_quiet : match ps_heartbeat s with
             | HbNone | HbRun _ | HbSend _ => ps_errs s = None /\ ps_stopped s = false
             | HbStop | HbDone => True
             end;
}.

(** Nobody reads the channel before main does. *)
Definition unread (s : pstate) : Prop := ps_heartbeat s = HbStop \/ ps_stopped s = true -> is_Some (ps_errs s).

(** *** The heartbeats *)

Lemma heartbeat_turns_snoc interval r turns streak err now :
  (heartbeat_turns third interval r turns).1 = inl streak ->
  (heartbeat_turns third interval r (turns ++ [(err, now)])).1 = heartbeat_turn third streak err now.
Proof.
  revert interval r. induction turns as [|[err0 now0] turns IH]; intros interval r; cbn [heartbeat_turns app].
  - intros [= ->]. by destruct (heartbeat_turn third streak err now).
  - destruct (heartbeat_turn third r err0 now0) as [r'|e]; [|done].
    set (i := if interval <=? 0 then _ else _). specialize (IH i r').
    destruct (heartbeat_turns third i r' turns) as [out ws]. destruct (heartbeat_turns third i r' (turns ++ _)) as [out' ws'].
    exact IH.
Qed.

Lemma UpdateWorker_beats register report others pb ws m r ws' m' sent :
  UpdateWorker ParseFloat (fun hb o => (register hb, hb :: o)) (fun hb o => (report hb, hb :: o)) others pb ws m []
  = (r, ws', m', sent) ->
  let w := ws_worker ws in
  let w' := ws_worker ws' in
  (forall hb, hb ∈ sent -> hb_Port hb = int32 (wk_Port w) /\ (wk_ID w <> EmptyString -> hb_WorkerId hb = wk_ID w))
  /\ wk_Port w' = wk_Port w /\ (wk_ID w <> EmptyString -> wk_ID w' = wk_ID w)
  /\ (0 < wk_FencingToken w' -> 0 < wk_FencingToken w \/ sent <> []).
Proof.
  intros H w w'. unfold UpdateWorker in H. destruct (pb_hostname pb) as [hostname|e]; cycle 1.
  { injection H as _ <- _ <-. split; [intros hb Hhb; by apply not_elem_of_nil in Hhb|]. auto. }
  set (p := probed ParseFloat pb hostname (ws_worker ws)) in *.
  assert (wk_Port p = wk_Port w /\ (wk_ID w <> EmptyString -> wk_ID p = wk_ID w) /\ wk_FencingToken p = wk_FencingToken w) as (Hp & Hi & Ht).
  { split; [done|]. split; [|done]. intros N. cbn. by rewrite bool_decide_false. }
  assert (forall token complete inv hb, hb = heartbeat_of p token complete inv ->
            hb_Port hb = int32 (wk_Port w) /\ (wk_ID w <> EmptyString -> hb_WorkerId hb = wk_ID w)) as Hhb.
  { intros token complete inv hb ->. split; [reflexivity|exact Hi]. }
  unfold register_step in H. destruct (ws_needsRegister ws); [destruct (register _) as [token|e]; [destruct (token <=? 0)|]|].
  all: try destruct (report _) as [e'|].
  all: injection H as _ <- _ <-; subst w'; cbn [ws_worker with_token wk_Port wk_ID wk_FencingToken]; rewrite ?Hp, ?Ht;
    (split; [intros hb; rewrite ?elem_of_cons, elem_of_nil; intros; repeat match goal with H : _ \/ _ |- _ => destruct H end; by eauto|];
     split; [done|]; split; [exact Hi|auto]).
Qed.

Lemma log_ok_beats l l' :
  log_ok l -> (forall hb, hb ∈ l' -> forall l2, l `suffix_of` l2 -> allowed (ABeat hb) l2) -> log_ok ((ABeat <$> l') ++ l).
Proof.
  intros Hl. induction l' as [|hb l' IH]; intros H; [done|]. cbn. split.
  - apply H; [left|]. by exists (ABeat <$> l').
  - apply IH. intros hb' Hhb'. apply H. by right.
Qed.

Lemma elem_of_logged a l s : a ∈ ps_log s -> a ∈ ps_log (logged l s).
Proof. intros H. cbn. apply elem_of_app. by right. Qed.

#[local] Hint Resolve elem_of_logged : core.

(** Only the log changes. *)
Lemma pinv_logged l s : pinv s -> log_ok (l ++ ps_log s) -> pinv (logged l s).
Proof.
  intros [I1 I2 I3 I4 I5 I6 I7 I8 I9] Hl. split; cbn [logged ps_service ps_audit ps_reporter ps_heartbeat ps_errs ps_stopped ps_turns]; auto.
  - intros Hn. destruct (I4 Hn) as (? & id & port & ? & ? & ?). split; [auto|]. exists id, port. auto.
  - intros Ht. destruct (I5 Ht) as [hb ?]. eauto.
Qed.

(** *** A goroutine's step *)

Lemma gstep_inv s s' : gstep s s' -> pinv s -> pinv s'.
Proof.
  intros H [I1 I2 I3 I4 I5 I6 I7 I8 I9].
  destruct H as [s Ha|s id uuid sb st t ev Hr Hev|s streak pb m others reg rep r ws m' sent now Hh Hu Ho|s e Hh|s Hh].
  - apply pinv_logged; [by split|]. split; [|done]. by apply I2.
  - unfold report_event in Hev. destruct (Z.leb_spec (wk_FencingToken (ws_worker (ps_service s))) 0) as [|Hpos]; [done|].
    injection Hev as <-. apply pinv_logged; [by split|]. split; [|done]. cbn. auto.
  - destruct (UpdateWorker_beats _ _ _ _ _ _ _ _ _ _ Hu) as (Hb & Hp & Hi & Ht).
    destruct I4 as (Hrec & id & port & Hid & Hport & Epo & Eid); [by rewrite Hh|].
    assert (forall a, a ∈ ps_log s -> a ∈ (ABeat <$> sent) ++ ps_log s) as Hin by (intros; apply elem_of_app; by right).
    split; cbn -[heartbeat_turn].
    + apply log_ok_beats; [done|]. intros hb Hhb l2 Hl2. destruct (Hb hb Hhb) as [H1 H2].
      assert (forall a, a ∈ ps_log s -> a ∈ l2) as Hin2 by (destruct Hl2 as [k ->]; intros; apply elem_of_app; by right).
      split; [auto|]. exists id, port. rewrite H1, Epo. split_and!; auto. intros N. rewrite (Eid N) in H2. auto.
    + auto.
    + auto.
    + intros _. split; [auto|]. exists id, port. rewrite Hp, Epo. split_and!; auto. intros N. rewrite Hi; [auto|]. by rewrite (Eid N).
    + intros Hpos. destruct (Ht Hpos) as [H0|Hne].
      * destruct (I5 H0) as [hb ?]. eauto.
      * destruct sent as [|hb sent]; [done|]. exists hb. left.
    + done.
    + intros interval. specialize (I7 interval). rewrite Hh in I7. pose proof (heartbeat_turns_snoc _ _ _ _ (turn_err r) now I7) as E.
      by destruct (heartbeat_turn third streak (turn_err r) now).
    + intros e He. rewrite Hh in I9. destruct I9 as [I9 _]. congruence.
    + rewrite Hh in I9. by destruct (heartbeat_turn third streak (turn_err r) now).
  - rewrite Hh in *. split; cbn; try done.
    + intros _. by apply I4.
    + intros interval. eauto.
    + intros e' [= <-]. auto.
  - rewrite Hh in *. split; cbn; try done. intros _. by apply I4.
Qed.

Lemma gstep_unread s s' : gstep s s' -> pinv s -> unread s -> unread s'.
Proof.
  intros H I. pose proof (pi_quiet _ I) as Q. unfold unread. destruct H as [s Ha|s id uuid sb st t ev Hr Hev|s streak pb m others reg rep r ws m' sent now Hh Hu Ho|s e Hh|s Hh];
    cbn -[heartbeat_turn]; try done; intros U.
  - rewrite Hh in Q. destruct Q as [-> ->].
    destruct (heartbeat_turn third streak (turn_err r) now); intros [E|E]; discriminate E.
  - intros _. auto.
Qed.

(** A value in the channel stays there. *)
Lemma gsteps_errs s s' : rtc gstep s s' -> is_Some (ps_errs s) -> is_Some (ps_errs s').
Proof. induction 1 as [s|s s1 s' Hs _ IH]; [done|]. intros He. apply IH. by destruct Hs. Qed.

(** What a goroutine logs. *)
Definition background (a : paction) : Prop :=
  match a with AAudit | ABeat _ | AEvent _ => True | _ => False end.

Lemma gstep_log s s' : gstep s s' -> exists l, ps_log s' = l ++ ps_log s /\ Forall background l.
Proof.
  destruct 1; cbn; try (eexists [_]; split; [done|by repeat constructor]); try (by exists []).
  eexists. split; [done|]. apply Forall_fmap. by apply Forall_true.
Qed.

(** *** Main *)

(** [m] is safe from [s]: whatever the goroutines do in between, each of its operations
    keeps the invariant, and it ends in [Post]. *)
Fixpoint safe (Post : Z -> pstate -> Prop) (m : wprog Z) (s : pstate) : Prop :=
  match m with
  | WRet code => Post code s
  | WOp o k => forall s1, rtc gstep s s1 -> pinv s1 -> forall x s2, op_step o s1 x s2 -> pinv s2 /\ safe Post (k x) s2
  end.

Lemma safe_steps Post c c' :
  rtc pstep c c' -> pinv c.2 -> safe Post c.1 c.2 -> pinv c'.2 /\ safe Post c'.1 c'.2.
Proof.
  induction 1 as [c|c c1 c' Hs _ IH]; [done|]. intros I S. apply IH; destruct Hs as [X o k s x s' Hs|X o k s s' Hs]; cbn in *.
  - by apply (S s (rtc_refl _ _) I x s' Hs).
  - by eapply gstep_inv.
  - by apply (S s (rtc_refl _ _) I x s' Hs).
  - intros s1 H1. apply S. by eapply rtc_l.
Qed.

(** What main relies on from one operation to the next: nothing but the goroutines' work
    was logged, and the channel is unread. *)
Record undisturbed (s s1 : pstate) : Prop := {
  ca_log : exists l, ps_log s1 = l ++ ps_log s /\ Forall background l;
  ca_unread : unread s -> unread s1;
  ca_threads : ps_heartbeat s = HbNone -> ps_heartbeat s1 = HbNone /\ ps_service s1 = ps_service s;
}.

Lemma gsteps_undisturbed s s1 : rtc gstep s s1 -> pinv s -> undisturbed s s1.
Proof.
  induction 1 as [s|s s' s1 Hs _ IH]; intros I.
  { split; [by exists []|done|done]. }
  destruct (IH (gstep_inv _ _ Hs I)) as [(l & El & Fl) U T]. split.
  - destruct (gstep_log _ _ Hs) as (l' & El' & Fl'). exists (l ++ l'). rewrite El, El', app_assoc. split; [done|].
    by apply Forall_app.
  - intros H. apply U. by eapply gstep_unread.
  - intros Hn. destruct Hs; cbn in *; try congruence; auto.
Qed.

(** Before the first goroutine. *)
Definition alone (s : pstate) : Prop := ps_audit s = false /\ ps_reporter s = None /\ ps_heartbeat s = HbNone.

Lemma alone_gsteps s s1 : alone s -> rtc gstep s s1 -> s1 = s.
Proof. intros (H1 & H2 & H3) Hs. destruct Hs as [s|s s' s1 Hs _]; [done|]. destruct Hs; congruence. Qed.

(** Before the heartbeats: the service is [ws], the reporter has been started for [id] and
    the listener is on [port] if given. *)
Record preparing (ws : WorkerService) (id : option string) (port : option Z) (s : pstate) : Prop := {
  pr_inv : pinv s;
  pr_heartbeat : ps_heartbeat s = HbNone;
  pr_service : ps_service s = ws;
  pr_recovered : ARecover ∈ ps_log s;
  pr_identity : forall i, AIdentity i ∈ ps_log s <-> id = Some i;
  pr_port : forall p, AListen p ∈ ps_log s <-> port = Some p;
}.

Lemma preparing_gsteps ws id port s s1 : preparing ws id port s -> rtc gstep s s1 -> pinv s1 -> preparing ws id port s1.
Proof.
  intros [P1 P2 P3 P4 P5 P6] Hs I. destruct (gsteps_undisturbed _ _ Hs P1) as [(l & El & Fl) _ T]. destruct (T P2) as [Hn Ews].
  assert (forall a, ~ background a -> a ∈ ps_log s1 <-> a ∈ ps_log s) as Hb.
  { intros a Ha. rewrite El, elem_of_app. split; [intros [Hl|?]; [|done]|by right].
    rewrite Forall_forall in Fl. by destruct (Ha (Fl a Hl)). }
  split; [done|done|congruence|by apply Hb; [intros []|]|..].
  - intros i. rewrite Hb by intros []. apply P5.
  - intros p. rewrite Hb by intros []. apply P6.
Qed.

(** Its operations. *)
Lemma preparing_service ws id port s f :
  preparing ws id port s -> wk_FencingToken (ws_worker (f ws)) <= 0 ->
  preparing (f ws) id port (set_service (f (ps_service s)) s).
Proof.
  intros [[I1 I2 I3 I4 I5 I6 I7 I8 I9] P2 P3 P4 P5 P6] Ht. rewrite P3. split; cbn; try done.
  split; cbn; try done. intros ?. lia.
Qed.

Lemma preparing_reporter ws port s id :
  preparing ws None port s -> preparing ws (Some id) port (logged [AIdentity id] (start_reporter id s)).
Proof.
  intros [[I1 I2 I3 I4 I5 I6 I7 I8 I9] P2 P3 P4 P5 P6].
  assert (forall a, a ∈ ps_log s -> a ∈ AIdentity id :: ps_log s) as Hin by (intros; by right).
  split; cbn; [split; cbn|..]; try done.
  - split; [|done]. split; [done|]. intros i Hi%P5. done.
  - auto.
  - intros i [= <-]. left.
  - intros Ht. destruct (I5 Ht) as [hb ?]. eauto.
  - auto.
  - intros i. rewrite elem_of_cons, P5. split; [by intros [[= ->]|?]|intros [= ->]; by left].
  - intros p. rewrite elem_of_cons, P6. split; [by intros [|]|by right].
Qed.

Lemma preparing_listen ws id s port :
  preparing ws (Some id) None s -> preparing ws (Some id) (Some port) (logged [AListen port] s).
Proof.
  intros [P1 P2 P3 P4 P5 P6]. split; cbn; try done.
  - apply pinv_logged; [done|]. split; [|apply P1]. split; [done|]. by intros p Hp%P6.
  - by right.
  - intros i. rewrite elem_of_cons, P5. split; [by intros [|]|by right].
  - intros p. rewrite elem_of_cons, P6. split; [by intros [[= ->]|?]|intros [= ->]; by left].
Qed.

Lemma preparing_heartbeat ws id port s :
  preparing ws (Some id) (Some port) s -> wk_Port (ws_worker ws) = port ->
  (id <> EmptyString -> wk_ID (ws_worker ws) = id) -> pinv (set_heartbeat (HbRun zero_refusals) s).
Proof.
  intros [[I1 I2 I3 I4 I5 I6 I7 I8 I9] P2 P3 P4 P5 P6] Hp Hi. rewrite P2 in *. split; cbn; try done.
  - intros _. split; [done|]. exists id, port. rewrite P3. split; [by apply P5|]. split; [by apply P6|done].
  - intros interval. by rewrite (I7 interval).
Qed.

Lemma pinv_fail s : pinv s -> pinv (logged [AFail] s).
Proof. intros I. apply pinv_logged; [done|]. split; [done|apply I]. Qed.

(** How the process may end. *)
Definition exit_ok (reapAll : bool) (code : Z) (s : pstate) : Prop :=
  (code = 0 -> reapAll = true)
  /\ (code = ExitHeartbeatRefused -> refused_too_long (ps_turns s))
  /\ (code = 0 \/ code = ExitHeartbeatRefused \/ (code = 1 /\ AFail ∈ ps_log s)).

Lemma exit_failed reapAll s : AFail ∈ ps_log s -> exit_ok reapAll 1 s.
Proof. intros H. split; [done|]. split; [done|]. by right; right. Qed.

Section Walk.

Context (Getenv : string -> string) (ParseDuration : string -> option Z).

(** ServeGRPC, once everything is prepared, and the exit status main makes of it. *)
Definition exit_of (err : option error) : wprog Z :=
  match err with
  | Some e => if errors_Is e Worker_ErrHeartbeatRefused then WRet ExitHeartbeatRefused else WRet 1
  | None => WRet 0
  end.

(** The server runs until it fails or the heartbeat loop stops it. *)
Lemma safe_serving s :
  pinv s -> unread s ->
  safe (exit_ok false)
    (WOp WServe (fun serveErr => WOp WTryHeartbeatErr (fun heartbeatErr => exit_of (serve_result heartbeatErr serveErr)))) s.
Proof.
  intros I U s1 H1 I1 serveErr s2 Hserve.
  assert (unread s1) as U1 by (by apply (gsteps_undisturbed _ _ H1 I)).
  assert (pinv s2 /\ unread s2 /\ match serveErr with None => is_Some (ps_errs s2) | Some e => foreign e /\ AFail ∈ ps_log s2 end)
    as (I2 & U2 & Herr).
  { destruct serveErr as [e|]; cbn in Hserve.
    - destruct Hserve as [Hf ->]. split; [by apply pinv_fail|]. split; [done|]. split; [done|left].
    - destruct Hserve as [Hst ->]. split; [done|]. split; [done|]. apply U1. by right. }
  split; [done|]. intros s3 H3 I3 heartbeatErr s4 [-> ->]. destruct (gsteps_undisturbed _ _ H3 I2) as [(l & El & _) U' _].
  assert (pinv (set_errs None s3)) as I4.
  { destruct I3 as [J1 J2 J3 J4 J5 J6 J7 J8 J9]. split; cbn; try done. by destruct (ps_heartbeat s3); [destruct J9..| |]. }
  split; [done|]. destruct (ps_errs s3) as [e|] eqn:He; cbn [serve_result exit_of].
  - pose proof (pi_errs _ I3 e He 0) as Hrun. rewrite (heartbeat_turns_refused _ _ _ _ _ Hrun). split; [done|]. split; [|by right; left].
    intros _. cbn. by apply (heartbeat_turns_gives_up third 0 _ e); [apply I3|].
  - destruct serveErr as [e|]; cycle 1.
    { exfalso. by destruct (gsteps_errs _ _ H3 Herr) as [e He']; rewrite He in He'. }
    cbn [exit_of]. destruct Herr as [Hf Hlog]. unfold foreign in Hf. rewrite Hf. apply exit_failed. cbn. rewrite El.
    apply elem_of_app. by right.
Qed.

Lemma unread_none s : ps_heartbeat s = HbNone -> pinv s -> unread s.
Proof. intros Hn I [H|H]; [congruence|]. pose proof (pi_quiet _ I) as Q. rewrite Hn in Q. destruct Q. congruence. Qed.

(** ServeGRPC, from the listener on. *)
Lemma safe_ServeGRPC ws id address s :
  preparing ws (Some id) None s -> wk_FencingToken (ws_worker ws) = 0 ->
  (id <> EmptyString -> wk_ID (ws_worker ws) = id) ->
  safe (exit_ok false) (wbind (ServeGRPC Getenv ParseDuration address) exit_of) s.
Proof.
  intros P Ht Hid. cbn [ServeGRPC wbind]. intros s1 H1 I1 lis s2 Hlis.
  pose proof (preparing_gsteps _ _ _ _ _ P H1 I1) as P1. destruct lis as [port|e]; cbn in Hlis; cycle 1.
  { destruct Hlis as [Hf ->]. split; [by apply pinv_fail|]. cbn. unfold foreign in Hf. rewrite Hf. apply exit_failed. left. }
  subst s2. pose proof (preparing_listen _ _ _ port P1) as P2. split; [apply P2|]. cbn [wbind].
  intros s3 H3 I3 [] s4 ->. pose proof (preparing_gsteps _ _ _ _ _ P2 H3 I3) as P3.
  pose proof (preparing_service _ _ _ _ (SetListenPort port) P3 ltac:(cbn; lia)) as P4. split; [apply P4|].
  intros s5 H5 I5 [] s6 ->. pose proof (preparing_gsteps _ _ _ _ _ P4 H5 I5) as P5.
  assert (pinv (set_heartbeat (HbRun zero_refusals) s5)) as I6 by (by eapply preparing_heartbeat).
  split; [done|]. apply safe_serving; [done|]. intros [H|H]; [done|]. cbn in H.
  destruct (unread_none s5 (pr_heartbeat _ _ _ _ P5) I5) as [e He]; [by right|]. cbn. by eexists.
Qed.

(** The worker, once it holds the lock. *)
Lemma safe_run_worker id host bind port addr cpu mem s :
  pinv s -> alone s -> ps_log s = [ALock] ->
  safe (exit_ok false) (run_worker Getenv ParseDuration id host bind port addr cpu mem) s.
Proof.
  intros I A Hlog. cbn [run_worker]. intros s1 H1 I1 [n err] s2 ->. rewrite (alone_gsteps _ _ A H1) in *.
  assert (pinv (logged [ARecover] s)) as I2.
  { apply pinv_logged; [done|]. rewrite Hlog. cbn. split_and!; try done; left. }
  split; [done|]. intros s3 H3 I3 cerr s4 ->. rewrite (alone_gsteps (logged [ARecover] s) s3 A H3) in *.
  destruct cerr as [e|]; cbn [or_fail].
  { split; [by apply pinv_fail|]. apply exit_failed. left. }
  split; [done|]. intros s5 H5 I5 [] s6 ->. rewrite (alone_gsteps (logged [] (logged [ARecover] s)) s5 A H5) in *.
  set (s6 := start_audit _). assert (preparing (ps_service s) None None s6) as P6.
  { destruct I5 as [J1 J2 J3 J4 J5 J6 J7 J8 J9]. destruct A as (A1 & A2 & A3). split; cbn; rewrite ?Hlog; try done.
    - split; cbn; try done. intros _. rewrite Hlog. left.
    - left.
    - intros i. rewrite !elem_of_cons, elem_of_nil. split; [by intros [|[|]]|done].
    - intros i. rewrite !elem_of_cons, elem_of_nil. split; [by intros [|[|]]|done]. }
  split; [apply P6|]. intros s7 H7 I7 [] s8 ->. pose proof (preparing_gsteps _ _ _ _ _ P6 H7 I7) as P7.
  set (ws := SetWorkerBudget cpu mem (SetWorkerIdentity id host NewWorkerService)).
  pose proof (preparing_service _ _ _ _ (fun _ => ws) P7 ltac:(cbn; lia)) as P8. split; [apply P8|].
  intros s9 H9 I9 [] s10 ->. pose proof (preparing_reporter _ _ _ id (preparing_gsteps _ _ _ _ _ P8 H9 I9)) as P10.
  split; [apply P10|]. apply (safe_ServeGRPC ws id); [done|done|]. intros N. cbn. by rewrite bool_decide_false.
Qed.

Lemma safe_locked_main reapAll id host : safe (exit_ok reapAll) (locked_main Getenv ParseDuration reapAll id host) start.
Proof.
  assert (alone start) as A by done. cbn [locked_main]. intros s1 H1 I1 err s2 ->. rewrite (alone_gsteps _ _ A H1) in *.
  destruct err as [e|]; cbn [or_fail].
  { split; [by apply pinv_fail|]. apply exit_failed. left. }
  assert (pinv (logged [ALock] start)) as I2 by (by apply pinv_logged). split; [done|].
  destruct reapAll; [|by apply safe_run_worker].
  intros s3 H3 I3 err s4 ->. rewrite (alone_gsteps (logged [ALock] start) s3 A H3) in *.
  destruct err as [e|]; (split; [apply pinv_logged; [done|]; cbn; split_and!; try done; left|]).
  - apply exit_failed. left.
  - split; [done|]. split; [done|by left].
Qed.

Lemma safe_main reapAll : safe (exit_ok reapAll) (worker_main Getenv ParseDuration reapAll) start.
Proof.
  assert (alone start) as A by done. unfold worker_main.
  assert (forall id, safe (exit_ok reapAll) (wbind
      (let v := Getenv "WORKER_ADVERTISED_HOST" in
       if bool_decide (v = EmptyString)
       then WOp WTailscale (fun ip => WRet (match IPv4 ip with Ok ip => ip | Err _ => EmptyString end)) else WRet v)
      (locked_main Getenv ParseDuration reapAll id)) start) as H.
  { intros id. cbn zeta. case_bool_decide; cbn [wbind]; [|apply safe_locked_main].
    intros s1 H1 I1 ip s2 ->. rewrite (alone_gsteps _ _ A H1) in *. split; [done|]. apply safe_locked_main. }
  cbn zeta. case_bool_decide; cbn [wbind]; [|apply H].
  intros s1 H1 I1 id s2 ->. rewrite (alone_gsteps _ _ A H1) in *. split; [done|]. apply H.
Qed.

End Walk.

End Process.

(** C17: the worker process, in every interleaving of main and its goroutines and whatever
    the host and the orchestrator answer.  Nothing is touched before the base dir is locked,
    and the sandboxes are recovered before the audit runs, the listener opens or anything is
    sent.  Every heartbeat carries the port the listener was bound to and the worker's ID,
    every event the same ID and a fencing token, and none is sent before a registration.
    The process ends with status 0 only for -reap-all, with status 78 only if its heartbeats
    were refused for good for ten minutes, and with status 1 only if an operation of main
    failed: a heartbeat loop that gives up is never lost to the server's return, so the unit
    does not restart a worker that would only be refused again. *)
Theorem worker_process ParseFloat third Getenv ParseDuration reapAll c :
  rtc (pstep ParseFloat third) (worker_main Getenv ParseDuration reapAll, start) c ->
  (forall l1 a l2, ps_log c.2 = l1 ++ a :: l2 -> allowed a l2)
  /\ (forall code, c.1 = WRet code ->
       (code = 0 -> reapAll = true)
       /\ (code = ExitHeartbeatRefused -> refused_too_long (ps_turns c.2))
       /\ (code = 0 \/ code = ExitHeartbeatRefused \/ (code = 1 /\ AFail ∈ ps_log c.2))).
Proof.
  intros H. assert (pinv third start) as I0.
  { split; cbn; try done. constructor. }
  destruct (safe_steps ParseFloat third (exit_ok reapAll) _ c H I0 (safe_main ParseFloat third Getenv ParseDuration reapAll)) as [I S]. split.
  - intros l1 a l2 E. pose proof (pi_log _ _ I) as L. rewrite E in L. clear -L. induction l1 as [|b l1 IH]; cbn in L; [apply L|apply IH, L].
  - intros code Hc. rewrite Hc in S. exact S.
Qed.

(** A worker the orchestrator refuses: two heartbeats ten minutes apart, then status 78. *)
Definition demo_probes : probes :=
  mkProbes None None None 2 (Err (NewError "none")) (Ok "host"%string) EmptyString 0.

Definition demo_refusal : error := StatusError InvalidArgument "inventory required".

Ltac main_step x :=
  eapply rtc_l; [eapply (P_main _ _ _ _ _ _ x); cbv [op_step]; reflexivity|cbn [wbind ServeGRPC run_worker or_fail]].
Ltac beat_step now :=
  eapply rtc_l;
  [eapply P_go, (G_beat _ _ _ _ demo_probes newManager (fun m => m) (fun _ => Err demo_refusal) (fun _ => None) _ _ _ _ now);
   [vm_compute; reflexivity|vm_compute; reflexivity|repeat constructor; discriminate]|].

Definition demo_env (name : string) : string :=
  if bool_decide (name = "WORKER_ID"%string) then "w1"
  else if bool_decide (name = "WORKER_ADVERTISED_HOST"%string) then "10.0.0.1" else EmptyString.

Lemma demo_main : worker_main demo_env (fun _ => None) false = locked_main demo_env (fun _ => None) false "w1" "10.0.0.1".
Proof. reflexivity. Qed.

Lemma worker_process_witness :
  exists s, rtc (pstep (fun _ => None) (fun _ m => m)) (worker_main demo_env (fun _ => None) false, start)
              (WRet ExitHeartbeatRefused, s)
    /\ refused_too_long (ps_turns s).
Proof.
  assert (exists s, rtc (pstep (fun _ => None) (fun _ m => m)) (worker_main demo_env (fun _ => None) false, start)
              (WRet ExitHeartbeatRefused, s)) as [s H].
  { eexists. rewrite demo_main. unfold locked_main.
    main_step (None (A:=error)). main_step (0, None (A:=error)). main_step (None (A:=error)). main_step tt. main_step tt. main_step tt.
    main_step (Ok (E:=error) 40000). main_step tt. main_step tt.
    beat_step 0. beat_step (10 * Minute).
    eapply rtc_l; [eapply P_go, G_send; vm_compute; reflexivity|].
    eapply rtc_l; [eapply P_go, G_stop; reflexivity|].
    eapply rtc_l; [by eapply (P_main _ _ _ WServe _ _ None)|].
    eapply rtc_l; [by eapply (P_main _ _ _ WTryHeartbeatErr _ _ _)|].
    vm_compute. apply rtc_refl. }
  exists s. split; [exact H|].
  destruct (worker_process (fun _ => None) (fun _ m => m) demo_env (fun _ => None) false _ H) as [_ He].
  by apply (He ExitHeartbeatRefused).
Defined.
