(* ===== verification/Router.v ===== *)
(** * The HTTP API as it is wired

    The routes of internal/app/app.go, orchestrator/http.go and orchestrator/auth_http.go,
    as one program from a request to its answer.  The chi router is a parameter: [find]
    gives the entry of a routing table for a method and a path, with the value of its {id},
    [mounted] the subtree of a path and the rest of it, [missing] the answer when there is
    none; nothing is assumed of it.  The go-chi/cors middleware is another: [cors] gives the
    answer to a request it does not pass on to the routes, and its documentation says these
    are preflights.  The headers it adds to the other answers are left out, as are the
    middlewares that name, log and recover a request. *)

From Stdlib Require Import ZArith Lia.
From stdpp Require Import base tactics option list gmap strings numbers.
From S2P Require Import Prelude GoStd Database SandboxRepo WorkerRepo Program Scheduler Jobs.
From S2P Require Import Capacity HTTP Auth Lifecycle Steps Threads Handlers System Scenario.

Open Scope Z_scope.

#[local] Set Warnings "-clear-no-such-hyp".

(** ** The tables *)

Inductive sandbox_route : Type := RCreate | RList | RGet | RDelete.
Inductive auth_route : Type := RSignUp | RLogin | RLogout.
Inductive subtree : Type := THealth | TAuth | TSandboxes.

Definition sandbox_routes : list (string * string * sandbox_route) :=
  [("POST", "/", RCreate); ("GET", "/", RList); ("GET", "/{id}", RGet); ("DELETE", "/{id}", RDelete)]%string.

Definition auth_routes : list (string * string * auth_route) :=
  [("POST", "/signup", RSignUp); ("POST", "/login", RLogin); ("POST", "/logout", RLogout)]%string.

Definition subtrees : list (string * subtree) :=
  [("/health", THealth); ("/api/auth", TAuth); ("/api/sandboxes", TSandboxes)]%string.

(** [cors.Options] with the fields the source sets. *)
Record cors_Options : Type := mkCors {
  co_AllowedOrigins : list string;
  co_AllowedMethods : list string;
  co_AllowedHeaders : list string;
  co_AllowCredentials : bool;
  co_MaxAge : Z;
}.

Definition cors_options : cors_Options :=
  mkCors ["*"] ["GET"; "POST"; "DELETE"; "OPTIONS"] ["Authorization"; "Content-Type"] false 300.

(** A request: its bodies are what decoding its JSON into each type gives, the headers
    those the handlers and CORS read. *)
Record http_request : Type := mkRequest {
  hr_Method : string;
  hr_Path : string;
  hr_Authorization : string;
  hr_Origin : string;
  hr_RequestMethod : string;
  hr_RequestHeaders : string;
  hr_create : option createSandboxRequest;
  hr_auth : option authRequest;
}.

Section Router.

Context (find : forall H, list (string * string * H) -> string -> string -> option (H * string)).
Context (mounted : forall T, list (string * T) -> string -> option (T * string)).
Context (missing : string -> string -> response).
Context (cors : cors_Options -> http_request -> option response).

(** The services behind the handlers, and what one request draws from them. *)
Context (hash : string -> result error string) (matches : string -> string -> bool) (lower : string -> string).
Context (third : error -> string -> string) (riverConfigured : bool).
Context (uuid : string) (newToken : result error string) (jobID : Z) (evs : list select_event).

Definition responded (p : prog response) : prog outcome := (r <-- p ;; Ret (Responded r))%prog.

Definition serve_sandboxes (user : User) (req : http_request) (path : string) : prog outcome :=
  match find _ sandbox_routes (hr_Method req) path with
  | Some (RCreate, _) => createSandbox third riverConfigured uuid jobID evs (Some user) (hr_create req)
  | Some (RList, _) => responded (listSandboxes (Some user))
  | Some (RGet, id) => responded (getSandboxByID (Some user) id)
  | Some (RDelete, id) => responded (deleteSandbox riverConfigured (Some user) id)
  | None => Ret (Responded (missing (hr_Method req) path))
  end.

Definition serve_auth (req : http_request) (path : string) : prog outcome :=
  match find _ auth_routes (hr_Method req) path with
  | Some (RSignUp, _) => responded (signUp hash lower uuid newToken (hr_auth req))
  | Some (RLogin, _) => responded (login matches lower newToken (hr_auth req))
  | Some (RLogout, _) => responded (logout (hr_Authorization req))
  | None => Ret (Responded (missing (hr_Method req) path))
  end.

(** The routes of [New]: the middleware of the sandboxes runs before their table is looked
    up. *)
Definition routed (req : http_request) : prog outcome :=
  match mounted _ subtrees (hr_Path req) with
  | Some (THealth, path) =>
      if bool_decide (hr_Method req = "GET"%string) then Ret (Responded (mkResponse StatusOK (BodyText "ok") None))
      else Ret (Responded (missing (hr_Method req) path))
  | Some (TAuth, path) => serve_auth req path
  | Some (TSandboxes, path) =>
      RequireAuth Responded (hr_Authorization req) (fun user => serve_sandboxes user req path)
  | None => Ret (Responded (missing (hr_Method req) (hr_Path req)))
  end.

(** [New]: CORS sees every request first. *)
Definition api (req : http_request) : prog outcome :=
  match cors cors_options req with
  | Some preflight => Ret (Responded preflight)
  | None => routed req
  end.

(** ** Isolation *)

(** The sandboxes of the others, and all that is not a sandbox, stay; a new one is [uid]'s. *)
Record own_writes (uid : string) (db db' : DB) : Prop := {
  ow_rows : forall id r, sandboxes db !! id = Some r -> sb_UserID (row_sandbox r) <> Some uid ->
            sandboxes db' !! id = Some r;
  ow_new : forall id r', sandboxes db' !! id = Some r' -> sandboxes db !! id = None ->
           sb_UserID (row_sandbox r') = Some uid;
  ow_workers : workers db' = workers db;
  ow_users : users db' = users db;
  ow_sessions : sessions db' = sessions db;
}.

Definition no_sandbox_writes (db db' : DB) : Prop :=
  sandboxes db' = sandboxes db /\ workers db' = workers db /\ jobs db' = jobs db.

(** What the rest of the system may do meanwhile: the sandboxes keep their owners. *)
Definition owners_kept (db db' : DB) : Prop :=
  forall id r, sandboxes db !! id = Some r ->
  exists r', sandboxes db' !! id = Some r' /\ sb_UserID (row_sandbox r') = sb_UserID (row_sandbox r).

(** The token is [uid]'s while it opens a session, and the users are stored by their ID. *)
Record held_by (token uid : string) (db : DB) : Prop := {
  hb_session : forall s, sessions db !! token = Some s -> se_UserID s = uid;
  hb_users : forall id u, users db !! id = Some u -> u_ID u = id;
}.

Section Isolation.

Context (token uid : string).

Abbreviation Own := (wp any_fault (held_by token uid) owners_kept (own_writes uid)).

Lemma own_refl db : own_writes uid db db.
Proof. split; try done. intros id r H1 H2. congruence. Qed.

Lemma held_same db db' : own_writes uid db db' -> held_by token uid db -> held_by token uid db'.
Proof. intros [_ _ _ Hu Hs] [H1 H2]. split; [by rewrite Hs|by rewrite Hu]. Qed.

(** A transaction whose effect, if any, is [uid]'s own. *)
Lemma own_tx {A X} (f : tx X) (k : result error X -> prog A) Q db :
  (forall db1 env x db2, owners_kept db db1 -> held_by token uid db1 -> f env db1 = (Ok x, db2) -> own_writes uid db1 db2) ->
  (forall db1 env db2 r, owners_kept db db1 -> held_by token uid db1 -> own_writes uid db1 db2 ->
     r = (f env db1).1 \/ (exists e, r = Err e) -> Own (k r) Q db2) ->
  Own (Tx f k) Q db.
Proof.
  intros Hf Hk db1 env fl r db2 HR HI _ Hx. apply exec_tx_cases in Hx as [(e & -> & ->)|(x & Hx & Hr)].
  - split; [apply own_refl|]. split; [done|]. apply (Hk db1 env); [done|done|apply own_refl|eauto].
  - pose proof (Hf db1 env x db2 HR HI Hx) as Ho. split; [done|]. split; [by eapply held_same|].
    apply (Hk db1 env); [done|done|done|]. rewrite Hx. destruct Hr as [->|[m ->]]; [by left|right; by eexists].
Qed.

Lemma own_read {A X} (f : tx X) (k : result error X -> prog A) Q db :
  tx_reads f ->
  (forall db1 env r, owners_kept db db1 -> held_by token uid db1 -> r = (f env db1).1 \/ (exists e, r = Err e) ->
     Own (k r) Q db1) ->
  Own (Tx f k) Q db.
Proof.
  intros Hf Hk db1 env fl r db2 HR HI _ Hx. assert (db2 = db1) as ->.
  { apply exec_tx_cases in Hx as [(e & _ & ->)|(x & Hx & _)]; [done|]. pose proof (Hf env db1) as H. by rewrite Hx in H. }
  split; [apply own_refl|]. split; [done|]. apply (Hk db1 env r HR HI).
  apply exec_tx_cases in Hx as [(e & -> & _)|(x & Hx & Hr)]; [by eauto|]. rewrite Hx. destruct Hr as [->|[m ->]]; [by left|eauto].
Qed.

Abbreviation isolated p db := (Own p (fun _ _ => True) db).

Lemma isolated_bind {A B} (p : prog A) (k : A -> prog B) db :
  isolated p db -> (forall a db', isolated (k a) db') -> isolated (bind p k) db.
Proof. intros Hp Hk. apply wp_bind. by eapply wp_mono; [|exact Hp]. Qed.

Lemma isolated_responded p db : isolated p db -> isolated (responded p) db.
Proof. intros H. by apply isolated_bind. Qed.

Lemma isolated_read {A X} (f : tx X) (k : result error X -> prog A) db :
  tx_reads f -> (forall r db1, isolated (k r) db1) -> isolated (Tx f k) db.
Proof. intros Hf Hk. apply own_read; [done|]. intros. apply Hk. Qed.

Create HintDb reads.
#[local] Hint Resolve GetByID_reads list_where_reads GetSession_reads GetUserByID_reads : reads.

Lemma isolated_wait_loop id db : isolated (wait_loop id jobID evs) db.
Proof.
  revert db. induction evs as [|ev rest IH]; intros db; [done|]. destruct ev as [| |[ev|]]; cbn [wait_loop]; try done; try apply IH.
  destruct (negb _); [apply IH|]. destruct (je_Kind ev).
  - apply isolated_read; [auto with reads|]. by intros [s|e] db1.
  - case_bool_decide; [done|apply IH].
  - by destruct (jobFailedClusterFull _).
Qed.

Lemma isolated_list user db : isolated (listSandboxes (Some user)) db.
Proof.
  assert (forall ids db, isolated (owned_details user ids) db) as Hd.
  { induction ids as [|id ids IH]; intros db'; [done|]. cbn [owned_details]. apply isolated_read; [auto with reads|].
    intros [s|e] db1; [|apply IH]. destruct (negb _); [apply IH|]. by apply isolated_bind. }
  assert (forall ws db, isolated (list_workers user ws) db) as Hw.
  { induction ws as [|w ws IH]; intros db'; [done|]. cbn [list_workers]. apply isolated_bind.
    - unfold list_worker. cbn [wp]. intros [x|e]; [|done]. cbn [wp]. intros [ids|e]; [apply Hd|done].
    - intros l db1. by apply isolated_bind. }
  unfold listSandboxes. apply isolated_read; [apply list_where_reads|]. intros [ws|e] db1; [|done]. by apply isolated_bind.
Qed.

(** What [fetch_owned] hands on is the caller's, and stays so. *)
Lemma isolated_fetch user id k db :
  u_ID user = uid ->
  (forall sbx db1 r, sandboxes db1 !! id = Some r -> sb_UserID (row_sandbox r) = Some uid -> isolated (k sbx) db1) ->
  isolated (fetch_owned (Some user) id k) db.
Proof.
  intros Hu Hk. unfold fetch_owned. case_bool_decide; [done|]. apply own_read; [apply GetByID_reads|].
  intros db1 env r _ _ Hr. destruct r as [sbx|e]; [|by destruct (errors_Is _ _)].
  destruct Hr as [Hr|[e [=]]]. unfold GetByID in Hr. destruct (sandboxes db1 !! id) as [r|] eqn:E; [|done]. injection Hr as ->.
  unfold owns. case_bool_decide as Ho; [|done]. apply (Hk _ db1 r); [done|congruence].
Qed.

Lemma own_put id r r' db db' :
  sandboxes db !! id = Some r -> sb_UserID (row_sandbox r) = Some uid ->
  sandboxes db' = <[id := r']> (sandboxes db) -> workers db' = workers db -> users db' = users db ->
  sessions db' = sessions db -> own_writes uid db db'.
Proof.
  intros Hr Hu Hs Hw Hus Hse. split; try done; rewrite Hs.
  - intros i x Hx Hn. rewrite lookup_insert_ne; [done|]. intros <-. congruence.
  - intros i x Hx Hn. rewrite lookup_insert_ne in Hx; [congruence|]. intros <-. congruence.
Qed.

Lemma own_delete id env db n db' r :
  sandboxes db !! id = Some r -> sb_UserID (row_sandbox r) = Some uid ->
  delete_tx id env db = (Ok n, db') -> own_writes uid db db'.
Proof.
  intros Hr Hu (u & d & H1 & H2)%tx_bind_Ok. unfold UpdateStatus in H1. rewrite Hr in H1.
  destruct (status_in _ _); injection H1 as <- <-; cbn in H2; injection H2 as <- <-; [|apply own_refl].
  by eapply own_put.
Qed.

Lemma own_create s env db x db' :
  sb_UserID s = Some uid -> create_tx s env db = (Ok x, db') -> own_writes uid db db'.
Proof.
  intros Hu (u & d & H1 & H2)%tx_bind_Ok. unfold SandboxRepo.Create in H1.
  destruct (sandboxes db !! sb_ID s) as [r|] eqn:E; [done|]. case_match; [|done]. injection H1 as <- <-. injection H2 as _ <-.
  split; try done; cbn.
  - intros i r Hr _. rewrite lookup_insert_ne; [done|]. intros <-. congruence.
  - intros i r Hr Hn. rewrite lookup_insert_Some in Hr. destruct Hr as [[<- <-]|[_ Hr]]; [done|congruence].
Qed.

Lemma isolated_sandboxes user req path db : u_ID user = uid -> isolated (serve_sandboxes user req path) db.
Proof.
  intros Hu. unfold serve_sandboxes. destruct (find _ _ _ _) as [[[] id]|]; [| | | |done].
  - unfold createSandbox. destruct (hr_create req) as [body|]; [|done]. case_bool_decide; [done|].
    destruct (CheckSandboxSize _ _); [done|]. destruct riverConfigured; cbn [negb]; [|done].
    apply isolated_read; [apply list_where_reads|]. intros [[|w ws]|e] db1; [done| |done]. cbn [wp]. intros t1 t2.
    apply own_tx.
    + intros db2 env x db3 _ _ Hx. eapply own_create; [|exact Hx]. cbn. by rewrite Hu.
    + intros db2 env db3 [x|e] _ _ _ _; [apply isolated_wait_loop|done].
  - apply isolated_responded, isolated_list.
  - apply isolated_responded. unfold getSandboxByID. by apply isolated_fetch.
  - apply isolated_responded. unfold deleteSandbox. apply isolated_fetch; [done|]. intros sbx db1 r Hr Ho.
    destruct (sb_Status sbx); try done; (destruct riverConfigured; cbn [negb]; [|done]); apply own_tx.
    all: try (intros db2 env db3 [n|e] _ _ _ _; [by destruct (n =? 0)|done]).
    all: intros db2 env x db3 HR _ Hx; destruct (HR id r Hr) as (r2 & Hr2 & Ho2); eapply own_delete; [exact Hr2|congruence|exact Hx].
Qed.

Lemma isolated_RequireAuth req path db :
  bearerToken (hr_Authorization req) = token ->
  isolated (RequireAuth Responded (hr_Authorization req) (fun user => serve_sandboxes user req path)) db.
Proof.
  intros Ht. unfold RequireAuth. rewrite Ht. case_bool_decide; [done|]. apply wp_bind. unfold Authenticate.
  assert (forall s db1, se_UserID s = uid ->
            isolated (u <-db GetUserByID (se_UserID s) ;;
                      match u with
                      | Ok user => serve_sandboxes user req path
                      | Err _ => Ret (Responded (http_Error "invalid or expired session" StatusUnauthorized))
                      end)%prog db1) as Huser.
  { intros s db1 Hs. apply own_read; [apply GetUserByID_reads|]. intros db2 env [u|e] _ HI Hu; [|done].
    apply isolated_sandboxes. destruct Hu as [Hu|[e [=]]]. unfold GetUserByID in Hu. rewrite Hs in Hu.
    destruct (users db2 !! uid) as [u'|] eqn:E; [|done]. injection Hu as ->. by apply (hb_users _ _ _ HI). }
  apply own_read; [apply GetSession_reads|]. intros db1 env [s|e] _ HI Hs; [|done].
  assert (se_UserID s = uid) as Hsu.
  { destruct Hs as [Hs|[e [=]]]. unfold GetSession in Hs. destruct (sessions db1 !! token) as [s'|] eqn:E; [|done].
    injection Hs as ->. by apply (hb_session _ _ _ HI). }
  destruct (se_ExpiresAt s) as [t|]; [cbn [wp]; intros now; destruct (t <? now); [done|]|]; cbn [wp];
    intros db2 env2 fl r db3 HR HI2 HF Hx; destruct (Huser s db1 Hsu db2 env2 fl r db3 HR HI2 HF Hx) as (? & ? & ?);
    (split; [done|]); (split; [done|]); by destruct r.
Qed.

End Isolation.

(** ** The accounts *)

Abbreviation spares p db := (wp any_fault (fun _ => True) (fun _ _ => True) no_sandbox_writes p (fun _ _ => True) db).

Lemma spares_tx {A X} (f : tx X) (k : result error X -> prog A) db :
  (forall env db1, no_sandbox_writes db1 (f env db1).2) -> (forall r db1, spares (k r) db1) -> spares (Tx f k) db.
Proof.
  intros Hf Hk db1 env fl r db2 _ _ _ Hx. split; [|split; [done|apply Hk]].
  apply exec_tx_cases in Hx as [(e & _ & ->)|(x & Hx & _)]; [done|]. pose proof (Hf env db1) as H. by rewrite Hx in H.
Qed.

Lemma spares_bind {A B} (p : prog A) (k : A -> prog B) db :
  spares p db -> (forall a db', spares (k a) db') -> spares (bind p k) db.
Proof. intros Hp Hk. apply wp_bind. by eapply wp_mono; [|exact Hp]. Qed.

Lemma spares_session user db : spares (with_session newToken user) db.
Proof.
  unfold with_session. apply spares_bind; [|by intros [s|e]]. unfold createSession, createSessionWithTTL.
  destruct newToken as [t|e]; [|done]. intros now. apply spares_tx; [|done]. intros env db1.
  unfold CreateSession. by repeat case_match.
Qed.

Lemma spares_auth req path db : spares (serve_auth req path) db.
Proof.
  unfold serve_auth, responded. destruct (find _ _ _ _) as [[[] id]|]; [| | |done]; apply spares_bind; try done.
  - unfold signUp. destruct (decodeAuthRequest _ _) as [b|r]; [|done]. destruct (negb _); [done|]. destruct (_ <? _)%nat; [done|].
    apply spares_bind; [|intros [us|e] db1; [done|by destruct (errors_Is _ _)]]. unfold SignUp.
    destruct (hash _); [|done]. intros now. apply spares_tx.
    + intros env db1. unfold CreateUser. by repeat case_match.
    + intros [u|e] db1; [apply spares_session|done].
  - unfold login. destruct (decodeAuthRequest _ _) as [b|r]; [|done].
    apply spares_bind; [|intros [us|e] db1; [done|by destruct (errors_Is _ _)]]. unfold Login. apply spares_tx.
    + intros env db1. by rewrite GetUserByEmail_reads.
    + intros [u|e] db1; [destruct (negb _); [done|apply spares_session]|by destruct (errors_Is _ _)].
  - unfold logout. case_bool_decide; [done|]. apply spares_bind; [|done]. unfold Logout. by apply spares_tx.
Qed.

End Router.

(** The system keeps the owners. *)
Lemma evolves_owners db db' : evolves db db' -> owners_kept db db'.
Proof.
  intros HE id r Hr. destruct (ev_rows _ _ HE id r Hr) as (r' & Hr' & [_ Hid _]). exists r'. split; [done|].
  unfold row_identity in Hid. by injection Hid as _ _ _ _ _ _ _ _ _ Hu.
Qed.

(** The documented behaviour of the CORS middleware: it answers preflights, and passes every
    other request on. *)
Definition answers_preflights_only (cors : cors_Options -> http_request -> option response) : Prop :=
  forall opts req r, cors opts req = Some r -> hr_Method req = "OPTIONS"%string.

(** C16: a request acts for the holder of its token only.  Whatever the router and the
    faults, and whatever the system does meanwhile: a request CORS answers itself, which is
    an OPTIONS request, reads and writes nothing.  Of the others, every request that is not
    an OPTIONS one among them, a request to the sandboxes' subtree changes and creates
    sandboxes of the user its token belongs to only, and no worker, user or session; any
    other request writes no sandbox, worker or job.  Without a token that opens a session
    every request to that subtree that CORS passes on, a path that does not exist included,
    is answered 401 and writes nothing; with one it is served for that user. *)
Theorem api_isolated find mounted missing cors hash matches lower third conf uuid newToken jobID evs req uid db :
  answers_preflights_only cors ->
  let token := bearerToken (hr_Authorization req) in
  let call := api find mounted missing cors hash matches lower third conf uuid newToken jobID evs req in
  (hr_Method req <> "OPTIONS"%string -> cors cors_options req = None)
  /\ match cors cors_options req, mounted _ subtrees (hr_Path req) with
     | Some preflight, _ => call = Ret (Responded preflight)
     | None, Some (TSandboxes, path) =>
         wp any_fault (held_by token uid) owners_kept (own_writes uid) call (fun _ _ => True) db
         /\ (forall s e, token = EmptyString \/ session_user db token (sc_clock s) = Err e ->
              exists msg, run s call [] [] db = (Responded (http_Error msg StatusUnauthorized), db))
         /\ (forall s user, token <> EmptyString -> session_user db token (sc_clock s) = Ok user ->
              run s call [] [] db
              = run s (serve_sandboxes find missing third conf uuid jobID evs user req path) [] [] db)
     | None, _ => wp any_fault (fun _ => True) (fun _ _ => True) no_sandbox_writes call (fun _ _ => True) db
     end.
Proof.
  intros Hcors token call. split.
  { intros Hm. destruct (cors cors_options req) as [r|] eqn:E; [|done]. by apply Hcors in E. }
  unfold call, api. clear call. destruct (cors cors_options req) as [r|]; [done|]. unfold routed.
  destruct (mounted _ _ _) as [[[] path]|] eqn:Em; [by case_bool_decide| | |done].
  - apply spares_auth.
  - split; [by apply isolated_RequireAuth|]. split; intros s; rewrite run_RequireAuth; fold token.
    + intros e [Ht|Ht]; [rewrite bool_decide_true by done; eauto|]. rewrite Ht. case_bool_decide; eauto.
    + intros user Hne Hs. by rewrite bool_decide_false, Hs.
Qed.

(** A router and a CORS middleware to run: a pattern is a path or /{id}, a subtree a prefix,
    and OPTIONS requests that ask for a method are preflights. *)
Definition demo_find (H : Type) (table : list (string * string * H)) (meth path : string) : option (H * string) :=
  list_find (fun e => e.1.1 = meth /\ (e.1.2 = path \/ (e.1.2 = "/{id}" /\ path <> "/"%string))) table
  ≫= fun x => Some (x.2.2, TrimPrefix path "/").

Definition demo_mounted (T : Type) (trees : list (string * T)) (path : string) : option (T * string) :=
  list_find (fun e => HasPrefix path e.1 = true) trees ≫= fun x => Some (x.2.2, TrimPrefix path x.2.1).

Definition demo_cors (_ : cors_Options) (req : http_request) : option response :=
  if bool_decide (hr_Method req = "OPTIONS"%string) && bool_decide (hr_RequestMethod req <> EmptyString)
  then Some (http_Empty StatusOK) else None.

Lemma demo_cors_preflights : answers_preflights_only demo_cors.
Proof. intros opts req r. unfold demo_cors. by case_bool_decide. Qed.

Definition demo_request (meth path auth requested : string) : http_request :=
  mkRequest meth path auth "https://front" requested EmptyString None None.

Definition demo_api : http_request -> prog outcome :=
  api demo_find demo_mounted (fun _ _ => http_Error "404 page not found" StatusNotFound) demo_cors
    demo_hash (fun p h => bool_decide (p = h)) demo_lower (fun _ m => m) true "s2" (Ok "tok2"%string) 8 [].

(** Its sandbox is answered to the user, nothing without the token, and the preflight of
    the same path is answered with no token at all. *)
Lemma api_isolated_witness :
  (exists msg, run (at_time t0) (demo_api (demo_request "GET" "/api/sandboxes/s1" "" "")) [] [] db_running
     = (Responded (http_Error msg StatusUnauthorized), db_running))
  /\ (exists sbx, run (at_time t0) (demo_api (demo_request "GET" "/api/sandboxes/s1" "Bearer tok" "")) [] [] db_running
     = (Responded (http_Sandbox StatusOK sbx), db_running))
  /\ demo_api (demo_request "OPTIONS" "/api/sandboxes/s1" "" "GET") = Ret (Responded (http_Empty StatusOK)).
Proof.
  split; [|split].
  - apply (api_isolated demo_find demo_mounted _ demo_cors demo_hash _ demo_lower _ true "s2"
      (Ok "tok2"%string) 8 [] (demo_request "GET" "/api/sandboxes/s1" "" "") "u1" db_running demo_cors_preflights)
      with (e := Sentinel Auth_ErrNotFound). by left.
  - assert (exists user, session_user db_running "tok" (sc_clock (at_time t0)) = Ok user) as [user Hu]
      by (vm_compute; by eexists).
    eexists. etransitivity.
    + apply (api_isolated demo_find demo_mounted _ demo_cors demo_hash _ demo_lower _ true "s2"
        (Ok "tok2"%string) 8 [] (demo_request "GET" "/api/sandboxes/s1" "Bearer tok" "") "u1" db_running
        demo_cors_preflights) with (user := user); [done|exact Hu].
    + revert user Hu. vm_compute. intros user [= <-]. vm_compute. reflexivity.
  - apply (api_isolated demo_find demo_mounted (fun _ _ => http_Error "404 page not found" StatusNotFound)
      demo_cors demo_hash (fun p h => bool_decide (p = h)) demo_lower (fun _ m => m) true "s2"
      (Ok "tok2"%string) 8 [] (demo_request "OPTIONS" "/api/sandboxes/s1" "" "GET") "u1" db_running demo_cors_preflights).
Defined.
