(* ===== verification/Smoke.v ===== *)
(** * The smoke test

    cmd/firecracker-smoke/main.go: one VM through the runtime client, as a program over the
    host.  [newString] is what uuid.NewString returned; what [%v] prints of an error and of
    a state (generated code) are parameters. *)

From Stdlib Require Import ZArith Lia Ascii.
From stdpp Require Import base tactics option list strings numbers.
From S2P Require Import Prelude GoStd EventGRPC Manager Host Dm ThinPool Shim.
From S2P Require Import Runtime Vm Reaping.

Open Scope Z_scope.

(** Nanoseconds of the durations. *)
Definition bootTimeout : Z := 30 * 10 ^ 9.
Definition bootPoll : Z := 100 * 10 ^ 6.

Section Smoke.

Context (quote : string -> string) (text : derror -> string) (uuid_Parse : string -> bool).
Context (Getenv : string -> string) (json_string : string -> string).
Context (Major Minor : Z -> Z) (Mkdev : Z -> Z -> Z) (state_String : SandboxState -> string).

(** [os.Stat] of each path. *)
Fixpoint stat_all (paths : list string) : kprog (option derror) :=
  match paths with
  | [] => KRet None
  | p :: rest =>
      (r <-op Stat p ;;
       match r with
       | Err e => KRet (Some (DWrap ("stat " +:+ p +:+ ": ") (Errno e)))
       | Ok _ => stat_all rest
       end)%kprog
  end.

(** [state=%v err=%v]. *)
Definition boot_report (st : result derror SandboxState) : string :=
  match st with
  | Ok s => "state=" +:+ state_String s +:+ " err=<nil>"
  | Err e => "state=" +:+ state_String STATE_UNSPECIFIED +:+ " err=" +:+ text e
  end.

(** [case <-client.Done()] of a select with a default. *)
Definition client_gone (c : Client) : kprog bool :=
  match cl_handle c with
  | Some h => if h_conn h then KOp (DoneWithin (h_pid h) 0) KRet else KRet true
  | None => KRet false
  end.

(** The polls of [run]; [None]: the fuel ran out. *)
Fixpoint boot_loop (fuel : nat) (c : Client) (deadline : Z) : kprog (option (option derror)) :=
  match fuel with
  | O => KRet None
  | S n =>
      (st <-k client_State quote c ;;
       if match st with Ok s => bool_decide (s = STATE_RUNNING) | Err _ => false end
       then KRet (Some None)
       else
         gone <-k client_gone c ;;
         if (gone : bool)
         then KRet (Some (Some (DNew ("VM exited while booting, see " +:+ Join (cl_Dir c) "firecracker.log"))))
         else
           now <-op TimeNow ;;
           if deadline <? now
           then KRet (Some (Some (DNew ("VM not running after 30s: " +:+ boot_report st))))
           else
             _ <-op Sleep bootPoll ;;
             boot_loop n c deadline)%kprog
  end.

(** Thirty seconds of polling at a hundred milliseconds, and a round after the deadline. *)
Definition boot_fuel : nat := 302.

(** The deferred function. *)
Definition smoke_cleanup (p : Pool) (sandboxID : string) (c : Client) : kprog unit :=
  (_ <-k client_Stop c ;;
   _ <-k RemoveVolume quote p sandboxID ;;
   _ <-op RemoveAll (cl_Dir c) ;;
   KRet tt)%kprog.

(** From the volume on: the error, and the client the deferred function sees. *)
Definition smoke_boot (p : Pool) (sandboxID kernel : string) (c : Client)
    : kprog (option (option derror * Client)) :=
  (r <-k CreateVolume quote Major Minor Mkdev p sandboxID ;;
   match r with
   | Err e => KRet (Some (Some (DWrap "CreateVolume: " e), c))
   | Ok rootDrive =>
       s <-f client_Spawn quote json_string c
               (mkSpawnRequest (envOr Getenv "FIRE2_SHIM_PATH" "/opt/fire2/fire2-shim")
                  (envOr Getenv "FIRECRACKER_BIN" "/usr/local/bin/firecracker") kernel rootDrive
                  1 256 "console=ttyS0 reboot=k panic=1 pci=off") ;;
       match s.1 with
       | Some e => KRet (Some (Some (DWrap "Spawn: " e), s.2))
       | None =>
           now <-op TimeNow ;;
           w <-f boot_loop boot_fuel s.2 (now + bootTimeout) ;;
           KRet (Some (w, s.2))
       end
   end)%kprog.

(** [run] after the pool, for an ID. *)
Definition smoke_vm (p : Pool) (sandboxID kernel : string) : kprog (option (option derror)) :=
  (r <-k NewClient quote uuid_Parse Getenv sandboxID ;;
   match r with
   | Err e => KRet (Some (Some (DWrap "NewClient: " e)))
   | Ok c =>
       b <-f smoke_boot p sandboxID kernel c ;;
       _ <-k smoke_cleanup p sandboxID b.2 ;;
       KRet (Some b.1)
   end)%kprog.

Definition smoke_run (newString : string) : kprog (option (option derror)) :=
  let imageDir := Getenv "FIRECRACKER_IMAGE_DIR" in
  if bool_decide (imageDir = EmptyString)
  then KRet (Some (Some (DNew "FIRECRACKER_IMAGE_DIR is not set")))
  else
    let kernelPath := Join imageDir "vmlinux" in
    let rootfsPath := Join imageDir "rootfs.ext4" in
    (s <-k stat_all [kernelPath; rootfsPath] ;;
     match s with
     | Some e => KRet (Some (Some e))
     | None =>
         let sandboxID := "smoke-" +:+ newString in
         r <-k LoadPool quote (envOr Getenv "FIRE2_THINPOOL_CONF" DefaultConfPath) ;;
         match r with
         | Err e => KRet (Some (Some (DWrap "LoadPool: " e)))
         | Ok p => smoke_vm p sandboxID kernelPath
         end
     end)%kprog.

(** [log.Fatalf] exits with status 1. *)
Definition smoke_main (newString : string) : kprog (option Z) :=
  (err <-f smoke_run newString ;;
   KRet (Some (match err with Some _ => 1 | None => 0 end)))%kprog.

(** ** What it does *)

(** Operations that change nothing. *)
Definition looks (X : Type) (o : hop X) : Prop :=
  match o with Stat _ | ReadFile _ => True | _ => False end.

Lemma stat_all_looks paths : kwp looks (stat_all paths) (fun _ => True).
Proof. induction paths as [|p paths IH]; cbn; [done|]. split; [done|]. by intros [?|?] _. Qed.

(** An ID of the smoke test is no sandbox ID, whatever uuid.Parse accepts: it is six bytes
    too long. *)
Lemma smoke_id_invalid newString :
  String.length newString = 36%nat -> IsSandboxID uuid_Parse ("smoke-" +:+ newString) = false.
Proof.
  intros H. unfold IsSandboxID. rewrite andb_comm, <- length_to_bytes, to_bytes_app, length_app, !length_to_bytes, H. done.
Qed.

(** C40: the smoke test fails on every host, a healthy one included.  Whatever the machine,
    its settings and uuid.Parse answer, NewClient refuses the ID smoke-<uuid> (a UUID is 36
    bytes), and the command ends with status 1 having looked at files only: no directory,
    volume or VM was made. *)
Theorem smoke_never_passes newString :
  String.length newString = 36%nat -> kwp looks (smoke_main newString) (fun r => r = Some 1).
Proof.
  intros H. unfold smoke_main. apply kwp_bind.
  enough (kwp looks (smoke_run newString) (fun r => exists e, r = Some (Some e))) as HK.
  { eapply kwp_mono; [|exact HK]. by intros r [e ->]. }
  unfold smoke_run. case_bool_decide; [cbn; eauto|]. apply kwp_bind.
  eapply kwp_mono; [|apply stat_all_looks]. intros [e|] _; [cbn; eauto|]. apply kwp_bind.
  eapply kwp_mono; [|eapply kwp_weaken, (LoadPool_ok quote)].
  - intros [p|e] _; [|cbn; eauto]. unfold smoke_vm, NewClient, CheckSandboxID. rewrite smoke_id_invalid by done. cbn. eauto.
  - by intros X [] ?.
Qed.

Definition anything (X : Type) (o : hop X) : Prop := True.

Lemma kwp_anything {A} (p : kprog A) : kwp anything p (fun _ => True).
Proof. induction p; cbn; [done|]. split; [done|]. auto. Qed.

Lemma client_Spawn_dir c req :
  kwp anything (client_Spawn quote json_string c req) (fun r => forall b, r = Some b -> cl_Dir b.2 = cl_Dir c).
Proof.
  unfold client_Spawn. destruct (cl_handle c); [by intros b [= <-]|]. case_bool_decide; [by intros b [= <-]|].
  apply kwp_bind. cbn [kwp writeVMConfig]. split; [done|]. intros [e|] _; [by intros b [= <-]|]. cbn [kwp]. apply kwp_bind.
  eapply kwp_mono; [|apply kwp_anything]. intros [[h|e]|] _; cbn; [by intros b [= <-]..|done].
Qed.

Lemma smoke_boot_dir p sandboxID kernel c :
  kwp anything (smoke_boot p sandboxID kernel c) (fun r => forall b, r = Some b -> cl_Dir b.2 = cl_Dir c).
Proof.
  unfold smoke_boot. apply kwp_bind. eapply kwp_mono; [|apply kwp_anything]. intros [rootDrive|e] _; [|by intros b [= <-]].
  apply kwp_bind. eapply kwp_mono; [|apply client_Spawn_dir]. intros [[[e|] c']|] Hd; [by intros b [= <-]; apply (Hd _ eq_refl)| |done].
  cbn [kwp fst snd]. split; [done|]. intros now _. apply kwp_bind. eapply kwp_mono; [|apply kwp_anything].
  intros [w|] _; [|done]. intros b [= <-]. apply (Hd _ eq_refl).
Qed.

(** A directory that was made. *)
Definition made (ev : event) : bool :=
  match ev with
  | @Ev X o x => match o in hop Y return Y -> bool with
                 | MkdirAll _ => fun r => match r with None => true | Some _ => false end
                 | _ => fun _ => false
                 end x
  end.

(** With an ID the runtime accepts it cleans up after itself: once the directory is made,
    every way out ends by removing it. *)
Lemma smoke_self_cleaning p sandboxID kernel dir :
  dir = Join (SandboxBaseDir Getenv) sandboxID ->
  hwp anyop [] (smoke_vm p sandboxID kernel) (fun h r =>
    forall err, r = Some err -> Ev (MkdirAll dir) None ∈ h -> exists x h', h = Ev (RemoveAll dir) x :: h').
Proof.
  intros ->. unfold smoke_vm, NewClient. destruct (CheckSandboxID _ _ _); [by intros ? _ ?%not_elem_of_nil|].
  cbn [kbind hwp]. split; [done|]. intros [e|] _.
  { cbn. intros err _ [H|[]%not_elem_of_nil]%elem_of_cons. by apply (f_equal made) in H. }
  apply hwp_bind. eapply hwp_mono; [|apply (kwp_hwp _ _ _ _ (smoke_boot_dir _ _ _ _))]. cbn.
  intros h [[err c]|] [Hd _]; [|done]. apply hwp_bind. unfold smoke_cleanup.
  apply hwp_bind. eapply hwp_mono; [|apply hwp_any]. intros h1 _ _.
  apply hwp_bind. eapply hwp_mono; [|apply hwp_any]. intros h2 _ _. cbn. split; [done|].
  intros x _ err' _ _. specialize (Hd _ eq_refl). cbn in Hd. rewrite Hd. by do 2 eexists.
Qed.

End Smoke.

(** ** It ends *)
Section Termination.

Context {W : Type} (answer : forall X, hop X -> W -> X * W) (clock : W -> Z).
Context `{!Clocked W answer clock}.
Context (quote : string -> string) (text : derror -> string) (state_String : SandboxState -> string).

Lemma krun_mono {A} (p : kprog A) w : clock w <= clock (krun answer p w).2.
Proof using Clocked0.
  revert w. induction p as [a|X o k IH]; intros w; cbn; [lia|]. pose proof (clock_mono X o w) as H.
  destruct (answer X o w) as [x w']. cbn in H. specialize (IH x w'). lia.
Qed.

(** A round returns, or the deadline is not over and a poll passes. *)
Lemma boot_round n c deadline w :
  (exists r w', krun answer (boot_loop quote text state_String (S n) c deadline) w = (Some r, w'))
  \/ exists w', krun answer (boot_loop quote text state_String (S n) c deadline) w
                 = krun answer (boot_loop quote text state_String n c deadline) w'
               /\ clock w <= deadline /\ clock w + bootPoll <= clock w'.
Proof using Clocked0.
  cbn [boot_loop]. rewrite krun_bind. pose proof (krun_mono (client_State quote c) w) as H1.
  destruct (krun answer (client_State quote c) w) as [st w1]. cbn [snd] in *.
  match goal with |- context [if ?b then _ else _] => destruct b; [left; by do 2 eexists|] end.
  rewrite krun_bind. pose proof (krun_mono (client_gone c) w1) as H2.
  destruct (krun answer (client_gone c) w1) as [[] w2]; cbn [snd] in *; [left; by do 2 eexists|].
  cbn [krun]. pose proof (clock_now w2) as H3. destruct (answer _ TimeNow w2) as [now w3]; cbn [fst snd] in *.
  destruct (Z.ltb_spec deadline now); [left; by do 2 eexists|].
  right. cbn [krun]. pose proof (clock_sleep bootPoll w3) as H5.
  destruct (answer _ (Sleep bootPoll) w3) as [[] w4]. cbn [snd] in *. exists w4. split; [done|]. lia.
Qed.

Lemma boot_loop_ends n c deadline w :
  deadline < clock w + Z.of_nat n * bootPoll ->
  exists r w', krun answer (boot_loop quote text state_String (S n) c deadline) w = (Some r, w').
Proof using Clocked0.
  revert w. induction n as [|n IH]; intros w Hd.
  - destruct (boot_round 0 c deadline w) as [?|(w' & -> & ? & ?)]; [done|lia].
  - destruct (boot_round (S n) c deadline w) as [?|(w' & -> & ? & ?)]; [done|]. apply IH. lia.
Qed.

Context (uuid_Parse : string -> bool) (Getenv json_string : string -> string).
Context (Major Minor : Z -> Z) (Mkdev : Z -> Z -> Z).

(** With any ID, on a host with a clock, the test ends: its VM runs, or it reports why not. *)
Lemma smoke_vm_ends p sandboxID kernel w :
  is_Some (krun answer (smoke_vm quote text uuid_Parse Getenv json_string Major Minor Mkdev state_String p sandboxID kernel) w).1.
Proof using Clocked0.
  unfold smoke_vm. rewrite krun_bind. destruct (krun answer (NewClient _ _ _ _) w) as [[c|e] w1]; [|done].
  rewrite krun_bind.
  enough (exists b w2, krun answer (smoke_boot quote text Getenv json_string Major Minor Mkdev state_String p sandboxID kernel c) w1 = (Some b, w2)) as (b & w2 & ->).
  { rewrite krun_bind. by destruct (krun answer (smoke_cleanup _ _ _ _) w2). }
  unfold smoke_boot. rewrite krun_bind. destruct (krun answer (CreateVolume _ _ _ _ _ _) w1) as [[d|e] w2]; [|by do 2 eexists].
  rewrite krun_bind. match goal with |- context [client_Spawn _ _ ?c ?r] => destruct (client_Spawn_ends answer clock quote json_string c r w2) as ([[e|] c'] & w3 & ->) end; [by do 2 eexists|].
  cbn [krun fst snd]. pose proof (clock_now w3) as H. destruct (answer _ TimeNow w3) as [now w4]. cbn [fst snd] in H.
  change boot_fuel with 302%nat. rewrite krun_bind. edestruct (boot_loop_ends 301 c' (now + bootTimeout) w4) as (r & w5 & ->); [unfold bootTimeout, bootPoll; lia|].
  by do 2 eexists.
Qed.

End Termination.

(** A fresh UUID, on a host with its images and a thin pool. *)
Definition smoke_host (X : Type) (o : hop X) (w : Z) : X * Z :=
  match o in hop Y return Y * Z with
  | Stat _ => (Ok (0, 0), w)
  | ReadFile _ => (Ok "POOL_NAME=p
POOL_DIR=/d
FIRST_SANDBOX_ID=1000
"%string, w)
  | o => empty_machine _ o w
  end.

Lemma smoke_never_passes_witness :
  let program A (main : (string -> string) -> (derror -> string) -> (string -> bool) -> (string -> string)
      -> (string -> string) -> (Z -> Z) -> (Z -> Z) -> (Z -> Z -> Z) -> (SandboxState -> string) -> string -> A) :=
    main (fun s => s) (fun _ => EmptyString) (fun _ => true) (fun _ => "/img"%string) (fun s => s)
      (fun n => n) (fun n => n) (fun a _ => a) (fun _ => EmptyString) "6f1c2a52-58a4-4f4e-9a5f-0d1d2f6b7c01"%string in
  kwp looks (program _ smoke_main) (fun r => r = Some 1)
  /\ (krun smoke_host (program _ smoke_run) 0).1
     = Some (Some (DWrap "NewClient: " (DGo (WrapSuf (Sentinel Runtime_ErrInvalidSandboxID)
         ": smoke-6f1c2a52-58a4-4f4e-9a5f-0d1d2f6b7c01")))).
Proof.
  intros program. split; [|vm_compute; reflexivity]. apply smoke_never_passes. reflexivity.
Defined.
